(** * Moniezi receipt OCR: field extraction, classification and learning store

    A shallow embedding of the receipt pipeline of the Moniezi app and the
    properties its specification states about it.  The repository holds
    several generations of the same engine, each embedded in a module of
    its own:

    - [V1]     services/offlineOCR.ts   (the first offline engine)
    - [V2]     unnamed/part_001         (offline engine v2, on the native bridge)
    - [Native] services/nativeOCR.ts    (the native OCR bridge, [scanReceipt])
    - [V3]     unnamed/part_000         (offline engine v3)

    JavaScript strings are sequences of UTF-16 code units and are modelled
    as [list N]; regular expressions are interpreted by a backtracking
    matcher with the priorities of the ECMAScript one; numbers are
    rationals, with the rounding to binary64 left to the [Runtime]. *)

From Stdlib Require Import Ascii String DecimalString.
From Stdlib Require Import List NArith ZArith QArith Bool Lia Lqa.
From Stdlib Require Import Sorting.Sorted Sorting.Permutation.
Import ListNotations.

Set Implicit Arguments.

(* ================================================================== *)
(** * JavaScript strings                                               *)
(* ================================================================== *)

Module JS.

(** A string is its sequence of UTF-16 code units. *)
Definition jsstring := list N.

(** String literals of this file are written in UTF-8; [utf16] decodes
    the bytes of a literal into code units (a code point above the BMP
    becomes a surrogate pair). *)
Fixpoint utf16 (bs : list N) : jsstring :=
  match bs with
  | [] => []
  | b0 :: t0 =>
    if (b0 <? 0x80)%N then b0 :: utf16 t0
    else if (b0 <? 0xE0)%N then
      match t0 with
      | b1 :: t1 =>
        N.lor (N.shiftl (N.land b0 0x1F) 6) (N.land b1 0x3F) :: utf16 t1
      | [] => [0xFFFD%N]
      end
    else if (b0 <? 0xF0)%N then
      match t0 with
      | b1 :: b2 :: t2 =>
        N.lor (N.shiftl (N.land b0 0x0F) 12)
              (N.lor (N.shiftl (N.land b1 0x3F) 6) (N.land b2 0x3F)) :: utf16 t2
      | _ => [0xFFFD%N]
      end
    else
      match t0 with
      | b1 :: b2 :: b3 :: t3 =>
        let cp := N.lor (N.shiftl (N.land b0 0x07) 18)
                 (N.lor (N.shiftl (N.land b1 0x3F) 12)
                 (N.lor (N.shiftl (N.land b2 0x3F) 6) (N.land b3 0x3F))) in
        let v := (cp - 0x10000)%N in
        (0xD800 + N.shiftr v 10)%N :: (0xDC00 + N.land v 0x3FF)%N :: utf16 t3
      | _ => [0xFFFD%N]
      end
  end.

Definition bytes (s : string) : list N :=
  List.map N_of_ascii (list_ascii_of_string s).

(** [u "text"] is the JavaScript string written ["text"] in the source. *)
Definition u (s : string) : jsstring := utf16 (bytes s).

(** The code unit of an ASCII character. *)
Definition c (a : ascii) : N := N_of_ascii a.

Definition eqb (s t : jsstring) : bool :=
  if list_eq_dec N.eq_dec s t then true else false.

Fixpoint startsWith (s p : jsstring) : bool :=
  match p, s with
  | [], _ => true
  | _ :: _, [] => false
  | y :: p', x :: s' => (x =? y)%N && startsWith s' p'
  end.

(** [s.includes(p)] *)
Fixpoint includes (s p : jsstring) : bool :=
  startsWith s p ||
  match s with
  | [] => false
  | _ :: s' => includes s' p
  end.

(** [s.includes(ch)] for a one-character string. *)
Definition includesChar (s : jsstring) (ch : N) : bool :=
  existsb (N.eqb ch) s.

(** [s.lastIndexOf(ch)], -1 when [ch] does not occur. *)
Fixpoint lastIndexFrom (i : Z) (ch : N) (s : jsstring) (last : Z) : Z :=
  match s with
  | [] => last
  | x :: s' => lastIndexFrom (i + 1) ch s' (if (x =? ch)%N then i else last)
  end.

Definition lastIndexOf (s : jsstring) (ch : N) : Z :=
  lastIndexFrom 0 ch s (-1).

(** [s.split(ch)] on a one-character separator: never the empty list. *)
Fixpoint split (ch : N) (s : jsstring) : list jsstring :=
  match s with
  | [] => [[]]
  | x :: s' =>
    if (x =? ch)%N then [] :: split ch s'
    else match split ch s' with
         | [] => [[x]]
         | p :: ps => (x :: p) :: ps
         end
  end.

(** [s.replace(/ch/g, '')] *)
Definition removeAll (ch : N) (s : jsstring) : jsstring :=
  filter (fun x => negb (x =? ch)%N) s.

(** [s.replace(ch, by)] with string arguments: the first occurrence only. *)
Fixpoint replaceFirst (ch by_ : N) (s : jsstring) : jsstring :=
  match s with
  | [] => []
  | x :: s' => if (x =? ch)%N then by_ :: s' else x :: replaceFirst ch by_ s'
  end.

(** The characters of the class [\s], which are also those that
    [trim] strips: WhiteSpace and LineTerminator of ECMAScript. *)
Definition isSpace (x : N) : bool :=
  ((9 <=? x) && (x <=? 13) || (x =? 32) || (x =? 0xA0) || (x =? 0x1680)
   || (0x2000 <=? x) && (x <=? 0x200A) || (x =? 0x2028) || (x =? 0x2029)
   || (x =? 0x202F) || (x =? 0x205F) || (x =? 0x3000) || (x =? 0xFEFF))%N.

Definition isDigit (x : N) : bool := ((48 <=? x) && (x <=? 57))%N.
Definition isUpper (x : N) : bool := ((65 <=? x) && (x <=? 90))%N.
Definition isLower (x : N) : bool := ((97 <=? x) && (x <=? 122))%N.
Definition isLetter (x : N) : bool := isUpper x || isLower x.

(** The class [\w]. *)
Definition isWord (x : N) : bool := isLetter x || isDigit x || (x =? 95)%N.

Fixpoint trimStart (s : jsstring) : jsstring :=
  match s with
  | x :: s' => if isSpace x then trimStart s' else s
  | [] => []
  end.

Definition trimEnd (s : jsstring) : jsstring := rev (trimStart (rev s)).

(** [s.trim()] *)
Definition trim (s : jsstring) : jsstring := trimEnd (trimStart s).

(** [s.replace(/\s/g, '')] *)
Definition removeSpaces (s : jsstring) : jsstring :=
  filter (fun x => negb (isSpace x)) s.

(** The order of [<] and [<=] on strings: lexicographic on code units. *)
Fixpoint leb (s t : jsstring) : bool :=
  match s, t with
  | [], _ => true
  | _ :: _, [] => false
  | x :: s', y :: t' => (x <? y)%N || ((x =? y)%N && leb s' t')
  end.

(** [toLowerCase] restricted to ASCII letters.  The full Unicode mapping
    belongs to the [Runtime]; on ASCII text the two agree. *)
Definition asciiLower (x : N) : N := if isUpper x then (x + 32)%N else x.
Definition asciiUpper (x : N) : N := if isLower x then (x - 32)%N else x.
Definition asciiLowerCase (s : jsstring) : jsstring := List.map asciiLower s.

(** [n.toString()] for a non-negative integer. *)
Definition ofN (n : N) : jsstring :=
  bytes (NilEmpty.string_of_uint (N.to_uint n)).

Definition ofZ (z : Z) : jsstring :=
  if (z <? 0)%Z then c "-" :: ofN (Z.to_N (- z)) else ofN (Z.to_N z).

(** [s.padStart(2, '0')] *)
Definition padStart2 (s : jsstring) : jsstring :=
  match s with
  | [] => [c "0"; c "0"]
  | [x] => [c "0"; x]
  | _ => s
  end.

End JS.

Import JS.

(* ================================================================== *)
(** * Regular expressions                                              *)
(* ================================================================== *)

Module Regex.

(** The syntax of the patterns the engines use.  A character class is
    its membership test on code units. *)
Inductive re : Type :=
| Eps                          (* the empty pattern *)
| Chr (p : N -> bool)          (* one character of a class *)
| Seq (r1 r2 : re)             (* r1 r2 *)
| Alt (r1 r2 : re)             (* r1|r2 *)
| Star (r : re)                (* r*, greedy *)
| Group (i : nat) (r : re)     (* the i-th capturing group *)
| Bol                          (* ^ *)
| Eol                          (* $ *)
| WordB                        (* \b *)
| NotAhead (r : re).           (* (?!r) *)

(** The position of the matcher: the character before it, if any, and
    the input that is left. *)
Record cursor : Type := Cursor { before : option N; rest : jsstring }.

(** The captures: group number and captured text. *)
Definition captures := list (nat * jsstring).

Definition isWordAt (x : option N) : bool :=
  match x with
  | Some ch => isWord ch
  | None => false
  end.

Definition consumed (c c' : cursor) : jsstring :=
  firstn (length (rest c) - length (rest c')) (rest c).

(** The backtracking matcher in continuation-passing style: [k] is the
    rest of the pattern; the first alternative that lets [k] succeed
    wins, as in 22.2.2 of ECMA-262.  An iteration of [Star] that
    consumes nothing is rejected, as RepeatMatcher does. *)
Fixpoint run (A : Type) (r : re) (c : cursor) (g : captures)
         (k : cursor -> captures -> option A) {struct r} : option A :=
  match r with
  | Eps => k c g
  | Chr p =>
    match rest c with
    | x :: t => if p x then k (Cursor (Some x) t) g else None
    | [] => None
    end
  | Seq r1 r2 => run r1 c g (fun c' g' => run r2 c' g' k)
  | Alt r1 r2 =>
    match run r1 c g k with
    | Some v => Some v
    | None => run r2 c g k
    end
  | Star r1 =>
    (fix loop (n : nat) (c0 : cursor) (g0 : captures) {struct n} : option A :=
       match n with
       | O => k c0 g0
       | S n' =>
         match run r1 c0 g0
                   (fun c' g' =>
                      if (length (rest c') <? length (rest c0))%nat
                      then loop n' c' g' else None) with
         | Some v => Some v
         | None => k c0 g0
         end
       end) (length (rest c)) c g
  | Group i r1 =>
    run r1 c g (fun c' g' => k c' ((i, consumed c c') :: g'))
  | Bol => match before c with None => k c g | Some _ => None end
  | Eol => match rest c with [] => k c g | _ :: _ => None end
  | WordB =>
    if xorb (isWordAt (before c)) (isWordAt (hd_error (rest c)))
    then k c g else None
  | NotAhead r1 =>
    match run r1 c g (fun _ _ => Some tt) with
    | Some _ => None
    | None => k c g
    end
  end.

(** A match: the matched text [match[0]], the captures, and the
    position after it. *)
Record result : Type :=
  Result { matched : jsstring; groups : captures; next : cursor }.

(** [match[i]], the empty string standing for a group that did not
    take part (none of the patterns below reads such a group). *)
Fixpoint group (i : nat) (g : captures) : jsstring :=
  match g with
  | [] => []
  | (j, s) :: g' => if Nat.eqb i j then s else group i g'
  end.

Definition matchAt (r : re) (c : cursor) : option result :=
  run r c [] (fun c' g' => Some (Result (consumed c c') g' c')).

(** The leftmost match at or after the cursor. *)
Fixpoint searchFrom (r : re) (prev : option N) (s : jsstring) : option result :=
  match matchAt r (Cursor prev s) with
  | Some m => Some m
  | None =>
    match s with
    | [] => None
    | x :: s' => searchFrom r (Some x) s'
    end
  end.

(** [s.match(r)] and [r.exec(s)] for a pattern without the [g] flag. *)
Definition search (r : re) (s : jsstring) : option result :=
  searchFrom r None s.

(** [r.test(s)] *)
Definition test (r : re) (s : jsstring) : bool :=
  match search r s with Some _ => true | None => false end.

(** The matches that [while ((m = r.exec(s)) !== null)] visits for a
    pattern with the [g] flag, which are also those of [s.match(r)]:
    each search starts where the last match ended.  After an empty
    match the two loops of JavaScript differ (the first never ends),
    and the model stops there; the patterns of the engines are
    [consuming], and for those no match is empty and the fuel is never
    used up ([execLoop_nonempty], [execLoop_fuel]). *)
Fixpoint execLoop (fuel : nat) (r : re) (prev : option N) (s : jsstring)
  : list result :=
  match fuel with
  | O => []
  | S fuel' =>
    match searchFrom r prev s with
    | None => []
    | Some m =>
      match matched m with
      | [] => [m]
      | _ :: _ => m :: execLoop fuel' r (before (next m)) (rest (next m))
      end
    end
  end.

Definition execAll (r : re) (s : jsstring) : list result :=
  execLoop (S (length s)) r None s.

(** A pattern whose every match consumes a character: the loops over
    the matches of such a pattern never see an empty match. *)
Fixpoint consuming (r : re) : bool :=
  match r with
  | Chr _ => true
  | Seq r1 r2 => consuming r1 || consuming r2
  | Alt r1 r2 => consuming r1 && consuming r2
  | Group _ r1 => consuming r1
  | Eps | Star _ | Bol | Eol | WordB | NotAhead _ => false
  end.

(** ** The notations of the pattern language *)

Definition oneOf (l : list N) : re := Chr (fun x => existsb (N.eqb x) l).
Definition chr (a : ascii) : re := Chr (N.eqb (c a)).
Definition digit : re := Chr isDigit.          (* \d *)
Definition space : re := Chr isSpace.          (* \s *)
Definition opt (r : re) : re := Alt r Eps.     (* r? *)
Definition plus (r : re) : re := Seq r (Star r). (* r+ *)

Fixpoint times (n : nat) (r : re) : re :=      (* r{n} *)
  match n with
  | O => Eps
  | S n' => Seq r (times n' r)
  end.

Fixpoint upto (n : nat) (r : re) : re :=       (* r{0,n} *)
  match n with
  | O => Eps
  | S n' => opt (Seq r (upto n' r))
  end.

Definition rep (lo hi : nat) (r : re) : re :=  (* r{lo,hi} *)
  Seq (times lo r) (upto (hi - lo) r).

Fixpoint seqs (l : list re) : re :=
  match l with
  | [] => Eps
  | [r] => r
  | r :: l' => Seq r (seqs l')
  end.

Fixpoint alts (l : list re) : re :=
  match l with
  | [] => NotAhead Eps
  | [r] => r
  | r :: l' => Alt r (alts l')
  end.

(** A literal word, character by character. *)
Definition lit (s : string) : re := seqs (List.map (fun x => Chr (N.eqb x)) (u s)).

(** The [i] flag on a pattern whose classes hold ASCII characters only:
    a character matches when its ASCII lower- or upper-case form does
    (Canonicalize never maps a code unit above 127 to one below). *)
Fixpoint ignoreCase (r : re) : re :=
  match r with
  | Chr p => Chr (fun x => p (asciiLower x) || p (asciiUpper x))
  | Seq r1 r2 => Seq (ignoreCase r1) (ignoreCase r2)
  | Alt r1 r2 => Alt (ignoreCase r1) (ignoreCase r2)
  | Star r1 => Star (ignoreCase r1)
  | Group i r1 => Group i (ignoreCase r1)
  | NotAhead r1 => NotAhead (ignoreCase r1)
  | Eps | Bol | Eol | WordB => r
  end.

End Regex.

Import Regex.

(* ================================================================== *)
(** * Numbers, arrays and the runtime                                  *)
(* ================================================================== *)

(** What the engines take from the JavaScript runtime and this file does
    not define: the Unicode case mapping of [toLowerCase], and the
    rounding of a decimal value to the nearest binary64 number. *)
Class Runtime : Type := {
  toLowerCase : jsstring -> jsstring;
  binary64 : Q -> Q
}.

(** The runtime that evaluates the examples: ASCII case mapping and no
    rounding.  On ASCII text whose amounts have few digits the engines
    compute the same comparisons under it as under JavaScript. *)
Definition asciiRuntime : Runtime :=
  {| toLowerCase := asciiLowerCase; binary64 := fun q => q |}.

Module Num.

(** A number that is not [NaN] is a rational of type [Q]; where a number
    may be [NaN], [None] stands for it. *)

Definition ltb (a b : Q) : bool := negb (Qle_bool b a).

Fixpoint span (p : N -> bool) (s : jsstring) : jsstring * jsstring :=
  match s with
  | x :: s' =>
    if p x then let (a, b) := span p s' in (x :: a, b) else ([], s)
  | [] => ([], [])
  end.

(** The value of a digit sequence. *)
Definition decimal (ds : jsstring) : Z :=
  fold_left (fun n x => (10 * n + (Z.of_N x - 48))%Z) ds 0%Z.

Section Parse.
Context {rt : Runtime}.

(** [parseFloat] on the strings the engines pass to it, which hold
    digits, ['.'] and [','] only: the longest prefix of the form
    digits, or digits[.]digits, is read and rounded; without a digit
    the result is [NaN]. *)
Definition parseFloat (s : jsstring) : option Q :=
  let (ip, r1) := span isDigit s in
  let fp := match r1 with
            | x :: r2 => if (x =? c ".")%N then fst (span isDigit r2) else []
            | [] => []
            end in
  match ip ++ fp with
  | [] => None
  | ds => Some (binary64 (decimal ds # Z.to_pos (10 ^ Z.of_nat (length fp))))
  end.

End Parse.

(** [parseInt] on a capture of a date pattern (digits, or a month
    name): the leading digits, or [NaN]. *)
Definition parseInt (s : jsstring) : option Z :=
  match fst (span isDigit s) with
  | [] => None
  | ds => Some (decimal ds)
  end.

(** [Math.max(...l)] of a non-empty array of numbers. *)
Definition maximum (x : Q) (l : list Q) : Q :=
  fold_left (fun m y => if ltb m y then y else m) l x.

End Num.

Import Num.

Module Arr.

Section Dedup.
Variable A : Type.
Variable same : A -> A -> bool.

(** [[...new Set(l)]]: the first occurrence of each value, in order. *)
Fixpoint dedupFrom (seen l : list A) : list A :=
  match l with
  | [] => []
  | x :: l' =>
    if existsb (same x) seen then dedupFrom seen l'
    else x :: dedupFrom (x :: seen) l'
  end.

Definition dedup (l : list A) : list A := dedupFrom [] l.
End Dedup.

Section Sort.
Variable A : Type.
(** [notAfter y x] reads [compare(y, x) <= 0] for the comparison
    function given to [sort]: [y] may stay before [x]. *)
Variable notAfter : A -> A -> bool.

Fixpoint insert (x : A) (l : list A) : list A :=
  match l with
  | [] => [x]
  | y :: l' => if notAfter y x then y :: insert x l' else x :: l
  end.

(** [l.sort(compare)]: the sort of ECMAScript is stable, so for a
    consistent comparison its result is that of insertion sort. *)
Definition sort (l : list A) : list A :=
  fold_left (fun acc x => insert x acc) l [].
End Sort.

End Arr.

Import Arr.

(* ================================================================== *)
(** * The learning store                                               *)
(* ================================================================== *)

Module Store.

(** What a call may throw. *)
Inductive exn : Type :=
| SecurityError | QuotaExceededError | SyntaxError | TypeError.

Inductive outcome (A : Type) : Type :=
| Ok (a : A)
| Throw (e : exn).
Arguments Ok {A} a.
Arguments Throw {A} e.

(** The key-value store behind [localStorage], in a state [S] of its
    own: every operation returns or throws, and leaves a new state. *)
Class Storage (S : Type) : Type := {
  getItem : jsstring -> S -> outcome (option jsstring) * S;
  setItem : jsstring -> jsstring -> S -> outcome unit * S;
  removeItem : jsstring -> S -> outcome unit * S
}.

(** A computation over the store. *)
Definition M (S A : Type) : Type := S -> outcome A * S.

Definition ret {S A : Type} (a : A) : M S A := fun s => (Ok a, s).

Definition bind {S A B : Type} (m : M S A) (f : A -> M S B) : M S B :=
  fun s =>
    match m s with
    | (Ok a, s') => f a s'
    | (Throw e, s') => (Throw e, s')
    end.

(** [try { m } catch (e) { h e }] *)
Definition tryCatch {S A : Type} (m : M S A) (h : exn -> M S A) : M S A :=
  fun s =>
    match m s with
    | (Ok a, s') => (Ok a, s')
    | (Throw e, s') => h e s'
    end.

(** [console.warn(...)]: the console is not part of the model. *)
Definition console_warn {S : Type} (e : exn) : M S unit := ret tt.

Record LearnedMerchant : Type := {
  name : jsstring;
  category : jsstring;
  timesUsed : Z;
  lastUsed : jsstring
}.

(** [JSON.parse] on a stored text, read at the type the engines give
    it ([LearnedMerchant[]]), and [JSON.stringify].  The texts of the
    model are those that [JSON.parse] rejects and those that it reads
    as an array of entries, which are the ones the engines write; a
    stored text that it reads as another value ([null], a number, an
    object) is outside of the model, and no statement below is about
    such a store. *)
Class Json : Type := {
  JSON_parse : jsstring -> outcome (list LearnedMerchant);
  JSON_stringify : list LearnedMerchant -> jsstring
}.

Definition LEARNED_MERCHANTS_KEY : jsstring := u "moniezi_learned_merchants".

Declare Scope store_scope.
Delimit Scope store_scope with store.
Notation "x <- m ;; k" := (bind m (fun x => k))
  (at level 61, m at next level, right associativity) : store_scope.

Section WithStore.
Context {S : Type} {ls : Storage S} {json : Json} {rt : Runtime}.
Local Open Scope store_scope.

(** getLearnedMerchants, the same in the three engines. *)
Definition getLearnedMerchants : M S (list LearnedMerchant) :=
  tryCatch
    (stored <- getItem LEARNED_MERCHANTS_KEY ;;
     match stored with
     | Some (x :: t) => fun s => (JSON_parse (x :: t), s)
     | Some [] | None => ret []
     end)
    (fun _ => ret []).

(** The array that saveLearnedMerchant builds between its read and
    its write.  [touch] is the [find] and the update of the entry
    found; [now] is [new Date().toISOString()]. *)
Fixpoint touch (normalized cat now : jsstring) (ms : list LearnedMerchant)
  : option (list LearnedMerchant) :=
  match ms with
  | [] => None
  | m :: ms' =>
    if JS.eqb (toLowerCase (name m)) normalized
    then Some ({| name := name m; category := cat;
                  timesUsed := timesUsed m + 1; lastUsed := now |} :: ms')
    else option_map (cons m) (touch normalized cat now ms')
  end.

Definition upsert (nm cat now : jsstring) (merchants : list LearnedMerchant)
  : list LearnedMerchant :=
  let normalized := trim (toLowerCase nm) in
  match touch normalized cat now merchants with
  | Some merchants' => merchants'
  | None =>
    merchants ++ [{| name := normalized; category := cat;
                     timesUsed := 1; lastUsed := now |}]
  end.

(** The comparison [(a, b) => b.timesUsed - a.timesUsed] is not above
    zero: [a] may stay before [b]. *)
Definition moreUsed (a b : LearnedMerchant) : bool :=
  (timesUsed b - timesUsed a <=? 0)%Z.

(** [merchants.sort((a, b) => b.timesUsed - a.timesUsed)] *)
Definition byUsage (ms : list LearnedMerchant) : list LearnedMerchant :=
  sort moreUsed ms.

Definition recorded (nm cat now : jsstring) (merchants : list LearnedMerchant)
  : list LearnedMerchant :=
  firstn 500 (byUsage (upsert nm cat now merchants)).

(** saveLearnedMerchant, the same in the three engines. *)
Definition saveLearnedMerchant (nm cat now : jsstring) : M S unit :=
  tryCatch
    (merchants <- getLearnedMerchants ;;
     setItem LEARNED_MERCHANTS_KEY
             (JSON_stringify (recorded nm cat now merchants)))
    (fun e => console_warn e).

End WithStore.

End Store.

Import Store.

(* ================================================================== *)
(** * Shared shapes                                                    *)
(* ================================================================== *)

Module Shape.

Record MerchantMapping : Type := Rule {
  patterns : list jsstring;
  mcategory : jsstring;
  displayName : jsstring
}.

Inductive confidence : Type := high | medium | low.

(** The result of suggestCategory: [{ category, confidence }]. *)
Record Suggestion : Type := {
  suggested : option jsstring;
  certainty : confidence
}.

(** [{ total, subtotal, tax }], [None] for [null]. *)
Record Totals : Type := {
  total : option Q;
  subtotal : option Q;
  tax : option Q
}.

End Shape.

Import Shape.

(** [`${year}-${month.toString().padStart(2, '0')}-${day.toString().padStart(2, '0')}`] *)
Definition isoDate (year month day : Z) : jsstring :=
  ofZ year ++ c "-" :: padStart2 (ofZ month) ++ c "-" :: padStart2 (ofZ day).

(** The validation of a parsed date, the same in every engine. *)
Definition validDate (year month day : Z) : bool :=
  ((1 <=? month) && (month <=? 12) && (1 <=? day) && (day <=? 31)
   && (2020 <=? year) && (year <=? 2030))%Z.

Definition monthMap : list (jsstring * Z) :=
  [(u "jan", 1); (u "feb", 2); (u "mar", 3); (u "apr", 4); (u "may", 5);
   (u "jun", 6); (u "jul", 7); (u "aug", 8); (u "sep", 9); (u "oct", 10);
   (u "nov", 11); (u "dec", 12)]%Z.

Fixpoint lookup (A : Type) (k : jsstring) (l : list (jsstring * A)) : option A :=
  match l with
  | [] => None
  | (k', v) :: l' => if JS.eqb k k' then Some v else lookup k l'
  end.

(** [jan|feb|...|dec] *)
Definition monthName : re :=
  alts (List.map lit ["jan"; "feb"; "mar"; "apr"; "may"; "jun";
                      "jul"; "aug"; "sep"; "oct"; "nov"; "dec"]%string).

(** The array of numbers, unique and in descending order:
    [[...new Set(amounts)].sort((a, b) => b - a)]. *)
Definition uniqueDescending (amounts : list Q) : list Q :=
  sort (fun a b => Qle_bool (b - a) 0) (dedup Qeq_bool amounts).

(** [x === null] *)
Definition isNull (A : Type) (x : option A) : bool :=
  match x with
  | None => true
  | Some _ => false
  end.

(** [x || y] on numbers, [None] for [undefined] and [null]. *)
Definition orElse (x : option Q) (y : Q) : Q :=
  match x with
  | Some v => if Qeq_bool v 0 then y else v
  | None => y
  end.

(* ================================================================== *)
(** * Engine v3 (unnamed/part_000)                                     *)
(* ================================================================== *)

Module V3.

Definition BUILT_IN_MERCHANTS : list MerchantMapping :=
  [
    Rule [u "spar"; u "eurospar"; u "interspar"; u "spar albania";
        u "spar express"] (u "Office Supplies") (u "SPAR");
    Rule [u "lidl"; u "lidl stiftung"] (u "Office Supplies") (u "Lidl");
    Rule [u "aldi"; u "aldi nord"; u "aldi sud"; u "aldi süd"] (u "Office Supplies") (u "Aldi");
    Rule [u "kaufland"] (u "Office Supplies") (u "Kaufland");
    Rule [u "rewe"; u "rewe city"; u "rewe center"] (u "Office Supplies") (u "REWE");
    Rule [u "edeka"; u "e center"; u "marktkauf"] (u "Office Supplies") (u "Edeka");
    Rule [u "penny"; u "penny markt"; u "penny market"] (u "Office Supplies") (u "Penny");
    Rule [u "netto"; u "netto marken"] (u "Office Supplies") (u "Netto");
    Rule [u "dm"; u "dm drogerie"; u "dm-drogerie"] (u "Office Supplies") (u "dm");
    Rule [u "rossmann"] (u "Office Supplies") (u "Rossmann");
    Rule [u "muller"; u "müller"; u "mueller"] (u "Office Supplies") (u "Müller");
    Rule [u "billa"; u "billa plus"] (u "Office Supplies") (u "Billa");
    Rule [u "hofer"] (u "Office Supplies") (u "Hofer");
    Rule [u "mercator"] (u "Office Supplies") (u "Mercator");
    Rule [u "konzum"] (u "Office Supplies") (u "Konzum");
    Rule [u "carrefour"; u "carrefour express"; u "carrefour market"] (u "Office Supplies") (u "Carrefour");
    Rule [u "tesco"; u "tesco express"; u "tesco metro"] (u "Office Supplies") (u "Tesco");
    Rule [u "sainsbury"; u "sainsbury's"] (u "Office Supplies") (u "Sainsbury's");
    Rule [u "asda"] (u "Office Supplies") (u "ASDA");
    Rule [u "morrisons"] (u "Office Supplies") (u "Morrisons");
    Rule [u "waitrose"] (u "Office Supplies") (u "Waitrose");
    Rule [u "migros"] (u "Office Supplies") (u "Migros");
    Rule [u "coop"; u "coop city"; u "coop pronto"] (u "Office Supplies") (u "Coop");
    Rule [u "denner"] (u "Office Supplies") (u "Denner");
    Rule [u "albert heijn"; u "ah"; u "albert"] (u "Office Supplies") (u "Albert Heijn");
    Rule [u "jumbo"] (u "Office Supplies") (u "Jumbo");
    Rule [u "delhaize"; u "ad delhaize"] (u "Office Supplies") (u "Delhaize");
    Rule [u "colruyt"] (u "Office Supplies") (u "Colruyt");
    Rule [u "auchan"] (u "Office Supplies") (u "Auchan");
    Rule [u "leclerc"; u "e.leclerc"] (u "Office Supplies") (u "E.Leclerc");
    Rule [u "intermarche"; u "intermarch"] (u "Office Supplies") (u "Intermarché");
    Rule [u "monoprix"] (u "Office Supplies") (u "Monoprix");
    Rule [u "mercadona"] (u "Office Supplies") (u "Mercadona");
    Rule [u "eroski"] (u "Office Supplies") (u "Eroski");
    Rule [u "dia"; u "dia %"] (u "Office Supplies") (u "DIA");
    Rule [u "pingo doce"] (u "Office Supplies") (u "Pingo Doce");
    Rule [u "continente"] (u "Office Supplies") (u "Continente");
    Rule [u "esselunga"] (u "Office Supplies") (u "Esselunga");
    Rule [u "conad"] (u "Office Supplies") (u "Conad");
    Rule [u "eurospin"] (u "Office Supplies") (u "Eurospin");
    Rule [u "despar"] (u "Office Supplies") (u "Despar");
    Rule [u "biedronka"] (u "Office Supplies") (u "Biedronka");
    Rule [u "zabka"; u "żabka"] (u "Office Supplies") (u "Żabka");
    Rule [u "walmart"; u "wal-mart"; u "wal mart"] (u "Office Supplies") (u "Walmart");
    Rule [u "target"] (u "Office Supplies") (u "Target");
    Rule [u "costco"; u "costco wholesale"] (u "Office Supplies") (u "Costco");
    Rule [u "kroger"] (u "Office Supplies") (u "Kroger");
    Rule [u "safeway"] (u "Office Supplies") (u "Safeway");
    Rule [u "publix"] (u "Office Supplies") (u "Publix");
    Rule [u "whole foods"; u "wholefoods"] (u "Office Supplies") (u "Whole Foods");
    Rule [u "trader joe"; u "trader joe's"] (u "Office Supplies") (u "Trader Joe's");
    Rule [u "cvs"; u "cvs pharmacy"] (u "Office Supplies") (u "CVS");
    Rule [u "walgreens"] (u "Office Supplies") (u "Walgreens");
    Rule [u "rite aid"] (u "Office Supplies") (u "Rite Aid");
    Rule [u "dollar general"] (u "Office Supplies") (u "Dollar General");
    Rule [u "dollar tree"] (u "Office Supplies") (u "Dollar Tree");
    Rule [u "family dollar"] (u "Office Supplies") (u "Family Dollar");
    Rule [u "starbucks"; u "sbux"] (u "Meals (Business)") (u "Starbucks");
    Rule [u "mcdonalds"; u "mcdonald's"; u "mcd"; u "mc donalds"] (u "Meals (Business)") (u "McDonald's");
    Rule [u "burger king"; u "bk"] (u "Meals (Business)") (u "Burger King");
    Rule [u "wendys"; u "wendy's"] (u "Meals (Business)") (u "Wendy's");
    Rule [u "subway"] (u "Meals (Business)") (u "Subway");
    Rule [u "chipotle"] (u "Meals (Business)") (u "Chipotle");
    Rule [u "taco bell"] (u "Meals (Business)") (u "Taco Bell");
    Rule [u "kfc"; u "kentucky fried"] (u "Meals (Business)") (u "KFC");
    Rule [u "pizza hut"] (u "Meals (Business)") (u "Pizza Hut");
    Rule [u "dominos"; u "domino's"] (u "Meals (Business)") (u "Domino's");
    Rule [u "papa john"; u "papa john's"] (u "Meals (Business)") (u "Papa John's");
    Rule [u "panera"; u "panera bread"] (u "Meals (Business)") (u "Panera Bread");
    Rule [u "dunkin"; u "dunkin donuts"] (u "Meals (Business)") (u "Dunkin");
    Rule [u "chick-fil-a"; u "chick fil a"; u "chickfila"] (u "Meals (Business)") (u "Chick-fil-A");
    Rule [u "popeyes"] (u "Meals (Business)") (u "Popeyes");
    Rule [u "five guys"] (u "Meals (Business)") (u "Five Guys");
    Rule [u "shake shack"] (u "Meals (Business)") (u "Shake Shack");
    Rule [u "in-n-out"; u "in n out"] (u "Meals (Business)") (u "In-N-Out");
    Rule [u "uber eats"; u "ubereats"] (u "Meals (Business)") (u "Uber Eats");
    Rule [u "doordash"; u "door dash"] (u "Meals (Business)") (u "DoorDash");
    Rule [u "grubhub"] (u "Meals (Business)") (u "Grubhub");
    Rule [u "deliveroo"] (u "Meals (Business)") (u "Deliveroo");
    Rule [u "just eat"; u "justeat"] (u "Meals (Business)") (u "Just Eat");
    Rule [u "lieferando"] (u "Meals (Business)") (u "Lieferando");
    Rule [u "shell"] (u "Travel") (u "Shell");
    Rule [u "chevron"] (u "Travel") (u "Chevron");
    Rule [u "exxon"; u "exxonmobil"] (u "Travel") (u "ExxonMobil");
    Rule [u "mobil"] (u "Travel") (u "Mobil");
    Rule [u "bp"; u "british petroleum"] (u "Travel") (u "BP");
    Rule [u "esso"] (u "Travel") (u "Esso");
    Rule [u "total"; u "totalenergies"] (u "Travel") (u "TotalEnergies");
    Rule [u "aral"] (u "Travel") (u "Aral");
    Rule [u "eni"; u "agip"] (u "Travel") (u "Eni");
    Rule [u "omv"] (u "Travel") (u "OMV");
    Rule [u "mol"] (u "Travel") (u "MOL");
    Rule [u "petrol"] (u "Travel") (u "Petrol");
    Rule [u "ina"] (u "Travel") (u "INA");
    Rule [u "lukoil"] (u "Travel") (u "Lukoil");
    Rule [u "repsol"] (u "Travel") (u "Repsol");
    Rule [u "cepsa"] (u "Travel") (u "Cepsa");
    Rule [u "galp"] (u "Travel") (u "Galp");
    Rule [u "q8"; u "kuwait petroleum"] (u "Travel") (u "Q8");
    Rule [u "arco"] (u "Travel") (u "ARCO");
    Rule [u "76"; u "seventy six"] (u "Travel") (u "76");
    Rule [u "speedway"] (u "Travel") (u "Speedway");
    Rule [u "circle k"] (u "Travel") (u "Circle K");
    Rule [u "wawa"] (u "Travel") (u "Wawa");
    Rule [u "sheetz"] (u "Travel") (u "Sheetz");
    Rule [u "racetrac"] (u "Travel") (u "RaceTrac");
    Rule [u "quiktrip"; u "qt"] (u "Travel") (u "QuikTrip");
    Rule [u "best buy"; u "bestbuy"] (u "Equipment") (u "Best Buy");
    Rule [u "apple store"; u "apple.com"] (u "Equipment") (u "Apple");
    Rule [u "media markt"; u "mediamarkt"] (u "Equipment") (u "MediaMarkt");
    Rule [u "saturn"] (u "Equipment") (u "Saturn");
    Rule [u "euronics"] (u "Equipment") (u "Euronics");
    Rule [u "expert"] (u "Equipment") (u "Expert");
    Rule [u "conrad"] (u "Equipment") (u "Conrad");
    Rule [u "currys"; u "pc world"] (u "Equipment") (u "Currys");
    Rule [u "staples"] (u "Office Supplies") (u "Staples");
    Rule [u "office depot"; u "officemax"] (u "Office Supplies") (u "Office Depot");
    Rule [u "amazon"; u "amzn"; u "amazon.com"; u "amazon.de"; u "amazon.co.uk"] (u "Office Supplies") (u "Amazon");
    Rule [u "home depot"] (u "Equipment") (u "Home Depot");
    Rule [u "lowes"; u "lowe's"] (u "Equipment") (u "Lowe's");
    Rule [u "ikea"] (u "Equipment") (u "IKEA");
    Rule [u "hornbach"] (u "Equipment") (u "Hornbach");
    Rule [u "obi"] (u "Equipment") (u "OBI");
    Rule [u "bauhaus"] (u "Equipment") (u "Bauhaus");
    Rule [u "leroy merlin"] (u "Equipment") (u "Leroy Merlin");
    Rule [u "adobe"; u "creative cloud"] (u "Software / SaaS") (u "Adobe");
    Rule [u "microsoft"; u "msft"; u "office 365"; u "microsoft 365"] (u "Software / SaaS") (u "Microsoft");
    Rule [u "google"; u "google cloud"; u "google workspace"] (u "Software / SaaS") (u "Google");
    Rule [u "apple"; u "icloud"; u "apple one"] (u "Software / SaaS") (u "Apple");
    Rule [u "dropbox"] (u "Software / SaaS") (u "Dropbox");
    Rule [u "slack"] (u "Software / SaaS") (u "Slack");
    Rule [u "zoom"] (u "Software / SaaS") (u "Zoom");
    Rule [u "notion"] (u "Software / SaaS") (u "Notion");
    Rule [u "figma"] (u "Software / SaaS") (u "Figma");
    Rule [u "canva"] (u "Software / SaaS") (u "Canva");
    Rule [u "github"] (u "Software / SaaS") (u "GitHub");
    Rule [u "atlassian"; u "jira"; u "confluence"] (u "Software / SaaS") (u "Atlassian");
    Rule [u "salesforce"] (u "Software / SaaS") (u "Salesforce");
    Rule [u "hubspot"] (u "Software / SaaS") (u "HubSpot");
    Rule [u "mailchimp"] (u "Software / SaaS") (u "Mailchimp");
    Rule [u "quickbooks"; u "intuit"] (u "Software / SaaS") (u "QuickBooks");
    Rule [u "xero"] (u "Software / SaaS") (u "Xero");
    Rule [u "freshbooks"] (u "Software / SaaS") (u "FreshBooks");
    Rule [u "shopify"] (u "Software / SaaS") (u "Shopify");
    Rule [u "squarespace"] (u "Software / SaaS") (u "Squarespace");
    Rule [u "wix"] (u "Software / SaaS") (u "Wix");
    Rule [u "godaddy"] (u "Software / SaaS") (u "GoDaddy");
    Rule [u "namecheap"] (u "Software / SaaS") (u "Namecheap");
    Rule [u "cloudflare"] (u "Software / SaaS") (u "Cloudflare");
    Rule [u "aws"; u "amazon web services"] (u "Software / SaaS") (u "AWS");
    Rule [u "digitalocean"] (u "Software / SaaS") (u "DigitalOcean");
    Rule [u "heroku"] (u "Software / SaaS") (u "Heroku");
    Rule [u "vercel"] (u "Software / SaaS") (u "Vercel");
    Rule [u "netlify"] (u "Software / SaaS") (u "Netlify");
    Rule [u "verizon"; u "vzw"] (u "Phone / Internet") (u "Verizon");
    Rule [u "at&t"; u "att"] (u "Phone / Internet") (u "AT&T");
    Rule [u "t-mobile"; u "tmobile"] (u "Phone / Internet") (u "T-Mobile");
    Rule [u "sprint"] (u "Phone / Internet") (u "Sprint");
    Rule [u "comcast"; u "xfinity"] (u "Phone / Internet") (u "Comcast/Xfinity");
    Rule [u "spectrum"] (u "Phone / Internet") (u "Spectrum");
    Rule [u "vodafone"] (u "Phone / Internet") (u "Vodafone");
    Rule [u "orange"] (u "Phone / Internet") (u "Orange");
    Rule [u "telekom"; u "deutsche telekom"; u "dt"] (u "Phone / Internet") (u "Telekom");
    Rule [u "o2"] (u "Phone / Internet") (u "O2");
    Rule [u "ee"] (u "Phone / Internet") (u "EE");
    Rule [u "three"; u "3 mobile"] (u "Phone / Internet") (u "Three");
    Rule [u "tim"; u "telecom italia"] (u "Phone / Internet") (u "TIM");
    Rule [u "wind"; u "wind tre"] (u "Phone / Internet") (u "Wind Tre");
    Rule [u "iliad"] (u "Phone / Internet") (u "Iliad");
    Rule [u "swisscom"] (u "Phone / Internet") (u "Swisscom");
    Rule [u "sunrise"] (u "Phone / Internet") (u "Sunrise");
    Rule [u "salt"] (u "Phone / Internet") (u "Salt");
    Rule [u "kpn"] (u "Phone / Internet") (u "KPN");
    Rule [u "proximus"] (u "Phone / Internet") (u "Proximus");
    Rule [u "telenet"] (u "Phone / Internet") (u "Telenet");
    Rule [u "movistar"] (u "Phone / Internet") (u "Movistar");
    Rule [u "meo"] (u "Phone / Internet") (u "MEO");
    Rule [u "nos"] (u "Phone / Internet") (u "NOS");
    Rule [u "uber"; u "uber trip"; u "uber ride"] (u "Travel") (u "Uber");
    Rule [u "lyft"] (u "Travel") (u "Lyft");
    Rule [u "bolt"; u "bolt ride"] (u "Travel") (u "Bolt");
    Rule [u "grab"] (u "Travel") (u "Grab");
    Rule [u "freenow"; u "free now"; u "mytaxi"] (u "Travel") (u "FREE NOW");
    Rule [u "airbnb"] (u "Travel") (u "Airbnb");
    Rule [u "booking.com"; u "booking"] (u "Travel") (u "Booking.com");
    Rule [u "expedia"] (u "Travel") (u "Expedia");
    Rule [u "hotels.com"] (u "Travel") (u "Hotels.com");
    Rule [u "kayak"] (u "Travel") (u "Kayak");
    Rule [u "tripadvisor"] (u "Travel") (u "TripAdvisor");
    Rule [u "delta"; u "delta air"] (u "Travel") (u "Delta Airlines");
    Rule [u "united"; u "united air"] (u "Travel") (u "United Airlines");
    Rule [u "american air"; u "american airlines"; u "aa"] (u "Travel") (u "American Airlines");
    Rule [u "southwest"; u "swa"] (u "Travel") (u "Southwest");
    Rule [u "jetblue"] (u "Travel") (u "JetBlue");
    Rule [u "lufthansa"; u "lh"] (u "Travel") (u "Lufthansa");
    Rule [u "british airways"; u "ba"] (u "Travel") (u "British Airways");
    Rule [u "air france"; u "af"] (u "Travel") (u "Air France");
    Rule [u "klm"] (u "Travel") (u "KLM");
    Rule [u "ryanair"] (u "Travel") (u "Ryanair");
    Rule [u "easyjet"] (u "Travel") (u "easyJet");
    Rule [u "wizzair"; u "wizz air"] (u "Travel") (u "Wizz Air");
    Rule [u "vueling"] (u "Travel") (u "Vueling");
    Rule [u "eurowings"] (u "Travel") (u "Eurowings");
    Rule [u "hilton"] (u "Travel") (u "Hilton");
    Rule [u "marriott"] (u "Travel") (u "Marriott");
    Rule [u "hyatt"] (u "Travel") (u "Hyatt");
    Rule [u "ihg"; u "intercontinental"] (u "Travel") (u "IHG");
    Rule [u "accor"; u "novotel"; u "ibis"; u "mercure"] (u "Travel") (u "Accor");
    Rule [u "hertz"] (u "Travel") (u "Hertz");
    Rule [u "avis"] (u "Travel") (u "Avis");
    Rule [u "enterprise"] (u "Travel") (u "Enterprise");
    Rule [u "sixt"] (u "Travel") (u "Sixt");
    Rule [u "europcar"] (u "Travel") (u "Europcar");
    Rule [u "usps"; u "us postal"; u "postal service"] (u "Shipping / Delivery") (u "USPS");
    Rule [u "fedex"; u "federal express"] (u "Shipping / Delivery") (u "FedEx");
    Rule [u "ups"; u "united parcel"] (u "Shipping / Delivery") (u "UPS");
    Rule [u "dhl"] (u "Shipping / Delivery") (u "DHL");
    Rule [u "dpd"] (u "Shipping / Delivery") (u "DPD");
    Rule [u "gls"] (u "Shipping / Delivery") (u "GLS");
    Rule [u "hermes"] (u "Shipping / Delivery") (u "Hermes");
    Rule [u "royal mail"] (u "Shipping / Delivery") (u "Royal Mail");
    Rule [u "la poste"] (u "Shipping / Delivery") (u "La Poste");
    Rule [u "deutsche post"] (u "Shipping / Delivery") (u "Deutsche Post");
    Rule [u "poste italiane"] (u "Shipping / Delivery") (u "Poste Italiane");
    Rule [u "correos"] (u "Shipping / Delivery") (u "Correos");
    Rule [u "postnl"] (u "Shipping / Delivery") (u "PostNL");
    Rule [u "bpost"] (u "Shipping / Delivery") (u "bpost");
    Rule [u "paypal"] (u "Bank Fees") (u "PayPal");
    Rule [u "stripe"] (u "Bank Fees") (u "Stripe");
    Rule [u "square"] (u "Bank Fees") (u "Square");
    Rule [u "wise"; u "transferwise"] (u "Bank Fees") (u "Wise");
    Rule [u "revolut"] (u "Bank Fees") (u "Revolut");
    Rule [u "n26"] (u "Bank Fees") (u "N26");
    Rule [u "monzo"] (u "Bank Fees") (u "Monzo");
    Rule [u "chase"; u "jpmorgan"] (u "Bank Fees") (u "Chase");
    Rule [u "bank of america"; u "bofa"] (u "Bank Fees") (u "Bank of America");
    Rule [u "wells fargo"] (u "Bank Fees") (u "Wells Fargo");
    Rule [u "citi"; u "citibank"] (u "Bank Fees") (u "Citibank");
    Rule [u "barclays"] (u "Bank Fees") (u "Barclays");
    Rule [u "hsbc"] (u "Bank Fees") (u "HSBC");
    Rule [u "santander"] (u "Bank Fees") (u "Santander");
    Rule [u "ing"] (u "Bank Fees") (u "ING");
    Rule [u "deutsche bank"] (u "Bank Fees") (u "Deutsche Bank");
    Rule [u "commerzbank"] (u "Bank Fees") (u "Commerzbank");
    Rule [u "ubs"] (u "Bank Fees") (u "UBS");
    Rule [u "credit suisse"] (u "Bank Fees") (u "Credit Suisse");
    Rule [u "bnp paribas"; u "bnp"] (u "Bank Fees") (u "BNP Paribas");
    Rule [u "societe generale"] (u "Bank Fees") (u "Société Générale");
    Rule [u "unicredit"] (u "Bank Fees") (u "UniCredit");
    Rule [u "intesa"] (u "Bank Fees") (u "Intesa Sanpaolo")
  ].

Definition TOTAL_KEYWORDS : list jsstring :=
  [u "grand total"; u "total due"; u "amount due"; u "balance due";
   u "total amount"; u "total"; u "amount"; u "gesamtsumme"; u "gesamt";
   u "summe"; u "endsumme"; u "zu zahlen"; u "betrag"; u "totale";
   u "totale dovuto"; u "importo"; u "importo totale"; u "total";
   u "montant"; u "montant total"; u "total ttc"; u "a payer"; u "total";
   u "importe"; u "importe total"; u "total a pagar"; u "totaal";
   u "totaalbedrag"; u "te betalen"; u "totali"; u "shuma"; u "vlera";
   u "paguar"; u "suma"; u "razem"; u "do zapłaty"; u "total";
   u "valor total"].

Definition SUBTOTAL_KEYWORDS : list jsstring :=
  [u "subtotal"; u "sub-total"; u "sub total"; u "netto"; u "net";
   u "zwischensumme"; u "nettobetrag"; u "subtotale"; u "imponibile";
   u "sous-total"; u "ht"; u "subtotal"; u "base imponible";
   u "subtotaal"; u "nëntotali"; u "nentotali"; u "suma netto"].

Definition TAX_KEYWORDS : list jsstring :=
  [u "tax"; u "sales tax"; u "vat"; u "gst"; u "hst"; u "pst"; u "mwst";
   u "ust"; u "mehrwertsteuer"; u "iva"; u "tva"; u "iva"; u "igic";
   u "btw"; u "tvsh"; u "vat"; u "podatek"; u "iva"].

(** In the order of declaration, which is the order of [Object.entries]. *)
Definition CATEGORY_KEYWORDS : list (jsstring * list jsstring) :=
  [
    (u "Meals (Business)",
      [u "restaurant"; u "cafe"; u "coffee"; u "food"; u "diner"; u "grill";
       u "bistro"; u "kitchen"; u "pizzeria"; u "bakery"; u "deli"; u "bar";
       u "pub"; u "tavern"; u "ristorante"; u "trattoria"; u "osteria";
       u "pasticceria"; u "gelateria"; u "gasthaus"; u "gaststätte";
       u "bäckerei"; u "konditorei"; u "metzgerei"; u "imbiss"; u "brasserie";
       u "boulangerie"; u "patisserie"; u "creperie"; u "restorant"; u "kafe";
       u "piceri"; u "byrek"; u "restauracja"; u "kawiarnia"; u "piekarnia"]);
    (u "Travel",
      [u "gas"; u "fuel"; u "petroleum"; u "petrol"; u "diesel"; u "benzin";
       u "tankstelle"; u "airline"; u "flight"; u "airport"; u "flughafen";
       u "aeroporto"; u "aeroport"; u "hotel"; u "motel"; u "hostel"; u "inn";
       u "lodge"; u "rental car"; u "car hire"; u "autovermietung";
       u "parking"; u "toll"; u "maut"; u "pedaggio"; u "taxi"; u "cab";
       u "rideshare"; u "train"; u "railway"; u "bahn"; u "sncf";
       u "trenitalia"; u "bus"; u "coach"; u "flixbus"]);
    (u "Office Supplies",
      [u "office"; u "supplies"; u "paper"; u "ink"; u "toner";
       u "stationery"; u "bürobedarf"; u "büromaterial"; u "papier";
       u "cancelleria"; u "cartoleria"; u "fournitures"; u "papeterie"]);
    (u "Equipment",
      [u "computer"; u "laptop"; u "notebook"; u "tablet"; u "phone";
       u "monitor"; u "display"; u "screen"; u "printer"; u "scanner";
       u "drucker"; u "electronics"; u "elektronik"; u "elettronica";
       u "hardware"; u "device"; u "gerät"; u "camera"; u "kamera"]);
    (u "Software / SaaS",
      [u "software"; u "subscription"; u "cloud"; u "saas"; u "app";
       u "license"; u "lizenz"; u "licenza"; u "hosting"; u "domain";
       u "server"; u "abonnement"; u "abbonamento"]);
    (u "Shipping / Delivery",
      [u "shipping"; u "postage"; u "courier"; u "freight"; u "delivery";
       u "versand"; u "porto"; u "paket"; u "spedizione"; u "posta";
       u "livraison"; u "envoi"; u "colis"]);
    (u "Phone / Internet",
      [u "mobile"; u "cellular"; u "wireless"; u "telefon"; u "handy";
       u "internet"; u "broadband"; u "wifi"; u "fiber"; u "telecom";
       u "telco"]);
    (u "Utilities",
      [u "electric"; u "electricity"; u "strom"; u "elettricità"; u "gas";
       u "heating"; u "heizung"; u "water"; u "wasser"; u "acqua"; u "eau";
       u "utility"; u "utilities"]);
    (u "Professional Services",
      [u "legal"; u "attorney"; u "lawyer"; u "rechtsanwalt"; u "avvocato";
       u "accounting"; u "accountant"; u "cpa"; u "steuerberater";
       u "commercialista"; u "consulting"; u "consultant"; u "beratung"]);
    (u "Insurance",
      [u "insurance"; u "versicherung"; u "assicurazione"; u "assurance";
       u "policy"; u "premium"; u "coverage"]);
    (u "Advertising / Marketing",
      [u "advertising"; u "ads"; u "ad spend"; u "werbung"; u "pubblicità";
       u "marketing"; u "promotion"; u "campaign"; u "social media";
       u "facebook ads"; u "google ads"])
  ].

(** [\d+[.,]\d{2}] *)
Definition plainAmount : re :=
  seqs [plus digit; oneOf (u ".,"); times 2 digit].

Definition currency : re := oneOf (u "$€£¥").

Definition amountPatterns : list re :=
  [ (* /(\d{1,3}(?:[,.\s]\d{3})*[.,]\d{2})\b/g *)
    seqs [Group 1 (seqs [rep 1 3 digit;
                         Star (Seq (Chr (fun x => includesChar (u ",.") x || isSpace x))
                                   (times 3 digit));
                         oneOf (u ".,"); times 2 digit]);
          WordB];
    (* /[$€£¥]\s*(\d+[.,]\d{2})/g *)
    seqs [currency; Star space; Group 1 plainAmount];
    (* /(\d+[.,]\d{2})\s*[$€£¥]/g *)
    seqs [Group 1 plainAmount; Star space; currency] ].

(** The normalization of the separators of a money token. *)
Definition normalizeAmount (numStr : jsstring) : jsstring :=
  if includesChar numStr (c ".") && includesChar numStr (c ",") then
    if (lastIndexOf numStr (c ",") >? lastIndexOf numStr (c "."))%Z
    then replaceFirst (c ",") (c ".") (removeAll (c ".") numStr)
    else removeAll (c ",") numStr
  else if includesChar numStr (c ",") then
    let parts := split (c ",") numStr in
    if ((length parts =? 2) && (length (nth 1 parts []) =? 2))%nat
    then replaceFirst (c ",") (c ".") numStr
    else removeAll (c ",") numStr
  else numStr.

Section Extraction.
Context {rt : Runtime}.

(** The number read from the capture of a match: [match[1]] without
    its spaces, normalized, through [parseFloat]. *)
Definition parseAmount (raw : jsstring) : option Q :=
  parseFloat (normalizeAmount (removeSpaces raw)).

(** What one match of a pattern contributes to [amounts]. *)
Definition amountOf (raw : jsstring) : list Q :=
  match parseAmount raw with
  | Some num => if ltb 0 num && ltb num 100000 then [num] else []
  | None => []
  end.

Definition extractAllAmounts (text : jsstring) : list Q :=
  uniqueDescending
    (flat_map (fun pattern =>
                 flat_map (fun m => amountOf (group 1 (groups m)))
                          (execAll pattern text))
              amountPatterns).

(** One turn of the loop of extractTotals over the lines. *)
Definition totalsStep (allAmounts : list Q) (acc : Totals) (line : jsstring)
  : Totals :=
  match extractAllAmounts line with
  | [] => acc
  | amount :: _ =>
    let total1 :=
      match total acc with
      | None =>
        if existsb (fun keyword => includes line keyword
                                   && negb (includes line (u "sub")))
                   TOTAL_KEYWORDS
        then Some amount else None
      | Some t => Some t
      end in
    let subtotal1 :=
      match subtotal acc with
      | None =>
        if existsb (fun keyword => includes line keyword) SUBTOTAL_KEYWORDS
        then Some amount else None
      | Some st => Some st
      end in
    let tax1 :=
      match tax acc with
      | None =>
        if existsb (fun keyword =>
                      includes line keyword
                      && ltb amount (orElse total1
                                       (orElse (hd_error allAmounts) 1000)))
                   TAX_KEYWORDS
        then Some amount else None
      | Some tx => Some tx
      end in
    {| total := total1; subtotal := subtotal1; tax := tax1 |}
  end.

(** extractTotals up to its validation: the amounts the keywords
    assign, and the largest amount for a total they did not find. *)
Definition assignTotals (text : jsstring) (allAmounts : list Q) : Totals :=
  let lines := split 10 (toLowerCase text) in
  let found := fold_left (totalsStep allAmounts) lines
                         {| total := None; subtotal := None; tax := None |} in
  (* Fallback: if no total found, use largest amount *)
  match total found with
  | None => {| total := hd_error allAmounts;
               subtotal := subtotal found; tax := tax found |}
  | Some _ => found
  end.

Definition extractTotals (text : jsstring) (allAmounts : list Q) : Totals :=
  let found := assignTotals text allAmounts in
  (* Validate: total should be >= subtotal *)
  match total found, subtotal found with
  | Some t, Some st =>
    if ltb t st
    then (* Swap if subtotal > total (probably mislabeled) *)
      {| total := Some st; subtotal := Some t; tax := tax found |}
    else found
  | _, _ => found
  end.

Definition sep : re := oneOf (u "./-").

Definition datePatterns : list re :=
  [ (* /\b(\d{1,2})[\.\/\-](\d{1,2})[\.\/\-](\d{4})\b/g *)
    seqs [WordB; Group 1 (rep 1 2 digit); sep; Group 2 (rep 1 2 digit); sep;
          Group 3 (times 4 digit); WordB];
    (* /\b(\d{1,2})[\.\/\-](\d{1,2})[\.\/\-](\d{2})\b/g *)
    seqs [WordB; Group 1 (rep 1 2 digit); sep; Group 2 (rep 1 2 digit); sep;
          Group 3 (times 2 digit); WordB];
    (* /\b(\d{4})-(\d{2})-(\d{2})\b/g *)
    seqs [WordB; Group 1 (times 4 digit); chr "-"; Group 2 (times 2 digit);
          chr "-"; Group 3 (times 2 digit); WordB];
    (* /\b(jan|...|dec)[a-z]*\.?\s+(\d{1,2}),?\s+(\d{4})/gi *)
    ignoreCase
      (seqs [WordB; Group 1 monthName; Star (Chr isLower); opt (chr ".");
             plus space; Group 2 (rep 1 2 digit); opt (chr ","); plus space;
             Group 3 (times 4 digit)]) ].

(** The year, month and day read from a match; [None] when one of
    them is [NaN], which no comparison of the validation accepts. *)
Definition dateOfMatch (m : result) : option (Z * Z * Z) :=
  let m1 := group 1 (groups m) in
  let m2 := group 2 (groups m) in
  let m3 := group 3 (groups m) in
  if (length m1 =? 4)%nat then
    (* ISO format *)
    match parseInt m1, parseInt m2, parseInt m3 with
    | Some year, Some month, Some day => Some (year, month, day)
    | _, _, _ => None
    end
  else
    match parseInt m1 with
    | None =>
      (* Month name format *)
      let month := match lookup (firstn 3 (toLowerCase m1)) monthMap with
                   | Some n => n
                   | None => 1%Z
                   end in
      match parseInt m2, parseInt m3 with
      | Some day, Some year => Some (year, month, day)
      | _, _ => None
      end
    | Some day =>
      (* DD/MM/YYYY or DD/MM/YY *)
      match parseInt m2, parseInt m3 with
      | Some month, Some year0 =>
        let year := if (year0 <? 100)%Z
                    then if (year0 >? 50)%Z then (1900 + year0)%Z
                         else (2000 + year0)%Z
                    else year0 in
        if ((day >? 12) && (month <=? 12))%Z then Some (year, month, day)
        else if ((month >? 12) && (day <=? 12))%Z then Some (year, day, month)
        else Some (year, month, day)
      | _, _ => None
      end
    end.

Definition dateOf (m : result) : list jsstring :=
  match dateOfMatch m with
  | Some (year, month, day) =>
    if validDate year month day then [isoDate year month day] else []
  | None => []
  end.

Definition extractAllDates (text : jsstring) : list jsstring :=
  dedup JS.eqb
    (flat_map (fun pattern => flat_map dateOf (execAll pattern text))
              datePatterns).

(** The fields that processReceiptImage reads off the recognized
    text (lines 723 to 726). *)
Record Fields : Type := {
  allAmounts : list Q;
  allDates : list jsstring;
  totals : Totals;
  date : option jsstring
}.

Definition processReceiptImage (rawText : jsstring) : Fields :=
  let amounts := extractAllAmounts rawText in
  let dates := extractAllDates rawText in
  {| allAmounts := amounts;
     allDates := dates;
     totals := extractTotals rawText amounts;
     date := hd_error dates |}.

(** The three stages of suggestCategory on the learned merchants
    that getLearnedMerchants returned. *)
Definition suggestFrom (learnedMerchants : list LearnedMerchant)
           (text : jsstring) (merchantName : option jsstring) : Suggestion :=
  let textLower := toLowerCase text in
  let merchantLower :=
    toLowerCase (match merchantName with
                 | Some (x :: t) => x :: t
                 | Some [] | None => []
                 end) in
  match find (fun learned =>
                includes merchantLower (name learned)
                || includes (name learned) merchantLower
                || includes textLower (name learned))
             learnedMerchants with
  | Some learned => {| suggested := Some (category learned); certainty := high |}
  | None =>
    match find (fun merchant =>
                  existsb (fun pattern => includes textLower pattern
                                          || includes merchantLower pattern)
                          (patterns merchant))
               BUILT_IN_MERCHANTS with
    | Some merchant =>
      {| suggested := Some (mcategory merchant); certainty := high |}
    | None =>
      match find (fun entry =>
                    existsb (fun keyword => includes textLower keyword)
                            (snd entry))
                 CATEGORY_KEYWORDS with
      | Some entry => {| suggested := Some (fst entry); certainty := medium |}
      | None => {| suggested := None; certainty := low |}
      end
    end
  end.

End Extraction.

Section Learning.
Context {S : Type} {ls : Storage S} {json : Json} {rt : Runtime}.

Definition suggestCategory (text : jsstring) (merchantName : option jsstring)
  : M S Suggestion :=
  bind getLearnedMerchants
       (fun learnedMerchants => ret (suggestFrom learnedMerchants text merchantName)).

(** clearLearnedMerchants of this engine: no [try] around the call. *)
Definition clearLearnedMerchants : M S unit :=
  removeItem LEARNED_MERCHANTS_KEY.

End Learning.

End V3.

(* ================================================================== *)
(** * The native bridge (services/nativeOCR.ts)                        *)
(* ================================================================== *)

Module Native.

Record Bounds : Type := { x : Q; y : Q; width : Q; height : Q }.

Record TextBlock : Type := {
  block_text : jsstring;
  block_confidence : Q;
  bounds : Bounds
}.

Record RegionResult : Type := {
  region_text : jsstring;
  region_confidence : Q;
  blocks : list TextBlock
}.

Record Regions : Type := {
  top : RegionResult;
  middle : RegionResult;
  bottom : RegionResult
}.

Record RegionOCRResult : Type := {
  text : jsstring;
  confidence : Q;
  regions : Regions
}.

Record ParsedReceiptData : Type := {
  merchantName : option jsstring;
  merchantConfidence : Q;
  total : option Q;
  subtotal : option Q;
  tax : option Q;
  date : option jsstring;
  rawText : jsstring;
  overallConfidence : Q;
  usedNativeOCR : bool
}.

Definition dsep : re := oneOf (u "/-.").

Definition skipPatterns : list re :=
  [ (* /^(receipt|invoice|bill|ticket|bon|factura|rechnung|ricevuta|fatura)/i *)
    ignoreCase
      (Seq Bol (Group 1 (alts (List.map lit
         ["receipt"; "invoice"; "bill"; "ticket"; "bon"; "factura";
          "rechnung"; "ricevuta"; "fatura"]%string))));
    (* /^\d+[\/\-\.]\d+[\/\-\.]\d+/ *)
    seqs [Bol; plus digit; dsep; plus digit; dsep; plus digit];
    (* /^\d{2}:\d{2}/ *)
    seqs [Bol; times 2 digit; chr ":"; times 2 digit];
    (* /^tel|phone|fax|www\.|http/i *)
    ignoreCase
      (alts [Seq Bol (lit "tel"); lit "phone"; lit "fax"; lit "www."; lit "http"]);
    (* /^address|adresse|indirizzo|adresa/i *)
    ignoreCase
      (alts [Seq Bol (lit "address"); lit "adresse"; lit "indirizzo";
             lit "adresa"]) ].

(** Merchant extraction from top region.  The ratio of letters is a
    quotient of two integers up to 50, and its comparison with 0.3 in
    binary64 is the comparison of the integers. *)
Definition extractMerchant (topRegion : RegionResult) : option jsstring :=
  let lines := filter (fun l => (0 <? length (trim l))%nat)
                      (split 10 (region_text topRegion)) in
  find (fun cleaned =>
          negb (existsb (fun p => test p cleaned) skipPatterns)
          && negb ((length cleaned <? 2) || (50 <? length cleaned))%nat
          && negb (10 * length (filter isLetter cleaned)
                   <? 3 * length cleaned)%nat)
       (List.map trim (firstn 5 lines)).

(** /(\d{1,3}(?:[,.\s]\d{3})*(?:[.,]\d{2})?)/g *)
Definition amountPattern : re :=
  Group 1 (seqs [rep 1 3 digit;
                 Star (Seq (Chr (fun x => includesChar (u ",.") x || isSpace x))
                           (times 3 digit));
                 opt (Seq (oneOf (u ".,")) (times 2 digit))]).

Definition totalKeywords : list jsstring :=
  [u "grand total"; u "total due"; u "amount due"; u "balance due"; u "total";
   u "totale"; u "totali"; u "gesamt"; u "summe"; u "total a pagar";
   u "montant"; u "totaal"; u "suma"; u "итого"; u "razem"; u "celkem"].

Definition subtotalKeywords : list jsstring :=
  [u "subtotal"; u "sub-total"; u "sub total"; u "netto"; u "nëntotali";
   u "sottototal"; u "zwischensumme"; u "subtotaal"; u "podzbiór"].

Definition taxKeywords : list jsstring :=
  [u "tax"; u "vat"; u "gst"; u "hst"; u "pst"; u "mwst"; u "iva"; u "tva";
   u "tvsh"; u "imposto"; u "mehrwertsteuer"; u "btw"; u "podatek"].

(** European format (1.234,56) against US format (1,234.56). *)
Definition normalizeAmount (a : jsstring) : jsstring :=
  let normalized := removeSpaces a in
  if includesChar normalized (c ".") && includesChar normalized (c ",") then
    if (lastIndexOf normalized (c ",") >? lastIndexOf normalized (c "."))%Z
    then replaceFirst (c ",") (c ".") (removeAll (c ".") normalized)
    else removeAll (c ",") normalized
  else if includesChar normalized (c ",") then
    let parts := split (c ",") normalized in
    if (length (last parts []) =? 2)%nat
    then replaceFirst (c ",") (c ".") normalized
    else removeAll (c ",") normalized
  else normalized.

(** The parse of the fallback: every comma becomes a dot, and of
    several dots only the last is kept. *)
Definition fallbackAmount (a : jsstring) : jsstring :=
  let n := List.map (fun ch => if (ch =? c ",")%N then c "." else ch)
                    (removeSpaces a) in
  let parts := split (c ".") n in
  if (2 <? length parts)%nat
  then concat (removelast parts) ++ c "." :: last parts []
  else n.

Definition dateNumeric1 : re :=  (* /(\d{1,2})[\.\/](\d{1,2})[\.\/](\d{4})/ *)
  seqs [Group 1 (rep 1 2 digit); oneOf (u "./"); Group 2 (rep 1 2 digit);
        oneOf (u "./"); Group 3 (times 4 digit)].
Definition dateNumeric2 : re :=  (* /(\d{1,2})[\.\/](\d{1,2})[\.\/](\d{2})(?!\d)/ *)
  seqs [Group 1 (rep 1 2 digit); oneOf (u "./"); Group 2 (rep 1 2 digit);
        oneOf (u "./"); Group 3 (times 2 digit); NotAhead digit].
Definition dateIso : re :=       (* /(\d{4})-(\d{2})-(\d{2})/ *)
  seqs [Group 1 (times 4 digit); chr "-"; Group 2 (times 2 digit); chr "-";
        Group 3 (times 2 digit)].
Definition dateUS : re :=        (* /(\d{1,2})\/(\d{1,2})\/(\d{4})/ *)
  seqs [Group 1 (rep 1 2 digit); chr "/"; Group 2 (rep 1 2 digit); chr "/";
        Group 3 (times 4 digit)].
Definition dateText : re :=
  (* /(Jan|...|Dec)[a-z]*\.?\s+(\d{1,2}),?\s+(\d{4})/i *)
  ignoreCase
    (seqs [Group 1 monthName; Star (Chr isLower); opt (chr "."); plus space;
           Group 2 (rep 1 2 digit); opt (chr ","); plus space;
           Group 3 (times 4 digit)]).

(** How extractDate reads a match, which it tells from the source of
    the pattern. *)
Inductive dateForm : Type := TextMonth | Iso | Numeric.

Definition datePatterns : list (dateForm * re) :=
  [(Numeric, dateNumeric1); (Numeric, dateNumeric2); (Iso, dateIso);
   (Numeric, dateUS); (TextMonth, dateText)].

Section Extraction.
Context {rt : Runtime}.

(** The amounts of a line: parsed, and those above zero kept. *)
Definition lineAmounts (line : jsstring) : list Q :=
  flat_map (fun m => match parseFloat (normalizeAmount (matched m)) with
                     | Some n => if ltb 0 n then [n] else []
                     | None => []
                     end)
           (execAll amountPattern line).

Definition some (keywords : list jsstring) (line : jsstring) : bool :=
  existsb (fun k => includes line k) keywords.

(** One turn of the loop over the lines: each [continue] ends it. *)
Definition totalsStep (acc : Totals) (line : jsstring) : Totals :=
  match lineAmounts line with
  | [] => acc
  | a :: parsedAmounts =>
    let amount := maximum a parsedAmounts in
    if isNull (Shape.total acc) && some totalKeywords line then
      {| Shape.total := Some amount;
         Shape.subtotal := Shape.subtotal acc; Shape.tax := Shape.tax acc |}
    else if isNull (Shape.subtotal acc) && some subtotalKeywords line then
      {| Shape.total := Shape.total acc;
         Shape.subtotal := Some amount; Shape.tax := Shape.tax acc |}
    else if isNull (Shape.tax acc) && some taxKeywords line then
      {| Shape.total := Shape.total acc;
         Shape.subtotal := Shape.subtotal acc; Shape.tax := Some amount |}
    else acc
  end.

(** Total extraction with multi-language support. *)
Definition extractTotals (bottomRegion : RegionResult) (fullText : jsstring)
  : Totals :=
  let text := toLowerCase (region_text bottomRegion ++ 10%N :: fullText) in
  let lines := split 10 text in
  let found := fold_left totalsStep lines
                 {| Shape.total := None; Shape.subtotal := None;
                    Shape.tax := None |} in
  match Shape.total found with
  | Some _ => found
  | None =>
    (* the largest amount in bottom region *)
    let parsed :=
      flat_map (fun m => match parseFloat (fallbackAmount (matched m)) with
                         | Some n => if ltb 0 n then [n] else []
                         | None => []
                         end)
               (execAll amountPattern (region_text bottomRegion)) in
    match parsed with
    | [] => found
    | a :: rest =>
      {| Shape.total := Some (maximum a rest);
         Shape.subtotal := Shape.subtotal found;
         Shape.tax := Shape.tax found |}
    end
  end.

(** The year, month and day that extractDate reads from a match;
    [None] when one of them is [NaN] or [undefined]. *)
Definition dateOfMatch (form : dateForm) (m : result) : option (Z * Z * Z) :=
  let m1 := group 1 (groups m) in
  let m2 := group 2 (groups m) in
  let m3 := group 3 (groups m) in
  match form with
  | TextMonth =>
    match lookup (firstn 3 (toLowerCase m1)) monthMap, parseInt m2, parseInt m3 with
    | Some month, Some day, Some year => Some (year, month, day)
    | _, _, _ => None
    end
  | Iso =>
    match parseInt m1, parseInt m2, parseInt m3 with
    | Some year, Some month, Some day => Some (year, month, day)
    | _, _, _ => None
    end
  | Numeric =>
    match parseInt m1, parseInt m2, parseInt m3 with
    | Some day, Some month, Some year0 =>
      let year := if (year0 <? 100)%Z
                  then if (year0 >? 50)%Z then (1900 + year0)%Z
                       else (2000 + year0)%Z
                  else year0 in
      if ((day >? 12) && (month <=? 12))%Z then Some (year, month, day)
      else if ((month >? 12) && (day <=? 12))%Z then Some (year, day, month)
      else Some (year, month, day)
    | _, _, _ => None
    end
  end.

(** What one pattern yields: its first match, read and validated. *)
Definition dateFrom (p : dateForm * re) (text : jsstring) : option jsstring :=
  match search (snd p) text with
  | None => None
  | Some m =>
    match dateOfMatch (fst p) m with
    | Some (year, month, day) =>
      if validDate year month day then Some (isoDate year month day) else None
    | None => None
    end
  end.

Fixpoint firstDate (ps : list (dateForm * re)) (text : jsstring)
  : option jsstring :=
  match ps with
  | [] => None
  | p :: ps' =>
    match dateFrom p text with
    | Some d => Some d
    | None => firstDate ps' text
    end
  end.

(** Date extraction with multi-format support. *)
Definition extractDate (text : jsstring) : option jsstring :=
  firstDate datePatterns text.

(** scanReceipt from the result of [await runRegionOCR(imageData)]
    on; [usedNative] is [isNativePlatform() && getNativePlugin() !== null]. *)
Definition scanReceipt (usedNative : bool) (ocrResult : RegionOCRResult)
  : ParsedReceiptData :=
  let merchant := extractMerchant (top (regions ocrResult)) in
  let totals := extractTotals (bottom (regions ocrResult)) (text ocrResult) in
  let date0 := extractDate (text ocrResult) in
  (* Apply confidence gating *)
  let merchantConfidence0 := region_confidence (top (regions ocrResult)) in
  let finalMerchant :=
    if Qle_bool 60 merchantConfidence0 then merchant else None in
  {| merchantName := finalMerchant;
     merchantConfidence := merchantConfidence0;
     total := Shape.total totals;
     subtotal := Shape.subtotal totals;
     tax := Shape.tax totals;
     date := date0;
     rawText := text ocrResult;
     overallConfidence := confidence ocrResult;
     usedNativeOCR := usedNative |}.

End Extraction.

End Native.

(* ================================================================== *)
(** * Engine v2 (unnamed/part_001)                                     *)
(* ================================================================== *)

Module V2.

Definition BUILT_IN_MERCHANTS : list MerchantMapping :=
  [
    Rule [u "spar"; u "spar albania"; u "eurospar"; u "interspar"] (u "Office Supplies") (u "SPAR");
    Rule [u "lidl"] (u "Office Supplies") (u "Lidl");
    Rule [u "aldi"; u "aldi nord"; u "aldi sud"] (u "Office Supplies") (u "Aldi");
    Rule [u "carrefour"] (u "Office Supplies") (u "Carrefour");
    Rule [u "tesco"] (u "Office Supplies") (u "Tesco");
    Rule [u "rewe"] (u "Office Supplies") (u "REWE");
    Rule [u "edeka"] (u "Office Supplies") (u "Edeka");
    Rule [u "kaufland"] (u "Office Supplies") (u "Kaufland");
    Rule [u "billa"] (u "Office Supplies") (u "Billa");
    Rule [u "penny"] (u "Office Supplies") (u "Penny");
    Rule [u "migros"] (u "Office Supplies") (u "Migros");
    Rule [u "mercadona"] (u "Office Supplies") (u "Mercadona");
    Rule [u "starbucks"; u "sbux"] (u "Meals (Business)") (u "Starbucks");
    Rule [u "mcdonalds"; u "mcdonald's"] (u "Meals (Business)") (u "McDonald's");
    Rule [u "subway"] (u "Meals (Business)") (u "Subway");
    Rule [u "chipotle"] (u "Meals (Business)") (u "Chipotle");
    Rule [u "uber eats"] (u "Meals (Business)") (u "Uber Eats");
    Rule [u "doordash"] (u "Meals (Business)") (u "DoorDash");
    Rule [u "shell"] (u "Travel") (u "Shell");
    Rule [u "chevron"] (u "Travel") (u "Chevron");
    Rule [u "exxon"; u "mobil"; u "esso"] (u "Travel") (u "Exxon");
    Rule [u "bp"] (u "Travel") (u "BP");
    Rule [u "total energies"] (u "Travel") (u "TotalEnergies");
    Rule [u "omv"] (u "Travel") (u "OMV");
    Rule [u "staples"] (u "Office Supplies") (u "Staples");
    Rule [u "amazon"; u "amzn"] (u "Office Supplies") (u "Amazon");
    Rule [u "best buy"] (u "Equipment") (u "Best Buy");
    Rule [u "apple store"; u "apple.com"] (u "Equipment") (u "Apple");
    Rule [u "media markt"] (u "Equipment") (u "MediaMarkt");
    Rule [u "adobe"; u "creative cloud"] (u "Software / SaaS") (u "Adobe");
    Rule [u "microsoft"; u "office 365"] (u "Software / SaaS") (u "Microsoft");
    Rule [u "google"] (u "Software / SaaS") (u "Google");
    Rule [u "dropbox"] (u "Software / SaaS") (u "Dropbox");
    Rule [u "slack"] (u "Software / SaaS") (u "Slack");
    Rule [u "zoom"] (u "Software / SaaS") (u "Zoom");
    Rule [u "uber"; u "uber trip"] (u "Travel") (u "Uber");
    Rule [u "lyft"] (u "Travel") (u "Lyft");
    Rule [u "bolt"] (u "Travel") (u "Bolt");
    Rule [u "airbnb"] (u "Travel") (u "Airbnb");
    Rule [u "booking.com"] (u "Travel") (u "Booking.com");
    Rule [u "ryanair"] (u "Travel") (u "Ryanair");
    Rule [u "wizzair"; u "wizz air"] (u "Travel") (u "Wizz Air");
    Rule [u "walmart"] (u "Office Supplies") (u "Walmart");
    Rule [u "target"] (u "Office Supplies") (u "Target");
    Rule [u "costco"] (u "Office Supplies") (u "Costco");
    Rule [u "home depot"] (u "Equipment") (u "Home Depot");
    Rule [u "usps"; u "postal service"] (u "Shipping / Delivery") (u "USPS");
    Rule [u "fedex"] (u "Shipping / Delivery") (u "FedEx");
    Rule [u "ups"] (u "Shipping / Delivery") (u "UPS");
    Rule [u "dhl"] (u "Shipping / Delivery") (u "DHL");
    Rule [u "paypal"] (u "Bank Fees") (u "PayPal");
    Rule [u "stripe"] (u "Bank Fees") (u "Stripe");
    Rule [u "wise"; u "transferwise"] (u "Bank Fees") (u "Wise");
    Rule [u "revolut"] (u "Bank Fees") (u "Revolut")
  ].

(** In the order of declaration, which is the order of [Object.entries]. *)
Definition CATEGORY_KEYWORDS : list (jsstring * list jsstring) :=
  [
    (u "Meals (Business)",
      [u "restaurant"; u "cafe"; u "coffee"; u "food"; u "diner"; u "grill";
       u "bistro"; u "pizzeria"; u "bakery"; u "deli"; u "bar";
       u "ristorante"; u "trattoria"; u "gasthaus"; u "bÃ¤ckerei";
       u "brasserie"; u "boulangerie"; u "restorant"; u "kafe"]);
    (u "Travel",
      [u "gas"; u "fuel"; u "petroleum"; u "airline"; u "hotel"; u "motel";
       u "parking"; u "toll"; u "transit"; u "taxi"; u "airport"; u "benzin";
       u "tankstelle"; u "aeroporto"; u "flughafen"; u "aeroport"]);
    (u "Office Supplies",
      [u "office"; u "supplies"; u "paper"; u "ink"; u "stationery"]);
    (u "Equipment",
      [u "computer"; u "laptop"; u "monitor"; u "printer"; u "electronics";
       u "hardware"]);
    (u "Software / SaaS",
      [u "software"; u "subscription"; u "cloud"; u "app"; u "license";
       u "saas"]);
    (u "Shipping / Delivery",
      [u "shipping"; u "postage"; u "courier"; u "freight"; u "delivery"])
  ].

(** /(\d{1,3}(?:[,.\s]\d{3})*(?:[.,]\d{2})?)/g, as in the bridge. *)
Definition amountPattern : re :=
  Group 1 (seqs [rep 1 3 digit;
                 Star (Seq (Chr (fun x => includesChar (u ",.") x || isSpace x))
                           (times 3 digit));
                 opt (Seq (oneOf (u ".,")) (times 2 digit))]).

(** European against US format. *)
Definition normalizeAmount (numStr : jsstring) : jsstring :=
  if includesChar numStr (c ".") && includesChar numStr (c ",") then
    if (lastIndexOf numStr (c ",") >? lastIndexOf numStr (c "."))%Z
    then replaceFirst (c ",") (c ".") (removeAll (c ".") numStr)
    else removeAll (c ",") numStr
  else if includesChar numStr (c ",") then
    let parts := split (c ",") numStr in
    if (length (last parts []) =? 2)%nat
    then replaceFirst (c ",") (c ".") numStr
    else removeAll (c ",") numStr
  else numStr.

Section Extraction.
Context {rt : Runtime}.

Definition parseAmount (raw : jsstring) : option Q :=
  parseFloat (normalizeAmount (removeSpaces raw)).

Definition amountOf (raw : jsstring) : list Q :=
  match parseAmount raw with
  | Some num => if ltb 0 num && ltb num 100000 then [num] else []
  | None => []
  end.

Definition extractAllAmounts (text : jsstring) : list Q :=
  uniqueDescending
    (flat_map (fun m => amountOf (group 1 (groups m)))
              (execAll amountPattern text)).

Definition suggestFrom (learnedMerchants : list LearnedMerchant)
           (text : jsstring) (merchantName : option jsstring) : Suggestion :=
  let textLower := toLowerCase text in
  let merchantLower :=
    toLowerCase (match merchantName with
                 | Some (x :: t) => x :: t
                 | Some [] | None => []
                 end) in
  match find (fun learned =>
                includes merchantLower (name learned)
                || includes textLower (name learned))
             learnedMerchants with
  | Some learned => {| suggested := Some (category learned); certainty := high |}
  | None =>
    match find (fun merchant =>
                  existsb (fun pattern => includes textLower pattern
                                          || includes merchantLower pattern)
                          (patterns merchant))
               BUILT_IN_MERCHANTS with
    | Some merchant =>
      {| suggested := Some (mcategory merchant); certainty := high |}
    | None =>
      match find (fun entry =>
                    existsb (fun keyword => includes textLower keyword)
                            (snd entry))
                 CATEGORY_KEYWORDS with
      | Some entry => {| suggested := Some (fst entry); certainty := medium |}
      | None => {| suggested := None; certainty := low |}
      end
    end
  end.

End Extraction.

Section Learning.
Context {S : Type} {ls : Storage S} {json : Json} {rt : Runtime}.

Definition suggestCategory (text : jsstring) (merchantName : option jsstring)
  : M S Suggestion :=
  bind getLearnedMerchants
       (fun learnedMerchants => ret (suggestFrom learnedMerchants text merchantName)).

(** clearLearnedMerchants of this engine and of the first one. *)
Definition clearLearnedMerchants : M S unit :=
  tryCatch (removeItem LEARNED_MERCHANTS_KEY) (fun e => console_warn e).

End Learning.

End V2.

(* ================================================================== *)
(** * The first engine (services/offlineOCR.ts)                        *)
(* ================================================================== *)

Module V1.

(** extractBestDate; [today] is [new Date().toISOString().split('T')[0]].
    The default order of [sort] on strings is [JS.leb]. *)
Definition extractBestDate (today : jsstring) (dates : list jsstring)
  : option jsstring :=
  match dates with
  | [] => None
  | [d] => Some d
  | d0 :: _ =>
    (* Prefer most recent date that's not in the future *)
    match filter (fun d => JS.leb d today) dates with
    | [] => Some d0
    | validDates => hd_error (rev (sort JS.leb validDates))
    end
  end.

End V1.

(* ================================================================== *)
(** * Stores and runtimes to evaluate with                             *)
(* ================================================================== *)

Module Demo.

(** A store without failures: an association list, newest first. *)
Definition plainStorage : Storage (list (jsstring * jsstring)) :=
  {| getItem := fun k s => (Ok (lookup k s), s);
     setItem := fun k v s => (Ok tt, (k, v) :: s);
     removeItem := fun k s =>
       (Ok tt, filter (fun e => negb (JS.eqb k (fst e))) s) |}.

(** A store that refuses every access, as [localStorage] does when the
    page may not use it. *)
Definition deniedStorage : Storage unit :=
  {| getItem := fun _ s => (Throw SecurityError, s);
     setItem := fun _ _ s => (Throw SecurityError, s);
     removeItem := fun _ s => (Throw SecurityError, s) |}.

(** A JSON runtime described at the one text an example stores, which
    reads as [l]. *)
Definition reading (l : list LearnedMerchant) : Json :=
  {| JSON_parse := fun _ => Ok l; JSON_stringify := fun _ => u "[...]" |}.

(** A serialization that can be read back, in place of JSON: every
    string is written after its length, the collection after its size. *)
Definition writeString (s : jsstring) : jsstring := N.of_nat (length s) :: s.

Definition readString (t : jsstring) : option (jsstring * jsstring) :=
  match t with
  | n :: t' => Some (firstn (N.to_nat n) t', skipn (N.to_nat n) t')
  | [] => None
  end.

Definition writeMerchant (m : LearnedMerchant) : jsstring :=
  writeString (name m) ++ writeString (category m)
  ++ (if (timesUsed m <? 0)%Z then 1%N else 0%N) :: Z.abs_N (timesUsed m)
  :: writeString (lastUsed m).

Definition readMerchant (t : jsstring) : option (LearnedMerchant * jsstring) :=
  match readString t with
  | Some (nm, t1) =>
    match readString t1 with
    | Some (cat, sign :: n :: t2) =>
      match readString t2 with
      | Some (used, t3) =>
        Some ({| name := nm; category := cat;
                 timesUsed := if (sign =? 1)%N then (- Z.of_N n)%Z else Z.of_N n;
                 lastUsed := used |}, t3)
      | None => None
      end
    | _ => None
    end
  | None => None
  end.

Fixpoint readMerchants (n : nat) (t : jsstring)
  : option (list LearnedMerchant * jsstring) :=
  match n with
  | O => Some ([], t)
  | Datatypes.S n' =>
    match readMerchant t with
    | Some (m, t') =>
      match readMerchants n' t' with
      | Some (ms, t'') => Some (m :: ms, t'')
      | None => None
      end
    | None => None
    end
  end.

Definition lengthPrefixed : Json :=
  {| JSON_stringify := fun l => N.of_nat (length l) :: flat_map writeMerchant l;
     JSON_parse := fun t =>
       match t with
       | n :: t' =>
         match readMerchants (N.to_nat n) t' with
         | Some (l, []) => Ok l
         | _ => Throw SyntaxError
         end
       | [] => Throw SyntaxError
       end |}.

(** Corrections for [n] merchants: "0 Market", "1 Market", ... *)
Definition markets (n : nat) : list (jsstring * jsstring * jsstring) :=
  List.map (fun k => (ofN (N.of_nat k) ++ u " Market", u "Office Supplies",
                      u "2025-01-01T00:00:00.000Z"))
           (seq 0 n).

Definition learned (nm cat : string) : LearnedMerchant :=
  {| name := u nm; category := u cat; timesUsed := 1;
     lastUsed := u "2025-01-01T00:00:00.000Z" |}.

(** A text of several lines. *)
Fixpoint lines (l : list string) : jsstring :=
  match l with
  | [] => []
  | [s] => u s
  | s :: l' => u s ++ 10%N :: lines l'
  end.

Definition region (t : list string) (conf : Q) : Native.RegionResult :=
  {| Native.region_text := lines t; Native.region_confidence := conf;
     Native.blocks := [] |}.

End Demo.

(* ================================================================== *)
(** * The vocabulary of the statements                                 *)
(* ================================================================== *)

Module Spec.

(** Strictly descending: sorted in descending order, and no value twice. *)
Definition descending : list Q -> Prop := StronglySorted (fun a b => b < a).

Definition distinct : list Q -> Prop := ForallOrdPairs (fun a b => ~ a == b).

(** The integer part of a money token: digits, grouped by the
    separator [by_] and by spaces. *)
Definition grouped (by_ : N) (s : jsstring) : bool :=
  forallb (fun x => isDigit x || (x =? by_)%N || isSpace x) s.

Definition digits (s : jsstring) : bool := forallb isDigit s.

(** Digits, grouped by spaces alone. *)
Definition spaced (s : jsstring) : bool :=
  forallb (fun x => isDigit x || isSpace x) s.

(** The number written by the digits [ds], the last [k] of them after
    the decimal point. *)
Definition fixed {rt : Runtime} (ds : jsstring) (k : nat) : Q :=
  binary64 (decimal ds # Z.to_pos (10 ^ Z.of_nat k)).

(** The two readings that section 4.1 has for a token whose
    separators are commas: the comma as the decimal point (the one the
    last digits follow, the commas before it stripped), or every comma
    stripped as a thousands separator. *)
Definition commaAsDecimal {rt : Runtime} (token : jsstring) : option Q :=
  let k := Z.to_nat (lastIndexOf token (c ",")) in
  parseFloat (removeAll (c ",") (firstn k token) ++ c "." :: skipn (Datatypes.S k) token).

Definition commasStripped {rt : Runtime} (token : jsstring) : option Q :=
  parseFloat (removeAll (c ",") token).

(** The name under which a correction is stored. *)
Definition normalized {rt : Runtime} (nm : jsstring) : jsstring :=
  trim (toLowerCase nm).

(** A correction: the merchant name, the category, and the time of the
    call. *)
Definition correction : Type := (jsstring * jsstring * jsstring)%type.

(** Corrections of distinct merchants: none is found under the name of
    an earlier one (saveLearnedMerchant compares the lower-cased stored
    name with the normalized new one). *)
Definition distinctCorrections {rt : Runtime} (l : list correction) : Prop :=
  ForallOrdPairs
    (fun a b => toLowerCase (normalized (fst (fst a))) <> normalized (fst (fst b))) l.

(** The same, as a test on the stored names and their lower-case
    forms. *)
Fixpoint apart (keys : list (jsstring * jsstring)) : bool :=
  match keys with
  | [] => true
  | (lowered, _) :: keys' =>
    forallb (fun k => negb (JS.eqb lowered (snd k))) keys' && apart keys'
  end.

Definition distinctb {rt : Runtime} (l : list correction) : bool :=
  apart (List.map (fun cn => (toLowerCase (normalized (fst (fst cn))),
                              normalized (fst (fst cn)))) l).

(** The collection after a sequence of corrections, each read from what
    the last one wrote. *)
Definition recordAll {rt : Runtime} (l : list correction)
           (merchants : list LearnedMerchant) : list LearnedMerchant :=
  fold_left (fun ms cn => recorded (fst (fst cn)) (snd (fst cn)) (snd cn) ms)
            l merchants.

(** The test of suggestCategory on a learned entry: in engine v3, its
    name is within the merchant name, or holds it, or is within the
    text; in engine v2, the first and the last of these. *)
Definition merchantLower {rt : Runtime} (merchantName : option jsstring) : jsstring :=
  toLowerCase (match merchantName with Some nm => nm | None => [] end).

Definition matchesV3 {rt : Runtime} (text : jsstring)
           (merchantName : option jsstring) (learned : LearnedMerchant) : bool :=
  includes (merchantLower merchantName) (name learned)
  || includes (name learned) (merchantLower merchantName)
  || includes (toLowerCase text) (name learned).

Definition matchesV2 {rt : Runtime} (text : jsstring)
           (merchantName : option jsstring) (learned : LearnedMerchant) : bool :=
  includes (merchantLower merchantName) (name learned)
  || includes (toLowerCase text) (name learned).

(** The calls of saveLearnedMerchant for a sequence of corrections. *)
Fixpoint recordEach {S : Type} {ls : Storage S} {json : Json} {rt : Runtime}
         (l : list correction) : M S unit :=
  match l with
  | [] => ret tt
  | cn :: l' =>
    bind (saveLearnedMerchant (fst (fst cn)) (snd (fst cn)) (snd cn))
         (fun _ => recordEach l')
  end.

(** A JSON runtime reads back the collection it wrote, and writes no
    empty text. *)
Definition faithful (json : Json) : Prop :=
  forall l, JSON_parse (JSON_stringify l) = Ok l /\ JSON_stringify l <> [].

(** A field of a date, printed on [w] characters for each value of a
    range, keeps the order and the equality of the values. *)
Definition fieldOrdered (print : Z -> jsstring) (w : nat) (vals : list Z) : bool :=
  forallb (fun a =>
    forallb (fun b =>
      (length (print a) =? w)%nat
      && Bool.eqb (JS.leb (print a) (print b)) (a <=? b)%Z
      && Bool.eqb (JS.eqb (print a) (print b)) (a =? b)%Z) vals) vals.

(** The values of the fields of a date within the window. *)
Definition years : list Z := List.map (fun k => 2020 + Z.of_nat k)%Z (seq 0 11).
Definition months : list Z := List.map (fun k => 1 + Z.of_nat k)%Z (seq 0 12).
Definition days : list Z := List.map (fun k => 1 + Z.of_nat k)%Z (seq 0 31).

(** The store holds the collection [l]: under the key, there is its
    text, or nothing when it is empty. *)
Definition holds {json : Json} (s : list (jsstring * jsstring))
           (l : list LearnedMerchant) : Prop :=
  lookup LEARNED_MERCHANTS_KEY s = Some (JSON_stringify l)
  \/ (lookup LEARNED_MERCHANTS_KEY s = None /\ l = []).

(** A date as the engines return it, within the window of the
    validation. *)
Definition inWindow (d : jsstring) : Prop :=
  exists year month day : Z,
    d = isoDate year month day
    /\ (1 <= month <= 12)%Z /\ (1 <= day <= 31)%Z /\ (2020 <= year <= 2030)%Z.

(** The order of the calendar on year, month and day. *)
Definition notAfter (a b : Z * Z * Z) : Prop :=
  let '(y, m, d) := a in
  let '(y', m', d') := b in
  (y < y' \/ (y = y' /\ (m < m' \/ (m = m' /\ d <= d'))))%Z.

(** Section 4.2 on the date to prefer among those found: the most
    recent one that is not after today, and the first one found when
    all are after today.  Dates are in ISO form, which [JS.leb] orders
    as the calendar does. *)
Definition preferred (today : jsstring) (dates : list jsstring)
           (r : option jsstring) : Prop :=
  ((exists d, In d dates /\ JS.leb d today = true) ->
   exists m, r = Some m /\ In m dates /\ JS.leb m today = true
             /\ forall d, In d dates -> JS.leb d today = true -> JS.leb d m = true)
  /\
  ((forall d, In d dates -> JS.leb d today = false) -> r = hd_error dates).

End Spec.

(* ================================================================== *)
(** * User feedback (the same in the three engines)                    *)
(* ================================================================== *)

Module Feedback.

(** A string in a condition: the empty string is false. *)
Definition truthy (s : jsstring) : bool :=
  match s with
  | [] => false
  | _ :: _ => true
  end.

Section WithStore.
Context {S : Type} {ls : Storage S} {json : Json} {rt : Runtime}.

(** learnFromUserCorrection; [now1] and [now2] are the times that the
    first and the second call of saveLearnedMerchant read. *)
Definition learnFromUserCorrection (originalMerchant : option jsstring)
           (correctedName selectedCategory : jsstring) (now1 now2 : jsstring)
  : M S unit :=
  bind (if truthy correctedName && (2 <=? length correctedName)%nat
        then saveLearnedMerchant correctedName selectedCategory now1
        else ret tt)
       (fun _ =>
          match originalMerchant with
          | Some original =>
            if truthy original && negb (JS.eqb original correctedName)
               && (2 <=? length original)%nat
            then saveLearnedMerchant original selectedCategory now2
            else ret tt
          | None => ret tt
          end).

End WithStore.

End Feedback.

(* ================================================================== *)
(** * Engine v3: the merchant line and the whole result                *)
(* ================================================================== *)

Module V3Receipt.

(** Skip patterns (things that are NOT merchant names). *)
Definition skipPatterns : list re :=
  [ (* /^(receipt|invoice|bill|ticket|bon|factura|rechnung|ricevuta|fatura|kassenbon)/i *)
    ignoreCase
      (Seq Bol (Group 1 (alts (List.map lit
         ["receipt"; "invoice"; "bill"; "ticket"; "bon"; "factura";
          "rechnung"; "ricevuta"; "fatura"; "kassenbon"]%string))));
    (* /^\d+[\/\-\.]\d+[\/\-\.]\d+/ *)
    seqs [Bol; plus digit; oneOf (u "/-."); plus digit; oneOf (u "/-.");
          plus digit];
    (* /^\d{2}:\d{2}/ *)
    seqs [Bol; times 2 digit; chr ":"; times 2 digit];
    (* /^(tel|phone|fax|www\.|http|email)/i *)
    ignoreCase
      (Seq Bol (Group 1 (alts (List.map lit
         ["tel"; "phone"; "fax"; "www."; "http"; "email"]%string))));
    (* /^(address|adresse|indirizzo|adresa|straße|str\.|via)/i *)
    ignoreCase
      (Seq Bol (Group 1 (alts (List.map lit
         ["address"; "adresse"; "indirizzo"; "adresa"; "straße"; "str.";
          "via"]%string))));
    (* /^(thank|danke|grazie|merci|gracias)/i *)
    ignoreCase
      (Seq Bol (Group 1 (alts (List.map lit
         ["thank"; "danke"; "grazie"; "merci"; "gracias"]%string))));
    (* /^\d+$/ *)
    seqs [Bol; plus digit; Eol];
    (* /^[#\*\-=]+$/ *)
    seqs [Bol; plus (oneOf (u "#*-=")); Eol] ].

(** The class [[a-zA-Zäöüßàèéìòùñçăîâșț]]. *)
Definition isNameLetter (x : N) : bool :=
  isLetter x || existsb (N.eqb x) (u "äöüßàèéìòùñçăîâșț").

(** The class [[\w\s&'.-]], whose complement the cleanup removes. *)
Definition isNameChar (x : N) : bool :=
  isWord x || isSpace x || existsb (N.eqb x) (u "&'.-").

(** The tests of the loop on a line: the line is not skipped.  The
    ratio of letters is a quotient of two integers up to 50, and its
    comparison with 0.4 in binary64 is the comparison of the integers. *)
Definition candidate (cleaned : jsstring) : bool :=
  negb (existsb (fun p => test p cleaned) skipPatterns)
  && negb ((length cleaned <? 2) || (50 <? length cleaned))%nat
  && negb (5 * length (filter isNameLetter cleaned) <? 2 * length cleaned)%nat.

Section Extraction.
Context {rt : Runtime}.

(** What the loop returns for the line it stops at. *)
Definition nameOf (cleaned : jsstring) : jsstring :=
  let lowerLine := toLowerCase cleaned in
  match find (fun merchant =>
                existsb (fun pattern => includes lowerLine pattern)
                        (patterns merchant))
             V3.BUILT_IN_MERCHANTS with
  | Some merchant => displayName merchant
  | None => trim (filter isNameChar cleaned)
  end.

Definition extractMerchant (text : jsstring) : option jsstring :=
  let textLines := filter (fun l => (0 <? length l)%nat)
                          (List.map trim (split 10 text)) in
  (* Check first 7 lines for merchant *)
  option_map nameOf (find candidate (List.map trim (firstn 7 textLines))).

End Extraction.

(** The result of processReceiptImage, without the time it took. *)
Record ExtractedReceiptData : Type := {
  merchantName : option jsstring;
  total : option Q;
  subtotal : option Q;
  tax : option Q;
  date : option jsstring;
  suggestedCategory : option jsstring;
  categoryConfidence : confidence;
  rawText : jsstring;
  allAmounts : list Q;
  allDates : list jsstring;
  confidence : Q;
  usedNativeOCR : bool
}.

Section Processing.
Context {S : Type} {ls : Storage S} {json : Json} {rt : Runtime}.

(** processReceiptImage from the result of [worker.recognize] on:
    [text] and [conf] are [result.data.text] and
    [result.data.confidence]. *)
Definition processReceiptImage (text : jsstring) (conf : Q)
  : M S ExtractedReceiptData :=
  let amounts := V3.extractAllAmounts text in
  let dates := V3.extractAllDates text in
  let found := V3.extractTotals text amounts in
  let merchant := extractMerchant text in
  bind (V3.suggestCategory text merchant)
       (fun suggestion =>
          ret {| merchantName := merchant;
                 total := Shape.total found;
                 subtotal := Shape.subtotal found;
                 tax := Shape.tax found;
                 date := hd_error dates;
                 suggestedCategory := suggested suggestion;
                 categoryConfidence := certainty suggestion;
                 rawText := text;
                 allAmounts := amounts;
                 allDates := dates;
                 confidence := conf;
                 usedNativeOCR := false |}).

End Processing.

End V3Receipt.

(* ================================================================== *)
(** * Engine v2: the dates and the whole result                        *)
(* ================================================================== *)

Module V2Receipt.

Definition datePatterns : list re :=
  [ (* /(\d{1,2})[\.\/](\d{1,2})[\.\/](\d{4})/g *)
    seqs [Group 1 (rep 1 2 digit); oneOf (u "./"); Group 2 (rep 1 2 digit);
          oneOf (u "./"); Group 3 (times 4 digit)];
    (* /(\d{1,2})[\.\/](\d{1,2})[\.\/](\d{2})(?!\d)/g *)
    seqs [Group 1 (rep 1 2 digit); oneOf (u "./"); Group 2 (rep 1 2 digit);
          oneOf (u "./"); Group 3 (times 2 digit); NotAhead digit];
    (* /(\d{4})-(\d{2})-(\d{2})/g *)
    seqs [Group 1 (times 4 digit); chr "-"; Group 2 (times 2 digit); chr "-";
          Group 3 (times 2 digit)] ].

(** The year, month and day read from a match; [None] when one of
    them is [NaN]. *)
Definition dateOfMatch (m : result) : option (Z * Z * Z) :=
  let m1 := group 1 (groups m) in
  let m2 := group 2 (groups m) in
  let m3 := group 3 (groups m) in
  if (length m1 =? 4)%nat then
    match parseInt m1, parseInt m2, parseInt m3 with
    | Some year, Some month, Some day => Some (year, month, day)
    | _, _, _ => None
    end
  else
    match parseInt m1, parseInt m2, parseInt m3 with
    | Some day, Some month, Some year =>
      Some (if (year <? 100)%Z then (2000 + year)%Z else year, month, day)
    | _, _, _ => None
    end.

Definition dateOf (m : result) : list jsstring :=
  match dateOfMatch m with
  | Some (year, month, day) =>
    if validDate year month day then [isoDate year month day] else []
  | None => []
  end.

Definition extractAllDates (text : jsstring) : list jsstring :=
  dedup JS.eqb
    (flat_map (fun pattern => flat_map dateOf (execAll pattern text))
              datePatterns).

(** The result of processReceiptImage, without the time it took. *)
Record ExtractedReceiptData : Type := {
  merchantName : option jsstring;
  total : option Q;
  subtotal : option Q;
  tax : option Q;
  date : option jsstring;
  suggestedCategory : option jsstring;
  categoryConfidence : confidence;
  rawText : jsstring;
  allAmounts : list Q;
  allDates : list jsstring;
  confidence : Q;
  usedNativeOCR : bool
}.

Section Processing.
Context {S : Type} {ls : Storage S} {json : Json} {rt : Runtime}.

(** processReceiptImage from the result of [runRegionOCR] inside
    scanReceipt on. *)
Definition processReceiptImage (usedNative : bool)
           (ocrResult : Native.RegionOCRResult) : M S ExtractedReceiptData :=
  (* Use the native OCR bridge *)
  let nativeResult := Native.scanReceipt usedNative ocrResult in
  (* Get category suggestion *)
  bind (V2.suggestCategory (Native.rawText nativeResult)
                           (Native.merchantName nativeResult))
       (fun suggestion =>
          ret {| merchantName := Native.merchantName nativeResult;
                 total := Native.total nativeResult;
                 subtotal := Native.subtotal nativeResult;
                 tax := Native.tax nativeResult;
                 date := Native.date nativeResult;
                 suggestedCategory := suggested suggestion;
                 categoryConfidence := certainty suggestion;
                 rawText := Native.rawText nativeResult;
                 allAmounts := V2.extractAllAmounts (Native.rawText nativeResult);
                 allDates := extractAllDates (Native.rawText nativeResult);
                 confidence := Native.overallConfidence nativeResult;
                 usedNativeOCR := Native.usedNativeOCR nativeResult |}).

End Processing.

End V2Receipt.

(* ================================================================== *)
(** * The native bridge: the regions of the fallback                   *)
(* ================================================================== *)

Module Fallback.

Import Native.

(** [{ text, confidence, blocks }], the result of [runTesseractOCR]. *)
Record OCRResult : Type := {
  ocr_text : jsstring;
  ocr_confidence : Q;
  ocr_blocks : list TextBlock
}.

(** [l.join('\n')] *)
Fixpoint join (l : list jsstring) : jsstring :=
  match l with
  | [] => []
  | [s] => s
  | s :: l' => s ++ 10%N :: join l'
  end.

(** The three arrays that the loop of simulateRegions fills. *)
Record Split : Type := {
  topBlocks : list TextBlock;
  middleBlocks : list TextBlock;
  bottomBlocks : list TextBlock
}.

Section Regions.
Context {rt : Runtime}.

(** [block.bounds.y + block.bounds.height / 2] *)
Definition centerY (block : TextBlock) : Q :=
  binary64 (y (bounds block) + binary64 (height (bounds block) / 2)).

(** One turn of the loop over the blocks. *)
Definition place (acc : Split) (block : TextBlock) : Split :=
  if ltb (centerY block) (binary64 (2 # 10)) then
    {| topBlocks := topBlocks acc ++ [block];
       middleBlocks := middleBlocks acc; bottomBlocks := bottomBlocks acc |}
  else if ltb (binary64 (7 # 10)) (centerY block) then
    {| topBlocks := topBlocks acc; middleBlocks := middleBlocks acc;
       bottomBlocks := bottomBlocks acc ++ [block] |}
  else
    {| topBlocks := topBlocks acc;
       middleBlocks := middleBlocks acc ++ [block];
       bottomBlocks := bottomBlocks acc |}.

(** [blocks.reduce((sum, b) => sum + b.confidence, 0) / blocks.length * 100],
    and 0 for no block. *)
Definition calcRegionConfidence (blocks : list TextBlock) : Q :=
  match blocks with
  | [] => 0
  | _ :: _ =>
    let sum := fold_left (fun sum b => binary64 (sum + block_confidence b))
                         blocks 0 in
    binary64 (binary64 (sum / inject_Z (Z.of_nat (length blocks))) * 100)
  end.

Definition regionOf (blocks : list TextBlock) : RegionResult :=
  {| region_text := join (List.map block_text blocks);
     region_confidence := calcRegionConfidence blocks;
     Native.blocks := blocks |}.

Definition simulateRegions (ocrResult : OCRResult) : RegionOCRResult :=
  let placed := fold_left place (ocr_blocks ocrResult)
                          {| topBlocks := []; middleBlocks := [];
                             bottomBlocks := [] |} in
  {| text := ocr_text ocrResult;
     Native.confidence := ocr_confidence ocrResult;
     regions := {| top := regionOf (topBlocks placed);
                   middle := regionOf (middleBlocks placed);
                   bottom := regionOf (bottomBlocks placed) |} |}.

(** scanReceipt on the path of the fallback: [runRegionOCR] returns
    the simulated regions of the result of [runTesseractOCR]. *)
Definition scanFallback (usedNative : bool) (ocrResult : OCRResult)
  : ParsedReceiptData :=
  scanReceipt usedNative (simulateRegions ocrResult).

End Regions.

End Fallback.

(* ================================================================== *)
(** * The first engine: the fields and the whole result                *)
(* ================================================================== *)

Module V1Receipt.

Definition BUILT_IN_MERCHANTS : list MerchantMapping :=
  [
    Rule [u "starbucks"; u "sbux"] (u "Meals (Business)") (u "Starbucks");
    Rule [u "mcdonalds"; u "mcdonald's"; u "mcd"] (u "Meals (Business)") (u "McDonald's");
    Rule [u "subway"] (u "Meals (Business)") (u "Subway");
    Rule [u "chipotle"] (u "Meals (Business)") (u "Chipotle");
    Rule [u "panera"] (u "Meals (Business)") (u "Panera Bread");
    Rule [u "dunkin"; u "donuts"] (u "Meals (Business)") (u "Dunkin");
    Rule [u "dominos"; u "domino's"] (u "Meals (Business)") (u "Domino's");
    Rule [u "pizza hut"] (u "Meals (Business)") (u "Pizza Hut");
    Rule [u "uber eats"; u "ubereats"] (u "Meals (Business)") (u "Uber Eats");
    Rule [u "doordash"] (u "Meals (Business)") (u "DoorDash");
    Rule [u "grubhub"] (u "Meals (Business)") (u "Grubhub");
    Rule [u "shell"] (u "Travel") (u "Shell");
    Rule [u "chevron"] (u "Travel") (u "Chevron");
    Rule [u "exxon"; u "mobil"] (u "Travel") (u "Exxon");
    Rule [u "bp"] (u "Travel") (u "BP");
    Rule [u "76"; u "seventy six"] (u "Travel") (u "76");
    Rule [u "arco"] (u "Travel") (u "ARCO");
    Rule [u "costco gas"; u "costco fuel"] (u "Travel") (u "Costco Gas");
    Rule [u "sams club gas"] (u "Travel") (u "Sam's Club Gas");
    Rule [u "staples"] (u "Office Supplies") (u "Staples");
    Rule [u "office depot"; u "officemax"] (u "Office Supplies") (u "Office Depot");
    Rule [u "best buy"] (u "Equipment") (u "Best Buy");
    Rule [u "apple store"; u "apple.com"] (u "Equipment") (u "Apple");
    Rule [u "amazon"; u "amzn"] (u "Office Supplies") (u "Amazon");
    Rule [u "adobe"; u "creative cloud"] (u "Software / SaaS") (u "Adobe");
    Rule [u "microsoft"; u "msft"; u "office 365"; u "m365"] (u "Software / SaaS") (u "Microsoft");
    Rule [u "google"; u "goog"] (u "Software / SaaS") (u "Google");
    Rule [u "dropbox"] (u "Software / SaaS") (u "Dropbox");
    Rule [u "slack"] (u "Software / SaaS") (u "Slack");
    Rule [u "zoom"] (u "Software / SaaS") (u "Zoom");
    Rule [u "notion"] (u "Software / SaaS") (u "Notion");
    Rule [u "figma"] (u "Software / SaaS") (u "Figma");
    Rule [u "canva"] (u "Software / SaaS") (u "Canva");
    Rule [u "mailchimp"] (u "Software / SaaS") (u "Mailchimp");
    Rule [u "quickbooks"; u "intuit"] (u "Software / SaaS") (u "QuickBooks");
    Rule [u "verizon"; u "vzw"] (u "Phone / Internet") (u "Verizon");
    Rule [u "at&t"; u "att"] (u "Phone / Internet") (u "AT&T");
    Rule [u "t-mobile"; u "tmobile"] (u "Phone / Internet") (u "T-Mobile");
    Rule [u "comcast"; u "xfinity"] (u "Phone / Internet") (u "Comcast");
    Rule [u "spectrum"] (u "Phone / Internet") (u "Spectrum");
    Rule [u "uber"; u "uber trip"] (u "Travel") (u "Uber");
    Rule [u "lyft"] (u "Travel") (u "Lyft");
    Rule [u "delta"; u "delta air"] (u "Travel") (u "Delta Airlines");
    Rule [u "united"; u "united air"] (u "Travel") (u "United Airlines");
    Rule [u "american air"; u "aa.com"] (u "Travel") (u "American Airlines");
    Rule [u "southwest"; u "swa"] (u "Travel") (u "Southwest");
    Rule [u "hilton"] (u "Travel") (u "Hilton");
    Rule [u "marriott"] (u "Travel") (u "Marriott");
    Rule [u "airbnb"] (u "Travel") (u "Airbnb");
    Rule [u "hertz"] (u "Travel") (u "Hertz");
    Rule [u "enterprise"] (u "Travel") (u "Enterprise");
    Rule [u "walmart"; u "wal-mart"] (u "Office Supplies") (u "Walmart");
    Rule [u "target"] (u "Office Supplies") (u "Target");
    Rule [u "costco"] (u "Office Supplies") (u "Costco");
    Rule [u "sams club"; u "sam's"] (u "Office Supplies") (u "Sam's Club");
    Rule [u "home depot"] (u "Equipment") (u "Home Depot");
    Rule [u "lowes"; u "lowe's"] (u "Equipment") (u "Lowe's");
    Rule [u "usps"; u "postal service"] (u "Shipping / Delivery") (u "USPS");
    Rule [u "fedex"] (u "Shipping / Delivery") (u "FedEx");
    Rule [u "ups"] (u "Shipping / Delivery") (u "UPS");
    Rule [u "dhl"] (u "Shipping / Delivery") (u "DHL");
    Rule [u "chase"; u "jpmorgan"] (u "Bank Fees") (u "Chase");
    Rule [u "bank of america"; u "bofa"] (u "Bank Fees") (u "Bank of America");
    Rule [u "wells fargo"] (u "Bank Fees") (u "Wells Fargo");
    Rule [u "citi"; u "citibank"] (u "Bank Fees") (u "Citibank");
    Rule [u "paypal"] (u "Bank Fees") (u "PayPal");
    Rule [u "stripe"] (u "Bank Fees") (u "Stripe");
    Rule [u "square"] (u "Bank Fees") (u "Square");
    Rule [u "facebook ads"; u "meta ads"] (u "Advertising / Marketing") (u "Meta Ads");
    Rule [u "google ads"; u "adwords"] (u "Advertising / Marketing") (u "Google Ads");
    Rule [u "linkedin ads"] (u "Advertising / Marketing") (u "LinkedIn Ads");
    Rule [u "yelp ads"] (u "Advertising / Marketing") (u "Yelp Ads")
  ].

Definition CATEGORY_KEYWORDS : list (jsstring * list jsstring) :=
  [
    (u "Meals (Business)",
      [u "restaurant"; u "cafe"; u "coffee"; u "food"; u "diner"; u "grill";
       u "bistro"; u "kitchen"; u "eatery"; u "bar & grill"; u "pizzeria";
       u "bakery"; u "deli"; u "catering"]);
    (u "Travel",
      [u "gas"; u "fuel"; u "petroleum"; u "airline"; u "hotel"; u "motel";
       u "rental car"; u "parking"; u "toll"; u "transit"; u "taxi";
       u "rideshare"; u "airport"]);
    (u "Office Supplies",
      [u "office"; u "supplies"; u "paper"; u "ink"; u "toner";
       u "stationery"]);
    (u "Equipment",
      [u "computer"; u "laptop"; u "monitor"; u "printer"; u "electronics";
       u "hardware"; u "device"]);
    (u "Software / SaaS",
      [u "software"; u "subscription"; u "cloud"; u "app"; u "license";
       u "saas"; u "monthly plan"]);
    (u "Phone / Internet",
      [u "wireless"; u "cellular"; u "internet"; u "broadband"; u "wifi";
       u "telecom"; u "mobile"]);
    (u "Shipping / Delivery",
      [u "shipping"; u "postage"; u "courier"; u "freight"; u "delivery";
       u "mailing"]);
    (u "Advertising / Marketing",
      [u "advertising"; u "marketing"; u "promotion"; u "ads"; u "campaign";
       u "sponsor"]);
    (u "Professional Services",
      [u "legal"; u "attorney"; u "lawyer"; u "accounting"; u "cpa";
       u "consulting"; u "professional"]);
    (u "Insurance",
      [u "insurance"; u "coverage"; u "policy"; u "premium"]);
    (u "Utilities",
      [u "electric"; u "water"; u "sewer"; u "utility"; u "power"; u "energy"]);
    (u "Rent / Workspace",
      [u "rent"; u "lease"; u "coworking"; u "office space"; u "workspace"])
  ].

(** [\d{1,6}(?:,\d{3})*] *)
Definition grouped : re :=
  Seq (rep 1 6 digit) (Star (Seq (chr ",") (times 3 digit))).

(** [(\d{1,6}(?:,\d{3})*\.\d{2})] *)
Definition money : re :=
  Group 1 (seqs [grouped; chr "."; times 2 digit]).

Definition DATE_PATTERNS : list re :=
  [ (* /(\d{1,2})[\/\-](\d{1,2})[\/\-](\d{4})/g *)
    seqs [Group 1 (rep 1 2 digit); oneOf (u "/-"); Group 2 (rep 1 2 digit);
          oneOf (u "/-"); Group 3 (times 4 digit)];
    (* /(\d{1,2})[\/\-](\d{1,2})[\/\-](\d{2})(?!\d)/g *)
    seqs [Group 1 (rep 1 2 digit); oneOf (u "/-"); Group 2 (rep 1 2 digit);
          oneOf (u "/-"); Group 3 (times 2 digit); NotAhead digit];
    (* /(Jan|...|Dec)[a-z]*\.?\s+(\d{1,2}),?\s+(\d{4})/gi *)
    ignoreCase
      (seqs [Group 1 monthName; Star (Chr isLower); opt (chr "."); plus space;
             Group 2 (rep 1 2 digit); opt (chr ","); plus space;
             Group 3 (times 4 digit)]);
    (* /(\d{1,2})\s+(Jan|...|Dec)[a-z]*\.?\s+(\d{4})/gi *)
    ignoreCase
      (seqs [Group 1 (rep 1 2 digit); plus space; Group 2 monthName;
             Star (Chr isLower); opt (chr "."); plus space;
             Group 3 (times 4 digit)]) ].

Definition AMOUNT_PATTERNS : list re :=
  [ (* /\$\s?(\d{1,6}(?:,\d{3})*(?:\.\d{2})?)/g *)
    seqs [chr "$"; opt space;
          Group 1 (Seq grouped (opt (Seq (chr ".") (times 2 digit))))];
    (* /(?:total|amount|due|subtotal|tax|tip)[:\s]*(\d{1,6}(?:,\d{3})*\.\d{2})/gi *)
    ignoreCase
      (seqs [alts (List.map lit ["total"; "amount"; "due"; "subtotal"; "tax";
                                 "tip"]%string);
             Star (Chr (fun x => (x =? c ":")%N || isSpace x));
             money]);
    (* /(\d{1,6}(?:,\d{3})*\.\d{2})(?:\s|$)/g *)
    Seq money (Alt space Eol) ].

Definition TOTAL_KEYWORDS : list jsstring :=
  [u "grand total"; u "total due"; u "amount due"; u "balance due"; u "total";
   u "please pay"; u "amount"].

Definition SUBTOTAL_KEYWORDS : list jsstring :=
  [u "subtotal"; u "sub-total"; u "sub total"; u "merchandise"; u "items"].

Definition TAX_KEYWORDS : list jsstring :=
  [u "tax"; u "sales tax"; u "vat"; u "gst"; u "hst"; u "pst"].

(** [s.replace(',', '')]: the first comma only. *)
Fixpoint removeFirst (ch : N) (s : jsstring) : jsstring :=
  match s with
  | [] => []
  | x :: s' => if (x =? ch)%N then s' else x :: removeFirst ch s'
  end.

(** The first result of a loop that ends at its first success. *)
Fixpoint firstSome (A B : Type) (f : A -> option B) (l : list A) : option B :=
  match l with
  | [] => None
  | x :: l' =>
    match f x with
    | Some v => Some v
    | None => firstSome f l'
    end
  end.

Section Extraction.
Context {rt : Runtime}.

(** What one match of a pattern contributes to [amounts]. *)
Definition amountOf (m : result) : list Q :=
  let numStr := match group 1 (groups m) with
                | [] => matched m
                | x :: t => x :: t
                end in
  let cleaned := filter (fun x => negb ((x =? c "$")%N || (x =? c ",")%N
                                        || isSpace x)) numStr in
  match parseFloat cleaned with
  | Some num => if ltb 0 num && ltb num 100000 then [num] else []
  | None => []
  end.

Definition extractAllAmounts (text : jsstring) : list Q :=
  uniqueDescending
    (flat_map (fun pattern => flat_map amountOf (execAll pattern text))
              AMOUNT_PATTERNS).

(** The year, month and day read from a match; [None] when one of
    them is [NaN] or [undefined], or when the loop goes on to the next
    match. *)
Definition dateOfMatch (m : result) : option (Z * Z * Z) :=
  let m1 := group 1 (groups m) in
  let m2 := group 2 (groups m) in
  let m3 := group 3 (groups m) in
  if match matched m with
     | x :: _ => isDigit x
     | [] => false
     end
  then
    (* Numeric format *)
    if (length m3 =? 4)%nat then
      (* MM/DD/YYYY *)
      match parseInt m1, parseInt m2, parseInt m3 with
      | Some month, Some day, Some year => Some (year, month, day)
      | _, _, _ => None
      end
    else if (length m3 =? 2)%nat then
      (* MM/DD/YY *)
      match parseInt m1, parseInt m2, parseInt m3 with
      | Some month, Some day, Some year => Some ((2000 + year)%Z, month, day)
      | _, _, _ => None
      end
    else None
  else
    (* Text month format *)
    let monthStr := match firstn 3 (toLowerCase m1) with
                    | [] => firstn 3 (toLowerCase m2)
                    | x :: t => x :: t
                    end in
    match lookup monthStr monthMap with
    | None => None
    | Some month =>
      if existsb isLetter m1 then
        (* "Jan 15, 2025" *)
        match parseInt m2, parseInt m3 with
        | Some day, Some year => Some (year, month, day)
        | _, _ => None
        end
      else
        (* "15 January 2025" *)
        match parseInt m1, parseInt m3 with
        | Some day, Some year => Some (year, month, day)
        | _, _ => None
        end
    end.

Definition dateOf (m : result) : list jsstring :=
  match dateOfMatch m with
  | Some (year, month, day) =>
    if validDate year month day then [isoDate year month day] else []
  | None => []
  end.

Definition extractAllDates (text : jsstring) : list jsstring :=
  dedup JS.eqb
    (flat_map (fun pattern => flat_map dateOf (execAll pattern text))
              DATE_PATTERNS).

(** The amount of a line of extractAmounts: the first match of the
    money pattern, its first comma removed. *)
Definition lineAmount (line : jsstring) : option Q :=
  match search money line with
  | Some amountMatch => parseFloat (removeFirst (c ",") (group 1 (groups amountMatch)))
  | None => None
  end.

(** One of the three loops of extractAmounts: the amount of the first
    line that holds a keyword and a valid amount. *)
Definition keywordAmount (keywords : list jsstring)
           (holds : jsstring -> jsstring -> bool) (valid : Q -> bool)
           (lines : list jsstring) : option Q :=
  firstSome (fun line =>
    firstSome (fun keyword =>
      if holds line keyword then
        match lineAmount line with
        | Some amount => if valid amount then Some amount else None
        | None => None
        end
      else None) keywords) lines.

Definition extractAmounts (text : jsstring) (allAmounts : list Q) : Totals :=
  match allAmounts with
  | [] => {| Shape.total := None; Shape.subtotal := None; Shape.tax := None |}
  | _ :: _ =>
    let lines := split 10 (toLowerCase text) in
    let total0 :=
      keywordAmount TOTAL_KEYWORDS (fun line keyword => includes line keyword)
                    (fun amount => ltb 0 amount) lines in
    let subtotal0 :=
      keywordAmount SUBTOTAL_KEYWORDS (fun line keyword => includes line keyword)
                    (fun amount => ltb 0 amount) lines in
    let tax0 :=
      keywordAmount TAX_KEYWORDS
                    (fun line keyword =>
                       includes line keyword
                       && negb (includes line (u "pre-tax"))
                       && negb (includes line (u "pre tax")))
                    (fun amount =>
                       ltb 0 amount
                       && ltb amount (orElse total0
                                        (orElse (hd_error allAmounts) 1000)))
                    lines in
    (* Fallback: if no total found, use the largest amount *)
    {| Shape.total := match total0 with
                      | None => hd_error allAmounts
                      | Some t => Some t
                      end;
       Shape.subtotal := subtotal0;
       Shape.tax := tax0 |}
  end.

Definition skipWords : list jsstring :=
  [u "receipt"; u "date"; u "time"; u "order"; u "item"; u "qty"; u "price";
   u "total"; u "tax"; u "cash"; u "card"; u "change"; u "thank"].

(** [line.replace(/[^a-zA-Z\s]/g, '').trim()] *)
Definition cleanLine (line : jsstring) : jsstring :=
  trim (filter (fun x => isLetter x || isSpace x) line).

Definition extractMerchantName (text : jsstring) : option jsstring :=
  let lines := filter (fun l => (0 <? length l)%nat)
                      (List.map trim (split 10 text)) in
  find (fun cleaned =>
          (3 <=? length cleaned)%nat && (length cleaned <? 50)%nat
          && negb (existsb (fun p => startsWith (toLowerCase cleaned) p)
                           skipWords))
       (List.map cleanLine (firstn 5 lines)).

Definition suggestFrom (learnedMerchants : list LearnedMerchant)
           (text : jsstring) (merchantName : option jsstring) : Suggestion :=
  let textLower := toLowerCase text in
  let merchantLower :=
    toLowerCase (match merchantName with
                 | Some (x :: t) => x :: t
                 | Some [] | None => []
                 end) in
  match find (fun learned =>
                includes merchantLower (name learned)
                || includes textLower (name learned))
             learnedMerchants with
  | Some learned => {| suggested := Some (category learned); certainty := high |}
  | None =>
    match find (fun merchant =>
                  existsb (fun pattern => includes textLower pattern
                                          || includes merchantLower pattern)
                          (patterns merchant))
               BUILT_IN_MERCHANTS with
    | Some merchant =>
      {| suggested := Some (mcategory merchant); certainty := high |}
    | None =>
      match find (fun entry =>
                    existsb (fun keyword => includes textLower keyword)
                            (snd entry))
                 CATEGORY_KEYWORDS with
      | Some entry => {| suggested := Some (fst entry); certainty := medium |}
      | None => {| suggested := None; certainty := low |}
      end
    end
  end.

End Extraction.

(** The result of processReceiptImage, without the time it took. *)
Record ExtractedReceiptData : Type := {
  merchantName : option jsstring;
  total : option Q;
  subtotal : option Q;
  tax : option Q;
  date : option jsstring;
  suggestedCategory : option jsstring;
  categoryConfidence : confidence;
  rawText : jsstring;
  allAmounts : list Q;
  allDates : list jsstring;
  confidence : Q
}.

Section Processing.
Context {S : Type} {ls : Storage S} {json : Json} {rt : Runtime}.

Definition suggestCategory (text : jsstring) (merchantName : option jsstring)
  : M S Suggestion :=
  bind getLearnedMerchants
       (fun learnedMerchants => ret (suggestFrom learnedMerchants text merchantName)).

(** processReceiptImage from the result of [worker.recognize] on;
    [today] is the date that extractBestDate reads. *)
Definition processReceiptImage (today : jsstring) (text : jsstring) (conf : Q)
  : M S ExtractedReceiptData :=
  let amounts := extractAllAmounts text in
  let dates := extractAllDates text in
  let found := extractAmounts text amounts in
  let merchant := extractMerchantName text in
  bind (suggestCategory text merchant)
       (fun suggestion =>
          ret {| merchantName := merchant;
                 total := Shape.total found;
                 subtotal := Shape.subtotal found;
                 tax := Shape.tax found;
                 date := V1.extractBestDate today dates;
                 suggestedCategory := suggested suggestion;
                 categoryConfidence := certainty suggestion;
                 rawText := text;
                 allAmounts := amounts;
                 allDates := dates;
                 confidence := conf |}).

End Processing.

End V1Receipt.

(* ================================================================== *)
(** * More vocabulary for the statements                               *)
(* ================================================================== *)

Module Laws.

(** A store that never fails and keeps what it is given, as
    [localStorage] does within its quota. *)
Record lawful (S : Type) (ls : Storage S) : Prop := {
  reads : forall k s, exists v, getItem k s = (Ok v, s);
  writes : forall k v s,
      exists s', setItem k v s = (Ok tt, s') /\ getItem k s' = (Ok (Some v), s');
  removes : forall k s,
      exists s', removeItem k s = (Ok tt, s') /\ getItem k s' = (Ok None, s')
}.

(** The entry that saveLearnedMerchant adds for a merchant it does not
    find. *)
Definition fresh {rt : Runtime} (nm cat now : jsstring) : LearnedMerchant :=
  {| name := Spec.normalized nm; category := cat; timesUsed := 1;
     lastUsed := now |}.

(** No stored entry is found under the name [nm]. *)
Definition unknown {rt : Runtime} (nm : jsstring) (l : list LearnedMerchant)
  : Prop :=
  forall m, In m l -> toLowerCase (name m) <> Spec.normalized nm.

(** What the statements on confidences take from the arithmetic of
    binary64: the rounding keeps the order, and changes no integer up
    to 2^53. *)
Definition rounding (rt : Runtime) : Prop :=
  (forall a b : Q, a <= b -> binary64 a <= binary64 b)
  /\ (forall n : Z, (Z.abs n <= 2 ^ 53)%Z -> binary64 (inject_Z n) == inject_Z n).

(** The tests of simulateRegions on the centre of a block. *)
Definition inTop {rt : Runtime} (b : Native.TextBlock) : bool :=
  ltb (Fallback.centerY b) (binary64 (2 # 10)).

Definition inBottom {rt : Runtime} (b : Native.TextBlock) : bool :=
  negb (inTop b) && ltb (binary64 (7 # 10)) (Fallback.centerY b).

Definition inMiddle {rt : Runtime} (b : Native.TextBlock) : bool :=
  negb (inTop b) && negb (ltb (binary64 (7 # 10)) (Fallback.centerY b)).

(** What a match is, for the statements on the matches of a pattern:
    from the cursor [c] with the captures [g], the pattern consumes the
    word [w] and leaves the cursor [c'] and the captures [g'].  Every
    match that the matcher finds is one ([run_sound]). *)
Inductive Matches : re -> cursor -> captures -> jsstring -> cursor -> captures -> Prop :=
| MEps c g : Matches Eps c g [] c g
| MChr (p : N -> bool) b x t g :
    p x = true -> Matches (Chr p) (Cursor b (x :: t)) g [x] (Cursor (Some x) t) g
| MSeq r1 r2 c g w1 c1 g1 w2 c2 g2 :
    Matches r1 c g w1 c1 g1 -> Matches r2 c1 g1 w2 c2 g2 ->
    Matches (Seq r1 r2) c g (w1 ++ w2) c2 g2
| MAltL r1 r2 c g w c' g' :
    Matches r1 c g w c' g' -> Matches (Alt r1 r2) c g w c' g'
| MAltR r1 r2 c g w c' g' :
    Matches r2 c g w c' g' -> Matches (Alt r1 r2) c g w c' g'
| MStar0 r c g : Matches (Star r) c g [] c g
| MStarS r c g w1 c1 g1 w2 c2 g2 :
    Matches r c g w1 c1 g1 -> Matches (Star r) c1 g1 w2 c2 g2 ->
    Matches (Star r) c g (w1 ++ w2) c2 g2
| MGroup i r c g w c' g' :
    Matches r c g w c' g' -> Matches (Group i r) c g w c' ((i, w) :: g')
| MBol c g : before c = None -> Matches Bol c g [] c g
| MEol c g : rest c = [] -> Matches Eol c g [] c g
| MWordB c g :
    xorb (isWordAt (before c)) (isWordAt (hd_error (rest c))) = true ->
    Matches WordB c g [] c g
| MNotAhead r c g : Matches (NotAhead r) c g [] c g.

(** A pattern without a capturing group. *)
Fixpoint groupless (r : re) : bool :=
  match r with
  | Eps | Chr _ | Bol | Eol | WordB | NotAhead _ => true
  | Seq r1 r2 | Alt r1 r2 => groupless r1 && groupless r2
  | Star r1 => groupless r1
  | Group _ _ => false
  end.

(** The test of suggestCategory of the first engine on a learned
    entry, which is that of engine v2. *)
Definition matchesV1 {rt : Runtime} := @Spec.matchesV2 rt.

(** The character before the cursor once the word [w] is consumed. *)
Definition after (b : option N) (w : jsstring) : option N :=
  fold_left (fun _ x => Some x) w b.

(** The class [[,.\s]] that separates the groups of a money token. *)
Definition separator (x : N) : bool := includesChar (u ",.") x || isSpace x.

(** [(?:[,.\s]\d{3})*] on the whole of [s]. *)
Fixpoint groupsOf3 (s : jsstring) : bool :=
  match s with
  | [] => true
  | x :: a :: b :: d :: s' =>
    separator x && isDigit a && isDigit b && isDigit d && groupsOf3 s'
  | _ => false
  end.

(** The integer part of a money token as the amount patterns of
    engine v3 and of engine v2 match it, [\d{1,3}(?:[,.\s]\d{3})*]:
    one to three digits, then groups of a separator and three digits. *)
Definition integerPart (s : jsstring) : bool :=
  existsb (fun n => (n <=? length s)%nat && forallb isDigit (firstn n s)
                    && groupsOf3 (skipn n s))
          [1; 2; 3]%nat.

(** What extractAllAmounts returns when the one amount it reads is
    [num]: the amount, if it passes the test on its range. *)
Definition kept (num : Q) : list Q :=
  if ltb 0 num && ltb num 100000 then [num] else [].

(** The read of the learned merchants in the state [s] fails, and
    leaves the state [s']: [getItem] throws, or nothing is stored
    under the key, or the empty text is, or [JSON.parse] rejects the
    text that is. *)
Definition unreadable {S : Type} {ls : Storage S} {json : Json} (s s' : S) : Prop :=
  (exists e, getItem LEARNED_MERCHANTS_KEY s = (Throw e, s'))
  \/ getItem LEARNED_MERCHANTS_KEY s = (Ok None, s')
  \/ getItem LEARNED_MERCHANTS_KEY s = (Ok (Some []), s')
  \/ (exists x t e, getItem LEARNED_MERCHANTS_KEY s = (Ok (Some (x :: t)), s')
                    /\ JSON_parse (x :: t) = Throw e).

End Laws.

Module Cases.

(** A collection of [n] merchants, "0 market", "1 market", ..., each
    used once. *)
Definition stored (n : nat) : list LearnedMerchant :=
  List.map (fun k => {| name := ofN (N.of_nat k) ++ u " market";
                        category := u "Office Supplies"; timesUsed := 1;
                        lastUsed := u "2025-01-01T00:00:00.000Z" |})
           (seq 0 n).

(** The store that holds the collection [l] in the serialization of
    [Demo.lengthPrefixed]. *)
Definition holding (l : list LearnedMerchant) : list (jsstring * jsstring) :=
  [(LEARNED_MERCHANTS_KEY, @JSON_stringify Demo.lengthPrefixed l)].

End Cases.

(* ================================================================== *)
(** * Properties                                                       *)
(* ================================================================== *)

(** ** The matcher: every match of the engines' patterns consumes *)

Lemma run_consumes (r : re) :
  forall (A : Type) (c : cursor) (g : captures)
         (k : cursor -> captures -> option A) (v : A),
    run r c g k = Some v ->
    exists c' g',
      k c' g' = Some v
      /\ (length (rest c') <= length (rest c))%nat
      /\ (consuming r = true -> (length (rest c') < length (rest c))%nat).
Proof.
  induction r as [| p | r1 IH1 r2 IH2 | r1 IH1 r2 IH2 | r1 IH1 | i r1 IH1
                  | | | | r1 IH1];
    intros A c g k v H; simpl in H.
  - exists c, g. repeat split; [exact H | lia | discriminate].
  - destruct c as [b [| x t]]; simpl in H; [discriminate |].
    destruct (p x); [| discriminate].
    eexists; eexists. split; [exact H |]. simpl. split; lia.
  - apply IH1 in H. destruct H as [c1 [g1 [H [L1 S1]]]].
    apply IH2 in H. destruct H as [c2 [g2 [H [L2 S2]]]].
    exists c2, g2. split; [exact H |]. split; [lia |].
    simpl. intros E. apply orb_true_iff in E. destruct E as [E | E].
    + specialize (S1 E). lia.
    + specialize (S2 E). lia.
  - destruct (run r1 c g k) as [v1 |] eqn:E1.
    + injection H as <-. apply IH1 in E1. destruct E1 as [c1 [g1 [H [L1 S1]]]].
      exists c1, g1. split; [exact H |]. split; [exact L1 |].
      simpl. intros E. apply andb_true_iff in E. apply S1, E.
    + apply IH2 in H. destruct H as [c2 [g2 [H [L2 S2]]]].
      exists c2, g2. split; [exact H |]. split; [exact L2 |].
      simpl. intros E. apply andb_true_iff in E. apply S2, E.
  - assert (G : forall n c0 g0,
               (fix loop (n : nat) (c0 : cursor) (g0 : captures) {struct n} : option A :=
                  match n with
                  | O => k c0 g0
                  | S n' =>
                    match run r1 c0 g0
                              (fun c' g' =>
                                 if (length (rest c') <? length (rest c0))%nat
                                 then loop n' c' g' else None) with
                    | Some v => Some v
                    | None => k c0 g0
                    end
                  end) n c0 g0 = Some v ->
               exists c' g', k c' g' = Some v
                             /\ (length (rest c') <= length (rest c0))%nat).
    { induction n as [| n IHn]; intros c0 g0 Hn.
      - exists c0, g0. split; [exact Hn | lia].
      - match type of Hn with
        | match ?m with _ => _ end = _ => destruct m as [v1 |] eqn:E1
        end.
        + injection Hn as <-. apply IH1 in E1.
          destruct E1 as [c1 [g1 [H1 [L1 _]]]].
          destruct (length (rest c1) <? length (rest c0))%nat; [| discriminate].
          apply IHn in H1. destruct H1 as [c2 [g2 [H2 L2]]].
          exists c2, g2. split; [exact H2 | lia].
        + exists c0, g0. split; [exact Hn | lia]. }
    apply G in H. destruct H as [c' [g' [H L]]].
    exists c', g'. repeat split; [exact H | exact L | discriminate].
  - apply IH1 in H. destruct H as [c1 [g1 [H [L1 S1]]]].
    eexists; eexists. split; [exact H |]. split; [exact L1 | exact S1].
  - destruct (before c); [discriminate |].
    exists c, g. repeat split; [exact H | lia | discriminate].
  - destruct (rest c) eqn:E; [| discriminate].
    exists c, g. rewrite E. repeat split; [exact H | simpl; lia | discriminate].
  - destruct (xorb _ _); [| discriminate].
    exists c, g. repeat split; [exact H | lia | discriminate].
  - destruct (run r1 c g (fun _ _ => Some tt)); [discriminate |].
    exists c, g. repeat split; [exact H | lia | discriminate].
Qed.

Lemma matchAt_consumes (r : re) (c : cursor) (m : result) :
  consuming r = true -> matchAt r c = Some m ->
  matched m <> [] /\ (length (rest (next m)) < length (rest c))%nat.
Proof.
  intros Hc H. unfold matchAt in H. apply run_consumes in H.
  destruct H as [c' [g' [H [_ L]]]]. specialize (L Hc).
  injection H as <-. simpl. split; [| exact L].
  unfold consumed. destruct (rest c) as [| x t]; simpl length in *; [lia |].
  destruct (S (length t) - length (rest c'))%nat eqn:E; [lia | simpl; discriminate].
Qed.

Lemma searchFrom_consumes (r : re) (s : jsstring) (prev : option N) (m : result) :
  consuming r = true -> searchFrom r prev s = Some m ->
  matched m <> [] /\ (length (rest (next m)) < length s)%nat.
Proof.
  intros Hc. revert prev. induction s as [| x s IH]; intros prev H; simpl in H.
  - destruct (matchAt r (Cursor prev [])) as [m1 |] eqn:E; [| discriminate].
    injection H as <-. apply (matchAt_consumes r _ Hc E).
  - destruct (matchAt r (Cursor prev (x :: s))) as [m1 |] eqn:E.
    + injection H as <-. apply (matchAt_consumes r _ Hc E).
    + apply IH in H. destruct H as [H1 H2]. split; [exact H1 | simpl; lia].
Qed.

(** The loop over the matches of a consuming pattern sees no empty
    match, and the fuel it is given is enough: more fuel finds the same
    matches. *)
Lemma execLoop_nonempty (r : re) (fuel : nat) (prev : option N) (s : jsstring) :
  consuming r = true ->
  Forall (fun m => matched m <> []) (execLoop fuel r prev s).
Proof.
  intros Hc. revert prev s. induction fuel as [| fuel IH]; intros prev s; simpl.
  - constructor.
  - destruct (searchFrom r prev s) as [m |] eqn:E; [| constructor].
    destruct (searchFrom_consumes r s prev Hc E) as [Hm _].
    destruct (matched m) as [| x t] eqn:Em; [congruence |].
    constructor; [rewrite Em; discriminate | apply IH].
Qed.

Lemma execLoop_fuel (r : re) (f1 f2 : nat) (prev : option N) (s : jsstring) :
  consuming r = true -> (length s < f1)%nat -> (length s < f2)%nat ->
  execLoop f1 r prev s = execLoop f2 r prev s.
Proof.
  intros Hc. revert f2 prev s.
  induction f1 as [| f1 IH]; intros [| f2] prev s L1 L2; try lia.
  simpl. destruct (searchFrom r prev s) as [m |] eqn:E; [| reflexivity].
  destruct (searchFrom_consumes r s prev Hc E) as [Hm Hl].
  destruct (matched m) as [| x t]; [congruence |].
  f_equal. apply IH; lia.
Qed.

(** The patterns that the engines loop over are consuming. *)
Lemma patterns_consuming :
  forallb consuming V3.amountPatterns = true
  /\ forallb consuming V3.datePatterns = true
  /\ consuming V2.amountPattern = true
  /\ consuming Native.amountPattern = true.
Proof. repeat split. Qed.

(** ** Arrays: sets and sorting *)

Section ArrayFacts.
Variable A : Type.

Lemma In_insert (notAfter : A -> A -> bool) (x z : A) (l : list A) :
  In z (insert notAfter x l) <-> z = x \/ In z l.
Proof.
  induction l as [| y l IH]; simpl.
  - intuition congruence.
  - destruct (notAfter y x); simpl; rewrite ?IH; intuition congruence.
Qed.

Lemma In_fold_insert (notAfter : A -> A -> bool) (z : A) (l acc : list A) :
  In z (fold_left (fun a x => insert notAfter x a) l acc) <-> In z l \/ In z acc.
Proof.
  revert acc; induction l as [| y l IH]; intros acc; simpl.
  - tauto.
  - rewrite IH, In_insert. intuition congruence.
Qed.

Lemma In_sort (notAfter : A -> A -> bool) (z : A) (l : list A) :
  In z (sort notAfter l) <-> In z l.
Proof. unfold sort. rewrite In_fold_insert. simpl. tauto. Qed.

Lemma length_insert (notAfter : A -> A -> bool) (x : A) (l : list A) :
  length (insert notAfter x l) = S (length l).
Proof.
  induction l as [| y l IH]; simpl; [reflexivity |].
  destruct (notAfter y x); simpl; congruence.
Qed.

Lemma length_sort (notAfter : A -> A -> bool) (l : list A) :
  length (sort notAfter l) = length l.
Proof.
  unfold sort.
  assert (H : forall acc, length (fold_left (fun a x => insert notAfter x a) l acc)
                          = (length l + length acc)%nat).
  { induction l as [| y l IH]; intros acc; simpl; [reflexivity |].
    rewrite IH, length_insert. lia. }
  rewrite H. simpl. lia.
Qed.

Lemma In_firstn_prefix (n : nat) (l : list A) (z : A) :
  In z (firstn n l) -> In z l.
Proof.
  revert n; induction l as [| y l IH]; intros [| n]; simpl; try tauto.
  intros [H | H]; [left; exact H | right; eapply IH, H].
Qed.

Lemma In_skipn_suffix (n : nat) (l : list A) (z : A) :
  In z (skipn n l) -> In z l.
Proof.
  revert n; induction l as [| y l IH]; intros [| n]; simpl; try tauto.
  intros H. right. eapply IH, H.
Qed.

Lemma In_dedupFrom (same : A -> A -> bool) (z : A) (l seen : list A) :
  In z (dedupFrom same seen l) -> In z l.
Proof.
  revert seen; induction l as [| y l IH]; intros seen; simpl; [tauto |].
  destruct (existsb (same y) seen); simpl; intros H.
  - right. eapply IH, H.
  - destruct H as [H | H]; [left; exact H | right; eapply IH, H].
Qed.

End ArrayFacts.

Lemma Qeq_bool_false (a b : Q) : Qeq_bool a b = false -> ~ a == b.
Proof.
  intros H E. apply Qeq_bool_iff in E. congruence.
Qed.

Lemma dedupFrom_distinct (l seen : list Q) :
  Spec.distinct (dedupFrom Qeq_bool seen l)
  /\ forall a b, In a (dedupFrom Qeq_bool seen l) -> In b seen -> ~ a == b.
Proof.
  revert seen; induction l as [| y l IH]; intros seen; simpl.
  - split; [constructor | tauto].
  - destruct (existsb (Qeq_bool y) seen) eqn:E.
    + apply IH.
    + destruct (IH (y :: seen)) as [D F]. split.
      * constructor; [| exact D].
        apply Forall_forall. intros b Hb Eyb.
        apply (F b y Hb); [left; reflexivity | symmetry; exact Eyb].
      * intros a b [Ha | Ha] Hb.
        -- subst a. apply Qeq_bool_false.
           destruct (Qeq_bool y b) eqn:Eb; [| reflexivity].
           rewrite <- E. symmetry. apply existsb_exists. exists b. tauto.
        -- apply (F a b Ha). right. exact Hb.
Qed.

Lemma insert_descending (x : Q) (l : list Q) :
  Spec.descending l -> (forall y, In y l -> ~ y == x) ->
  Spec.descending (insert (fun a b => Qle_bool (b - a) 0) x l).
Proof.
  unfold Spec.descending.
  induction l as [| y l IH]; intros Hs Hd; simpl.
  - repeat constructor.
  - apply StronglySorted_inv in Hs. destruct Hs as [Hs Hy].
    destruct (Qle_bool (x - y) 0) eqn:E.
    + apply Qle_bool_iff in E.
      assert (Hxy : x < y).
      { assert (Hn : ~ y == x) by (apply Hd; left; reflexivity).
        destruct (Qlt_le_dec x y) as [L | L]; [exact L |].
        exfalso. apply Hn. apply Qle_antisym; lra. }
      constructor.
      * apply IH; [exact Hs | intros z Hz; apply Hd; right; exact Hz].
      * apply Forall_forall. intros z Hz. apply In_insert in Hz.
        destruct Hz as [-> | Hz]; [exact Hxy |].
        rewrite Forall_forall in Hy. apply Hy, Hz.
    + assert (Hyx : y < x).
      { destruct (Qlt_le_dec y x) as [L | L]; [exact L |].
        assert (C : Qle_bool (x - y) 0 = true) by (apply Qle_bool_iff; lra).
        congruence. }
      constructor.
      * constructor; assumption.
      * constructor; [exact Hyx |].
        rewrite Forall_forall in Hy |- *. intros z Hz.
        specialize (Hy z Hz). simpl in Hy. lra.
Qed.

Lemma sort_descending (l : list Q) :
  Spec.distinct l -> Spec.descending (sort (fun a b => Qle_bool (b - a) 0) l).
Proof.
  unfold sort.
  assert (H : forall acc, Spec.descending acc -> Spec.distinct l ->
                          (forall a b, In a acc -> In b l -> ~ a == b) ->
                          Spec.descending (fold_left
                            (fun a x => insert (fun a b => Qle_bool (b - a) 0) x a) l acc)).
  { induction l as [| y l IH]; intros acc Ha Hd Hx; simpl; [exact Ha |].
    inversion Hd as [| ? ? Hy Hd']; subst.
    apply IH.
    - apply insert_descending; [exact Ha |].
      intros z Hz. apply Hx; [exact Hz | left; reflexivity].
    - exact Hd'.
    - intros a b Hin Hb. apply In_insert in Hin. destruct Hin as [-> | Hin].
      + rewrite Forall_forall in Hy. apply Hy, Hb.
      + apply Hx; [exact Hin | right; exact Hb]. }
  intros Hd. apply H; [constructor | exact Hd | intros a b []].
Qed.

Lemma uniqueDescending_descending (amounts : list Q) :
  Spec.descending (uniqueDescending amounts).
Proof. apply sort_descending, dedupFrom_distinct. Qed.

Lemma In_uniqueDescending (v : Q) (amounts : list Q) :
  In v (uniqueDescending amounts) -> In v amounts.
Proof.
  unfold uniqueDescending, dedup. rewrite In_sort. apply In_dedupFrom.
Qed.

Lemma descending_distinct (l : list Q) : Spec.descending l -> Spec.distinct l.
Proof.
  induction 1 as [| a l Hs IH Ha]; constructor; [| exact IH].
  rewrite Forall_forall in Ha |- *. intros b Hb E.
  specialize (Ha b Hb). simpl in Ha. lra.
Qed.

Lemma descending_sorted (l : list Q) :
  Spec.descending l -> StronglySorted (fun a b => b <= a) l.
Proof.
  induction 1 as [| a l Hs IH Ha]; constructor; [exact IH |].
  rewrite Forall_forall in Ha |- *. intros b Hb.
  specialize (Ha b Hb). simpl in Ha. lra.
Qed.

Lemma ltb_lt (a b : Q) : ltb a b = true <-> a < b.
Proof.
  unfold ltb. rewrite negb_true_iff. split; intros H.
  - destruct (Qlt_le_dec a b) as [L | L]; [exact L |].
    apply Qle_bool_iff in L. congruence.
  - destruct (Qle_bool b a) eqn:E; [| reflexivity].
    apply Qle_bool_iff in E. lra.
Qed.

(** ** C6: the amounts found *)

Section Amounts.
Context {rt : Runtime}.

Lemma V3_amountOf_range (raw : jsstring) (v : Q) :
  In v (V3.amountOf raw) -> 0 < v /\ v < 100000.
Proof.
  unfold V3.amountOf.
  destruct (V3.parseAmount raw) as [num |]; [| intros []].
  destruct (ltb 0 num && ltb num 100000) eqn:E; [| intros []].
  apply andb_true_iff in E. destruct E as [E1 E2].
  apply ltb_lt in E1, E2.
  intros [<- | []]. split; assumption.
Qed.

Lemma V2_amountOf_range (raw : jsstring) (v : Q) :
  In v (V2.amountOf raw) -> 0 < v /\ v < 100000.
Proof.
  unfold V2.amountOf.
  destruct (V2.parseAmount raw) as [num |]; [| intros []].
  destruct (ltb 0 num && ltb num 100000) eqn:E; [| intros []].
  apply andb_true_iff in E. destruct E as [E1 E2].
  apply ltb_lt in E1, E2.
  intros [<- | []]. split; assumption.
Qed.

(** C6.  In both engines the amounts returned by extractAllAmounts are
    in descending order, hold no value twice, and lie strictly between
    0 and 100000, whatever the text. *)
Theorem extractAllAmounts_descending_unique_in_range (text : jsstring) :
  (StronglySorted (fun a b => b <= a) (V3.extractAllAmounts text)
   /\ ForallOrdPairs (fun a b => ~ a == b) (V3.extractAllAmounts text)
   /\ Forall (fun v => 0 < v /\ v < 100000) (V3.extractAllAmounts text))
  /\
  (StronglySorted (fun a b => b <= a) (V2.extractAllAmounts text)
   /\ ForallOrdPairs (fun a b => ~ a == b) (V2.extractAllAmounts text)
   /\ Forall (fun v => 0 < v /\ v < 100000) (V2.extractAllAmounts text)).
Proof.
  split.
  - pose proof (uniqueDescending_descending
                  (flat_map (fun pattern =>
                     flat_map (fun m => V3.amountOf (group 1 (groups m)))
                              (execAll pattern text)) V3.amountPatterns)) as D.
    fold (V3.extractAllAmounts text) in D.
    repeat split.
    + apply descending_sorted, D.
    + apply descending_distinct, D.
    + apply Forall_forall. intros v Hv.
      apply In_uniqueDescending in Hv.
      apply in_flat_map in Hv. destruct Hv as [p [_ Hv]].
      apply in_flat_map in Hv. destruct Hv as [m [_ Hv]].
      eapply V3_amountOf_range, Hv.
  - pose proof (uniqueDescending_descending
                  (flat_map (fun m => V2.amountOf (group 1 (groups m)))
                            (execAll V2.amountPattern text))) as D.
    fold (V2.extractAllAmounts text) in D.
    repeat split.
    + apply descending_sorted, D.
    + apply descending_distinct, D.
    + apply Forall_forall. intros v Hv.
      apply In_uniqueDescending in Hv.
      apply in_flat_map in Hv. destruct Hv as [m [_ Hv]].
      eapply V2_amountOf_range, Hv.
Qed.

End Amounts.

(** ** C5: the normalization of money tokens *)

Section Tokens.

Lemma existsb_absent (q : N -> bool) (ch : N) (s : jsstring) :
  forallb q s = true -> q ch = false -> includesChar s ch = false.
Proof.
  unfold includesChar. intros Hs Hq.
  induction s as [| x s IH]; simpl in *; [reflexivity |].
  apply andb_true_iff in Hs. destruct Hs as [Hx Hs].
  rewrite (IH Hs), orb_false_r.
  destruct (N.eqb_spec ch x) as [-> |]; congruence.
Qed.

Lemma includesChar_app (s t : jsstring) (ch : N) :
  includesChar (s ++ t) ch = includesChar s ch || includesChar t ch.
Proof. unfold includesChar. apply existsb_app. Qed.

Lemma removeAll_app (ch : N) (s t : jsstring) :
  removeAll ch (s ++ t) = removeAll ch s ++ removeAll ch t.
Proof. unfold removeAll. apply filter_app. Qed.

Lemma removeAll_absent (ch : N) (s : jsstring) :
  includesChar s ch = false -> removeAll ch s = s.
Proof.
  unfold includesChar, removeAll.
  induction s as [| x s IH]; simpl; [reflexivity |].
  intros H. apply orb_false_iff in H. destruct H as [Hx Hs].
  rewrite N.eqb_sym, Hx. simpl. f_equal. apply IH, Hs.
Qed.

Lemma includesChar_removeAll (ch ch' : N) (s : jsstring) :
  includesChar s ch = false -> includesChar (removeAll ch' s) ch = false.
Proof.
  unfold includesChar, removeAll.
  induction s as [| x s IH]; simpl; [reflexivity |].
  intros H. apply orb_false_iff in H. destruct H as [Hx Hs].
  destruct (negb (x =? ch')%N); simpl; rewrite ?Hx; auto.
Qed.

Lemma replaceFirst_here (ch by_ : N) (s t : jsstring) :
  includesChar s ch = false ->
  replaceFirst ch by_ (s ++ ch :: t) = s ++ by_ :: t.
Proof.
  unfold includesChar.
  induction s as [| x s IH]; simpl.
  - rewrite N.eqb_refl. reflexivity.
  - intros H. apply orb_false_iff in H. destruct H as [Hx Hs].
    rewrite N.eqb_sym, Hx. f_equal. apply IH, Hs.
Qed.

Lemma split_here (ch : N) (s t : jsstring) :
  includesChar s ch = false -> includesChar t ch = false ->
  split ch (s ++ ch :: t) = [s; t].
Proof.
  unfold includesChar. intros Hs Ht.
  assert (Et : split ch t = [t]).
  { clear Hs. induction t as [| x t IH]; simpl in *; [reflexivity |].
    apply orb_false_iff in Ht. destruct Ht as [Hx Ht].
    rewrite N.eqb_sym, Hx, (IH Ht). reflexivity. }
  induction s as [| x s IH]; simpl in *.
  - rewrite N.eqb_refl, Et. reflexivity.
  - apply orb_false_iff in Hs. destruct Hs as [Hx Hs].
    rewrite N.eqb_sym, Hx, (IH Hs). reflexivity.
Qed.

Lemma lastIndexFrom_app (ch : N) (s t : jsstring) (i last : Z) :
  lastIndexFrom i ch (s ++ t) last
  = lastIndexFrom (i + Z.of_nat (length s)) ch t (lastIndexFrom i ch s last).
Proof.
  revert i last; induction s as [| x s IH]; intros i last; simpl length.
  - simpl. f_equal. lia.
  - simpl app. simpl lastIndexFrom. rewrite IH. f_equal. lia.
Qed.

Lemma lastIndexFrom_absent (ch : N) (s : jsstring) (i last : Z) :
  includesChar s ch = false -> lastIndexFrom i ch s last = last.
Proof.
  unfold includesChar.
  revert i last; induction s as [| x s IH]; intros i last; simpl; [reflexivity |].
  intros H. apply orb_false_iff in H. destruct H as [Hx Hs].
  rewrite N.eqb_sym, Hx. apply IH, Hs.
Qed.

Lemma lastIndexFrom_bound (ch : N) (s : jsstring) (i last : Z) :
  (last < i -> lastIndexFrom i ch s last < i + Z.of_nat (length s))%Z.
Proof.
  revert i last; induction s as [| x s IH]; intros i last H; simpl length.
  - simpl. lia.
  - simpl lastIndexFrom.
    specialize (IH (i + 1)%Z (if (x =? ch)%N then i else last)).
    destruct (x =? ch)%N; lia.
Qed.

(** In [s ++ ch :: t] with no [ch] in [t], the last [ch] is at [|s|],
    and a character that occurs in [s] alone has its last index below. *)
Lemma lastIndexOf_here (ch : N) (s t : jsstring) :
  includesChar t ch = false ->
  lastIndexOf (s ++ ch :: t) ch = Z.of_nat (length s).
Proof.
  intros Ht. unfold lastIndexOf.
  rewrite lastIndexFrom_app. simpl lastIndexFrom.
  rewrite N.eqb_refl. apply lastIndexFrom_absent, Ht.
Qed.

Lemma lastIndexOf_before (ch : N) (s t : jsstring) :
  includesChar t ch = false ->
  (lastIndexOf (s ++ t) ch < Z.of_nat (length s))%Z.
Proof.
  intros Ht. unfold lastIndexOf.
  rewrite lastIndexFrom_app, lastIndexFrom_absent by exact Ht.
  apply lastIndexFrom_bound. lia.
Qed.

Lemma span_digits (ds r : jsstring) :
  forallb isDigit ds = true ->
  match r with [] => True | x :: _ => isDigit x = false end ->
  span isDigit (ds ++ r) = (ds, r).
Proof.
  intros Hd Hr. induction ds as [| x ds IH]; simpl in *.
  - destruct r as [| y r]; [reflexivity |]. simpl. rewrite Hr. reflexivity.
  - apply andb_true_iff in Hd. destruct Hd as [Hx Hd].
    rewrite Hx, (IH Hd). reflexivity.
Qed.

Context {rt : Runtime}.

(** [parseFloat] of digits, a dot and digits. *)
Lemma parseFloat_decimal (ds fs : jsstring) :
  forallb isDigit ds = true -> forallb isDigit fs = true -> ds <> [] ->
  parseFloat (ds ++ c "." :: fs)
  = Some (binary64 (decimal (ds ++ fs) # Z.to_pos (10 ^ Z.of_nat (length fs)))).
Proof.
  intros Hd Hf Hn. unfold parseFloat.
  rewrite (span_digits ds (c "." :: fs) Hd) by reflexivity.
  change ((c "." =? c ".")%N) with true. cbv iota.
  pose proof (span_digits fs [] Hf I) as E. rewrite app_nil_r in E.
  rewrite E. simpl fst.
  destruct ds as [| d ds]; [congruence | reflexivity].
Qed.

(** [parseFloat] of digits alone. *)
Lemma parseFloat_integer (ds : jsstring) :
  forallb isDigit ds = true -> ds <> [] ->
  parseFloat ds = Some (binary64 (decimal ds # 1)).
Proof.
  intros Hd Hn. unfold parseFloat.
  pose proof (span_digits ds [] Hd I) as E. rewrite app_nil_r in E.
  rewrite E. cbv iota. rewrite app_nil_r.
  destruct ds as [| d ds]; [congruence | reflexivity].
Qed.

End Tokens.

Section Normalization.

Lemma digit_not_space (x : N) : isDigit x = true -> isSpace x = false.
Proof.
  unfold isDigit. intros H. apply andb_true_iff in H. destruct H as [H1 H2].
  apply N.leb_le in H1, H2.
  assert (C : In x [48; 49; 50; 51; 52; 53; 54; 55; 56; 57]%N) by (simpl; lia).
  simpl in C.
  repeat (destruct C as [<- | C]; [reflexivity |]). destruct C.
Qed.

Lemma removeSpaces_digits (fs : jsstring) :
  Spec.digits fs = true -> removeSpaces fs = fs.
Proof.
  unfold Spec.digits, removeSpaces.
  induction fs as [| x fs IH]; simpl; [reflexivity |].
  intros H. apply andb_true_iff in H. destruct H as [Hx Hf].
  rewrite (digit_not_space x Hx). simpl. f_equal. apply IH, Hf.
Qed.

Lemma digits_filter (s : jsstring) : forallb isDigit (filter isDigit s) = true.
Proof.
  induction s as [| x s IH]; simpl; [reflexivity |].
  destruct (isDigit x) eqn:E; simpl; rewrite ?E; exact IH.
Qed.

Variable by_ : N.
Hypothesis by_not_digit : isDigit by_ = false.
Hypothesis by_not_space : isSpace by_ = false.

(** Without its spaces, a grouped integer part holds digits and the
    grouping separator only. *)
Lemma grouped_chars (i : jsstring) (ch : N) :
  Spec.grouped by_ i = true -> isDigit ch = false -> ch <> by_ ->
  includesChar (removeSpaces i) ch = false.
Proof.
  unfold Spec.grouped, removeSpaces, includesChar. intros H Hd Hn.
  induction i as [| x i IH]; simpl in *; [reflexivity |].
  apply andb_true_iff in H. destruct H as [Hx Hi].
  destruct (isSpace x) eqn:Es; simpl; [apply IH, Hi |].
  rewrite (IH Hi), orb_false_r.
  rewrite orb_false_r in Hx. apply orb_true_iff in Hx.
  destruct (N.eqb_spec ch x) as [-> |]; [| reflexivity].
  destruct Hx as [Hx | Hx]; [congruence |].
  apply N.eqb_eq in Hx. congruence.
Qed.

Lemma grouped_includes (i : jsstring) :
  includesChar i by_ = true -> includesChar (removeSpaces i) by_ = true.
Proof.
  unfold removeSpaces, includesChar.
  induction i as [| x i IH]; simpl; [congruence |].
  intros H. apply orb_true_iff in H.
  destruct (N.eqb_spec by_ x) as [<- | Hne].
  - rewrite by_not_space. simpl. rewrite N.eqb_refl. reflexivity.
  - destruct H as [H | H]; [discriminate |].
    destruct (isSpace x); simpl; rewrite (IH H); auto using orb_true_r.
Qed.

Lemma grouped_digits (i : jsstring) :
  Spec.grouped by_ i = true ->
  removeAll by_ (removeSpaces i) = filter isDigit i.
Proof.
  unfold Spec.grouped, removeSpaces, removeAll. intros H.
  induction i as [| x i IH]; simpl in *; [reflexivity |].
  apply andb_true_iff in H. destruct H as [Hx Hi].
  destruct (isDigit x) eqn:Ed.
  - rewrite (digit_not_space x Ed). simpl.
    destruct (N.eqb_spec x by_) as [-> |]; [congruence |].
    simpl. f_equal. apply IH, Hi.
  - destruct (isSpace x) eqn:Es; simpl; [apply IH, Hi |].
    simpl in Hx. rewrite orb_false_r in Hx. rewrite Hx. simpl. apply IH, Hi.
Qed.

End Normalization.

Section MoneyTokens.
Context {rt : Runtime}.

Lemma digits_absent (fs : jsstring) (ch : N) :
  Spec.digits fs = true -> isDigit ch = false -> includesChar fs ch = false.
Proof. intros H Hc. exact (existsb_absent isDigit ch fs H Hc). Qed.

Lemma removeSpaces_token (i fs : jsstring) (ch : N) :
  isSpace ch = false -> Spec.digits fs = true ->
  removeSpaces (i ++ ch :: fs) = removeSpaces i ++ ch :: fs.
Proof.
  intros Hc Hf. unfold removeSpaces at 1. rewrite filter_app. simpl.
  rewrite Hc. simpl. fold (removeSpaces fs). rewrite (removeSpaces_digits fs Hf).
  reflexivity.
Qed.

(** The two branches for a token with both separators come to the
    same in the two engines: [last] is the separator that occurs
    last, once, and [by_] the other one. *)
Lemma both_separators (normalize : jsstring -> jsstring) (last by_ : N)
      (i fs : jsstring) :
  isDigit last = false -> isSpace last = false ->
  isDigit by_ = false -> isSpace by_ = false -> last <> by_ ->
  Spec.grouped by_ i = true -> includesChar i by_ = true ->
  Spec.digits fs = true -> filter isDigit i <> [] ->
  normalize (removeSpaces i ++ last :: fs)
    = replaceFirst last (c ".") (removeAll by_ (removeSpaces i ++ last :: fs)) ->
  parseFloat (normalize (removeSpaces (i ++ last :: fs)))
    = Some (Spec.fixed (filter isDigit i ++ fs) (length fs)).
Proof.
  intros Hld Hls Hbd Hbs Hne Hi Hin Hf Hnz Hnorm.
  rewrite (removeSpaces_token i fs last Hls Hf), Hnorm.
  rewrite removeAll_app. simpl removeAll.
  destruct (N.eqb_spec last by_) as [E | _]; [contradiction |]. simpl.
  rewrite (grouped_digits by_ Hbd Hbs i Hi).
  rewrite (removeAll_absent by_ fs (digits_absent fs by_ Hf Hbd)).
  rewrite replaceFirst_here
    by (apply (existsb_absent isDigit); [apply digits_filter | exact Hld]).
  apply parseFloat_decimal; [apply digits_filter | exact Hf | exact Hnz].
Qed.

Ltac chars := first [reflexivity | discriminate | assumption].

(** European: 1.234,56 *)
Lemma V3_european (i fs : jsstring) :
  Spec.grouped (c ".") i = true -> includesChar i (c ".") = true ->
  Spec.digits fs = true -> filter isDigit i <> [] ->
  V3.parseAmount (i ++ c "," :: fs)
    = Some (Spec.fixed (filter isDigit i ++ fs) (length fs)).
Proof.
  intros Hi Hin Hf Hnz. unfold V3.parseAmount.
  apply (both_separators V3.normalizeAmount (last := c ",") (by_ := c "."));
    try chars.
  unfold V3.normalizeAmount.
  rewrite !includesChar_app.
  rewrite (grouped_includes (c ".") eq_refl i Hin).
  replace (includesChar (c "," :: fs) (c ",")) with true by reflexivity.
  rewrite orb_true_r. simpl andb.
  rewrite (lastIndexOf_here (c ",") (removeSpaces i) fs)
    by (apply digits_absent; chars).
  pose proof (lastIndexOf_before (c ".") (removeSpaces i) (c "," :: fs)) as B.
  assert (Hd : includesChar (c "," :: fs) (c ".") = false)
    by (apply (digits_absent fs (c ".")) in Hf; [exact Hf | reflexivity]).
  specialize (B Hd).
  destruct (Z.gtb_spec (Z.of_nat (length (removeSpaces i)))
                       (lastIndexOf (removeSpaces i ++ c "," :: fs) (c ".")));
    [reflexivity | lia].
Qed.

(** US: 1,234.56 *)
Lemma V3_us (i fs : jsstring) :
  Spec.grouped (c ",") i = true -> includesChar i (c ",") = true ->
  Spec.digits fs = true -> filter isDigit i <> [] ->
  V3.parseAmount (i ++ c "." :: fs)
    = Some (Spec.fixed (filter isDigit i ++ fs) (length fs)).
Proof.
  intros Hi Hin Hf Hnz. unfold V3.parseAmount.
  apply (both_separators V3.normalizeAmount (last := c ".") (by_ := c ","));
    try chars.
  unfold V3.normalizeAmount.
  rewrite !includesChar_app.
  rewrite (grouped_includes (c ",") eq_refl i Hin).
  replace (includesChar (c "." :: fs) (c ".")) with true by reflexivity.
  rewrite orb_true_r. simpl andb.
  rewrite (lastIndexOf_here (c ".") (removeSpaces i) fs)
    by (apply digits_absent; chars).
  pose proof (lastIndexOf_before (c ",") (removeSpaces i) (c "." :: fs)) as B.
  assert (Hd : includesChar (c "." :: fs) (c ",") = false)
    by (apply (digits_absent fs (c ",")) in Hf; [exact Hf | reflexivity]).
  specialize (B Hd).
  destruct (Z.gtb_spec (lastIndexOf (removeSpaces i ++ c "." :: fs) (c ","))
                       (Z.of_nat (length (removeSpaces i))));
    [lia |].
  (* the dot is already the decimal point: nothing is replaced *)
  rewrite removeAll_app. simpl removeAll.
  rewrite replaceFirst_here; [reflexivity |].
  apply includesChar_removeAll.
  apply (grouped_chars (by_ := c ",")); chars.
Qed.

Lemma same_with_both (s : jsstring) :
  includesChar s (c ".") && includesChar s (c ",") = true ->
  V2.normalizeAmount s = V3.normalizeAmount s.
Proof.
  intros H. unfold V2.normalizeAmount, V3.normalizeAmount. rewrite H. reflexivity.
Qed.

Lemma both_in_token (by_ last : N) (i fs : jsstring) :
  isSpace last = false -> isSpace by_ = false -> Spec.digits fs = true ->
  includesChar i by_ = true ->
  includesChar (removeSpaces (i ++ last :: fs)) by_ = true
  /\ includesChar (removeSpaces (i ++ last :: fs)) last = true.
Proof.
  intros Hl Hb Hf Hin. rewrite (removeSpaces_token i fs last Hl Hf).
  rewrite !includesChar_app. split.
  - rewrite (grouped_includes by_ Hb i Hin). reflexivity.
  - unfold includesChar at 2. simpl. rewrite N.eqb_refl. apply orb_true_r.
Qed.

Lemma V2_european (i fs : jsstring) :
  Spec.grouped (c ".") i = true -> includesChar i (c ".") = true ->
  Spec.digits fs = true -> filter isDigit i <> [] ->
  V2.parseAmount (i ++ c "," :: fs)
    = Some (Spec.fixed (filter isDigit i ++ fs) (length fs)).
Proof.
  intros Hi Hin Hf Hnz. unfold V2.parseAmount.
  destruct (both_in_token (c ".") (c ",") i fs eq_refl eq_refl Hf Hin) as [B1 B2].
  rewrite same_with_both by (rewrite B1, B2; reflexivity).
  apply V3_european; assumption.
Qed.

Lemma V2_us (i fs : jsstring) :
  Spec.grouped (c ",") i = true -> includesChar i (c ",") = true ->
  Spec.digits fs = true -> filter isDigit i <> [] ->
  V2.parseAmount (i ++ c "." :: fs)
    = Some (Spec.fixed (filter isDigit i ++ fs) (length fs)).
Proof.
  intros Hi Hin Hf Hnz. unfold V2.parseAmount.
  destruct (both_in_token (c ",") (c ".") i fs eq_refl eq_refl Hf Hin) as [B1 B2].
  rewrite same_with_both by (rewrite B1, B2; reflexivity).
  apply V3_us; assumption.
Qed.

Lemma spaced_digits (i : jsstring) :
  Spec.spaced i = true -> removeSpaces i = filter isDigit i.
Proof.
  unfold Spec.spaced, removeSpaces.
  induction i as [| x i IH]; simpl; [reflexivity |].
  intros H. apply andb_true_iff in H. destruct H as [Hx Hi].
  destruct (isDigit x) eqn:Ed.
  - rewrite (digit_not_space x Ed). simpl. f_equal. apply IH, Hi.
  - simpl in Hx. rewrite Hx. simpl. apply IH, Hi.
Qed.

(** What either engine does with a token whose one separator is a
    comma, once the branch of the test on [parts] is known. *)
Lemma one_comma (normalize : jsstring -> jsstring) (i fs : jsstring) :
  Spec.spaced i = true -> Spec.digits fs = true -> filter isDigit i <> [] ->
  (forall ds, Spec.digits ds = true ->
     normalize (ds ++ c "," :: fs)
     = if (length fs =? 2)%nat
       then replaceFirst (c ",") (c ".") (ds ++ c "," :: fs)
       else removeAll (c ",") (ds ++ c "," :: fs)) ->
  parseFloat (normalize (removeSpaces (i ++ c "," :: fs)))
    = Some (if (length fs =? 2)%nat
            then Spec.fixed (filter isDigit i ++ fs) 2
            else Spec.fixed (filter isDigit i ++ fs) 0).
Proof.
  intros Hi Hf Hnz Hnorm.
  rewrite (removeSpaces_token i fs (c ",") eq_refl Hf), (spaced_digits i Hi).
  rewrite Hnorm by apply digits_filter.
  destruct (Nat.eqb_spec (length fs) 2) as [E | E].
  - rewrite replaceFirst_here
      by (apply (existsb_absent isDigit); [apply digits_filter | reflexivity]).
    rewrite parseFloat_decimal; [| apply digits_filter | exact Hf | exact Hnz].
    rewrite E. reflexivity.
  - rewrite removeAll_app. simpl removeAll.
    rewrite !removeAll_absent
      by (apply (existsb_absent isDigit); [first [apply digits_filter | exact Hf]
                                          | reflexivity]).
    rewrite parseFloat_integer.
    + reflexivity.
    + rewrite forallb_app, digits_filter. exact Hf.
    + intros C. apply app_eq_nil in C. tauto.
Qed.

Lemma V3_comma (i fs : jsstring) :
  Spec.spaced i = true -> Spec.digits fs = true -> filter isDigit i <> [] ->
  V3.parseAmount (i ++ c "," :: fs)
    = Some (if (length fs =? 2)%nat
            then Spec.fixed (filter isDigit i ++ fs) 2
            else Spec.fixed (filter isDigit i ++ fs) 0).
Proof.
  intros Hi Hf Hnz. unfold V3.parseAmount.
  apply one_comma; try assumption.
  intros ds Hd. unfold V3.normalizeAmount.
  rewrite !includesChar_app.
  rewrite (digits_absent ds (c ".") Hd eq_refl).
  replace (includesChar (c "," :: fs) (c ".")) with false
    by (symmetry; apply (digits_absent fs (c ".") Hf eq_refl)).
  replace (includesChar (c "," :: fs) (c ",")) with true by reflexivity.
  rewrite orb_true_r. simpl andb. cbv iota.
  rewrite split_here by (apply digits_absent; chars).
  reflexivity.
Qed.

Lemma V2_comma (i fs : jsstring) :
  Spec.spaced i = true -> Spec.digits fs = true -> filter isDigit i <> [] ->
  V2.parseAmount (i ++ c "," :: fs)
    = Some (if (length fs =? 2)%nat
            then Spec.fixed (filter isDigit i ++ fs) 2
            else Spec.fixed (filter isDigit i ++ fs) 0).
Proof.
  intros Hi Hf Hnz. unfold V2.parseAmount.
  apply one_comma; try assumption.
  intros ds Hd. unfold V2.normalizeAmount.
  rewrite !includesChar_app.
  rewrite (digits_absent ds (c ".") Hd eq_refl).
  replace (includesChar (c "," :: fs) (c ".")) with false
    by (symmetry; apply (digits_absent fs (c ".") Hf eq_refl)).
  replace (includesChar (c "," :: fs) (c ",")) with true by reflexivity.
  rewrite orb_true_r. simpl andb. cbv iota.
  rewrite split_here by (apply digits_absent; chars).
  reflexivity.
Qed.

End MoneyTokens.


(** ** C1: total and subtotal *)

(** C1, as stated, fails in the bridge: its extractTotals assigns the
    total 40 and the subtotal 50 and returns them as they are. *)
Lemma native_totals_not_swapped :
  let r := @Native.extractTotals asciiRuntime (Demo.region [] 0)
             (Demo.lines ["Total 40"; "Subtotal 50"]%string) in
  total r = Some (40 # 1) /\ subtotal r = Some (50 # 1) /\ ~ (50 # 1 <= 40 # 1).
Proof.
  split; [reflexivity | split; [reflexivity |]].
  intros H. vm_compute in H. apply H. reflexivity.
Qed.

(** C1, amended.  Whatever the text and the amounts, the total that
    extractTotals of engine v3 returns is not below the subtotal it
    returns; when the keywords assign a subtotal above the total, the
    two are returned swapped.  (The bridge does not swap.) *)
Theorem V3_total_not_below_subtotal {rt : Runtime}
        (text : jsstring) (allAmounts : list Q) :
  (forall t st,
      total (V3.extractTotals text allAmounts) = Some t ->
      subtotal (V3.extractTotals text allAmounts) = Some st ->
      st <= t)
  /\
  (forall t st,
      total (V3.assignTotals text allAmounts) = Some t ->
      subtotal (V3.assignTotals text allAmounts) = Some st ->
      t < st ->
      V3.extractTotals text allAmounts
      = {| total := Some st; subtotal := Some t;
           tax := tax (V3.assignTotals text allAmounts) |}).
Proof.
  unfold V3.extractTotals.
  destruct (V3.assignTotals text allAmounts) as [[t0 |] [st0 |] tx]; simpl;
    split; intros t st Ht Hst; try discriminate.
  - destruct (ltb t0 st0) eqn:E; simpl in Ht, Hst;
      injection Ht as <-; injection Hst as <-.
    + apply ltb_lt in E. lra.
    + destruct (Qlt_le_dec t0 st0) as [L | L]; [| exact L].
      apply ltb_lt in L. congruence.
  - injection Ht as <-; injection Hst as <-. intros L.
    apply ltb_lt in L. rewrite L. reflexivity.
Qed.

Lemma V3_total_not_below_subtotal_witness :
  @V3.extractTotals asciiRuntime
     (Demo.lines ["Total 40.00"; "Subtotal 50.00"]%string) []
  = {| total := Some (5000 # 100); subtotal := Some (4000 # 100); tax := None |}.
Proof.
  exact (proj2 (@V3_total_not_below_subtotal asciiRuntime
                  (Demo.lines ["Total 40.00"; "Subtotal 50.00"]%string) [])
               (4000 # 100) (5000 # 100) eq_refl eq_refl eq_refl).
Defined.

(** ** C7: the window of the dates *)

Lemma validDate_window (year month day : Z) :
  validDate year month day = true ->
  (1 <= month <= 12)%Z /\ (1 <= day <= 31)%Z /\ (2020 <= year <= 2030)%Z.
Proof.
  unfold validDate. rewrite !andb_true_iff, !Z.leb_le. lia.
Qed.

Section Dates.
Context {rt : Runtime}.

Lemma V3_dateOf_window (m : result) (d : jsstring) :
  In d (V3.dateOf m) -> Spec.inWindow d.
Proof.
  unfold V3.dateOf.
  destruct (V3.dateOfMatch m) as [[[year month] day] |]; [| intros []].
  destruct (validDate year month day) eqn:E; [| intros []].
  intros [<- | []]. exists year, month, day.
  split; [reflexivity | apply validDate_window, E].
Qed.

Lemma Native_dateFrom_window (p : Native.dateForm * re) (text d : jsstring) :
  Native.dateFrom p text = Some d -> Spec.inWindow d.
Proof.
  unfold Native.dateFrom.
  destruct (search (snd p) text) as [m |]; [| discriminate].
  destruct (Native.dateOfMatch (fst p) m) as [[[year month] day] |];
    [| discriminate].
  destruct (validDate year month day) eqn:E; [| discriminate].
  intros H. injection H as <-. exists year, month, day.
  split; [reflexivity | apply validDate_window, E].
Qed.

(** C7.  Every date that extractAllDates of engine v3 or extractDate
    of the bridge returns has its month in 1..12, its day in 1..31 and
    its year in 2020..2030, with no check of the length of the month;
    a match whose year is outside the window yields no date, as the
    token 15/03/2035 shows. *)
Theorem dates_within_window (text : jsstring) :
  (forall d, In d (V3.extractAllDates text) -> Spec.inWindow d)
  /\ (forall d, Native.extractDate text = Some d -> Spec.inWindow d)
  /\ (forall m year month day,
         V3.dateOfMatch m = Some (year, month, day) ->
         ~ (2020 <= year <= 2030)%Z -> V3.dateOf m = [])
  /\ V3.extractAllDates (u "15/03/2035") = []
  /\ Native.extractDate (u "15/03/2035") = None
  /\ V3.extractAllDates (u "31/02/2025") = [u "2025-02-31"].
Proof.
  split; [| split; [| split; [| split; [| split]]]].
  - intros d Hd. unfold V3.extractAllDates, dedup in Hd.
    apply In_dedupFrom in Hd.
    apply in_flat_map in Hd. destruct Hd as [p [_ Hd]].
    apply in_flat_map in Hd. destruct Hd as [m [_ Hd]].
    eapply V3_dateOf_window, Hd.
  - unfold Native.extractDate.
    induction Native.datePatterns as [| p ps IH]; intros d; simpl.
    + discriminate.
    + destruct (Native.dateFrom p text) as [d' |] eqn:E.
      * intros H. injection H as <-. eapply Native_dateFrom_window, E.
      * apply IH.
  - intros m year month day Hm Hy. unfold V3.dateOf. rewrite Hm.
    destruct (validDate year month day) eqn:E; [| reflexivity].
    apply validDate_window in E. tauto.
  - reflexivity.
  - reflexivity.
  - reflexivity.
Qed.

End Dates.

Lemma dates_within_window_witness :
  In (u "2025-03-15") (@V3.extractAllDates asciiRuntime (u "15/03/2025"))
  /\ Spec.inWindow (u "2025-03-15").
Proof.
  assert (H : In (u "2025-03-15") (@V3.extractAllDates asciiRuntime (u "15/03/2025")))
    by (left; reflexivity).
  split; [exact H |].
  exact (proj1 (@dates_within_window asciiRuntime (u "15/03/2025")) _ H).
Defined.

(** ** Sorting with a total order *)

Section SortOrder.
Variable A : Type.
Variable R : A -> A -> bool.
Hypothesis R_total : forall a b, R a b = false -> R b a = true.
Hypothesis R_trans : forall a b c, R a b = true -> R b c = true -> R a c = true.

Let ordered : list A -> Prop := StronglySorted (fun a b => R a b = true).

Lemma insert_ordered (x : A) (l : list A) : ordered l -> ordered (insert R x l).
Proof.
  unfold ordered.
  induction 1 as [| y l Hs IH Hy]; simpl.
  - repeat constructor.
  - destruct (R y x) eqn:E.
    + constructor; [exact IH |].
      apply Forall_forall. intros z Hz. apply In_insert in Hz.
      destruct Hz as [-> | Hz]; [exact E |].
      rewrite Forall_forall in Hy. apply Hy, Hz.
    + apply R_total in E. constructor.
      * constructor; assumption.
      * constructor; [exact E |].
        rewrite Forall_forall in Hy |- *. intros z Hz.
        eapply R_trans; [exact E | apply Hy, Hz].
Qed.

Lemma sort_ordered (l : list A) : ordered (sort R l).
Proof.
  unfold sort.
  assert (H : forall acc, ordered acc ->
                          ordered (fold_left (fun a x => insert R x a) l acc)).
  { induction l as [| y l IH]; intros acc Ha; simpl; [exact Ha |].
    apply IH, insert_ordered, Ha. }
  apply H. constructor.
Qed.

Hypothesis R_refl : forall a, R a a = true.

(** The last element of an ordered array is above all of them. *)
Lemma ordered_last (l : list A) (m : A) :
  ordered l -> hd_error (rev l) = Some m ->
  In m l /\ forall x, In x l -> R x m = true.
Proof.
  unfold ordered. intros Hs. revert m.
  induction Hs as [| a l Hs IH Ha]; intros m; simpl; [discriminate |].
  destruct (rev l) as [| b r] eqn:E; simpl.
  - intros H. injection H as <-.
    assert (l = []) as -> by (apply (f_equal (@rev A)) in E;
                             rewrite rev_involutive in E; exact E).
    split; [left; reflexivity |].
    intros x [<- | []]. apply R_refl.
  - intros H. injection H as ->.
    destruct (IH m eq_refl) as [Hin Hmax].
    split; [right; exact Hin |].
    intros x [<- | Hx]; [| apply Hmax, Hx].
    rewrite Forall_forall in Ha. apply Ha, Hin.
Qed.

(** Truncation keeps the order, and what it drops is not above what
    it keeps. *)
Lemma ordered_firstn (n : nat) (l : list A) : ordered l -> ordered (firstn n l).
Proof.
  unfold ordered. intros Hs. revert n.
  induction Hs as [| a l Hs IH Ha]; intros [| n]; simpl; try constructor.
  - apply IH.
  - rewrite Forall_forall in Ha |- *. intros z Hz.
    apply Ha. eapply In_firstn_prefix, Hz.
Qed.

Lemma ordered_dropped (n : nat) (l : list A) (k d : A) :
  ordered l -> In k (firstn n l) -> In d (skipn n l) -> R k d = true.
Proof.
  unfold ordered. intros Hs. revert n.
  induction Hs as [| a l Hs IH Ha]; intros [| n]; simpl; try tauto.
  intros [<- | Hk] Hd.
  - rewrite Forall_forall in Ha. apply Ha. eapply In_skipn_suffix, Hd.
  - eapply IH; eassumption.
Qed.

End SortOrder.

(** ** C2: the date of the receipt *)

Lemma same_string (a b : jsstring) : reflect (a = b) (JS.eqb a b).
Proof.
  unfold JS.eqb. destruct (list_eq_dec N.eq_dec a b); constructor; assumption.
Qed.

Lemma leb_refl (s : jsstring) : JS.leb s s = true.
Proof.
  induction s as [| x s IH]; simpl; [reflexivity |].
  rewrite N.eqb_refl, IH. apply orb_true_r.
Qed.

Lemma leb_total (s t : jsstring) : JS.leb s t = false -> JS.leb t s = true.
Proof.
  revert t; induction s as [| x s IH]; intros [| y t]; simpl; try congruence.
  intros H. apply orb_false_iff in H. destruct H as [H1 H2].
  apply N.ltb_ge in H1.
  destruct (N.eqb_spec x y) as [-> | Hne].
  - simpl in H2. rewrite N.eqb_refl, (IH t H2). apply orb_true_r.
  - assert (L : (y < x)%N) by lia. apply N.ltb_lt in L. rewrite L. reflexivity.
Qed.

Lemma leb_trans (s t v : jsstring) :
  JS.leb s t = true -> JS.leb t v = true -> JS.leb s v = true.
Proof.
  revert t v; induction s as [| x s IH]; intros [| y t] [| z v]; simpl;
    try congruence.
  intros H1 H2.
  apply orb_true_iff in H1. apply orb_true_iff in H2. apply orb_true_iff.
  destruct H1 as [H1 | H1]; destruct H2 as [H2 | H2].
  - apply N.ltb_lt in H1, H2. left. apply N.ltb_lt. lia.
  - apply andb_true_iff in H2. destruct H2 as [E _]. apply N.eqb_eq in E.
    subst. left. exact H1.
  - apply andb_true_iff in H1. destruct H1 as [E _]. apply N.eqb_eq in E.
    subst. left. exact H2.
  - apply andb_true_iff in H1, H2. destruct H1 as [E1 L1], H2 as [E2 L2].
    apply N.eqb_eq in E1, E2. subst. right.
    rewrite N.eqb_refl. simpl. eapply IH; eassumption.
Qed.

(** On two strings of the same length, followed by more text, the order
    is decided by the first difference. *)
Lemma leb_app (a b s t : jsstring) :
  length a = length b ->
  JS.leb (a ++ s) (b ++ t)
  = if JS.eqb a b then JS.leb s t else JS.leb a b.
Proof.
  revert b. induction a as [| x a IH]; intros [| y b] L; simpl in L; try discriminate.
  - reflexivity.
  - injection L as L. cbn [app JS.leb]. rewrite (IH b L).
    destruct (same_string a b) as [Hab | Hab];
      destruct (same_string (x :: a) (y :: b)) as [E | E];
      destruct (N.eqb_spec x y) as [Hxy | Hxy];
      try congruence.
    + subst. rewrite N.ltb_irrefl. reflexivity.
    + reflexivity.
Qed.

Lemma fieldOrdered_spec (print : Z -> jsstring) (w : nat) (vals : list Z) (a b : Z) :
  Spec.fieldOrdered print w vals = true -> In a vals -> In b vals ->
  length (print a) = w
  /\ JS.leb (print a) (print b) = (a <=? b)%Z
  /\ JS.eqb (print a) (print b) = (a =? b)%Z.
Proof.
  unfold Spec.fieldOrdered. intros H Ha Hb.
  rewrite forallb_forall in H. specialize (H a Ha).
  rewrite forallb_forall in H. specialize (H b Hb).
  apply andb_true_iff in H. destruct H as [H H3].
  apply andb_true_iff in H. destruct H as [H1 H2].
  apply Nat.eqb_eq in H1. apply Bool.eqb_prop in H2, H3. tauto.
Qed.

Lemma in_range (lo : Z) (n : nat) (v : Z) :
  (lo <= v < lo + Z.of_nat n)%Z ->
  In v (List.map (fun k => lo + Z.of_nat k)%Z (seq 0 n)).
Proof.
  intros H. apply in_map_iff. exists (Z.to_nat (v - lo)).
  split; [lia | apply in_seq; lia].
Qed.

(** On dates within the window, the order of the strings is the order
    of the calendar. *)
Lemma isoDate_order (y m d y' m' d' : Z) :
  validDate y m d = true -> validDate y' m' d' = true ->
  (JS.leb (isoDate y m d) (isoDate y' m' d') = true
   <-> Spec.notAfter (y, m, d) (y', m', d')).
Proof.
  intros V V'. apply validDate_window in V, V'.
  assert (FY : Spec.fieldOrdered ofZ 4 Spec.years = true) by (vm_compute; reflexivity).
  assert (FM : Spec.fieldOrdered (fun v => padStart2 (ofZ v)) 2 Spec.months = true)
    by (vm_compute; reflexivity).
  assert (FD : Spec.fieldOrdered (fun v => padStart2 (ofZ v)) 2 Spec.days = true)
    by (vm_compute; reflexivity).
  destruct (fieldOrdered_spec ofZ 4 Spec.years y y' FY) as [Ly [Oy Ey]];
    try (apply (@in_range 2020 11); lia).
  destruct (fieldOrdered_spec ofZ 4 Spec.years y' y FY) as [Ly' _];
    try (apply (@in_range 2020 11); lia).
  destruct (fieldOrdered_spec _ 2 Spec.months m m' FM) as [Lm [Om Em]];
    try (apply (@in_range 1 12); lia).
  destruct (fieldOrdered_spec _ 2 Spec.months m' m FM) as [Lm' _];
    try (apply (@in_range 1 12); lia).
  destruct (fieldOrdered_spec _ 2 Spec.days d d' FD) as [_ [Od _]];
    try (apply (@in_range 1 31); lia).
  unfold isoDate, Spec.notAfter.
  rewrite leb_app by congruence. rewrite Ey, Oy.
  change (c "-" :: padStart2 (ofZ m) ++ c "-" :: padStart2 (ofZ d))
    with ([c "-"] ++ padStart2 (ofZ m) ++ c "-" :: padStart2 (ofZ d)).
  change (c "-" :: padStart2 (ofZ m') ++ c "-" :: padStart2 (ofZ d'))
    with ([c "-"] ++ padStart2 (ofZ m') ++ c "-" :: padStart2 (ofZ d')).
  rewrite (leb_app [c "-"] [c "-"]) by reflexivity.
  change (JS.eqb [c "-"] [c "-"]) with true. cbv iota.
  rewrite leb_app by congruence. rewrite Em, Om.
  change (c "-" :: padStart2 (ofZ d)) with ([c "-"] ++ padStart2 (ofZ d)).
  change (c "-" :: padStart2 (ofZ d')) with ([c "-"] ++ padStart2 (ofZ d')).
  rewrite (leb_app [c "-"] [c "-"]) by reflexivity.
  change (JS.eqb [c "-"] [c "-"]) with true. cbv iota.
  rewrite Od.
  destruct (Z.eqb_spec y y'), (Z.eqb_spec m m');
    rewrite ?Z.leb_le; split; intros H; try lia.
Qed.

(** C2, as stated, fails in engine v3 and in the bridge.  Of the two
    dates of this text, both before 3 November 2026, the result carries
    the first one found and not the most recent one. *)
Lemma first_date_not_most_recent :
  let text := u "01.01.2021 05.05.2022" in
  let r := @V3.processReceiptImage asciiRuntime text in
  V3.allDates r = [u "2021-01-01"; u "2022-05-05"]
  /\ V3.date r = Some (u "2021-01-01")
  /\ @Native.extractDate asciiRuntime text = Some (u "2021-01-01")
  /\ ~ Spec.preferred (u "2026-11-03") (V3.allDates r) (V3.date r).
Proof.
  split; [reflexivity | split; [reflexivity | split; [reflexivity |]]].
  intros [H _].
  destruct H as [m [Hm [_ [_ Hmax]]]].
  - exists (u "2021-01-01"). split; [left; reflexivity | reflexivity].
  - injection Hm as <-.
    specialize (Hmax (u "2022-05-05") (or_intror (or_introl eq_refl)) eq_refl).
    vm_compute in Hmax. discriminate Hmax.
Qed.

(** C2, amended.  It is the first engine whose extractBestDate prefers,
    among the dates found, the most recent one that is not after today,
    and the first one found when all are after today.  Engine v3 takes
    the first date found in scan order, and the bridge the date its
    extractDate returns, which is that of the first pattern whose first
    match is valid.  (On the dates the engines return, the order of the
    strings, by which extractBestDate compares, is that of the
    calendar.) *)
Theorem date_of_receipt {rt : Runtime} :
  (forall today dates,
      Spec.preferred today dates (V1.extractBestDate today dates))
  /\ (forall text,
         V3.date (V3.processReceiptImage text)
         = hd_error (V3.extractAllDates text))
  /\ (forall usedNative ocrResult,
         Native.date (Native.scanReceipt usedNative ocrResult)
         = Native.firstDate Native.datePatterns (Native.text ocrResult))
  /\ (forall y m d y' m' d',
         validDate y m d = true -> validDate y' m' d' = true ->
         (JS.leb (isoDate y m d) (isoDate y' m' d') = true
          <-> Spec.notAfter (y, m, d) (y', m', d'))).
Proof.
  split; [| split; [reflexivity | split; [reflexivity | apply isoDate_order]]].
  intros today dates. unfold Spec.preferred, V1.extractBestDate.
  destruct dates as [| d0 [| d1 rest]].
  - split; [intros [d [[] _]] | reflexivity].
  - split; [| reflexivity].
    intros [d [[<- | []] Hd]]. exists d0.
    repeat split; [left; reflexivity | exact Hd |].
    intros x [<- | []] _. apply leb_refl.
  - set (dates := d0 :: d1 :: rest).
    destruct (filter (fun d => JS.leb d today) dates) as [| v vs] eqn:F.
    + split; [| reflexivity].
      intros [d [Hin Hd]].
      assert (C : In d (filter (fun d => JS.leb d today) dates))
        by (apply filter_In; split; assumption).
      rewrite F in C. destruct C.
    + split.
      * intros _.
        pose proof (@sort_ordered _ JS.leb leb_total leb_trans (v :: vs)) as Ho.
        destruct (hd_error (rev (sort JS.leb (v :: vs)))) as [m |] eqn:E.
        -- destruct (@ordered_last _ JS.leb leb_refl _ m Ho E) as [Hin Hmax].
           apply In_sort in Hin. rewrite <- F in Hin.
           apply filter_In in Hin. destruct Hin as [Hin Hm].
           exists m. repeat split; try assumption.
           intros d Hd Hdt. apply Hmax, In_sort. rewrite <- F.
           apply filter_In. split; assumption.
        -- exfalso.
           assert (L : length (rev (sort JS.leb (v :: vs))) = S (length vs))
             by (rewrite length_rev, length_sort; reflexivity).
           destruct (rev (sort JS.leb (v :: vs))); simpl in *; discriminate.
      * intros Hall. exfalso.
        assert (C : In v (filter (fun d => JS.leb d today) dates))
          by (rewrite F; left; reflexivity).
        apply filter_In in C. destruct C as [Hin Hv].
        rewrite (Hall v Hin) in Hv. discriminate.
Qed.

Lemma date_of_receipt_witness :
  exists m,
    V1.extractBestDate (u "2026-11-03")
       [u "2021-01-01"; u "2027-01-01"; u "2022-05-05"] = Some m
    /\ m = u "2022-05-05".
Proof.
  destruct (proj1 (proj1 (@date_of_receipt asciiRuntime) (u "2026-11-03")
                         [u "2021-01-01"; u "2027-01-01"; u "2022-05-05"])
                  (ex_intro _ (u "2021-01-01") (conj (or_introl eq_refl) eq_refl)))
    as [m [Hm _]].
  exists m. split; [exact Hm |].
  vm_compute in Hm. injection Hm as <-. reflexivity.
Defined.

(** ** C3: failures of the store *)

Section StoreFailures.
Context {S : Type} {ls : Storage S} {json : Json} {rt : Runtime}.

Lemma getLearnedMerchants_returns (s : S) :
  exists ms s', getLearnedMerchants s = (Ok ms, s').
Proof.
  unfold getLearnedMerchants, tryCatch, bind, ret.
  destruct (getItem LEARNED_MERCHANTS_KEY s) as [[[[| x t] |] | e] s1];
    try (eexists; eexists; reflexivity).
  destruct (JSON_parse (x :: t)); eexists; eexists; reflexivity.
Qed.

(** What saveLearnedMerchant does to the store: it reads the
    collection, and its one write is that of the collection it built. *)
Lemma saveLearnedMerchant_writes (nm cat now : jsstring) (s : S) :
  exists ms s1,
    getLearnedMerchants s = (Ok ms, s1)
    /\ saveLearnedMerchant nm cat now s
       = (Ok tt, snd (setItem LEARNED_MERCHANTS_KEY
                              (JSON_stringify (recorded nm cat now ms)) s1)).
Proof.
  destruct (getLearnedMerchants_returns s) as [ms [s1 E]].
  exists ms, s1. split; [exact E |].
  unfold saveLearnedMerchant, tryCatch, bind. rewrite E.
  destruct (setItem _ _ s1) as [[[] | e] s2]; reflexivity.
Qed.

Lemma saveLearnedMerchant_returns (nm cat now : jsstring) (s : S) :
  exists s', saveLearnedMerchant nm cat now s = (Ok tt, s').
Proof.
  destruct (saveLearnedMerchant_writes nm cat now s) as [ms [s1 [_ E]]].
  eexists. exact E.
Qed.

Lemma V2_clearLearnedMerchants_returns (s : S) :
  exists s', V2.clearLearnedMerchants s = (Ok tt, s').
Proof.
  unfold V2.clearLearnedMerchants, tryCatch.
  destruct (removeItem LEARNED_MERCHANTS_KEY s) as [[[] | e] s1];
    eexists; reflexivity.
Qed.

Lemma V3_clearLearnedMerchants_propagates (s s' : S) (e : exn) :
  removeItem LEARNED_MERCHANTS_KEY s = (Throw e, s') ->
  V3.clearLearnedMerchants s = (Throw e, s').
Proof. intros H. exact H. Qed.

End StoreFailures.

(** C3: whatever the store does, saveLearnedMerchant returns, in every
    engine, and so does clearLearnedMerchants of engine v2.  On a store
    that refuses every access both leave the store as it was, while
    clearLearnedMerchants of engine v3 lets the exception of
    [removeItem] through to its caller. *)
Theorem clear_of_v3_throws_on_denied_store :
  (forall (S : Type) (ls : Storage S) (json : Json) (rt : Runtime)
          (nm cat now : jsstring) (s : S),
      exists s', saveLearnedMerchant nm cat now s = (Ok tt, s'))
  /\ (forall (S : Type) (ls : Storage S) (s : S),
         exists s', V2.clearLearnedMerchants s = (Ok tt, s'))
  /\ (forall (json : Json) (rt : Runtime) (nm cat now : jsstring),
         @saveLearnedMerchant unit Demo.deniedStorage json rt nm cat now tt
         = (Ok tt, tt))
  /\ @V2.clearLearnedMerchants unit Demo.deniedStorage tt = (Ok tt, tt)
  /\ @V3.clearLearnedMerchants unit Demo.deniedStorage tt
     = (Throw SecurityError, tt).
Proof.
  split; [| split; [| split; [| split]]].
  - intros S ls json rt nm cat now s. apply saveLearnedMerchant_returns.
  - intros S ls s. apply V2_clearLearnedMerchants_returns.
  - reflexivity.
  - reflexivity.
  - reflexivity.
Qed.

(** ** C4: the cap on the learned merchants *)

Lemma moreUsed_total (a b : LearnedMerchant) :
  moreUsed a b = false -> moreUsed b a = true.
Proof. unfold moreUsed. rewrite Z.leb_gt, Z.leb_le. lia. Qed.

Lemma moreUsed_trans (a b d : LearnedMerchant) :
  moreUsed a b = true -> moreUsed b d = true -> moreUsed a d = true.
Proof. unfold moreUsed. rewrite !Z.leb_le. lia. Qed.

Lemma ordered_by_usage (l : list LearnedMerchant) :
  StronglySorted (fun a b => moreUsed a b = true) l ->
  StronglySorted (fun a b => (timesUsed b <= timesUsed a)%Z) l.
Proof.
  induction 1 as [| a l Hs IH Ha]; constructor; [exact IH |].
  rewrite Forall_forall in Ha |- *. intros b Hb. specialize (Ha b Hb).
  unfold moreUsed in Ha. apply Z.leb_le in Ha. lia.
Qed.

Lemma Permutation_insert (A : Type) (notAfter : A -> A -> bool) (x : A) (l : list A) :
  Permutation (insert notAfter x l) (x :: l).
Proof.
  induction l as [| y l IH]; simpl; [reflexivity |].
  destruct (notAfter y x); [| reflexivity].
  rewrite IH. apply perm_swap.
Qed.

Lemma Permutation_sort (A : Type) (notAfter : A -> A -> bool) (l : list A) :
  Permutation (sort notAfter l) l.
Proof.
  unfold sort.
  assert (H : forall acc, Permutation (fold_left (fun a x => insert notAfter x a) l acc)
                                      (l ++ acc)).
  { induction l as [| y l IH]; intros acc; simpl; [reflexivity |].
    rewrite IH, Permutation_insert. symmetry. apply Permutation_middle. }
  rewrite H, app_nil_r. reflexivity.
Qed.

Lemma eqb_neq (a b : jsstring) : a <> b -> JS.eqb a b = false.
Proof.
  intros H. unfold JS.eqb. destruct (list_eq_dec N.eq_dec a b); [contradiction | reflexivity].
Qed.

Section Cap.
Context {rt : Runtime}.

Lemma touch_none (key cat now : jsstring) (ms : list LearnedMerchant) :
  (forall m, In m ms -> toLowerCase (name m) <> key) ->
  touch key cat now ms = None.
Proof.
  induction ms as [| m ms IH]; intros H; simpl; [reflexivity |].
  rewrite eqb_neq by (apply H; left; reflexivity).
  rewrite IH; [reflexivity |]. intros m' Hm. apply H. right. exact Hm.
Qed.

Lemma recorded_new (nm cat now : jsstring) (ms : list LearnedMerchant) :
  (forall m, In m ms -> toLowerCase (name m) <> Spec.normalized nm) ->
  recorded nm cat now ms
  = firstn 500 (byUsage (ms ++ [{| name := Spec.normalized nm; category := cat;
                                   timesUsed := 1; lastUsed := now |}])).
Proof.
  intros H. unfold recorded, upsert.
  fold (Spec.normalized nm). rewrite touch_none by exact H. reflexivity.
Qed.

(** The collection as a sequence of corrections of distinct merchants
    builds it: one entry for each, up to the cap. *)
Lemma recordAll_length (todo done : list Spec.correction)
      (ms : list LearnedMerchant) :
  (length ms <= 500)%nat ->
  (forall m, In m ms ->
     exists d, In d done /\ name m = Spec.normalized (fst (fst d))) ->
  (forall d t, In d done -> In t todo ->
     toLowerCase (Spec.normalized (fst (fst d))) <> Spec.normalized (fst (fst t))) ->
  Spec.distinctCorrections todo ->
  length (Spec.recordAll todo ms) = Nat.min 500 (length ms + length todo).
Proof.
  revert done ms.
  induction todo as [| cn todo IH]; intros done ms Hcap Hms Hdone Hd.
  - change (Spec.recordAll [] ms) with ms. change (length (@nil Spec.correction)) with 0%nat.
    lia.
  - destruct cn as [[nm cat] now].
    assert (Hnew : forall m, In m ms -> toLowerCase (name m) <> Spec.normalized nm).
    { intros m Hm. destruct (Hms m Hm) as [d [Hin ->]].
      apply (Hdone d (nm, cat, now) Hin). left. reflexivity. }
    inversion Hd as [| ? ? Hcn Hd']; subst.
    change (Spec.recordAll ((nm, cat, now) :: todo) ms)
      with (Spec.recordAll todo (recorded nm cat now ms)).
    rewrite (IH ((nm, cat, now) :: done)).
    + rewrite (@recorded_new nm cat now ms Hnew).
      rewrite length_firstn. unfold byUsage. rewrite length_sort, length_app.
      change (length ((nm, cat, now) :: todo)) with (S (length todo)).
      change (length [_]) with 1%nat. lia.
    + unfold recorded. rewrite length_firstn. lia.
    + intros m Hm. rewrite (@recorded_new nm cat now ms Hnew) in Hm.
      apply In_firstn_prefix in Hm. unfold byUsage in Hm. apply In_sort in Hm.
      apply in_app_or in Hm. destruct Hm as [Hm | [<- | []]].
      * destruct (Hms m Hm) as [d [Hin E]]. exists d. split; [right; exact Hin | exact E].
      * exists (nm, cat, now). split; [left; reflexivity | reflexivity].
    + intros d t [<- | Hin] Ht.
      * rewrite Forall_forall in Hcn. apply Hcn, Ht.
      * apply (Hdone d t Hin). right. exact Ht.
    + exact Hd'.
Qed.

End Cap.

(** *** Through a store that keeps what it is given *)

Lemma readString_written (s r : jsstring) :
  Demo.readString (Demo.writeString s ++ r) = Some (s, r).
Proof.
  unfold Demo.readString, Demo.writeString. simpl. rewrite Nat2N.id.
  rewrite firstn_app, Nat.sub_diag, firstn_all, skipn_app, Nat.sub_diag, skipn_all.
  simpl. rewrite app_nil_r. reflexivity.
Qed.

Lemma readMerchant_written (m : LearnedMerchant) (r : jsstring) :
  Demo.readMerchant (Demo.writeMerchant m ++ r) = Some (m, r).
Proof.
  destruct m as [nm cat used last].
  unfold Demo.readMerchant, Demo.writeMerchant. cbn [name category timesUsed lastUsed].
  rewrite <- !app_assoc, readString_written. cbv iota beta.
  rewrite readString_written. cbv iota beta. cbn [app].
  rewrite readString_written. cbv iota beta.
  do 3 f_equal.
  destruct (Z.ltb_spec used 0); simpl; rewrite N2Z.inj_abs_N; lia.
Qed.

Lemma readMerchants_written (l : list LearnedMerchant) (r : jsstring) :
  Demo.readMerchants (length l) (flat_map Demo.writeMerchant l ++ r) = Some (l, r).
Proof.
  induction l as [| m l IH]; [reflexivity |].
  cbn [flat_map Demo.readMerchants length].
  rewrite <- app_assoc, readMerchant_written, IH. reflexivity.
Qed.

Lemma lengthPrefixed_faithful : Spec.faithful Demo.lengthPrefixed.
Proof.
  intros l. split; [| discriminate]. simpl. rewrite Nat2N.id.
  pose proof (readMerchants_written l []) as H. rewrite app_nil_r in H.
  rewrite H. reflexivity.
Qed.

Section PlainStore.
Context {json : Json} {rt : Runtime}.
Hypothesis json_faithful : Spec.faithful json.

Lemma plain_read (s : list (jsstring * jsstring)) (l : list LearnedMerchant) :
  Spec.holds s l -> @getLearnedMerchants _ Demo.plainStorage json s = (Ok l, s).
Proof.
  unfold getLearnedMerchants, tryCatch, bind, ret. simpl.
  intros [H | [H ->]]; rewrite H; [| reflexivity].
  destruct (json_faithful l) as [P Q].
  destruct (JSON_stringify l) as [| x t] eqn:E; [congruence |].
  rewrite P. reflexivity.
Qed.

Lemma plain_save (nm cat now : jsstring) (s : list (jsstring * jsstring))
      (l : list LearnedMerchant) :
  Spec.holds s l ->
  exists s', @saveLearnedMerchant _ Demo.plainStorage json rt nm cat now s = (Ok tt, s')
             /\ Spec.holds s' (recorded nm cat now l).
Proof.
  intros H. eexists. split.
  - unfold saveLearnedMerchant, tryCatch, bind. rewrite (plain_read H). reflexivity.
  - left. simpl. reflexivity.
Qed.

Lemma plain_recordEach (corrections : list Spec.correction)
      (s : list (jsstring * jsstring)) (l : list LearnedMerchant) :
  Spec.holds s l ->
  exists s', @Spec.recordEach _ Demo.plainStorage json rt corrections s = (Ok tt, s')
             /\ Spec.holds s' (Spec.recordAll corrections l).
Proof.
  revert s l. induction corrections as [| cn corrections IH]; intros s l H.
  - exists s. split; [reflexivity | exact H].
  - destruct (plain_save (fst (fst cn)) (snd (fst cn)) (snd cn) H) as [s1 [E1 H1]].
    destruct (IH s1 _ H1) as [s2 [E2 H2]].
    exists s2. split; [| exact H2].
    simpl. unfold bind. rewrite E1. exact E2.
Qed.

End PlainStore.

Lemma distinctb_sound {rt : Runtime} (l : list Spec.correction) :
  Spec.distinctb l = true -> Spec.distinctCorrections l.
Proof.
  unfold Spec.distinctCorrections, Spec.distinctb.
  induction l as [| a l IH]; simpl; intros H; constructor.
  - apply andb_true_iff in H. destruct H as [H _].
    rewrite forallb_forall in H. apply Forall_forall. intros b Hb E.
    specialize (H _ (in_map _ l b Hb)). simpl in H. rewrite E in H.
    destruct (same_string (Spec.normalized (fst (fst b)))
                          (Spec.normalized (fst (fst b)))); [discriminate | congruence].
  - apply IH. apply andb_true_iff in H. tauto.
Qed.

(** C4.  The collection that a record operation persists (its one write
    to the store, whatever the store does) holds at most 500 entries,
    in descending order of [timesUsed]; it is the sorted collection
    without its tail, so that no entry it drops is used more than an
    entry it keeps, and the sorted collection holds the entries of the
    updated one and no others.  Through a store that keeps what it is
    given, corrections of distinct merchants leave one entry each up to
    the cap: 501 of them leave exactly 500. *)
Theorem learned_merchants_capped {rt : Runtime}
        (nm cat now : jsstring) (merchants : list LearnedMerchant) :
  let all := byUsage (upsert nm cat now merchants) in
  let kept := recorded nm cat now merchants in
  (length kept <= 500)%nat
  /\ StronglySorted (fun a b => (timesUsed b <= timesUsed a)%Z) kept
  /\ kept ++ skipn 500 all = all
  /\ Permutation all (upsert nm cat now merchants)
  /\ (forall k d, In k kept -> In d (skipn 500 all) ->
                  (timesUsed d <= timesUsed k)%Z)
  /\ (forall (S : Type) (ls : Storage S) (json : Json) (s : S),
         exists ms s1,
           getLearnedMerchants s = (Ok ms, s1)
           /\ saveLearnedMerchant nm cat now s
              = (Ok tt, snd (setItem LEARNED_MERCHANTS_KEY
                                     (JSON_stringify (recorded nm cat now ms)) s1)))
  /\ (forall (json : Json) (corrections : list Spec.correction),
         Spec.faithful json ->
         Spec.distinctCorrections corrections ->
         exists s' persisted,
           @Spec.recordEach _ Demo.plainStorage json rt corrections [] = (Ok tt, s')
           /\ @getLearnedMerchants _ Demo.plainStorage json s' = (Ok persisted, s')
           /\ persisted = Spec.recordAll corrections []
           /\ length persisted = Nat.min 500 (length corrections)
           /\ (length corrections = 501%nat -> length persisted = 500%nat)).
Proof.
  intros all kept.
  assert (Ho : StronglySorted (fun a b => moreUsed a b = true) all)
    by (apply (@sort_ordered _ moreUsed moreUsed_total moreUsed_trans)).
  split; [| split; [| split; [| split; [| split; [| split]]]]].
  - unfold kept, recorded. rewrite length_firstn. lia.
  - apply ordered_by_usage. apply (@ordered_firstn _ moreUsed 500%nat all Ho).
  - apply firstn_skipn.
  - apply Permutation_sort.
  - intros k d Hk Hd.
    pose proof (@ordered_dropped _ moreUsed 500%nat all k d Ho Hk Hd) as H.
    unfold moreUsed in H. apply Z.leb_le in H. lia.
  - intros S ls json s. apply saveLearnedMerchant_writes.
  - intros json corrections Hj Hd.
    destruct (@plain_recordEach json rt Hj corrections [] [])
      as [s' [E H]]; [right; split; reflexivity |].
    assert (L : length (Spec.recordAll corrections [])
                = Nat.min 500 (length corrections)).
    { rewrite (@recordAll_length rt corrections [] []);
        [reflexivity | apply Nat.le_0_l | intros m [] | intros d t [] | exact Hd]. }
    exists s', (Spec.recordAll corrections []).
    split; [exact E |]. split; [apply (plain_read Hj H) |].
    split; [reflexivity |]. split; [exact L |].
    intros E501. rewrite L, E501. reflexivity.
Qed.

(** 501 corrections, of "0 Market" to "500 Market", through a store that
    keeps what it is given. *)
Lemma learned_merchants_capped_witness :
  exists s' persisted,
    @Spec.recordEach _ Demo.plainStorage Demo.lengthPrefixed asciiRuntime
                     (Demo.markets 501) [] = (Ok tt, s')
    /\ @getLearnedMerchants _ Demo.plainStorage Demo.lengthPrefixed s'
       = (Ok persisted, s')
    /\ length persisted = 500%nat.
Proof.
  destruct (proj2 (proj2 (proj2 (proj2 (proj2 (proj2
             (@learned_merchants_capped asciiRuntime [] [] [] []))))))
             Demo.lengthPrefixed (Demo.markets 501) lengthPrefixed_faithful
             (@distinctb_sound asciiRuntime (Demo.markets 501)
                               ltac:(vm_compute; reflexivity)))
    as [s' [persisted [E [R [_ [_ L]]]]]].
  exists s', persisted. split; [exact E |]. split; [exact R |].
  apply L. reflexivity.
Defined.

(** ** C8 and C10: learned merchants first *)

Section Classifier.
Context {rt : Runtime}.

Lemma merchantLower_eq (merchantName : option jsstring) :
  toLowerCase (match merchantName with
               | Some (x :: t) => x :: t
               | Some [] | None => []
               end)
  = Spec.merchantLower merchantName.
Proof. destruct merchantName as [[| x t] |]; reflexivity. Qed.

Lemma V3_suggestFrom_learned (learned : list LearnedMerchant) (text : jsstring)
      (merchantName : option jsstring) (e : LearnedMerchant) :
  find (Spec.matchesV3 text merchantName) learned = Some e ->
  V3.suggestFrom learned text merchantName
  = {| suggested := Some (category e); certainty := high |}.
Proof.
  intros H. unfold V3.suggestFrom. rewrite merchantLower_eq.
  change (find _ learned) with (find (Spec.matchesV3 text merchantName) learned).
  rewrite H. reflexivity.
Qed.

Lemma V2_suggestFrom_learned (learned : list LearnedMerchant) (text : jsstring)
      (merchantName : option jsstring) (e : LearnedMerchant) :
  find (Spec.matchesV2 text merchantName) learned = Some e ->
  V2.suggestFrom learned text merchantName
  = {| suggested := Some (category e); certainty := high |}.
Proof.
  intros H. unfold V2.suggestFrom. rewrite merchantLower_eq.
  change (find _ learned) with (find (Spec.matchesV2 text merchantName) learned).
  rewrite H. reflexivity.
Qed.

Lemma find_first (A : Type) (f : A -> bool) (l : list A) (x : A) :
  In x l -> f x = true -> exists y, find f l = Some y.
Proof.
  intros Hin Hx. destruct (find f l) as [y |] eqn:E; [exists y; reflexivity |].
  rewrite (find_none f l E x Hin) in Hx. discriminate.
Qed.

End Classifier.

(** C8, as stated, fails in engine v2, whose test has no "or contains":
    the learned name "starbucks coffee" contains the merchant name, and
    the classifier returns the category of the built-in table. *)
Lemma learned_name_containing_merchant_ignored :
  let stored := [(LEARNED_MERCHANTS_KEY, u "[...]")] in
  let entry := Demo.learned "starbucks coffee" "Custom" in
  includes (name entry) (asciiLowerCase (u "Starbucks")) = true
  /\ @getLearnedMerchants _ Demo.plainStorage (Demo.reading [entry]) stored
     = (Ok [entry], stored)
  /\ @V2.suggestCategory _ Demo.plainStorage (Demo.reading [entry]) asciiRuntime
       (u "STARBUCKS 12.00") (Some (u "Starbucks")) stored
     = (Ok {| suggested := Some (u "Meals (Business)"); certainty := high |}, stored)
  /\ u "Meals (Business)" <> category entry.
Proof.
  split; [reflexivity | split; [reflexivity | split; [reflexivity |]]].
  intros E. vm_compute in E. discriminate E.
Qed.

(** C8, amended.  Whatever the text, the merchant name and the built-in
    tables: if some learned entry passes the test of the engine, the
    classifier returns, at [high] confidence, the category of the first
    learned entry, in stored order, that passes it.  The test of engine
    v3 is that the entry's name is a substring of the merchant name, or
    contains it, or is a substring of the text; that of engine v2 has no
    "or contains". *)
Theorem learned_merchants_take_precedence
        {S : Type} {ls : Storage S} {json : Json} {rt : Runtime}
        (text : jsstring) (merchantName : option jsstring) (s : S) :
  exists learned s',
    getLearnedMerchants s = (Ok learned, s')
    /\ (forall e, In e learned -> Spec.matchesV3 text merchantName e = true ->
          exists e1,
            find (Spec.matchesV3 text merchantName) learned = Some e1
            /\ V3.suggestCategory text merchantName s
               = (Ok {| suggested := Some (category e1); certainty := high |}, s'))
    /\ (forall e, In e learned -> Spec.matchesV2 text merchantName e = true ->
          exists e1,
            find (Spec.matchesV2 text merchantName) learned = Some e1
            /\ V2.suggestCategory text merchantName s
               = (Ok {| suggested := Some (category e1); certainty := high |}, s')).
Proof.
  destruct (getLearnedMerchants_returns s) as [learned [s' E]].
  exists learned, s'. split; [exact E |]. split; intros e Hin He.
  - destruct (find_first _ learned e Hin He) as [e1 H1]. exists e1.
    split; [exact H1 |].
    unfold V3.suggestCategory, bind, ret. rewrite E.
    rewrite (V3_suggestFrom_learned learned text merchantName H1). reflexivity.
  - destruct (find_first _ learned e Hin He) as [e1 H1]. exists e1.
    split; [exact H1 |].
    unfold V2.suggestCategory, bind, ret. rewrite E.
    rewrite (V2_suggestFrom_learned learned text merchantName H1). reflexivity.
Qed.

(** The example of the specification: "Joe's Diner", learned as "Custom
    Food", against the keyword "diner" of the built-in tables. *)
Lemma learned_merchants_take_precedence_witness :
  fst (@V3.suggestCategory _ Demo.plainStorage
         (Demo.reading [Demo.learned "joe's diner" "Custom Food"]) asciiRuntime
         (u "Lunch at Joe's Diner 12.50") (Some (u "Joe's Diner"))
         [(LEARNED_MERCHANTS_KEY, u "[...]")])
  = Ok {| suggested := Some (u "Custom Food"); certainty := high |}
  /\ @V3.suggestFrom asciiRuntime [] (u "Lunch at Joe's Diner 12.50")
                     (Some (u "Joe's Diner"))
     = {| suggested := Some (u "Meals (Business)"); certainty := medium |}.
Proof.
  split; [| reflexivity].
  destruct (@learned_merchants_take_precedence _ Demo.plainStorage
              (Demo.reading [Demo.learned "joe's diner" "Custom Food"]) asciiRuntime
              (u "Lunch at Joe's Diner 12.50") (Some (u "Joe's Diner"))
              [(LEARNED_MERCHANTS_KEY, u "[...]")])
    as [learned [s' [E [H3 _]]]].
  injection E as <- <-.
  destruct (H3 (Demo.learned "joe's diner" "Custom Food") (or_introl eq_refl) eq_refl)
    as [e1 [F R]].
  rewrite R. injection F as <-. reflexivity.
Defined.

(** C10.  In engine v3, with no merchant name (null or the empty
    string) and a learned list that is not empty, suggestCategory
    returns the category of the first learned entry at [high]
    confidence, whatever the text: the empty string is within every
    learned name. *)
Theorem empty_merchant_takes_first_learned
        {S : Type} {ls : Storage S} {json : Json} {rt : Runtime}
        (text : jsstring) (merchantName : option jsstring)
        (first : LearnedMerchant) (rest : list LearnedMerchant) (s s' : S) :
  toLowerCase [] = [] ->
  merchantName = None \/ merchantName = Some [] ->
  getLearnedMerchants s = (Ok (first :: rest), s') ->
  V3.suggestCategory text merchantName s
  = (Ok {| suggested := Some (category first); certainty := high |}, s').
Proof.
  intros Hlow Hm E.
  unfold V3.suggestCategory, bind, ret. rewrite E. do 2 f_equal.
  apply V3_suggestFrom_learned.
  assert (L : Spec.merchantLower merchantName = [])
    by (destruct Hm as [-> | ->]; exact Hlow).
  simpl. unfold Spec.matchesV3. rewrite L.
  replace (includes (name first) []) with true by (destruct (name first); reflexivity).
  rewrite orb_true_r. reflexivity.
Qed.

Lemma empty_merchant_takes_first_learned_witness :
  @V3.suggestCategory _ Demo.plainStorage
     (Demo.reading [Demo.learned "acme" "Supplies"; Demo.learned "shell" "Travel"])
     asciiRuntime (u "SHELL fuel 40.00") None [(LEARNED_MERCHANTS_KEY, u "[...]")]
  = (Ok {| suggested := Some (u "Supplies"); certainty := high |},
     [(LEARNED_MERCHANTS_KEY, u "[...]")]).
Proof.
  exact (@empty_merchant_takes_first_learned _ Demo.plainStorage
           (Demo.reading [Demo.learned "acme" "Supplies"; Demo.learned "shell" "Travel"])
           asciiRuntime (u "SHELL fuel 40.00") None
           (Demo.learned "acme" "Supplies") [Demo.learned "shell" "Travel"]
           [(LEARNED_MERCHANTS_KEY, u "[...]")] [(LEARNED_MERCHANTS_KEY, u "[...]")]
           eq_refl (or_introl eq_refl) eq_refl).
Defined.

(** ** C9: the gate on the merchant name *)

(** C9.  The merchant name of the result of scanReceipt is null when
    the confidence of the top region is below 60, and is the candidate
    that extractMerchant found in the top region, unchanged, when the
    confidence is at least 60. *)
Theorem merchant_gated_by_confidence {rt : Runtime}
        (usedNative : bool) (ocrResult : Native.RegionOCRResult) :
  let top := Native.top (Native.regions ocrResult) in
  (Native.region_confidence top < 60 ->
   Native.merchantName (Native.scanReceipt usedNative ocrResult) = None)
  /\ (60 <= Native.region_confidence top ->
      Native.merchantName (Native.scanReceipt usedNative ocrResult)
      = Native.extractMerchant top).
Proof.
  simpl. split; intros H.
  - destruct (Qle_bool 60 _) eqn:E; [| reflexivity].
    apply Qle_bool_iff in E. lra.
  - apply Qle_bool_iff in H. rewrite H. reflexivity.
Qed.

Lemma merchant_gated_by_confidence_witness :
  let scan conf :=
      @Native.scanReceipt asciiRuntime true
        {| Native.text := Demo.lines ["STARBUCKS STORE 0421"; "Total 4.50"]%string;
           Native.confidence := 90;
           Native.regions :=
             {| Native.top := Demo.region ["STARBUCKS STORE 0421"]%string conf;
                Native.middle := Demo.region [] 0;
                Native.bottom := Demo.region ["Total 4.50"]%string 90 |} |} in
  Native.merchantName (scan (59 # 1)) = None
  /\ Native.merchantName (scan (60 # 1)) = Some (u "STARBUCKS STORE 0421").
Proof.
  intros scan. split.
  - exact (proj1 (@merchant_gated_by_confidence asciiRuntime true
                    {| Native.text := Demo.lines ["STARBUCKS STORE 0421"; "Total 4.50"]%string;
                       Native.confidence := 90;
                       Native.regions :=
                         {| Native.top := Demo.region ["STARBUCKS STORE 0421"]%string (59 # 1);
                            Native.middle := Demo.region [] 0;
                            Native.bottom := Demo.region ["Total 4.50"]%string 90 |} |})
                 eq_refl).
  - exact (proj2 (@merchant_gated_by_confidence asciiRuntime true
                    {| Native.text := Demo.lines ["STARBUCKS STORE 0421"; "Total 4.50"]%string;
                       Native.confidence := 90;
                       Native.regions :=
                         {| Native.top := Demo.region ["STARBUCKS STORE 0421"]%string (60 # 1);
                            Native.middle := Demo.region [] 0;
                            Native.bottom := Demo.region ["Total 4.50"]%string 90 |} |})
                 ltac:(discriminate)).
Defined.

(* ================================================================== *)
(** * More of the engines: the learning store                          *)
(* ================================================================== *)

(** ** A store that keeps what it is given *)

Lemma lookup_removed (k : jsstring) (s : list (jsstring * jsstring)) :
  lookup k (filter (fun e => negb (JS.eqb k (fst e))) s) = None.
Proof.
  induction s as [| [k' v] s IH]; [reflexivity |].
  cbn [filter fst]. destruct (JS.eqb k k') eqn:E; cbn [negb]; [exact IH |].
  cbn [lookup]. rewrite E. exact IH.
Qed.

Lemma plainStorage_lawful : Laws.lawful Demo.plainStorage.
Proof.
  constructor.
  - intros k s. eexists. reflexivity.
  - intros k v s. eexists. split; [reflexivity |].
    cbn [getItem Demo.plainStorage lookup].
    destruct (same_string k k) as [_ | N]; [reflexivity | congruence].
  - intros k s. eexists. split; [reflexivity |].
    cbn [getItem Demo.plainStorage]. rewrite lookup_removed. reflexivity.
Qed.

Section Lawful.
Context {S : Type} {ls : Storage S} {json : Json} {rt : Runtime}.
Hypothesis store_lawful : Laws.lawful ls.
Hypothesis json_faithful : Spec.faithful json.

Lemma lawful_get_state (s s' : S) (l : list LearnedMerchant) :
  getLearnedMerchants s = (Ok l, s') -> s' = s.
Proof.
  unfold getLearnedMerchants, tryCatch, bind, ret.
  destruct (Laws.reads store_lawful LEARNED_MERCHANTS_KEY s) as [v ->].
  destruct v as [[| x t] |]; try (intros H; injection H as _ <-; reflexivity).
  destruct (JSON_parse (x :: t)); intros H; injection H as _ <-; reflexivity.
Qed.

Lemma lawful_read_written (s : S) (l : list LearnedMerchant) :
  getItem LEARNED_MERCHANTS_KEY s = (Ok (Some (JSON_stringify l)), s) ->
  getLearnedMerchants s = (Ok l, s).
Proof.
  intros H. unfold getLearnedMerchants, tryCatch, bind, ret. rewrite H.
  destruct (json_faithful l) as [P Q].
  destruct (JSON_stringify l) as [| x t]; [congruence |].
  rewrite P. reflexivity.
Qed.

Lemma lawful_save (nm cat now : jsstring) (s s1 : S) (l : list LearnedMerchant) :
  getLearnedMerchants s = (Ok l, s1) ->
  exists s', saveLearnedMerchant nm cat now s = (Ok tt, s')
             /\ getLearnedMerchants s' = (Ok (recorded nm cat now l), s').
Proof.
  intros E.
  destruct (saveLearnedMerchant_writes nm cat now s) as [ms [s2 [E2 W]]].
  rewrite E in E2. injection E2 as <- <-.
  destruct (Laws.writes store_lawful LEARNED_MERCHANTS_KEY
              (JSON_stringify (recorded nm cat now l)) s1) as [s' [Hw Hr]].
  exists s'. split.
  - rewrite W, Hw. reflexivity.
  - apply lawful_read_written, Hr.
Qed.

Lemma lawful_clear (s : S) :
  exists s', V2.clearLearnedMerchants s = (Ok tt, s')
             /\ V3.clearLearnedMerchants s = (Ok tt, s')
             /\ getLearnedMerchants s' = (Ok [], s').
Proof.
  destruct (Laws.removes store_lawful LEARNED_MERCHANTS_KEY s) as [s' [Hr Hg]].
  exists s'. split; [| split].
  - unfold V2.clearLearnedMerchants, tryCatch. rewrite Hr. reflexivity.
  - exact Hr.
  - unfold getLearnedMerchants, tryCatch, bind, ret. rewrite Hg. reflexivity.
Qed.

End Lawful.

(** ** The order of the collection *)

Lemma sort_snoc (A : Type) (f : A -> A -> bool) (l : list A) (x : A) :
  sort f (l ++ [x]) = insert f x (sort f l).
Proof. unfold sort. rewrite fold_left_app. reflexivity. Qed.

Lemma insert_last (A : Type) (f : A -> A -> bool) (l : list A) (x : A) :
  (forall y, In y l -> f y x = true) -> insert f x l = l ++ [x].
Proof.
  induction l as [| y l IH]; intros H; [reflexivity |].
  cbn [insert app]. rewrite (H y (or_introl eq_refl)). f_equal.
  apply IH. intros z Hz. apply H. right. exact Hz.
Qed.

Section Learned.
Context {rt : Runtime}.

(** A merchant that is not stored goes behind the stored ones, which
    are all used at least once. *)
Lemma byUsage_fresh (nm cat now : jsstring) (l : list LearnedMerchant) :
  (forall m, In m l -> (1 <= timesUsed m)%Z) ->
  byUsage (l ++ [Laws.fresh nm cat now]) = byUsage l ++ [Laws.fresh nm cat now].
Proof.
  intros H. unfold byUsage. rewrite sort_snoc. apply insert_last.
  intros y Hy. apply In_sort in Hy. specialize (H y Hy).
  unfold moreUsed. apply Z.leb_le. cbn [Laws.fresh timesUsed]. lia.
Qed.

Lemma recorded_fresh (nm cat now : jsstring) (l : list LearnedMerchant) :
  Laws.unknown nm l ->
  recorded nm cat now l = firstn 500 (byUsage (l ++ [Laws.fresh nm cat now])).
Proof. intros H. apply recorded_new, H. Qed.

End Learned.

(** X1.  Once 500 merchants are stored, each used at least once, a
    correction for a merchant that is not among them is not learned:
    the collection that saveLearnedMerchant writes is the stored one,
    sorted again, and the new entry is dropped by the cut at 500. *)
Theorem full_store_learns_no_new_merchant
        {S : Type} {ls : Storage S} {json : Json} {rt : Runtime}
        (nm cat now : jsstring) (s s1 : S) (l : list LearnedMerchant) :
  getLearnedMerchants s = (Ok l, s1) ->
  (500 <= length l)%nat ->
  (forall m, In m l -> (1 <= timesUsed m)%Z) ->
  Laws.unknown nm l ->
  recorded nm cat now l = firstn 500 (byUsage l)
  /\ saveLearnedMerchant nm cat now s
     = (Ok tt, snd (setItem LEARNED_MERCHANTS_KEY
                            (JSON_stringify (firstn 500 (byUsage l))) s1))
  /\ (forall e, In e (recorded nm cat now l) -> In e l).
Proof.
  intros E Hfull Hused Hnew.
  assert (R : recorded nm cat now l = firstn 500 (byUsage l)).
  { rewrite (recorded_fresh cat now Hnew), (byUsage_fresh nm cat now l Hused).
    rewrite firstn_app.
    replace (500 - length (byUsage l))%nat with 0%nat
      by (unfold byUsage; rewrite length_sort; lia).
    cbn [firstn]. apply app_nil_r. }
  split; [exact R |]. split.
  - destruct (saveLearnedMerchant_writes nm cat now s) as [ms [s2 [E2 W]]].
    rewrite E in E2. injection E2 as <- <-. rewrite W, R. reflexivity.
  - intros e He. rewrite R in He. apply In_firstn_prefix in He.
    unfold byUsage in He. apply In_sort in He. exact He.
Qed.

Lemma full_store_learns_no_new_merchant_witness :
  @saveLearnedMerchant _ Demo.plainStorage Demo.lengthPrefixed asciiRuntime
     (u "Corner Shop") (u "Meals (Business)") (u "2025-06-01T12:00:00.000Z")
     (Cases.holding (Cases.stored 500))
  = (Ok tt,
     (LEARNED_MERCHANTS_KEY,
      @JSON_stringify Demo.lengthPrefixed (firstn 500 (byUsage (Cases.stored 500))))
     :: Cases.holding (Cases.stored 500)).
Proof.
  refine (proj1 (proj2 (@full_store_learns_no_new_merchant
            _ Demo.plainStorage Demo.lengthPrefixed asciiRuntime
            (u "Corner Shop") (u "Meals (Business)") (u "2025-06-01T12:00:00.000Z")
            (Cases.holding (Cases.stored 500)) (Cases.holding (Cases.stored 500))
            (Cases.stored 500) _ _ _ _))).
  - apply (@lawful_read_written _ Demo.plainStorage Demo.lengthPrefixed
             lengthPrefixed_faithful).
    reflexivity.
  - unfold Cases.stored. rewrite length_map, length_seq. lia.
  - intros m Hm.
    apply (proj1 (forallb_forall (fun m => (1 <=? timesUsed m)%Z) (Cases.stored 500))
                 ltac:(vm_compute; reflexivity) m) in Hm.
    apply Z.leb_le, Hm.
  - intros m Hm E.
    apply (proj1 (forallb_forall
                    (fun m => negb (JS.eqb (asciiLowerCase (name m))
                                           (trim (asciiLowerCase (u "Corner Shop")))))
                    (Cases.stored 500))
                 ltac:(vm_compute; reflexivity) m) in Hm.
    change (toLowerCase (name m)) with (asciiLowerCase (name m)) in E.
    change (Spec.normalized (u "Corner Shop"))
      with (trim (asciiLowerCase (u "Corner Shop"))) in E.
    rewrite E in Hm.
    destruct (same_string (trim (asciiLowerCase (u "Corner Shop")))
                          (trim (asciiLowerCase (u "Corner Shop"))));
      [discriminate | congruence].
Defined.

(** ** Substrings *)

Lemma startsWith_iff (s p : jsstring) :
  startsWith s p = true <-> exists r, s = p ++ r.
Proof.
  revert s. induction p as [| y p IH]; intros s.
  - split; [intros _; exists s; reflexivity | destruct s; reflexivity].
  - destruct s as [| x s]; cbn [startsWith].
    + split; [discriminate | intros [r H]; discriminate H].
    + rewrite andb_true_iff, N.eqb_eq, IH. split.
      * intros [-> [r ->]]. exists r. reflexivity.
      * intros [r H]. injection H as -> ->. split; [reflexivity | exists r; reflexivity].
Qed.

Lemma includes_iff (s p : jsstring) :
  includes s p = true <-> exists a b, s = a ++ p ++ b.
Proof.
  induction s as [| x s IH]; cbn [includes]; rewrite orb_true_iff, startsWith_iff.
  - split.
    + intros [[r H] | H]; [| discriminate]. exists [], r. exact H.
    + intros [a [b H]]. left. destruct a as [| y a]; [| discriminate].
      exists b. exact H.
  - rewrite IH. split.
    + intros [[r H] | [a [b H]]].
      * exists [], r. exact H.
      * exists (x :: a), b. rewrite H. reflexivity.
    + intros [[| y a] [b H]].
      * left. exists b. exact H.
      * right. injection H as _ ->. exists a, b. reflexivity.
Qed.

Lemma includes_trans (s t p : jsstring) :
  includes s t = true -> includes t p = true -> includes s p = true.
Proof.
  rewrite !includes_iff. intros [a [b ->]] [a' [b' ->]].
  exists (a ++ a'), (b' ++ b). rewrite <- !app_assoc. reflexivity.
Qed.

Lemma trimStart_suffix (s : jsstring) : exists a, s = a ++ trimStart s.
Proof.
  induction s as [| x s [a IH]]; [exists []; reflexivity |].
  cbn [trimStart]. destruct (isSpace x).
  - exists (x :: a). cbn [app]. f_equal. exact IH.
  - exists []. reflexivity.
Qed.

Lemma includes_trim (s : jsstring) : includes s (trim s) = true.
Proof.
  apply includes_iff. unfold trim, trimEnd.
  destruct (trimStart_suffix s) as [a Ha].
  destruct (trimStart_suffix (rev (trimStart s))) as [b Hb].
  exists a, (rev b). rewrite <- rev_app_distr, <- Hb, rev_involutive. exact Ha.
Qed.

(** ** What a correction does to the collection *)

Section Corrections.
Context {rt : Runtime}.

(** [touch] is the [find] of saveLearnedMerchant and the update of the
    entry it finds: the first entry under the name. *)
Lemma touch_spec (key cat now : jsstring) (ms : list LearnedMerchant) :
  match touch key cat now ms with
  | None => forall m, In m ms -> toLowerCase (name m) <> key
  | Some ms' =>
    exists a m b,
      ms = a ++ m :: b
      /\ (forall x, In x a -> toLowerCase (name x) <> key)
      /\ toLowerCase (name m) = key
      /\ ms' = a ++ {| name := name m; category := cat;
                       timesUsed := timesUsed m + 1; lastUsed := now |} :: b
  end.
Proof.
  induction ms as [| m ms IH]; cbn [touch]; [intros m [] |].
  destruct (same_string (toLowerCase (name m)) key) as [E | N].
  - exists [], m, ms. repeat split; [intros x [] | exact E].
  - destruct (touch key cat now ms) as [ms' |]; cbn [option_map].
    + destruct IH as [a [m0 [b [-> [Ha [Hm ->]]]]]].
      exists (m :: a), m0, b. repeat split; [| exact Hm].
      intros x [<- | Hx]; [exact N | apply Ha, Hx].
    + intros x [<- | Hx]; [exact N | apply IH, Hx].
Qed.

Lemma length_upsert (nm cat now : jsstring) (l : list LearnedMerchant) :
  (length (upsert nm cat now l) <= S (length l))%nat.
Proof.
  unfold upsert. pose proof (touch_spec (trim (toLowerCase nm)) cat now l) as H.
  destruct (touch _ cat now l) as [ms' |].
  - destruct H as [a [m [b [-> [_ [_ ->]]]]]]. rewrite !length_app. cbn [length]. lia.
  - rewrite length_app. cbn [length]. lia.
Qed.

(** Below the cap, the collection written is the updated one, sorted. *)
Lemma recorded_below_cap (nm cat now : jsstring) (l : list LearnedMerchant) :
  (length l < 500)%nat ->
  recorded nm cat now l = byUsage (upsert nm cat now l).
Proof.
  intros H. unfold recorded. apply firstn_all2.
  unfold byUsage. rewrite length_sort.
  pose proof (length_upsert nm cat now l). lia.
Qed.

End Corrections.

(** X2.  Save and read back.  Through a store that keeps what it is
    given, with fewer than 500 merchants stored, the collection read
    after saveLearnedMerchant holds the entries of the updated one, and
    among them the entry of the correction, with its category and its
    time: a new entry under the normalized name, used once, when the
    merchant was not stored, and the first entry found under the name,
    used once more, when it was. *)
Theorem saved_merchant_is_read_back
        {S : Type} {ls : Storage S} {json : Json} {rt : Runtime}
        (nm cat now : jsstring) (s s1 : S) (l : list LearnedMerchant) :
  Laws.lawful ls -> Spec.faithful json ->
  getLearnedMerchants s = (Ok l, s1) ->
  (length l < 500)%nat ->
  exists s' l',
    saveLearnedMerchant nm cat now s = (Ok tt, s')
    /\ getLearnedMerchants s' = (Ok l', s')
    /\ Permutation l' (upsert nm cat now l)
    /\ exists e,
         In e l' /\ category e = cat /\ lastUsed e = now
         /\ ((Laws.unknown nm l /\ e = Laws.fresh nm cat now)
             \/ (exists m, In m l /\ toLowerCase (name m) = Spec.normalized nm
                           /\ name e = name m
                           /\ timesUsed e = (timesUsed m + 1)%Z)).
Proof.
  intros Hs Hj E Hl.
  destruct (@lawful_save _ _ _ _ Hs Hj nm cat now _ _ _ E) as [s' [Hsave Hget]].
  exists s', (recorded nm cat now l).
  split; [exact Hsave |]. split; [exact Hget |].
  rewrite (recorded_below_cap nm cat now l Hl).
  split; [apply Permutation_sort |].
  assert (In_sorted : forall e, In e (upsert nm cat now l) ->
                                In e (byUsage (upsert nm cat now l)))
    by (intros e He; apply In_sort, He).
  unfold upsert in *.
  pose proof (touch_spec (trim (toLowerCase nm)) cat now l) as H.
  destruct (touch _ cat now l) as [ms' |].
  - destruct H as [a [m [b [-> [_ [Hm ->]]]]]].
    eexists. split; [apply In_sorted, in_elt |].
    split; [reflexivity |]. split; [reflexivity |]. right.
    exists m. split; [apply in_elt |]. split; [exact Hm |].
    split; reflexivity.
  - exists (Laws.fresh nm cat now).
    split; [apply In_sorted, in_elt |].
    split; [reflexivity |]. split; [reflexivity |]. left.
    split; [exact H | reflexivity].
Qed.

Lemma saved_merchant_is_read_back_witness :
  exists s' l',
    @saveLearnedMerchant _ Demo.plainStorage Demo.lengthPrefixed asciiRuntime
       (u " Corner Shop ") (u "Meals (Business)") (u "2025-06-01T12:00:00.000Z")
       (Cases.holding (Cases.stored 3)) = (Ok tt, s')
    /\ @getLearnedMerchants _ Demo.plainStorage Demo.lengthPrefixed s' = (Ok l', s')
    /\ In {| name := u "corner shop"; category := u "Meals (Business)";
             timesUsed := 1; lastUsed := u "2025-06-01T12:00:00.000Z" |} l'.
Proof.
  destruct (@saved_merchant_is_read_back
              _ Demo.plainStorage Demo.lengthPrefixed asciiRuntime
              (u " Corner Shop ") (u "Meals (Business)") (u "2025-06-01T12:00:00.000Z")
              (Cases.holding (Cases.stored 3)) (Cases.holding (Cases.stored 3))
              (Cases.stored 3) plainStorage_lawful lengthPrefixed_faithful
              eq_refl ltac:(vm_compute; lia))
    as [s' [l' [Hsave [Hget [_ [e [He _]]]]]]].
  exists s', l'. split; [exact Hsave |]. split; [exact Hget |].
  vm_compute in Hsave. injection Hsave as <-.
  vm_compute in Hget. injection Hget as <-.
  vm_compute. tauto.
Defined.

Lemma find_only (A : Type) (f : A -> bool) (l : list A) (x : A) :
  In x l -> f x = true -> (forall y, In y l -> f y = true -> y = x) ->
  find f l = Some x.
Proof.
  intros Hin Hx Hy. destruct (find f l) as [y |] eqn:E.
  - apply find_some in E. destruct E as [Hi Hf]. f_equal. apply Hy; assumption.
  - rewrite (find_none f l E x Hin) in Hx. discriminate.
Qed.

Section Suggested.
Context {rt : Runtime}.

Lemma V1_suggestFrom_learned (learned : list LearnedMerchant) (text : jsstring)
      (merchantName : option jsstring) (e : LearnedMerchant) :
  find (Laws.matchesV1 text merchantName) learned = Some e ->
  V1Receipt.suggestFrom learned text merchantName
  = {| suggested := Some (category e); certainty := high |}.
Proof.
  intros H. unfold V1Receipt.suggestFrom. rewrite merchantLower_eq.
  change (find _ learned) with (find (Laws.matchesV1 text merchantName) learned).
  rewrite H. reflexivity.
Qed.

(** The entry of a new merchant is the one found for a receipt of this
    merchant, when no other stored entry passes the test. *)
Lemma find_fresh (test : LearnedMerchant -> bool) (nm cat now : jsstring)
      (l : list LearnedMerchant) :
  test (Laws.fresh nm cat now) = true ->
  (forall m, In m l -> test m = false) ->
  find test (byUsage (l ++ [Laws.fresh nm cat now])) = Some (Laws.fresh nm cat now).
Proof.
  intros Hf Hl. apply find_only.
  - apply In_sort, in_elt.
  - exact Hf.
  - intros y Hy Ht. apply In_sort, in_app_or in Hy.
    destruct Hy as [Hy | [<- | []]]; [| reflexivity].
    rewrite (Hl y Hy) in Ht. discriminate.
Qed.

Lemma fresh_matches (nm cat now text : jsstring) :
  Spec.matchesV3 text (Some nm) (Laws.fresh nm cat now) = true
  /\ Spec.matchesV2 text (Some nm) (Laws.fresh nm cat now) = true.
Proof.
  unfold Spec.matchesV3, Spec.matchesV2, Spec.merchantLower, Laws.fresh,
    Spec.normalized.
  cbn [name]. rewrite includes_trim. split; reflexivity.
Qed.

End Suggested.

(** X3.  Save and suggest.  Through a store that keeps what it is
    given, after the correction of a merchant that was not stored, made
    while fewer than 500 are, a receipt with this merchant name is
    suggested the category of the correction at [high] confidence by
    each engine, whatever its text, when no entry stored before passes
    the test of the engine on the receipt. *)
Theorem corrected_merchant_is_suggested
        {S : Type} {ls : Storage S} {json : Json} {rt : Runtime}
        (nm cat now text : jsstring) (s s1 : S) (l : list LearnedMerchant) :
  Laws.lawful ls -> Spec.faithful json ->
  getLearnedMerchants s = (Ok l, s1) ->
  (length l < 500)%nat ->
  Laws.unknown nm l ->
  exists s',
    saveLearnedMerchant nm cat now s = (Ok tt, s')
    /\ ((forall m, In m l -> Spec.matchesV3 text (Some nm) m = false) ->
        V3.suggestCategory text (Some nm) s'
        = (Ok {| suggested := Some cat; certainty := high |}, s'))
    /\ ((forall m, In m l -> Spec.matchesV2 text (Some nm) m = false) ->
        V2.suggestCategory text (Some nm) s'
        = (Ok {| suggested := Some cat; certainty := high |}, s')
        /\ V1Receipt.suggestCategory text (Some nm) s'
           = (Ok {| suggested := Some cat; certainty := high |}, s')).
Proof.
  intros Hs Hj E Hl Hnew.
  destruct (@lawful_save _ _ _ _ Hs Hj nm cat now _ _ _ E) as [s' [Hsave Hget]].
  exists s'. split; [exact Hsave |].
  rewrite (recorded_below_cap nm cat now l Hl) in Hget.
  unfold upsert in Hget. fold (Spec.normalized nm) in Hget.
  rewrite (@touch_none rt (Spec.normalized nm) cat now l Hnew) in Hget.
  fold (Laws.fresh nm cat now) in Hget.
  destruct (fresh_matches nm cat now text) as [M3 M2].
  split; intros Hl'; [| split].
  - unfold V3.suggestCategory, bind, ret. rewrite Hget.
    rewrite (V3_suggestFrom_learned _ text (Some nm) (find_fresh _ nm cat now l M3 Hl')).
    reflexivity.
  - unfold V2.suggestCategory, bind, ret. rewrite Hget.
    rewrite (V2_suggestFrom_learned _ text (Some nm) (find_fresh _ nm cat now l M2 Hl')).
    reflexivity.
  - unfold V1Receipt.suggestCategory, bind, ret. rewrite Hget.
    rewrite (V1_suggestFrom_learned _ text (Some nm) (find_fresh _ nm cat now l M2 Hl')).
    reflexivity.
Qed.

(** "Corner Shop", corrected to "Office Supplies": its next receipt,
    for which the built-in tables have no category. *)
Lemma corrected_merchant_is_suggested_witness :
  exists s',
    @saveLearnedMerchant _ Demo.plainStorage Demo.lengthPrefixed asciiRuntime
       (u "Corner Shop") (u "Office Supplies") (u "2025-06-01T12:00:00.000Z")
       (Cases.holding (Cases.stored 3)) = (Ok tt, s')
    /\ @V3.suggestCategory _ Demo.plainStorage Demo.lengthPrefixed asciiRuntime
         (u "CORNER SHOP 3.20") (Some (u "Corner Shop")) s'
       = (Ok {| suggested := Some (u "Office Supplies"); certainty := high |}, s')
    /\ @V3.suggestFrom asciiRuntime [] (u "CORNER SHOP 3.20")
                       (Some (u "Corner Shop"))
       = {| suggested := None; certainty := low |}.
Proof.
  destruct (@corrected_merchant_is_suggested
              _ Demo.plainStorage Demo.lengthPrefixed asciiRuntime
              (u "Corner Shop") (u "Office Supplies") (u "2025-06-01T12:00:00.000Z")
              (u "CORNER SHOP 3.20")
              (Cases.holding (Cases.stored 3)) (Cases.holding (Cases.stored 3))
              (Cases.stored 3) plainStorage_lawful lengthPrefixed_faithful
              eq_refl ltac:(vm_compute; lia)
              ltac:(intros m Hm; vm_compute in Hm;
                    repeat (destruct Hm as [<- | Hm]; [vm_compute; discriminate |]);
                    destruct Hm))
    as [s' [Hsave [H3 _]]].
  exists s'. split; [exact Hsave |]. split; [| vm_compute; reflexivity].
  apply H3. intros m Hm. vm_compute in Hm.
  repeat (destruct Hm as [<- | Hm]; [vm_compute; reflexivity |]).
  destruct Hm.
Defined.

(** X4.  A stored text that [JSON.parse] rejects reads as no merchant,
    and the next correction replaces it: what is stored afterwards is
    the one entry of this correction. *)
Theorem unreadable_collection_is_replaced
        {S : Type} {ls : Storage S} {json : Json} {rt : Runtime}
        (nm cat now t : jsstring) (e : exn) (s : S) :
  Laws.lawful ls -> Spec.faithful json ->
  getItem LEARNED_MERCHANTS_KEY s = (Ok (Some t), s) ->
  JSON_parse t = Throw e ->
  getLearnedMerchants s = (Ok [], s)
  /\ exists s',
       saveLearnedMerchant nm cat now s = (Ok tt, s')
       /\ getLearnedMerchants s' = (Ok [Laws.fresh nm cat now], s').
Proof.
  intros Hs Hj Hg Hp.
  assert (E : getLearnedMerchants s = (Ok [], s)).
  { unfold getLearnedMerchants, tryCatch, bind, ret. rewrite Hg.
    destruct t as [| x t]; [reflexivity |]. rewrite Hp. reflexivity. }
  split; [exact E |].
  destruct (@lawful_save _ _ _ _ Hs Hj nm cat now _ _ _ E) as [s' [Hsave Hget]].
  exists s'. split; [exact Hsave |]. exact Hget.
Qed.

Lemma unreadable_collection_is_replaced_witness :
  let s := [(LEARNED_MERCHANTS_KEY, u "{oops")] in
  @getLearnedMerchants _ Demo.plainStorage Demo.lengthPrefixed s = (Ok [], s)
  /\ exists s',
       @saveLearnedMerchant _ Demo.plainStorage Demo.lengthPrefixed asciiRuntime
          (u "Corner Shop") (u "Meals (Business)") (u "2025-06-01T12:00:00.000Z") s
       = (Ok tt, s')
       /\ @getLearnedMerchants _ Demo.plainStorage Demo.lengthPrefixed s'
          = (Ok [{| name := u "corner shop"; category := u "Meals (Business)";
                    timesUsed := 1; lastUsed := u "2025-06-01T12:00:00.000Z" |}], s').
Proof.
  exact (@unreadable_collection_is_replaced
           _ Demo.plainStorage Demo.lengthPrefixed asciiRuntime
           (u "Corner Shop") (u "Meals (Business)") (u "2025-06-01T12:00:00.000Z")
           (u "{oops") SyntaxError [(LEARNED_MERCHANTS_KEY, u "{oops")]
           plainStorage_lawful lengthPrefixed_faithful eq_refl eq_refl).
Defined.

(** ** User feedback *)

Section FeedbackFacts.
Context {S : Type} {ls : Storage S} {json : Json} {rt : Runtime}.

Lemma learnFromUserCorrection_returns (originalMerchant : option jsstring)
      (correctedName selectedCategory now1 now2 : jsstring) (s : S) :
  exists s',
    Feedback.learnFromUserCorrection originalMerchant correctedName
      selectedCategory now1 now2 s = (Ok tt, s').
Proof.
  unfold Feedback.learnFromUserCorrection, bind.
  assert (H1 : exists s1,
             (if Feedback.truthy correctedName && (2 <=? length correctedName)%nat
              then saveLearnedMerchant correctedName selectedCategory now1
              else ret tt) s = (Ok tt, s1)).
  { destruct (_ && _); [apply saveLearnedMerchant_returns | eexists; reflexivity]. }
  destruct H1 as [s1 ->].
  destruct originalMerchant as [original |]; [| eexists; reflexivity].
  destruct (_ && _); [apply saveLearnedMerchant_returns | eexists; reflexivity].
Qed.

Lemma usable_long (nm : jsstring) :
  (2 <= length nm)%nat ->
  Feedback.truthy nm && (2 <=? length nm)%nat = true.
Proof.
  intros H. destruct nm as [| x t]; [simpl in H; lia |].
  cbn [Feedback.truthy andb]. apply Nat.leb_le, H.
Qed.

Lemma usable_short (nm : jsstring) :
  (length nm < 2)%nat ->
  Feedback.truthy nm && (2 <=? length nm)%nat = false.
Proof.
  intros H. apply andb_false_iff. right. apply Nat.leb_gt, H.
Qed.

End FeedbackFacts.

(** X5.  learnFromUserCorrection returns whatever the store does, and
    it does not touch the store when no name has two characters: the
    corrected name is shorter, and the recognized name is null, shorter
    too, or the corrected name itself. *)
Theorem learnFromUserCorrection_never_throws
        {S : Type} {ls : Storage S} {json : Json} {rt : Runtime}
        (originalMerchant : option jsstring)
        (correctedName selectedCategory now1 now2 : jsstring) (s : S) :
  (exists s',
      Feedback.learnFromUserCorrection originalMerchant correctedName
        selectedCategory now1 now2 s = (Ok tt, s'))
  /\ ((length correctedName < 2)%nat ->
      match originalMerchant with
      | Some original => (length original < 2)%nat \/ original = correctedName
      | None => True
      end ->
      Feedback.learnFromUserCorrection originalMerchant correctedName
        selectedCategory now1 now2 s = (Ok tt, s)).
Proof.
  split; [apply learnFromUserCorrection_returns |].
  intros Hc Ho. unfold Feedback.learnFromUserCorrection, bind.
  rewrite (usable_short _ Hc). cbn [ret].
  destruct originalMerchant as [original |]; [| reflexivity].
  replace (Feedback.truthy original && negb (JS.eqb original correctedName)
           && (2 <=? length original)%nat) with false; [reflexivity |].
  symmetry. destruct Ho as [Ho | ->].
  - apply andb_false_iff. right. apply Nat.leb_gt, Ho.
  - destruct (same_string correctedName correctedName) as [_ | N]; [| congruence].
    cbn [negb]. rewrite andb_false_r. reflexivity.
Qed.

Lemma learnFromUserCorrection_never_throws_witness :
  @Feedback.learnFromUserCorrection unit Demo.deniedStorage Demo.lengthPrefixed
     asciiRuntime (Some (u "X")) (u "X") (u "Travel")
     (u "2025-06-01T12:00:00.000Z") (u "2025-06-01T12:00:00.001Z") tt
  = (Ok tt, tt).
Proof.
  exact (proj2 (@learnFromUserCorrection_never_throws
                  unit Demo.deniedStorage Demo.lengthPrefixed asciiRuntime
                  (Some (u "X")) (u "X") (u "Travel")
                  (u "2025-06-01T12:00:00.000Z") (u "2025-06-01T12:00:00.001Z") tt)
               ltac:(vm_compute; lia) (or_intror eq_refl)).
Defined.

(** X6.  One correction, counted twice.  When the corrected name
    differs from the recognized one, learnFromUserCorrection saves
    both; when the two have the same normalized form (they differ by
    case or by outer spaces only), the second call finds the entry of
    the first: a merchant that was not stored is left with one entry,
    used twice.  Through a store that keeps what it is given, with
    fewer than 499 merchants stored. *)
Theorem correction_differing_by_case_counts_twice
        {S : Type} {ls : Storage S} {json : Json} {rt : Runtime}
        (original correctedName cat now1 now2 : jsstring) (s s1 : S)
        (l : list LearnedMerchant) :
  Laws.lawful ls -> Spec.faithful json ->
  getLearnedMerchants s = (Ok l, s1) ->
  (length l < 499)%nat ->
  Laws.unknown correctedName l ->
  original <> correctedName ->
  (2 <= length original)%nat -> (2 <= length correctedName)%nat ->
  Spec.normalized original = Spec.normalized correctedName ->
  toLowerCase (Spec.normalized correctedName) = Spec.normalized correctedName ->
  exists s' l',
    Feedback.learnFromUserCorrection (Some original) correctedName cat now1 now2 s
    = (Ok tt, s')
    /\ getLearnedMerchants s' = (Ok l', s')
    /\ length l' = Datatypes.S (length l)
    /\ In {| name := Spec.normalized correctedName; category := cat;
             timesUsed := 2; lastUsed := now2 |} l'.
Proof.
  intros Hs Hj E Hl Hnew Hne Ho Hc Hsame Hlow.
  destruct (@lawful_save _ _ _ _ Hs Hj correctedName cat now1 _ _ _ E)
    as [s2 [Hsave1 Hget1]].
  destruct (@lawful_save _ _ _ _ Hs Hj original cat now2 _ _ _ Hget1)
    as [s' [Hsave2 Hget2]].
  exists s'. eexists. split; [| split; [exact Hget2 |]].
  - unfold Feedback.learnFromUserCorrection, bind.
    rewrite (usable_long _ Hc), Hsave1.
    replace (Feedback.truthy original && negb (JS.eqb original correctedName)
             && (2 <=? length original)%nat) with true; [exact Hsave2 |].
    symmetry. destruct original as [| x t]; [simpl in Ho; lia |].
    cbn [Feedback.truthy andb]. rewrite (eqb_neq Hne).
    cbn [negb andb]. apply Nat.leb_le, Ho.
  - assert (R1 : recorded correctedName cat now1 l
                 = byUsage (l ++ [Laws.fresh correctedName cat now1])).
    { rewrite (recorded_below_cap correctedName cat now1 l) by lia.
      unfold upsert. fold (Spec.normalized correctedName).
      rewrite (@touch_none rt (Spec.normalized correctedName) cat now1 l Hnew).
      reflexivity. }
    assert (L1 : length (recorded correctedName cat now1 l) = Datatypes.S (length l)).
    { rewrite R1. unfold byUsage. rewrite length_sort, length_app.
      cbn [length]. lia. }
    rewrite (recorded_below_cap original cat now2 _) by lia.
    unfold upsert. fold (Spec.normalized original). rewrite Hsame.
    pose proof (touch_spec (Spec.normalized correctedName) cat now2
                           (recorded correctedName cat now1 l)) as T.
    destruct (touch _ cat now2 _) as [ms' |].
    + destruct T as [a [m [b [Hl1 [_ [Hm ->]]]]]].
      assert (Em : m = Laws.fresh correctedName cat now1).
      { assert (Hin : In m (recorded correctedName cat now1 l))
          by (rewrite Hl1; apply in_elt).
        rewrite R1 in Hin. apply In_sort, in_app_or in Hin.
        destruct Hin as [Hin | [<- | []]]; [| reflexivity].
        exfalso. apply (Hnew m Hin), Hm. }
      split.
      * unfold byUsage. rewrite length_sort. rewrite <- L1, Hl1.
        rewrite !length_app. reflexivity.
      * apply In_sort. subst m. apply in_elt.
    + exfalso. apply (T (Laws.fresh correctedName cat now1)).
      * rewrite R1. apply In_sort, in_elt.
      * exact Hlow.
Qed.

(** "LIDL" on the receipt, corrected to "Lidl". *)
Lemma correction_differing_by_case_counts_twice_witness :
  exists s' l',
    @Feedback.learnFromUserCorrection _ Demo.plainStorage Demo.lengthPrefixed
       asciiRuntime (Some (u "LIDL")) (u "Lidl") (u "Meals (Business)")
       (u "2025-06-01T12:00:00.000Z") (u "2025-06-01T12:00:00.001Z")
       (Cases.holding (Cases.stored 3)) = (Ok tt, s')
    /\ @getLearnedMerchants _ Demo.plainStorage Demo.lengthPrefixed s' = (Ok l', s')
    /\ length l' = 4%nat
    /\ In {| name := u "lidl"; category := u "Meals (Business)";
             timesUsed := 2; lastUsed := u "2025-06-01T12:00:00.001Z" |} l'.
Proof.
  exact (@correction_differing_by_case_counts_twice
           _ Demo.plainStorage Demo.lengthPrefixed asciiRuntime
           (u "LIDL") (u "Lidl") (u "Meals (Business)")
           (u "2025-06-01T12:00:00.000Z") (u "2025-06-01T12:00:00.001Z")
           (Cases.holding (Cases.stored 3)) (Cases.holding (Cases.stored 3))
           (Cases.stored 3) plainStorage_lawful lengthPrefixed_faithful
           eq_refl ltac:(vm_compute; lia)
           ltac:(intros m Hm; vm_compute in Hm;
                 repeat (destruct Hm as [<- | Hm]; [vm_compute; discriminate |]);
                 destruct Hm)
           ltac:(vm_compute; discriminate)
           ltac:(vm_compute; lia) ltac:(vm_compute; lia) eq_refl eq_refl).
Defined.

(** ** Suggestions without learned merchants *)

Section NoLearned.
Context {S : Type} {ls : Storage S} {json : Json} {rt : Runtime}.

Lemma suggestCategory_from (s s' : S) (l : list LearnedMerchant)
      (text : jsstring) (merchantName : option jsstring) :
  getLearnedMerchants s = (Ok l, s') ->
  V3.suggestCategory text merchantName s
  = (Ok (V3.suggestFrom l text merchantName), s')
  /\ V2.suggestCategory text merchantName s
     = (Ok (V2.suggestFrom l text merchantName), s')
  /\ V1Receipt.suggestCategory text merchantName s
     = (Ok (V1Receipt.suggestFrom l text merchantName), s').
Proof.
  intros E.
  unfold V3.suggestCategory, V2.suggestCategory, V1Receipt.suggestCategory, bind, ret.
  rewrite E. repeat split.
Qed.

Lemma getLearnedMerchants_refused (s s' : S) (e : exn) :
  getItem LEARNED_MERCHANTS_KEY s = (Throw e, s') ->
  getLearnedMerchants s = (Ok [], s').
Proof.
  intros H. unfold getLearnedMerchants, tryCatch, bind, ret. rewrite H. reflexivity.
Qed.

Lemma getLearnedMerchants_unreadable (s s' : S) :
  Laws.unreadable s s' -> getLearnedMerchants s = (Ok [], s').
Proof.
  unfold getLearnedMerchants, tryCatch, bind, ret.
  intros [[e H] | [H | [H | [x [t [e [H P]]]]]]]; rewrite H; try reflexivity.
  rewrite P. reflexivity.
Qed.

End NoLearned.

(** X7.  Clear and suggest.  Through a store that keeps what it is
    given, clearLearnedMerchants of either engine leaves no learned
    merchant: the collection reads as empty, and every engine suggests
    from its built-in tables alone. *)
Theorem cleared_store_suggests_from_tables
        {S : Type} {ls : Storage S} {json : Json} {rt : Runtime}
        (text : jsstring) (merchantName : option jsstring) (s : S) :
  Laws.lawful ls ->
  exists s',
    V2.clearLearnedMerchants s = (Ok tt, s')
    /\ V3.clearLearnedMerchants s = (Ok tt, s')
    /\ getLearnedMerchants s' = (Ok [], s')
    /\ V3.suggestCategory text merchantName s'
       = (Ok (V3.suggestFrom [] text merchantName), s')
    /\ V2.suggestCategory text merchantName s'
       = (Ok (V2.suggestFrom [] text merchantName), s')
    /\ V1Receipt.suggestCategory text merchantName s'
       = (Ok (V1Receipt.suggestFrom [] text merchantName), s').
Proof.
  intros Hs. destruct (@lawful_clear _ _ json Hs s) as [s' [H2 [H3 Hg]]].
  exists s'. split; [exact H2 |]. split; [exact H3 |]. split; [exact Hg |].
  apply (@suggestCategory_from _ _ _ _ _ _ _ text merchantName Hg).
Qed.

(** "0 market" is learned as "Office Supplies"; once the store is
    cleared, its receipt has no category. *)
Lemma cleared_store_suggests_from_tables_witness :
  fst (@V3.suggestCategory _ Demo.plainStorage Demo.lengthPrefixed asciiRuntime
         (u "0 MARKET 3.20") None (Cases.holding (Cases.stored 3)))
  = Ok {| suggested := Some (u "Office Supplies"); certainty := high |}
  /\ exists s',
       @V3.clearLearnedMerchants _ Demo.plainStorage
          (Cases.holding (Cases.stored 3)) = (Ok tt, s')
       /\ @V3.suggestCategory _ Demo.plainStorage Demo.lengthPrefixed asciiRuntime
            (u "0 MARKET 3.20") None s'
          = (Ok {| suggested := None; certainty := low |}, s').
Proof.
  split; [vm_compute; reflexivity |].
  destruct (@cleared_store_suggests_from_tables
              _ Demo.plainStorage Demo.lengthPrefixed asciiRuntime
              (u "0 MARKET 3.20") None (Cases.holding (Cases.stored 3))
              plainStorage_lawful) as [s' [_ [H3 [_ [R _]]]]].
  exists s'. split; [exact H3 |]. rewrite R. vm_compute. reflexivity.
Defined.

(** X8.  A read of the learned merchants that fails does not reach
    the processing of a receipt.  When [getItem] throws, when nothing
    or the empty text is stored under the key, and when [JSON.parse]
    rejects the stored text, what processReceiptImage of each engine
    computes from the recognized text returns, and the category is the
    one suggested from the built-in tables alone. *)
Theorem processing_survives_store_failure
        {S : Type} {ls : Storage S} {json : Json} {rt : Runtime}
        (today text : jsstring) (conf : Q) (usedNative : bool)
        (ocrResult : Native.RegionOCRResult) (s s' : S) :
  Laws.unreadable s s' ->
  exists r3 r2 r1,
    V3Receipt.processReceiptImage text conf s = (Ok r3, s')
    /\ V2Receipt.processReceiptImage usedNative ocrResult s = (Ok r2, s')
    /\ V1Receipt.processReceiptImage today text conf s = (Ok r1, s')
    /\ (V3Receipt.suggestedCategory r3, V3Receipt.categoryConfidence r3)
       = (let r := V3.suggestFrom [] text (V3Receipt.extractMerchant text) in
          (suggested r, certainty r))
    /\ (V2Receipt.suggestedCategory r2, V2Receipt.categoryConfidence r2)
       = (let r := V2.suggestFrom [] (Native.text ocrResult)
                     (Native.merchantName
                        (Native.scanReceipt usedNative ocrResult)) in
          (suggested r, certainty r))
    /\ (V1Receipt.suggestedCategory r1, V1Receipt.categoryConfidence r1)
       = (let r := V1Receipt.suggestFrom [] text
                     (V1Receipt.extractMerchantName text) in
          (suggested r, certainty r)).
Proof.
  intros H. apply getLearnedMerchants_unreadable in H.
  unfold V3Receipt.processReceiptImage, V2Receipt.processReceiptImage,
    V1Receipt.processReceiptImage, bind, ret.
  destruct (@suggestCategory_from _ _ _ _ _ _ _ text (V3Receipt.extractMerchant text) H)
    as [-> _].
  destruct (@suggestCategory_from _ _ _ _ _ _ _
              (Native.rawText (Native.scanReceipt usedNative ocrResult))
              (Native.merchantName (Native.scanReceipt usedNative ocrResult)) H)
    as [_ [-> _]].
  destruct (@suggestCategory_from _ _ _ _ _ _ _ text (V1Receipt.extractMerchantName text) H)
    as [_ [_ ->]].
  do 3 eexists. repeat split.
Qed.

(** A store that refuses the read, and a store that holds a text which
    is no collection. *)
Lemma processing_survives_store_failure_witness :
  (exists r3,
      @V3Receipt.processReceiptImage unit Demo.deniedStorage Demo.lengthPrefixed
         asciiRuntime (Demo.lines ["Corner Shop"; "Sum 3.20"]%string) 90 tt
      = (Ok r3, tt)
      /\ V3Receipt.merchantName r3 = Some (u "Corner Shop")
      /\ V3Receipt.total r3 = Some (320 # 100)
      /\ V3Receipt.suggestedCategory r3 = None
      /\ V3Receipt.categoryConfidence r3 = low)
  /\ (exists r3,
         @V3Receipt.processReceiptImage _ Demo.plainStorage Demo.lengthPrefixed
            asciiRuntime (Demo.lines ["Corner Shop"; "Sum 3.20"]%string) 90
            [(LEARNED_MERCHANTS_KEY, u "{oops")]
         = (Ok r3, [(LEARNED_MERCHANTS_KEY, u "{oops")])
         /\ V3Receipt.suggestedCategory r3 = None).
Proof.
  pose (scan := {| Native.text := [];
                   Native.confidence := 0;
                   Native.regions :=
                     {| Native.top := Demo.region [] 0;
                        Native.middle := Demo.region [] 0;
                        Native.bottom := Demo.region [] 0 |} |}).
  split.
  - destruct (@processing_survives_store_failure
                unit Demo.deniedStorage Demo.lengthPrefixed asciiRuntime
                (u "2025-06-01")
                (Demo.lines ["Corner Shop"; "Sum 3.20"]%string) 90 true scan tt tt
                (or_introl (ex_intro _ SecurityError eq_refl)))
      as [r3 [_ [_ [E _]]]].
    exists r3. split; [exact E |].
    vm_compute in E. injection E as <-. vm_compute. repeat split.
  - destruct (@processing_survives_store_failure
                _ Demo.plainStorage Demo.lengthPrefixed asciiRuntime
                (u "2025-06-01")
                (Demo.lines ["Corner Shop"; "Sum 3.20"]%string) 90 true scan
                [(LEARNED_MERCHANTS_KEY, u "{oops")]
                [(LEARNED_MERCHANTS_KEY, u "{oops")]
                ltac:(right; right; right; vm_compute; do 3 eexists;
                      split; reflexivity))
      as [r3 [_ [_ [E _]]]].
    exists r3. split; [exact E |].
    vm_compute in E. injection E as <-. vm_compute. reflexivity.
Defined.

(** ** The built-in merchants of engine v3 *)

Lemma find_prefix (A : Type) (f : A -> bool) (n : nat) (l : list A) :
  existsb f (firstn n l) = true ->
  exists r, find f l = Some r /\ In r (firstn n l).
Proof.
  revert n. induction l as [| x l IH]; intros [| n]; cbn [firstn existsb];
    try discriminate.
  cbn [find]. destruct (f x) eqn:E; cbn [orb].
  - intros _. exists x. split; [reflexivity | left; reflexivity].
  - intros H. destruct (IH n H) as [r [Hr Hin]].
    exists r. split; [exact Hr | right; exact Hin].
Qed.

Lemma In_eqb (p : jsstring) (l : list jsstring) :
  existsb (JS.eqb p) l = true -> In p l.
Proof.
  intros H. apply existsb_exists in H. destruct H as [q [Hq E]].
  destruct (same_string p q) as [-> | N]; [exact Hq | discriminate].
Qed.

Section BuiltIn.
Context {rt : Runtime}.

(** The test of the second stage of suggestCategory on a rule. *)
Lemma V3_suggestFrom_builtin (learned : list LearnedMerchant) (text : jsstring)
      (merchantName : option jsstring) (r : MerchantMapping) :
  (forall e, In e learned -> Spec.matchesV3 text merchantName e = false) ->
  find (fun merchant =>
          existsb (fun pattern =>
                     includes (toLowerCase text) pattern
                     || includes (Spec.merchantLower merchantName) pattern)
                  (patterns merchant))
       V3.BUILT_IN_MERCHANTS = Some r ->
  V3.suggestFrom learned text merchantName
  = {| suggested := Some (mcategory r); certainty := high |}.
Proof.
  intros Hl Hr. unfold V3.suggestFrom. rewrite merchantLower_eq.
  change (find _ learned) with (find (Spec.matchesV3 text merchantName) learned).
  replace (find (Spec.matchesV3 text merchantName) learned) with (@None LearnedMerchant).
  - rewrite Hr. reflexivity.
  - symmetry. destruct (find _ learned) as [e |] eqn:E; [| reflexivity].
    apply find_some in E. destruct E as [Hin He].
    rewrite (Hl e Hin) in He. discriminate.
Qed.

(** A word of the text that holds a pattern of one of the first [n]
    rules stops the search within these rules. *)
Lemma builtin_prefix (n : nat) (learned : list LearnedMerchant)
      (text word pattern : jsstring) (merchantName : option jsstring) :
  (forall e, In e learned -> Spec.matchesV3 text merchantName e = false) ->
  In pattern (flat_map patterns (firstn n V3.BUILT_IN_MERCHANTS)) ->
  includes word pattern = true ->
  includes (toLowerCase text) word = true ->
  exists r,
    In r (firstn n V3.BUILT_IN_MERCHANTS)
    /\ V3.suggestFrom learned text merchantName
       = {| suggested := Some (mcategory r); certainty := high |}.
Proof.
  intros Hl Hp Hw Ht.
  apply in_flat_map in Hp. destruct Hp as [r0 [Hr0 Hp]].
  destruct (@find_prefix _
              (fun merchant =>
                 existsb (fun pattern =>
                            includes (toLowerCase text) pattern
                            || includes (Spec.merchantLower merchantName) pattern)
                         (patterns merchant))
              n V3.BUILT_IN_MERCHANTS) as [r [Hr Hin]].
  - apply existsb_exists. exists r0. split; [exact Hr0 |].
    apply existsb_exists. exists pattern. split; [exact Hp |].
    rewrite (includes_trans _ _ _ Ht Hw). reflexivity.
  - exists r. split; [exact Hin |].
    apply V3_suggestFrom_builtin; assumption.
Qed.

End BuiltIn.

(** X9.  The built-in table of engine v3 has the rule of the filling
    stations "Total", with the pattern "total", and every rule before
    it is of the categories "Office Supplies", "Meals (Business)" or
    "Travel".  So a receipt whose text holds the word "total", in
    whatever case the runtime lowers to it, and which no learned
    merchant matches, is suggested one of these three categories at
    [high] confidence: the later rules and the keywords are never
    reached. *)
Theorem word_total_decides_the_category {rt : Runtime}
        (learned : list LearnedMerchant) (text : jsstring)
        (merchantName : option jsstring) :
  (forall e, In e learned -> Spec.matchesV3 text merchantName e = false) ->
  includes (toLowerCase text) (u "total") = true ->
  let r := V3.suggestFrom learned text merchantName in
  certainty r = high
  /\ (suggested r = Some (u "Office Supplies")
      \/ suggested r = Some (u "Meals (Business)")
      \/ suggested r = Some (u "Travel")).
Proof.
  intros Hl Ht.
  destruct (@builtin_prefix rt 88 learned text (u "total") (u "total") merchantName
              Hl (@In_eqb (u "total") (flat_map patterns (firstn 88 V3.BUILT_IN_MERCHANTS))
                     ltac:(vm_compute; reflexivity)) eq_refl Ht) as [r [Hin ->]].
  cbv zeta. cbn [certainty suggested]. split; [reflexivity |].
  assert (C : forallb (fun r => JS.eqb (mcategory r) (u "Office Supplies")
                                || JS.eqb (mcategory r) (u "Meals (Business)")
                                || JS.eqb (mcategory r) (u "Travel"))
                      (firstn 88 V3.BUILT_IN_MERCHANTS) = true)
    by (vm_compute; reflexivity).
  rewrite forallb_forall in C. specialize (C r Hin).
  apply orb_true_iff in C. destruct C as [C | C];
    [apply orb_true_iff in C; destruct C as [C | C] |].
  - left. f_equal. destruct (same_string (mcategory r) (u "Office Supplies"));
      [assumption | discriminate].
  - right. left. f_equal.
    destruct (same_string (mcategory r) (u "Meals (Business)"));
      [assumption | discriminate].
  - right. right. f_equal.
    destruct (same_string (mcategory r) (u "Travel")); [assumption | discriminate].
Qed.

(** The receipt of a laptop, which the keywords put under "Equipment"
    when the word "total" is not printed on it. *)
Lemma word_total_decides_the_category_witness :
  certainty (@V3.suggestFrom asciiRuntime []
               (Demo.lines ["Laptop"; "TOTAL 999.00"]%string) None)
  = high
  /\ @V3.suggestFrom asciiRuntime []
       (Demo.lines ["Laptop"; "TOTAL 999.00"]%string) None
     = {| suggested := Some (u "Travel"); certainty := high |}
  /\ @V3.suggestFrom asciiRuntime []
       (Demo.lines ["Laptop"; "999.00"]%string) None
     = {| suggested := Some (u "Equipment"); certainty := medium |}.
Proof.
  split; [| split; vm_compute; reflexivity].
  exact (proj1 (@word_total_decides_the_category asciiRuntime []
                  (Demo.lines ["Laptop"; "TOTAL 999.00"]%string)
                  None ltac:(intros e []) eq_refl)).
Defined.

(** X10.  The rules of MediaMarkt ("Equipment") and of Expedia
    ("Travel") of engine v3 never decide: their patterns hold the
    pattern "dia" of an earlier rule, and every rule up to that one is
    of the category "Office Supplies".  A receipt whose text names
    "media markt", "mediamarkt" or "expedia", and which no learned
    merchant matches, is suggested "Office Supplies" at [high]
    confidence. *)
Theorem mediamarkt_and_expedia_are_office_supplies {rt : Runtime}
        (learned : list LearnedMerchant) (text word : jsstring)
        (merchantName : option jsstring) :
  (forall e, In e learned -> Spec.matchesV3 text merchantName e = false) ->
  In word [u "media markt"; u "mediamarkt"; u "expedia"] ->
  includes (toLowerCase text) word = true ->
  nth_error V3.BUILT_IN_MERCHANTS 109
  = Some (Rule [u "media markt"; u "mediamarkt"] (u "Equipment") (u "MediaMarkt"))
  /\ nth_error V3.BUILT_IN_MERCHANTS 185
     = Some (Rule [u "expedia"] (u "Travel") (u "Expedia"))
  /\ V3.suggestFrom learned text merchantName
     = {| suggested := Some (u "Office Supplies"); certainty := high |}.
Proof.
  intros Hl Hw Ht.
  split; [vm_compute; reflexivity |]. split; [vm_compute; reflexivity |].
  assert (Hdia : includes word (u "dia") = true)
    by (destruct Hw as [<- | [<- | [<- | []]]]; vm_compute; reflexivity).
  destruct (@builtin_prefix rt 35 learned text word (u "dia") merchantName Hl
              (@In_eqb (u "dia") (flat_map patterns (firstn 35 V3.BUILT_IN_MERCHANTS))
                       ltac:(vm_compute; reflexivity)) Hdia Ht) as [r [Hin ->]].
  assert (C : forallb (fun r => JS.eqb (mcategory r) (u "Office Supplies"))
                      (firstn 35 V3.BUILT_IN_MERCHANTS) = true)
    by (vm_compute; reflexivity).
  rewrite forallb_forall in C. specialize (C r Hin).
  destruct (same_string (mcategory r) (u "Office Supplies")) as [-> | N];
    [reflexivity | discriminate].
Qed.

Lemma mediamarkt_and_expedia_are_office_supplies_witness :
  @V3.suggestFrom asciiRuntime []
     (Demo.lines ["MediaMarkt Berlin"; "Laptop 999.00"]%string)
     (Some (u "MediaMarkt Berlin"))
  = {| suggested := Some (u "Office Supplies"); certainty := high |}.
Proof.
  exact (proj2 (proj2 (@mediamarkt_and_expedia_are_office_supplies asciiRuntime []
                  (Demo.lines ["MediaMarkt Berlin"; "Laptop 999.00"]%string)
                  (u "mediamarkt") (Some (u "MediaMarkt Berlin"))
                  ltac:(intros e []) (or_intror (or_introl eq_refl)) eq_refl))).
Defined.

(** ** Trimmed strings *)

Lemma trimStart_head (s : jsstring) :
  match trimStart s with
  | [] => True
  | x :: _ => isSpace x = false
  end.
Proof.
  induction s as [| x s IH]; [exact I |].
  cbn [trimStart]. destruct (isSpace x) eqn:E; [exact IH | exact E].
Qed.

Lemma trimStart_fixed (s : jsstring) :
  match s with
  | [] => True
  | x :: _ => isSpace x = false
  end ->
  trimStart s = s.
Proof.
  destruct s as [| x s]; [reflexivity |]. intros H. cbn [trimStart]. rewrite H.
  reflexivity.
Qed.

Lemma trim_trimmed (s : jsstring) : trim (trim s) = trim s.
Proof.
  unfold trim, trimEnd.
  set (v := trimStart s).
  set (w := trimStart (rev v)).
  assert (Hw : trimStart w = w) by (apply trimStart_fixed, trimStart_head).
  assert (Hs : trimStart (rev w) = rev w).
  { apply trimStart_fixed.
    destruct (trimStart_suffix (rev v)) as [a Ha]. fold w in Ha.
    assert (Hv : v = rev w ++ rev a)
      by (rewrite <- rev_app_distr, <- Ha, rev_involutive; reflexivity).
    pose proof (trimStart_head s) as Hh. fold v in Hh. rewrite Hv in Hh.
    destruct (rev w) as [| x t]; [exact I | exact Hh]. }
  rewrite Hs, rev_involutive, Hw. reflexivity.
Qed.

Lemma trim_segment (s : jsstring) : exists a b, s = a ++ trim s ++ b.
Proof. apply includes_iff, includes_trim. Qed.

Lemma forallb_trim (p : N -> bool) (s : jsstring) :
  forallb p s = true -> forallb p (trim s) = true.
Proof.
  destruct (trim_segment s) as [a [b E]]. intros H. rewrite E in H.
  rewrite !forallb_app in H. apply andb_true_iff in H. destruct H as [_ H].
  apply andb_true_iff in H. apply H.
Qed.

Lemma length_trim (s : jsstring) : (length (trim s) <= length s)%nat.
Proof.
  destruct (trim_segment s) as [a [b E]]. rewrite E at 2.
  rewrite !length_app. lia.
Qed.

Lemma forallb_filter_same (A : Type) (p : A -> bool) (l : list A) :
  forallb p (filter p l) = true.
Proof.
  induction l as [| x l IH]; [reflexivity |].
  cbn [filter]. destruct (p x) eqn:E; [| exact IH].
  cbn [forallb]. rewrite E, IH. reflexivity.
Qed.

Lemma length_filter_le (A : Type) (p : A -> bool) (l : list A) :
  (length (filter p l) <= length l)%nat.
Proof.
  induction l as [| x l IH]; [apply Nat.le_refl |].
  cbn [filter]. destruct (p x); cbn [length]; lia.
Qed.

(** ** The merchant line *)

(** X11.  The merchant name of engine v3 comes from a line among the
    first seven that are not blank, which passes the tests of the loop
    (no skip pattern, 2 to 50 characters, two in five of them letters).
    It is the display name of a rule of the built-in table, one of
    whose patterns is within the lower case of the line; or, when no
    rule has such a pattern, it is the line without the characters
    other than word characters, spaces and ["&'.-"], trimmed: it then
    holds such characters only, is trimmed, and is no longer than the
    line. *)
Theorem V3_merchant_is_display_name_or_clean {rt : Runtime}
        (text m : jsstring) :
  V3Receipt.extractMerchant text = Some m ->
  exists line,
    In line (firstn 7 (filter (fun l => (0 <? length l)%nat)
                              (List.map trim (split 10 text))))
    /\ V3Receipt.candidate line = true
    /\ (2 <= length line <= 50)%nat
    /\ ((exists rule pattern,
            In rule V3.BUILT_IN_MERCHANTS /\ In pattern (patterns rule)
            /\ includes (toLowerCase line) pattern = true
            /\ m = displayName rule)
        \/ ((forall rule pattern,
                In rule V3.BUILT_IN_MERCHANTS -> In pattern (patterns rule) ->
                includes (toLowerCase line) pattern = false)
            /\ m = trim (filter V3Receipt.isNameChar line)
            /\ forallb V3Receipt.isNameChar m = true
            /\ trim m = m
            /\ (length m <= length line)%nat)).
Proof.
  unfold V3Receipt.extractMerchant.
  set (textLines := filter (fun l => (0 <? length l)%nat)
                          (List.map trim (split 10 text))).
  destruct (find V3Receipt.candidate (List.map trim (firstn 7 textLines)))
    as [cleaned |] eqn:E; [| discriminate].
  cbn [option_map]. intros H. injection H as <-.
  apply find_some in E. destruct E as [Hin Hc].
  apply in_map_iff in Hin. destruct Hin as [line [Ht Hin]].
  assert (Hline : trim line = line).
  { apply In_firstn_prefix in Hin. unfold textLines in Hin.
    apply filter_In in Hin. destruct Hin as [Hin _].
    apply in_map_iff in Hin. destruct Hin as [l0 [<- _]]. apply trim_trimmed. }
  rewrite Hline in Ht. subst cleaned.
  exists line. split; [exact Hin |]. split; [exact Hc |].
  unfold V3Receipt.candidate in Hc.
  apply andb_true_iff in Hc. destruct Hc as [Hc _].
  apply andb_true_iff in Hc. destruct Hc as [_ Hc].
  apply negb_true_iff, orb_false_iff in Hc. destruct Hc as [H2 H50].
  apply Nat.ltb_ge in H2, H50. split; [lia |].
  unfold V3Receipt.nameOf.
  destruct (find _ V3.BUILT_IN_MERCHANTS) as [rule |] eqn:F.
  - left. apply find_some in F. destruct F as [Hr Hp].
    apply existsb_exists in Hp. destruct Hp as [pattern [Hp Hi]].
    exists rule, pattern. repeat split; assumption.
  - right. split; [| split; [reflexivity | split; [| split]]].
    + intros rule pattern Hr Hp.
      pose proof (find_none _ _ F rule Hr) as N. cbv beta in N.
      destruct (includes (toLowerCase line) pattern) eqn:I; [| reflexivity].
      assert (X : existsb (fun pattern => includes (toLowerCase line) pattern)
                          (patterns rule) = true)
        by (apply existsb_exists; exists pattern; split; assumption).
      rewrite X in N. discriminate N.
    + apply forallb_trim, forallb_filter_same.
    + apply trim_trimmed.
    + pose proof (length_trim (filter V3Receipt.isNameChar line)).
      pose proof (length_filter_le V3Receipt.isNameChar line). lia.
Qed.

(** A receipt of a cafe: "af" is a pattern of Air France.  And one of
    a pub, which no rule names: the line without its [#] and [!]. *)
Lemma V3_merchant_is_display_name_or_clean_witness :
  (@V3Receipt.extractMerchant asciiRuntime
      (Demo.lines ["RECEIPT"; ""; "Joe's #1 Cafe!"; "Total 5.00"]%string)
   = Some (u "Air France")
   /\ exists line,
        In line [u "RECEIPT"; u "Joe's #1 Cafe!"; u "Total 5.00"]
        /\ V3Receipt.candidate line = true
        /\ (2 <= length line <= 50)%nat
        /\ ((exists rule pattern,
                In rule V3.BUILT_IN_MERCHANTS /\ In pattern (patterns rule)
                /\ includes (asciiLowerCase line) pattern = true
                /\ u "Air France" = displayName rule)
            \/ ((forall rule pattern,
                    In rule V3.BUILT_IN_MERCHANTS -> In pattern (patterns rule) ->
                    includes (asciiLowerCase line) pattern = false)
                /\ u "Air France" = trim (filter V3Receipt.isNameChar line)
                /\ forallb V3Receipt.isNameChar (u "Air France") = true
                /\ trim (u "Air France") = u "Air France"
                /\ (length (u "Air France") <= length line)%nat)))
  /\ (@V3Receipt.extractMerchant asciiRuntime
         (Demo.lines ["RECEIPT"; ""; "Joe's #1 Pub!"; "Total 5.00"]%string)
      = Some (u "Joe's 1 Pub")
      /\ exists line,
           In line [u "RECEIPT"; u "Joe's #1 Pub!"; u "Total 5.00"]
           /\ V3Receipt.candidate line = true
           /\ (2 <= length line <= 50)%nat
           /\ ((exists rule pattern,
                   In rule V3.BUILT_IN_MERCHANTS /\ In pattern (patterns rule)
                   /\ includes (asciiLowerCase line) pattern = true
                   /\ u "Joe's 1 Pub" = displayName rule)
               \/ ((forall rule pattern,
                       In rule V3.BUILT_IN_MERCHANTS -> In pattern (patterns rule) ->
                       includes (asciiLowerCase line) pattern = false)
                   /\ u "Joe's 1 Pub" = trim (filter V3Receipt.isNameChar line)
                   /\ forallb V3Receipt.isNameChar (u "Joe's 1 Pub") = true
                   /\ trim (u "Joe's 1 Pub") = u "Joe's 1 Pub"
                   /\ (length (u "Joe's 1 Pub") <= length line)%nat))).
Proof.
  split; (split; [vm_compute; reflexivity |]).
  - exact (@V3_merchant_is_display_name_or_clean asciiRuntime
             (Demo.lines ["RECEIPT"; ""; "Joe's #1 Cafe!"; "Total 5.00"]%string)
             (u "Air France") ltac:(vm_compute; reflexivity)).
  - exact (@V3_merchant_is_display_name_or_clean asciiRuntime
             (Demo.lines ["RECEIPT"; ""; "Joe's #1 Pub!"; "Total 5.00"]%string)
             (u "Joe's 1 Pub") ltac:(vm_compute; reflexivity)).
Defined.

(** ** Patterns that find a word *)

Lemma searchFrom_found (r : re) (a b : jsstring) (prev : option N) :
  (forall prev', matchAt r (Cursor prev' b) <> None) ->
  searchFrom r prev (a ++ b) <> None.
Proof.
  intros H. revert prev. induction a as [| x a IH]; intros prev.
  - cbn [app]. destruct b as [| y b]; cbn [searchFrom];
      (destruct (matchAt r _) eqn:E; [discriminate | exfalso; apply (H _ E)]).
  - cbn [app searchFrom]. destruct (matchAt r _); [discriminate | apply IH].
Qed.

(** A literal under the [i] flag matches where the lower case of the
    input starts with it. *)
Lemma run_word (A : Type) (w s : jsstring) (prev : option N) (g : captures)
      (k : cursor -> captures -> option A) :
  (forall c' g', k c' g' <> None) ->
  startsWith (asciiLowerCase s) w = true ->
  run (ignoreCase (seqs (List.map (fun x => Chr (N.eqb x)) w))) (Cursor prev s) g k
  <> None.
Proof.
  intros Hk. revert s prev. induction w as [| x w IH]; intros s prev H.
  - apply Hk.
  - destruct s as [| y s]; [discriminate H |].
    cbn [asciiLowerCase List.map startsWith] in H.
    apply andb_true_iff in H. destruct H as [Hx Hw].
    apply N.eqb_eq in Hx.
    assert (Hy : N.eqb x (asciiLower y) || N.eqb x (asciiUpper y) = true)
      by (rewrite Hx, N.eqb_refl; reflexivity).
    destruct w as [| x' w].
    + cbn [List.map seqs ignoreCase run rest]. rewrite Hy. apply Hk.
    + change (run (Seq (ignoreCase (Chr (N.eqb x)))
                       (ignoreCase (seqs (List.map (fun x => Chr (N.eqb x)) (x' :: w)))))
                  (Cursor prev (y :: s)) g k <> None).
      cbn [run ignoreCase rest]. rewrite Hy. apply IH. exact Hw.
Qed.

Lemma run_alts (A : Type) (l : list re) (r0 : re) (c : cursor) (g : captures)
      (k : cursor -> captures -> option A) :
  In r0 l -> run (ignoreCase r0) c g k <> None ->
  run (ignoreCase (alts l)) c g k <> None.
Proof.
  induction l as [| r l IH]; intros Hin H; [destruct Hin |].
  destruct l as [| r' l].
  - destruct Hin as [<- | []]. exact H.
  - change (run (Alt (ignoreCase r) (ignoreCase (alts (r' :: l)))) c g k <> None).
    cbn [run]. destruct (run (ignoreCase r) c g k) eqn:E; [discriminate |].
    destruct Hin as [<- | Hin]; [congruence | apply IH; assumption].
Qed.

(** A pattern [/...|word|.../i] tests true on every string whose
    lower case holds the word. *)
Lemma test_word (l : list re) (word : string) (s : jsstring) :
  In (lit word) l ->
  includes (asciiLowerCase s) (u word) = true ->
  test (ignoreCase (alts l)) s = true.
Proof.
  intros Hin H. apply includes_iff in H. destruct H as [a [b H]].
  unfold asciiLowerCase in H. apply map_eq_app in H.
  destruct H as [s1 [s2 [-> [_ H2]]]].
  unfold test, search.
  destruct (searchFrom (ignoreCase (alts l)) None (s1 ++ s2)) eqn:E; [reflexivity |].
  exfalso. revert E. apply searchFrom_found. intros prev'.
  unfold matchAt. apply (@run_alts _ l (lit word)); [exact Hin |].
  apply run_word; [discriminate |].
  apply startsWith_iff. exists b. exact H2.
Qed.

(** X12.  The merchant name of the native bridge is a trimmed line of
    the top region, of 2 to 50 characters, at least three in ten of
    them letters.  It never holds "phone", "fax", "www.", "http",
    "adresse", "indirizzo" or "adresa", in any case and at any place:
    in the skip patterns [/^tel|phone|fax|www\.|http/i] and
    [/^address|adresse|indirizzo|adresa/i] the anchor holds for the
    first alternative only. *)
Theorem native_merchant_never_holds_a_skip_word
        (topRegion : Native.RegionResult) (m : jsstring) :
  Native.extractMerchant topRegion = Some m ->
  (exists line, In line (split 10 (Native.region_text topRegion)) /\ m = trim line)
  /\ (2 <= length m <= 50)%nat
  /\ (3 * length m <= 10 * length (filter isLetter m))%nat
  /\ forall word,
       In word ["phone"; "fax"; "www."; "http"; "adresse"; "indirizzo";
                "adresa"]%string ->
       includes (asciiLowerCase m) (u word) = false.
Proof.
  unfold Native.extractMerchant. intros H.
  apply find_some in H. destruct H as [Hin H].
  apply andb_true_iff in H. destruct H as [H Hletters].
  apply andb_true_iff in H. destruct H as [Hskip Hlen].
  split; [| split; [| split]].
  - apply in_map_iff in Hin. destruct Hin as [line [<- Hin]].
    exists line. split; [| reflexivity].
    apply In_firstn_prefix, filter_In in Hin. apply Hin.
  - apply negb_true_iff, orb_false_iff in Hlen. destruct Hlen as [H2 H50].
    apply Nat.ltb_ge in H2, H50. lia.
  - apply negb_true_iff, Nat.ltb_ge in Hletters. lia.
  - intros word Hw.
    destruct (includes (asciiLowerCase m) (u word)) eqn:E; [| reflexivity].
    exfalso. apply negb_true_iff in Hskip.
    assert (T : existsb (fun p => test p m) Native.skipPatterns = true);
      [| congruence].
    pose (telephone := [Seq Bol (lit "tel"); lit "phone"; lit "fax"; lit "www.";
                        lit "http"]).
    pose (address := [Seq Bol (lit "address"); lit "adresse"; lit "indirizzo";
                      lit "adresa"]).
    assert (T4 : In (ignoreCase (alts telephone)) Native.skipPatterns)
      by (right; right; right; left; reflexivity).
    assert (T5 : In (ignoreCase (alts address)) Native.skipPatterns)
      by (right; right; right; right; left; reflexivity).
    apply existsb_exists.
    destruct Hw as [<- | [<- | [<- | [<- | [<- | [<- | [<- | []]]]]]]].
    + exists (ignoreCase (alts telephone)). split; [exact T4 |].
      apply (@test_word telephone "phone" m); [right; left; reflexivity | exact E].
    + exists (ignoreCase (alts telephone)). split; [exact T4 |].
      apply (@test_word telephone "fax" m);
        [right; right; left; reflexivity | exact E].
    + exists (ignoreCase (alts telephone)). split; [exact T4 |].
      apply (@test_word telephone "www." m);
        [right; right; right; left; reflexivity | exact E].
    + exists (ignoreCase (alts telephone)). split; [exact T4 |].
      apply (@test_word telephone "http" m);
        [right; right; right; right; left; reflexivity | exact E].
    + exists (ignoreCase (alts address)). split; [exact T5 |].
      apply (@test_word address "adresse" m); [right; left; reflexivity | exact E].
    + exists (ignoreCase (alts address)). split; [exact T5 |].
      apply (@test_word address "indirizzo" m);
        [right; right; left; reflexivity | exact E].
    + exists (ignoreCase (alts address)). split; [exact T5 |].
      apply (@test_word address "adresa" m);
        [right; right; right; left; reflexivity | exact E].
Qed.

(** "Smartphone Repair Shop" holds "phone": the next line is taken. *)
Lemma native_merchant_never_holds_a_skip_word_witness :
  Native.extractMerchant
    (Demo.region ["Smartphone Repair Shop"; "Main Street 5"]%string 90)
  = Some (u "Main Street 5")
  /\ includes (asciiLowerCase (u "Main Street 5")) (u "phone") = false.
Proof.
  split; [vm_compute; reflexivity |].
  exact (proj2 (proj2 (proj2 (@native_merchant_never_holds_a_skip_word
           (Demo.region ["Smartphone Repair Shop"; "Main Street 5"]%string 90)
           (u "Main Street 5") ltac:(vm_compute; reflexivity))))
         "phone"%string (or_introl eq_refl)).
Defined.

(** X13.  The merchant name of the first engine holds letters of the
    ASCII alphabet and white space only: it is one of the first five
    lines that are not blank, without its other characters, trimmed;
    it has 3 to 49 characters, and its lower case starts with none of
    the words "receipt", "date", "time", "order", "item", "qty",
    "price", "total", "tax", "cash", "card", "change", "thank". *)
Theorem V1_merchant_name_is_letters_only {rt : Runtime} (text m : jsstring) :
  V1Receipt.extractMerchantName text = Some m ->
  (exists line,
      In line (firstn 5 (filter (fun l => (0 <? length l)%nat)
                                (List.map trim (split 10 text))))
      /\ m = trim (filter (fun x => isLetter x || isSpace x) line))
  /\ forallb (fun x => isLetter x || isSpace x) m = true
  /\ trim m = m
  /\ (3 <= length m < 50)%nat
  /\ forall word, In word V1Receipt.skipWords ->
                  startsWith (toLowerCase m) word = false.
Proof.
  unfold V1Receipt.extractMerchantName. intros H.
  apply find_some in H. destruct H as [Hin H].
  apply andb_true_iff in H. destruct H as [H Hskip].
  apply andb_true_iff in H. destruct H as [H3 H50].
  apply Nat.leb_le in H3. apply Nat.ltb_lt in H50.
  apply in_map_iff in Hin. destruct Hin as [line [E Hin]].
  unfold V1Receipt.cleanLine in E.
  split; [exists line; split; [exact Hin | symmetry; exact E] |].
  split; [subst m; apply forallb_trim, forallb_filter_same |].
  split; [subst m; apply trim_trimmed |].
  split; [lia |].
  intros word Hw. apply negb_true_iff in Hskip.
  destruct (startsWith (toLowerCase m) word) eqn:S; [| reflexivity].
  rewrite <- Hskip. symmetry. apply existsb_exists. exists word. tauto.
Qed.

Lemma V1_merchant_name_is_letters_only_witness :
  @V1Receipt.extractMerchantName asciiRuntime
     (Demo.lines ["#1234"; "Receipt no 5"; "Wal-Mart #123 Store"]%string)
  = Some (u "WalMart  Store")
  /\ forallb (fun x => isLetter x || isSpace x) (u "WalMart  Store") = true.
Proof.
  split; [vm_compute; reflexivity |].
  exact (proj1 (proj2 (@V1_merchant_name_is_letters_only asciiRuntime
           (Demo.lines ["#1234"; "Receipt no 5"; "Wal-Mart #123 Store"]%string)
           (u "WalMart  Store") ltac:(vm_compute; reflexivity)))).
Defined.

(** ** Dates that the engines read *)

Lemma same_text (a b : jsstring) :
  startsWith a b && (length a =? length b)%nat = true -> a = b.
Proof.
  revert a. induction b as [| y b IH]; intros [| x a]; cbn [startsWith length Nat.eqb andb];
    try discriminate; [reflexivity |].
  intros H. apply andb_true_iff in H. destruct H as [H L].
  apply andb_true_iff in H. destruct H as [E H].
  apply N.eqb_eq in E. subst y. f_equal. apply IH. rewrite H, L. reflexivity.
Qed.

Lemma same_dates (r e : list jsstring) :
  match r, e with
  | [], [] => true
  | [x], [z] => startsWith x z && (length x =? length z)%nat
  | _, _ => false
  end = true ->
  r = e.
Proof.
  destruct r as [| x [| x' r]], e as [| z [| z' e]]; try discriminate;
    [reflexivity |].
  intros H. f_equal. apply same_text, H.
Qed.

Lemma in_written (f : Z -> jsstring) (lo : Z) (n : nat) (v : Z) :
  (lo <= v < lo + Z.of_nat n)%Z ->
  In (v, f v) (List.map (fun x => (x, f x))
                        (List.map (fun k => lo + Z.of_nat k)%Z (seq 0 n))).
Proof. intros H. apply (in_map (fun x => (x, f x))), in_range, H. Qed.

(** The numbers of a date are written once, and each case reads them. *)
Lemma all_written (P : Z * jsstring -> Z * jsstring -> Z * jsstring -> bool)
      (la lb : list Z) :
  (fun D M Y =>
     forallb (fun y => forallb (fun a => forallb (fun b => P a b y) M) D) Y)
    (List.map (fun v => (v, padStart2 (ofZ v))) la)
    (List.map (fun v => (v, padStart2 (ofZ v))) lb)
    (List.map (fun v => (v, ofZ v)) Spec.years) = true ->
  forall a b y,
    In (a, padStart2 (ofZ a)) (List.map (fun v => (v, padStart2 (ofZ v))) la) ->
    In (b, padStart2 (ofZ b)) (List.map (fun v => (v, padStart2 (ofZ v))) lb) ->
    (2020 <= y <= 2030)%Z ->
    P (a, padStart2 (ofZ a)) (b, padStart2 (ofZ b)) (y, ofZ y) = true.
Proof.
  cbv beta. intros H a b y Ha Hb Hy.
  rewrite forallb_forall in H.
  specialize (H _ (@in_written ofZ 2020 11 y ltac:(lia))).
  rewrite forallb_forall in H. specialize (H _ Ha).
  rewrite forallb_forall in H. apply (H _ Hb).
Qed.

(** X14.  A date in the ISO form, which is the form of every date the
    engines return, is read back by engine v3, by engine v2 and by the
    native bridge, and is not read by the first engine, which has no
    pattern for it: for every date of the window, alone in the text. *)
Theorem iso_dates_are_read_back_but_not_by_v1 {rt : Runtime} (y m d : Z) :
  validDate y m d = true ->
  V3.extractAllDates (isoDate y m d) = [isoDate y m d]
  /\ V2Receipt.extractAllDates (isoDate y m d) = [isoDate y m d]
  /\ Native.extractDate (isoDate y m d) = Some (isoDate y m d)
  /\ V1Receipt.extractAllDates (isoDate y m d) = [].
Proof.
  intros V. apply validDate_window in V. destruct V as [Hm [Hd Hy]].
  pose (E := fun r e : list jsstring =>
    match r, e with
    | [], [] => true
    | [x], [z] => startsWith x z && (length x =? length z)%nat
    | _, _ => false
    end).
  pose (P := fun em ed ey : Z * jsstring =>
    let text := snd ey ++ c "-" :: snd em ++ c "-" :: snd ed in
    E (V3.extractAllDates text) [text]
    && E (V2Receipt.extractAllDates text) [text]
    && E (match Native.extractDate text with
          | Some r => [r]
          | None => []
          end) [text]
    && E (V1Receipt.extractAllDates text) []).
  assert (H : P (m, padStart2 (ofZ m)) (d, padStart2 (ofZ d)) (y, ofZ y) = true).
  { apply (@all_written P Spec.months Spec.days); [vm_compute; reflexivity | | | exact Hy].
    - apply (@in_written (fun v => padStart2 (ofZ v)) 1 12 m). lia.
    - apply (@in_written (fun v => padStart2 (ofZ v)) 1 31 d). lia. }
  unfold P in H. cbn [fst snd] in H.
  change (ofZ y ++ c "-" :: padStart2 (ofZ m) ++ c "-" :: padStart2 (ofZ d))
    with (isoDate y m d) in H.
  cbv zeta in H.
  apply andb_true_iff in H. destruct H as [H H1].
  apply andb_true_iff in H. destruct H as [H HN].
  apply andb_true_iff in H. destruct H as [H3 H2].
  apply same_dates in H3, H2, HN, H1.
  split; [exact H3 |]. split; [exact H2 |]. split; [| exact H1].
  destruct (Native.extractDate (isoDate y m d)) as [r |];
    [injection HN as ->; reflexivity | discriminate HN].
Qed.

Lemma iso_dates_are_read_back_but_not_by_v1_witness :
  @V3.extractAllDates asciiRuntime (u "2024-03-05") = [u "2024-03-05"]
  /\ V2Receipt.extractAllDates (u "2024-03-05") = [u "2024-03-05"]
  /\ @Native.extractDate asciiRuntime (u "2024-03-05") = Some (u "2024-03-05")
  /\ @V1Receipt.extractAllDates asciiRuntime (u "2024-03-05") = [].
Proof.
  exact (@iso_dates_are_read_back_but_not_by_v1 asciiRuntime 2024 3 5 eq_refl).
Defined.

(** X15.  How the engines read [a/b/yyyy], two numbers up to 31 on two
    digits each and a year of the window.  Engine v3 and the native
    bridge read day [a] of month [b] whenever [b] is a month, also when
    the date was written month first; they read month [a], day [b] only
    when [b] is above 12.  Engine v2 reads day [a] of month [b] or
    nothing.  The first engine reads month [a], day [b] or nothing: on
    03/05/2024 it returns 2024-03-05, and engine v3 2024-05-03. *)
Theorem numeric_date_day_first_except_in_v1 {rt : Runtime} (a b y : Z) :
  (1 <= a <= 31)%Z -> (1 <= b <= 31)%Z -> (2020 <= y <= 2030)%Z ->
  let text := padStart2 (ofZ a) ++ c "/" :: padStart2 (ofZ b) ++ c "/" :: ofZ y in
  V3.extractAllDates text
  = (if (b <=? 12)%Z then [isoDate y b a]
     else if (a <=? 12)%Z then [isoDate y a b] else [])
  /\ Native.extractDate text
     = (if (b <=? 12)%Z then Some (isoDate y b a)
        else if (a <=? 12)%Z then Some (isoDate y a b) else None)
  /\ V2Receipt.extractAllDates text
     = (if (b <=? 12)%Z then [isoDate y b a] else [])
  /\ V1Receipt.extractAllDates text
     = (if (a <=? 12)%Z then [isoDate y a b] else []).
Proof.
  intros Ha Hb Hy text.
  pose (E := fun r e : list jsstring =>
    match r, e with
    | [], [] => true
    | [x], [z] => startsWith x z && (length x =? length z)%nat
    | _, _ => false
    end).
  pose (P := fun ea eb ey : Z * jsstring =>
    let text := snd ea ++ c "/" :: snd eb ++ c "/" :: snd ey in
    let dayFirst := snd ey ++ c "-" :: snd eb ++ c "-" :: snd ea in
    let monthFirst := snd ey ++ c "-" :: snd ea ++ c "-" :: snd eb in
    E (V3.extractAllDates text)
      (if (fst eb <=? 12)%Z then [dayFirst]
       else if (fst ea <=? 12)%Z then [monthFirst] else [])
    && E (match Native.extractDate text with
          | Some r => [r]
          | None => []
          end)
         (if (fst eb <=? 12)%Z then [dayFirst]
          else if (fst ea <=? 12)%Z then [monthFirst] else [])
    && E (V2Receipt.extractAllDates text)
         (if (fst eb <=? 12)%Z then [dayFirst] else [])
    && E (V1Receipt.extractAllDates text)
         (if (fst ea <=? 12)%Z then [monthFirst] else [])).
  assert (H : P (a, padStart2 (ofZ a)) (b, padStart2 (ofZ b)) (y, ofZ y) = true).
  { apply (@all_written P Spec.days Spec.days); [vm_compute; reflexivity | | | exact Hy].
    - apply (@in_written (fun v => padStart2 (ofZ v)) 1 31 a). lia.
    - apply (@in_written (fun v => padStart2 (ofZ v)) 1 31 b). lia. }
  unfold P in H. cbn [fst snd] in H. fold text in H.
  change (ofZ y ++ c "-" :: padStart2 (ofZ b) ++ c "-" :: padStart2 (ofZ a))
    with (isoDate y b a) in H.
  change (ofZ y ++ c "-" :: padStart2 (ofZ a) ++ c "-" :: padStart2 (ofZ b))
    with (isoDate y a b) in H.
  cbv zeta in H.
  apply andb_true_iff in H. destruct H as [H H1].
  apply andb_true_iff in H. destruct H as [H H2].
  apply andb_true_iff in H. destruct H as [H3 HN].
  apply same_dates in H3, H2, HN, H1.
  split; [exact H3 |]. split; [| split; [exact H2 | exact H1]].
  destruct (Native.extractDate text) as [r |];
    destruct (b <=? 12)%Z; destruct (a <=? 12)%Z;
    try discriminate HN; try (injection HN as ->); reflexivity.
Qed.

Lemma numeric_date_day_first_except_in_v1_witness :
  @V3.extractAllDates asciiRuntime (u "03/05/2024") = [u "2024-05-03"]
  /\ @Native.extractDate asciiRuntime (u "03/05/2024") = Some (u "2024-05-03")
  /\ V2Receipt.extractAllDates (u "03/05/2024") = [u "2024-05-03"]
  /\ @V1Receipt.extractAllDates asciiRuntime (u "03/05/2024") = [u "2024-03-05"].
Proof.
  exact (@numeric_date_day_first_except_in_v1 asciiRuntime 3 5 2024
           ltac:(lia) ltac:(lia) ltac:(lia)).
Defined.

(** ** Totals *)

Section NativeTotals.
Context {rt : Runtime}.

Lemma Native_lineAmounts_positive (line : jsstring) (v : Q) :
  In v (Native.lineAmounts line) -> 0 < v.
Proof.
  unfold Native.lineAmounts. intros H.
  apply in_flat_map in H. destruct H as [m [_ H]].
  destruct (parseFloat _) as [n |]; [| destruct H].
  destruct (ltb 0 n) eqn:E; [| destruct H].
  destruct H as [<- | []]. apply ltb_lt, E.
Qed.

Lemma maximum_in (x : Q) (l : list Q) : In (maximum x l) (x :: l).
Proof.
  unfold maximum. revert x. induction l as [| y l IH]; intros x.
  - left. reflexivity.
  - cbn [fold_left]. destruct (ltb x y).
    + right. apply IH.
    + destruct (IH x) as [H | H]; [left; exact H | right; right; exact H].
Qed.

(** A total that is found stays. *)
Lemma Native_total_stays (lines : list jsstring) (acc : Totals) (t : Q) :
  Shape.total acc = Some t ->
  Shape.total (fold_left Native.totalsStep lines acc) = Some t.
Proof.
  revert acc. induction lines as [| line lines IH]; intros acc H; [exact H |].
  cbn [fold_left]. apply IH. unfold Native.totalsStep.
  destruct (Native.lineAmounts line) as [| a r]; [exact H |].
  rewrite H. cbn [isNull andb].
  destruct (isNull (Shape.subtotal acc) && _); [reflexivity |].
  destruct (isNull (Shape.tax acc) && _); [reflexivity | exact H].
Qed.

(** Lines without an amount, or without a keyword of the total, leave
    the total unset. *)
Lemma Native_total_unset (lines : list jsstring) (acc : Totals) :
  Shape.total acc = None ->
  (forall l, In l lines ->
             Native.lineAmounts l = [] \/ Native.some Native.totalKeywords l = false) ->
  Shape.total (fold_left Native.totalsStep lines acc) = None.
Proof.
  revert acc. induction lines as [| line lines IH]; intros acc H Hl; [exact H |].
  cbn [fold_left]. apply IH; [| intros l Hin; apply Hl; right; exact Hin].
  unfold Native.totalsStep.
  destruct (Hl line (or_introl eq_refl)) as [E | E].
  - rewrite E. exact H.
  - destruct (Native.lineAmounts line) as [| a r]; [exact H |].
    rewrite E, andb_false_r.
    destruct (isNull (Shape.subtotal acc) && _); [exact H |].
    destruct (isNull (Shape.tax acc) && _); exact H.
Qed.

Lemma Native_step_positive (acc : Totals) (line : jsstring) :
  (forall v, Shape.total acc = Some v \/ Shape.subtotal acc = Some v
             \/ Shape.tax acc = Some v -> 0 < v) ->
  forall v, Shape.total (Native.totalsStep acc line) = Some v
            \/ Shape.subtotal (Native.totalsStep acc line) = Some v
            \/ Shape.tax (Native.totalsStep acc line) = Some v -> 0 < v.
Proof.
  intros H v. unfold Native.totalsStep.
  destruct (Native.lineAmounts line) as [| a r] eqn:E; [apply H |].
  assert (P : 0 < maximum a r).
  { apply (Native_lineAmounts_positive line). rewrite E. apply maximum_in. }
  destruct (isNull (Shape.total acc) && _);
    [| destruct (isNull (Shape.subtotal acc) && _);
       [| destruct (isNull (Shape.tax acc) && _)]];
    cbn [Shape.total Shape.subtotal Shape.tax];
    intros [Hv | [Hv | Hv]];
    try (injection Hv as <-; exact P);
    apply H; tauto.
Qed.

Lemma Native_step_total (acc : Totals) (line : jsstring) (a : Q) (r : list Q) :
  Shape.total acc = None ->
  Native.lineAmounts line = a :: r ->
  Native.some Native.totalKeywords line = true ->
  Native.totalsStep acc line
  = {| Shape.total := Some (maximum a r); Shape.subtotal := Shape.subtotal acc;
       Shape.tax := Shape.tax acc |}.
Proof.
  intros H Ha Hk. unfold Native.totalsStep. rewrite Ha, H, Hk. reflexivity.
Qed.

End NativeTotals.

(** X16.  In the native bridge the keyword "total" is looked for before
    the keywords of the subtotal, and is within most of them
    ("subtotal", "sub-total", "sub total", "sottototal", and "summe"
    within "zwischensumme").  When the first line that holds an amount
    and a keyword of the total is the line of the subtotal, its amount
    is returned as the total, and the subtotal is not taken from this
    line: it stays null when no later line holds one of its keywords. *)
Theorem native_subtotal_line_is_read_as_total {rt : Runtime}
        (bottomRegion : Native.RegionResult) (fullText : jsstring)
        (before after : list jsstring) (line : jsstring) (a : Q) (others : list Q) :
  split 10 (toLowerCase (Native.region_text bottomRegion ++ 10%N :: fullText))
  = before ++ line :: after ->
  (forall l, In l before ->
             Native.lineAmounts l = [] \/ Native.some Native.totalKeywords l = false) ->
  (forall l, In l before -> Native.some Native.subtotalKeywords l = false) ->
  Native.lineAmounts line = a :: others ->
  includes line (u "subtotal") = true ->
  Shape.total (Native.extractTotals bottomRegion fullText)
  = Some (maximum a others)
  /\ ((forall l, In l after -> Native.some Native.subtotalKeywords l = false) ->
      Shape.subtotal (Native.extractTotals bottomRegion fullText) = None).
Proof.
  intros Hs Hb Hbs Ha Hi.
  unfold Native.extractTotals. rewrite Hs, fold_left_app. cbn [fold_left].
  set (init := {| Shape.total := None; Shape.subtotal := None; Shape.tax := None |}).
  assert (T0 : Shape.total (fold_left Native.totalsStep before init) = None)
    by (apply Native_total_unset; [reflexivity | exact Hb]).
  assert (S0 : forall ls acc,
             Shape.subtotal acc = None ->
             (forall l, In l ls -> Native.some Native.subtotalKeywords l = false) ->
             Shape.subtotal (fold_left Native.totalsStep ls acc) = None).
  { induction ls as [| l ls IH]; intros acc H Hl; [exact H |].
    cbn [fold_left]. apply IH; [| intros l' Hin; apply Hl; right; exact Hin].
    unfold Native.totalsStep.
    destruct (Native.lineAmounts l) as [| x r]; [exact H |].
    rewrite (Hl l (or_introl eq_refl)), andb_false_r.
    destruct (isNull (Shape.total acc) && _); [exact H |].
    destruct (isNull (Shape.tax acc) && _); exact H. }
  assert (Hk : Native.some Native.totalKeywords line = true).
  { apply existsb_exists. exists (u "total"). split.
    - apply In_eqb. vm_compute. reflexivity.
    - apply (includes_trans _ _ _ Hi). vm_compute. reflexivity. }
  assert (Step : Native.totalsStep (fold_left Native.totalsStep before init) line
                 = {| Shape.total := Some (maximum a others);
                      Shape.subtotal :=
                        Shape.subtotal (fold_left Native.totalsStep before init);
                      Shape.tax := Shape.tax (fold_left Native.totalsStep before init) |}).
  { apply Native_step_total; assumption. }
  rewrite Step.
  set (acc := {| Shape.total := Some (maximum a others);
                 Shape.subtotal := _; Shape.tax := _ |}).
  rewrite (@Native_total_stays rt after acc (maximum a others) eq_refl).
  split; [apply Native_total_stays; reflexivity |].
  intros Hafter. apply S0; [| exact Hafter].
  unfold acc. cbn [Shape.subtotal]. apply S0; [reflexivity | exact Hbs].
Qed.

(** The usual order of a receipt: the subtotal, the tax, the total. *)
Lemma native_subtotal_line_is_read_as_total_witness :
  let r := @Native.extractTotals asciiRuntime
             (Demo.region ["Subtotal 10.00"; "Tax 0.80"; "Total 10.80"]%string 90)
             (u "Corner Shop") in
  Shape.total r = Some (1000 # 100) /\ Shape.subtotal r = None.
Proof.
  intros r.
  destruct (@native_subtotal_line_is_read_as_total asciiRuntime
              (Demo.region ["Subtotal 10.00"; "Tax 0.80"; "Total 10.80"]%string 90)
              (u "Corner Shop") [] [u "tax 0.80"; u "total 10.80"; u "corner shop"]
              (u "subtotal 10.00") (1000 # 100) []
              ltac:(vm_compute; reflexivity) ltac:(intros l [])
              ltac:(intros l []) ltac:(vm_compute; reflexivity)
              ltac:(vm_compute; reflexivity)) as [Ht Hs].
  split; [exact Ht |]. apply Hs.
  intros l [<- | [<- | [<- | []]]]; vm_compute; reflexivity.
Defined.

Lemma firstSome_found (A B : Type) (f : A -> option B) (l : list A) (v : B) :
  V1Receipt.firstSome f l = Some v -> exists x, In x l /\ f x = Some v.
Proof.
  induction l as [| x l IH]; [discriminate |].
  cbn [V1Receipt.firstSome]. destruct (f x) as [w |] eqn:E.
  - intros H. injection H as <-. exists x. split; [left; reflexivity | exact E].
  - intros H. destruct (IH H) as [y [Hy Hf]]. exists y. split; [right; exact Hy | exact Hf].
Qed.

Lemma firstSome_first (A B : Type) (f : A -> option B) (before after : list A)
      (x : A) (v : B) :
  (forall y, In y before -> f y = None) -> f x = Some v ->
  V1Receipt.firstSome f (before ++ x :: after) = Some v.
Proof.
  intros Hb Hx. induction before as [| y before IH].
  - cbn [app V1Receipt.firstSome]. rewrite Hx. reflexivity.
  - cbn [app V1Receipt.firstSome]. rewrite (Hb y (or_introl eq_refl)).
    apply IH. intros z Hz. apply Hb. right. exact Hz.
Qed.

Lemma firstSome_none (A B : Type) (f : A -> option B) (l : list A) :
  (forall y, In y l -> f y = None) -> V1Receipt.firstSome f l = None.
Proof.
  induction l as [| x l IH]; intros H; [reflexivity |].
  cbn [V1Receipt.firstSome]. rewrite (H x (or_introl eq_refl)).
  apply IH. intros y Hy. apply H. right. exact Hy.
Qed.

Lemma firstSome_nowhere (A B : Type) (f : A -> option B) (l : list A) :
  V1Receipt.firstSome f l = None -> forall y, In y l -> f y = None.
Proof.
  induction l as [| x l IH]; intros H y Hy; [destruct Hy |].
  cbn [V1Receipt.firstSome] in H. destruct (f x) eqn:E; [discriminate |].
  destruct Hy as [<- | Hy]; [exact E | apply IH; assumption].
Qed.

Section V1Totals.
Context {rt : Runtime}.

Lemma V1_amountOf_range (m : result) (v : Q) :
  In v (V1Receipt.amountOf m) -> 0 < v /\ v < 100000.
Proof.
  unfold V1Receipt.amountOf.
  destruct (parseFloat _) as [num |]; [| intros []].
  destruct (ltb 0 num && ltb num 100000) eqn:E; [| intros []].
  apply andb_true_iff in E. destruct E as [E1 E2].
  apply ltb_lt in E1, E2.
  intros [<- | []]. split; assumption.
Qed.

Lemma V1_amounts_range (text : jsstring) (v : Q) :
  In v (V1Receipt.extractAllAmounts text) -> 0 < v /\ v < 100000.
Proof.
  intros Hv. apply In_uniqueDescending in Hv.
  apply in_flat_map in Hv. destruct Hv as [p [_ Hv]].
  apply in_flat_map in Hv. destruct Hv as [m [_ Hv]].
  eapply V1_amountOf_range, Hv.
Qed.

(** The amount that a loop of extractAmounts finds is valid, and is
    that of a line with one of the keywords. *)
Lemma keywordAmount_found (keywords : list jsstring)
      (holds : jsstring -> jsstring -> bool) (valid : Q -> bool)
      (lines : list jsstring) (a : Q) :
  V1Receipt.keywordAmount keywords holds valid lines = Some a ->
  valid a = true
  /\ exists line keyword,
       In line lines /\ In keyword keywords /\ holds line keyword = true
       /\ V1Receipt.lineAmount line = Some a.
Proof.
  unfold V1Receipt.keywordAmount. intros H.
  apply firstSome_found in H. destruct H as [line [Hl H]].
  apply firstSome_found in H. destruct H as [keyword [Hk H]].
  destruct (holds line keyword) eqn:Eh; [| discriminate].
  destruct (V1Receipt.lineAmount line) as [amount |] eqn:Ea; [| discriminate].
  destruct (valid amount) eqn:Ev; [| discriminate].
  injection H as <-. split; [exact Ev |].
  exists line, keyword. repeat split; assumption.
Qed.

(** The first line with a keyword and a valid amount decides. *)
Lemma keywordAmount_first (keywords : list jsstring)
      (valid : Q -> bool) (before after : list jsstring)
      (line keyword : jsstring) (a : Q) :
  (forall l, In l before ->
             V1Receipt.lineAmount l = None
             \/ existsb (fun k => includes l k) keywords = false) ->
  In keyword keywords -> includes line keyword = true ->
  V1Receipt.lineAmount line = Some a -> valid a = true ->
  V1Receipt.keywordAmount keywords (fun line keyword => includes line keyword)
                          valid (before ++ line :: after) = Some a.
Proof.
  intros Hb Hk Hi Ha Hv. unfold V1Receipt.keywordAmount.
  apply firstSome_first.
  - intros l Hl. apply firstSome_none. intros k Hin.
    destruct (Hb l Hl) as [E | E].
    + rewrite E. destruct (includes l k); reflexivity.
    + replace (includes l k) with false; [reflexivity |].
      symmetry. destruct (includes l k) eqn:Ei; [| reflexivity].
      rewrite <- E. symmetry. apply existsb_exists. exists k. tauto.
  - destruct (V1Receipt.firstSome _ keywords) as [v |] eqn:E.
    + apply firstSome_found in E. destruct E as [k [_ E]].
      destruct (includes line k); [| discriminate].
      rewrite Ha, Hv in E. symmetry. exact E.
    + exfalso. pose proof (firstSome_nowhere _ _ E keyword Hk) as N.
      cbv beta in N. rewrite Hi, Ha, Hv in N. discriminate.
Qed.

End V1Totals.

(** X17.  The totals of the first engine, from the amounts that
    extractAllAmounts finds in the same text.  Without an amount all
    three are null.  With one, the total is not null; every value
    returned is above zero; and the tax, when there is one, is below
    the total. *)
Theorem V1_tax_is_below_total {rt : Runtime} (text : jsstring) :
  let amounts := V1Receipt.extractAllAmounts text in
  let r := V1Receipt.extractAmounts text amounts in
  (amounts = [] ->
   r = {| Shape.total := None; Shape.subtotal := None; Shape.tax := None |})
  /\ (amounts <> [] -> exists t, Shape.total r = Some t /\ 0 < t)
  /\ (forall v, Shape.subtotal r = Some v -> 0 < v)
  /\ (forall x, Shape.tax r = Some x ->
                exists t, Shape.total r = Some t /\ 0 < x /\ x < t).
Proof.
  intros amounts r. subst r.
  destruct amounts as [| h rest] eqn:Ea.
  - split; [reflexivity |]. split; [congruence |].
    split; intros v H; discriminate H.
  - assert (Hh : 0 < h).
    { apply (V1_amounts_range text). fold amounts. rewrite Ea. left. reflexivity. }
    cbn [V1Receipt.extractAmounts Shape.total Shape.subtotal Shape.tax hd_error].
    set (lines := split 10 (toLowerCase text)).
    set (total0 := V1Receipt.keywordAmount V1Receipt.TOTAL_KEYWORDS _ _ lines).
    assert (Ht : exists t,
               match total0 with
               | Some t0 => Some t0
               | None => Some h
               end = Some t
               /\ 0 < t
               /\ orElse total0 (orElse (Some h) 1000) = t).
    { destruct total0 as [t0 |] eqn:E0.
      - apply keywordAmount_found in E0. destruct E0 as [V _].
        apply ltb_lt in V. exists t0. split; [reflexivity |]. split; [exact V |].
        unfold orElse. destruct (Qeq_bool t0 0) eqn:Z; [| reflexivity].
        apply Qeq_bool_iff in Z. lra.
      - exists h. split; [reflexivity |]. split; [exact Hh |].
        unfold orElse. destruct (Qeq_bool h 0) eqn:Z; [| reflexivity].
        apply Qeq_bool_iff in Z. lra. }
    destruct Ht as [t [Et [Pt Ot]]].
    split; [discriminate |]. split; [| split].
    + intros _. exists t. split; [exact Et | exact Pt].
    + intros v H. apply keywordAmount_found in H. destruct H as [V _].
      apply ltb_lt, V.
    + intros x H. apply keywordAmount_found in H. destruct H as [V _].
      apply andb_true_iff in V. destruct V as [V1 V2].
      apply ltb_lt in V1, V2. rewrite Ot in V2.
      exists t. split; [exact Et |]. split; assumption.
Qed.



Section V3Totals.
Context {rt : Runtime}.

Lemma V3_amounts_range (text : jsstring) (v : Q) :
  In v (V3.extractAllAmounts text) -> 0 < v /\ v < 100000.
Proof.
  intros Hv. apply In_uniqueDescending in Hv.
  apply in_flat_map in Hv. destruct Hv as [p [_ Hv]].
  apply in_flat_map in Hv. destruct Hv as [m [_ Hv]].
  eapply V3_amountOf_range, Hv.
Qed.

(** Every value that the loop of extractTotals assigns is an amount
    of a line. *)
Lemma V3_step_range (allAmounts : list Q) (acc : Totals) (line : jsstring) :
  (forall v, Shape.total acc = Some v \/ Shape.subtotal acc = Some v
             \/ Shape.tax acc = Some v -> 0 < v /\ v < 100000) ->
  forall v, Shape.total (V3.totalsStep allAmounts acc line) = Some v
            \/ Shape.subtotal (V3.totalsStep allAmounts acc line) = Some v
            \/ Shape.tax (V3.totalsStep allAmounts acc line) = Some v ->
            0 < v /\ v < 100000.
Proof.
  intros H v. unfold V3.totalsStep.
  destruct (V3.extractAllAmounts line) as [| amount others] eqn:E; [apply H |].
  assert (P : 0 < amount /\ amount < 100000)
    by (apply (V3_amounts_range line); rewrite E; left; reflexivity).
  cbn [Shape.total Shape.subtotal Shape.tax].
  intros [Hv | [Hv | Hv]].
  - destruct (Shape.total acc) as [t |] eqn:Et.
    + apply H. left. exact Hv.
    + destruct (existsb _ V3.TOTAL_KEYWORDS); [| discriminate].
      injection Hv as <-. exact P.
  - destruct (Shape.subtotal acc) as [t |] eqn:Et.
    + apply H. right. left. exact Hv.
    + destruct (existsb _ V3.SUBTOTAL_KEYWORDS); [| discriminate].
      injection Hv as <-. exact P.
  - destruct (Shape.tax acc) as [t |] eqn:Et.
    + apply H. right. right. exact Hv.
    + destruct (existsb _ V3.TAX_KEYWORDS); [| discriminate].
      injection Hv as <-. exact P.
Qed.

Lemma V3_fold_range (allAmounts : list Q) (lines : list jsstring) (acc : Totals) :
  (forall v, Shape.total acc = Some v \/ Shape.subtotal acc = Some v
             \/ Shape.tax acc = Some v -> 0 < v /\ v < 100000) ->
  forall v, Shape.total (fold_left (V3.totalsStep allAmounts) lines acc) = Some v
            \/ Shape.subtotal (fold_left (V3.totalsStep allAmounts) lines acc) = Some v
            \/ Shape.tax (fold_left (V3.totalsStep allAmounts) lines acc) = Some v ->
            0 < v /\ v < 100000.
Proof.
  revert acc. induction lines as [| line lines IH]; intros acc H; [exact H |].
  cbn [fold_left]. apply IH. apply V3_step_range, H.
Qed.

End V3Totals.

(** X19.  The totals of engine v3, from the amounts that
    extractAllAmounts finds in the same text, as processReceiptImage
    computes them: the total, the subtotal and the tax, when they are
    not null, lie strictly between 0 and 100000; and the total is null
    only when no amount was found in the text. *)
Theorem V3_totals_are_amounts_in_range {rt : Runtime} (text : jsstring) :
  let r := V3.processReceiptImage text in
  (forall v, Shape.total (V3.totals r) = Some v
             \/ Shape.subtotal (V3.totals r) = Some v
             \/ Shape.tax (V3.totals r) = Some v ->
             0 < v /\ v < 100000)
  /\ (Shape.total (V3.totals r) = None -> V3.allAmounts r = []).
Proof.
  cbn [V3.processReceiptImage V3.totals V3.allAmounts].
  set (amounts := V3.extractAllAmounts text).
  assert (F : forall v,
             Shape.total (V3.assignTotals text amounts) = Some v
             \/ Shape.subtotal (V3.assignTotals text amounts) = Some v
             \/ Shape.tax (V3.assignTotals text amounts) = Some v ->
             0 < v /\ v < 100000).
  { unfold V3.assignTotals.
    set (found := fold_left _ _ _).
    assert (G : forall v, Shape.total found = Some v \/ Shape.subtotal found = Some v
                          \/ Shape.tax found = Some v -> 0 < v /\ v < 100000).
    { apply V3_fold_range. cbn [Shape.total Shape.subtotal Shape.tax].
      intros v [H | [H | H]]; discriminate H. }
    destruct (Shape.total found) as [t |] eqn:Et.
    - intros v. rewrite Et. exact (G v).
    - cbn [Shape.total Shape.subtotal Shape.tax]. intros v [H | H].
      + apply (V3_amounts_range text). fold amounts.
        destruct amounts as [| h rest]; [discriminate H |].
        injection H as <-. left. reflexivity.
      + apply G. right. exact H. }
  assert (N : Shape.total (V3.assignTotals text amounts) = None -> amounts = []).
  { unfold V3.assignTotals.
    destruct (Shape.total (fold_left _ _ _)) as [t |] eqn:Et.
    - rewrite Et. discriminate.
    - cbn [Shape.total]. destruct amounts; [reflexivity | discriminate]. }
  unfold V3.extractTotals.
  destruct (V3.assignTotals text amounts) as [[t |] [st |] tx];
    cbn [Shape.total Shape.subtotal Shape.tax] in *.
  - destruct (ltb t st); cbn [Shape.total Shape.subtotal Shape.tax];
      (split; [| discriminate]); intros v H; apply F; tauto.
  - split; [| discriminate]. intros v H. apply F. tauto.
  - split; [| intros _; apply N; reflexivity]. intros v H. apply F. tauto.
  - split; [| intros _; apply N; reflexivity]. intros v H. apply F. tauto.
Qed.

(** ** The regions of the fallback *)

Section SimulatedRegions.
Context {rt : Runtime}.

Lemma place_filters (blocks : list Native.TextBlock) (acc : Fallback.Split) :
  fold_left Fallback.place blocks acc
  = {| Fallback.topBlocks := Fallback.topBlocks acc ++ filter Laws.inTop blocks;
       Fallback.middleBlocks :=
         Fallback.middleBlocks acc ++ filter Laws.inMiddle blocks;
       Fallback.bottomBlocks :=
         Fallback.bottomBlocks acc ++ filter Laws.inBottom blocks |}.
Proof.
  revert acc. induction blocks as [| b blocks IH]; intros acc.
  - cbn [fold_left filter]. rewrite !app_nil_r. destruct acc; reflexivity.
  - cbn [fold_left filter]. rewrite IH. unfold Fallback.place.
    change (ltb (Fallback.centerY b) (binary64 (2 # 10))) with (Laws.inTop b).
    unfold Laws.inMiddle at 2, Laws.inBottom at 2.
    destruct (Laws.inTop b);
      [| destruct (ltb (binary64 (7 # 10)) (Fallback.centerY b))];
      cbn [Fallback.topBlocks Fallback.middleBlocks Fallback.bottomBlocks negb andb];
      rewrite <- ?app_assoc; reflexivity.
Qed.

Lemma partition_three (A : Type) (p q r : A -> bool) (l : list A) :
  (forall x, (p x = true /\ q x = false /\ r x = false)
             \/ (p x = false /\ q x = true /\ r x = false)
             \/ (p x = false /\ q x = false /\ r x = true)) ->
  Permutation (filter p l ++ filter q l ++ filter r l) l.
Proof.
  intros H. induction l as [| x l IH]; [constructor |].
  cbn [filter].
  destruct (H x) as [[-> [-> ->]] | [[-> [-> ->]] | [-> [-> ->]]]].
  - cbn [app]. constructor. exact IH.
  - cbn [app]. rewrite <- Permutation_middle. constructor. exact IH.
  - rewrite app_assoc, <- Permutation_middle, <- app_assoc. constructor. exact IH.
Qed.

End SimulatedRegions.

(** X20.  The simulated regions share out the blocks of the fallback:
    no block is lost and none is in two regions.  Each region holds,
    in the order of the input, the blocks whose centre passes its test
    ([centerY < 0.2] for the top, [centerY > 0.7] for the bottom, the
    others in the middle); its text is their texts, one a line; and the
    text and the confidence of the whole are those of the input. *)
Theorem simulated_regions_share_out_the_blocks {rt : Runtime}
        (ocrResult : Fallback.OCRResult) :
  let r := Native.regions (Fallback.simulateRegions ocrResult) in
  let blocks := Fallback.ocr_blocks ocrResult in
  Native.blocks (Native.top r) = filter Laws.inTop blocks
  /\ Native.blocks (Native.middle r) = filter Laws.inMiddle blocks
  /\ Native.blocks (Native.bottom r) = filter Laws.inBottom blocks
  /\ Permutation (Native.blocks (Native.top r) ++ Native.blocks (Native.middle r)
                  ++ Native.blocks (Native.bottom r)) blocks
  /\ Native.region_text (Native.top r)
     = Fallback.join (List.map Native.block_text (filter Laws.inTop blocks))
  /\ Native.region_text (Native.middle r)
     = Fallback.join (List.map Native.block_text (filter Laws.inMiddle blocks))
  /\ Native.region_text (Native.bottom r)
     = Fallback.join (List.map Native.block_text (filter Laws.inBottom blocks))
  /\ Native.text (Fallback.simulateRegions ocrResult) = Fallback.ocr_text ocrResult
  /\ Native.confidence (Fallback.simulateRegions ocrResult)
     = Fallback.ocr_confidence ocrResult.
Proof.
  unfold Fallback.simulateRegions. rewrite place_filters.
  cbn [Native.regions Native.top Native.middle Native.bottom Native.blocks
       Native.region_text Native.text Native.confidence Fallback.regionOf
       Fallback.topBlocks Fallback.middleBlocks Fallback.bottomBlocks app].
  repeat split.
  apply partition_three. intros b. unfold Laws.inMiddle, Laws.inBottom.
  destruct (Laws.inTop b); [left; repeat split |].
  destruct (ltb (binary64 (7 # 10)) (Fallback.centerY b));
    [right; right | right; left]; repeat split.
Qed.

Section RegionConfidence.
Context {rt : Runtime}.
Hypothesis arithmetic : Laws.rounding rt.

Lemma rounded_between (lo hi : Z) (q : Q) :
  (Z.abs lo <= 2 ^ 53)%Z -> (Z.abs hi <= 2 ^ 53)%Z ->
  inject_Z lo <= q -> q <= inject_Z hi ->
  inject_Z lo <= binary64 q /\ binary64 q <= inject_Z hi.
Proof.
  destruct arithmetic as [mono exact]. intros Hlo Hhi L H. split.
  - rewrite <- (exact lo Hlo). apply mono, L.
  - rewrite <- (exact hi Hhi). apply mono, H.
Qed.

(** The sum of [reduce], step by step: with confidences between 0 and
    1 it stays between 0 and the number of blocks added. *)
Lemma sum_between (blocks : list Native.TextBlock) (sum : Q) (k : Z) :
  (forall b, In b blocks -> 0 <= Native.block_confidence b <= 1) ->
  (0 <= k)%Z -> (k + Z.of_nat (length blocks) <= 2 ^ 53)%Z ->
  0 <= sum -> sum <= inject_Z k ->
  let total := fold_left (fun sum b => binary64 (sum + Native.block_confidence b))
                         blocks sum in
  0 <= total /\ total <= inject_Z (k + Z.of_nat (length blocks)).
Proof.
  revert sum k. induction blocks as [| b blocks IH]; intros sum k Hc Hk Hn L H.
  - cbn [fold_left length]. rewrite Z.add_0_r. split; assumption.
  - cbn [fold_left]. cbn [length] in Hn |- *.
    destruct (Hc b (or_introl eq_refl)) as [C0 C1].
    destruct (@rounded_between 0 (k + 1) (sum + Native.block_confidence b))
      as [R0 R1]; try lia.
    + change (inject_Z 0) with 0. lra.
    + rewrite inject_Z_plus. change (inject_Z 1) with 1. lra.
    + replace (k + Z.of_nat (S (length blocks)))%Z
        with ((k + 1) + Z.of_nat (length blocks))%Z by lia.
      apply IH; try lia; try assumption.
      intros b' Hb'. apply Hc. right. exact Hb'.
Qed.

Lemma calcRegionConfidence_percentage (blocks : list Native.TextBlock) :
  (forall b, In b blocks -> 0 <= Native.block_confidence b <= 1) ->
  (Z.of_nat (length blocks) <= 2 ^ 53)%Z ->
  0 <= Fallback.calcRegionConfidence blocks <= 100.
Proof.
  intros Hc Hn. unfold Fallback.calcRegionConfidence.
  destruct blocks as [| b0 blocks0] eqn:E; [lra |]. rewrite <- E in *.
  set (n := Z.of_nat (length blocks)).
  assert (Pn : (0 < n)%Z) by (unfold n; rewrite E; cbn [length]; lia).
  destruct (@sum_between blocks 0 0 Hc) as [S0 S1];
    try lia; try (change (inject_Z 0) with 0; lra).
  cbv zeta in S0, S1. rewrite Z.add_0_l in S1. fold n in S1.
  set (sum := fold_left _ blocks 0) in *.
  assert (Qn : 0 < inject_Z n) by (change 0 with (inject_Z 0); rewrite <- Zlt_Qlt; exact Pn).
  destruct (@rounded_between 0 1 (sum / inject_Z n)) as [A0 A1]; try (cbn; lia).
  - change (inject_Z 0) with 0. apply Qle_shift_div_l; [exact Qn | lra].
  - change (inject_Z 1) with 1. apply Qle_shift_div_r; [exact Qn | lra].
  - change (inject_Z 0) with 0 in A0. change (inject_Z 1) with 1 in A1.
    destruct (@rounded_between 0 100 (binary64 (sum / inject_Z n) * 100))
      as [B0 B1]; try (cbn; lia).
    + change (inject_Z 0) with 0. nra.
    + change (inject_Z 100) with 100. nra.
    + change (inject_Z 0) with 0 in B0. change (inject_Z 100) with 100 in B1.
      split; assumption.
Qed.

End RegionConfidence.

(** X21.  The confidence of a simulated region is a percentage: with
    block confidences between 0 and 1, as [runTesseractOCR] makes
    them, it lies between 0 and 100, under the arithmetic of binary64
    (the rounding keeps the order and the integers).  A region without
    a block has the confidence 0; so when no block is centred in the
    top fifth of the image, scanReceipt on the fallback returns no
    merchant name. *)
Theorem simulated_confidence_is_a_percentage {rt : Runtime}
        (usedNative : bool) (ocrResult : Fallback.OCRResult) :
  Laws.rounding rt ->
  (forall b, In b (Fallback.ocr_blocks ocrResult) ->
             0 <= Native.block_confidence b <= 1) ->
  (Z.of_nat (length (Fallback.ocr_blocks ocrResult)) <= 2 ^ 53)%Z ->
  let r := Native.regions (Fallback.simulateRegions ocrResult) in
  0 <= Native.region_confidence (Native.top r) <= 100
  /\ 0 <= Native.region_confidence (Native.middle r) <= 100
  /\ 0 <= Native.region_confidence (Native.bottom r) <= 100
  /\ (filter Laws.inTop (Fallback.ocr_blocks ocrResult) = [] ->
      Native.region_confidence (Native.top r) = 0
      /\ Native.merchantName (Fallback.scanFallback usedNative ocrResult) = None).
Proof.
  intros Hr Hc Hn.
  unfold Fallback.scanFallback, Fallback.simulateRegions. rewrite place_filters.
  cbn [Native.regions Native.top Native.middle Native.bottom
       Native.region_confidence Fallback.regionOf
       Fallback.topBlocks Fallback.middleBlocks Fallback.bottomBlocks app].
  assert (B : forall p,
             0 <= Fallback.calcRegionConfidence
                    (filter p (Fallback.ocr_blocks ocrResult)) <= 100).
  { intros p. apply (calcRegionConfidence_percentage Hr).
    - intros b Hb. apply filter_In in Hb. apply Hc, Hb.
    - pose proof (length_filter_le p (Fallback.ocr_blocks ocrResult)). lia. }
  split; [apply B |]. split; [apply B |]. split; [apply B |].
  intros E. rewrite E. split; reflexivity.
Qed.

Lemma simulated_confidence_is_a_percentage_witness :
  let block text conf top :=
      {| Native.block_text := u text; Native.block_confidence := conf;
         Native.bounds := {| Native.x := 0; Native.y := top;
                             Native.width := 1; Native.height := 1 # 10 |} |} in
  let ocr := {| Fallback.ocr_text := Demo.lines ["Corner Shop"; "Total 3.20"]%string;
                Fallback.ocr_confidence := 80;
                Fallback.ocr_blocks := [block "Corner Shop"%string (5 # 10) (3 # 10);
                                        block "Total 3.20"%string (9 # 10) (8 # 10)] |} in
  Native.region_confidence
    (Native.top (Native.regions (@Fallback.simulateRegions asciiRuntime ocr))) = 0
  /\ Native.merchantName (@Fallback.scanFallback asciiRuntime false ocr) = None.
Proof.
  intros block ocr.
  refine (proj2 (proj2 (proj2 (@simulated_confidence_is_a_percentage
            asciiRuntime false ocr _ _ _))) eq_refl).
  - split; [intros a b H; exact H | intros n _; reflexivity].
  - intros b [<- | [<- | []]]; cbn; split; discriminate.
  - vm_compute. discriminate.
Defined.

(** ** The lists of amounts and of dates *)

Lemma dedupFrom_NoDup (l seen : list jsstring) :
  NoDup (dedupFrom JS.eqb seen l)
  /\ forall a, In a (dedupFrom JS.eqb seen l) -> ~ In a seen.
Proof.
  revert seen. induction l as [| x l IH]; intros seen; cbn [dedupFrom].
  - split; [constructor | intros a []].
  - destruct (existsb (JS.eqb x) seen) eqn:E.
    + apply IH.
    + destruct (IH (x :: seen)) as [N F]. split.
      * constructor; [| exact N]. intros Hx. apply (F x Hx). left. reflexivity.
      * intros a [<- | Ha] Hin.
        -- assert (T : existsb (JS.eqb x) seen = true); [| congruence].
           apply existsb_exists. exists x. split; [exact Hin |].
           destruct (same_string x x); [reflexivity | congruence].
        -- apply (F a Ha). right. exact Hin.
Qed.

Section Lists.
Context {rt : Runtime}.

Lemma V2_dateOf_window (m : result) (d : jsstring) :
  In d (V2Receipt.dateOf m) -> Spec.inWindow d.
Proof.
  unfold V2Receipt.dateOf.
  destruct (V2Receipt.dateOfMatch m) as [[[year month] day] |]; [| intros []].
  destruct (validDate year month day) eqn:E; [| intros []].
  intros [<- | []]. exists year, month, day.
  split; [reflexivity | apply validDate_window, E].
Qed.

Lemma V1_dateOf_window (m : result) (d : jsstring) :
  In d (V1Receipt.dateOf m) -> Spec.inWindow d.
Proof.
  unfold V1Receipt.dateOf.
  destruct (V1Receipt.dateOfMatch m) as [[[year month] day] |]; [| intros []].
  destruct (validDate year month day) eqn:E; [| intros []].
  intros [<- | []]. exists year, month, day.
  split; [reflexivity | apply validDate_window, E].
Qed.

End Lists.

(** X22.  The amounts of the first engine: extractAllAmounts returns
    them in descending order, none twice, each strictly between 0 and
    100000, whatever the text. *)
Theorem V1_amounts_descending_unique_in_range {rt : Runtime} (text : jsstring) :
  StronglySorted (fun a b => b <= a) (V1Receipt.extractAllAmounts text)
  /\ ForallOrdPairs (fun a b => ~ a == b) (V1Receipt.extractAllAmounts text)
  /\ Forall (fun v => 0 < v /\ v < 100000) (V1Receipt.extractAllAmounts text).
Proof.
  pose proof (uniqueDescending_descending
                (flat_map (fun pattern =>
                             flat_map V1Receipt.amountOf (execAll pattern text))
                          V1Receipt.AMOUNT_PATTERNS)) as D.
  fold (V1Receipt.extractAllAmounts text) in D.
  split; [apply descending_sorted, D |].
  split; [apply descending_distinct, D |].
  apply Forall_forall. intros v Hv. apply (V1_amounts_range text v Hv).
Qed.

(** X23.  The dates of extractAllDates: in each of the three engines no
    date is returned twice; and those of engine v2 and of the first
    engine, like those of engine v3, have their month in 1..12, their
    day in 1..31 and their year in 2020..2030. *)
Theorem extracted_dates_are_distinct {rt : Runtime} (text : jsstring) :
  NoDup (V3.extractAllDates text)
  /\ NoDup (V2Receipt.extractAllDates text)
  /\ NoDup (V1Receipt.extractAllDates text)
  /\ Forall Spec.inWindow (V2Receipt.extractAllDates text)
  /\ Forall Spec.inWindow (V1Receipt.extractAllDates text).
Proof.
  split; [apply dedupFrom_NoDup |].
  split; [apply dedupFrom_NoDup |].
  split; [apply dedupFrom_NoDup |].
  split; apply Forall_forall; intros d Hd.
  - unfold V2Receipt.extractAllDates, dedup in Hd. apply In_dedupFrom in Hd.
    apply in_flat_map in Hd. destruct Hd as [p [_ Hd]].
    apply in_flat_map in Hd. destruct Hd as [m [_ Hd]].
    eapply V2_dateOf_window, Hd.
  - unfold V1Receipt.extractAllDates, dedup in Hd. apply In_dedupFrom in Hd.
    apply in_flat_map in Hd. destruct Hd as [p [_ Hd]].
    apply in_flat_map in Hd. destruct Hd as [m [_ Hd]].
    eapply V1_dateOf_window, Hd.
Qed.

(** ** What the matcher finds are matches *)

Lemma consumed_app (c c' : cursor) (w : jsstring) :
  rest c = w ++ rest c' -> consumed c c' = w.
Proof.
  intros H. unfold consumed. rewrite H, length_app.
  replace (length w + length (rest c') - length (rest c'))%nat with (length w) by lia.
  rewrite firstn_app, Nat.sub_diag, firstn_all. cbn [firstn]. apply app_nil_r.
Qed.

Lemma run_sound (r : re) :
  forall (A : Type) (c : cursor) (g : captures)
         (k : cursor -> captures -> option A) (v : A),
    run r c g k = Some v ->
    exists w c' g',
      Laws.Matches r c g w c' g' /\ rest c = w ++ rest c' /\ k c' g' = Some v.
Proof.
  induction r as [| p | r1 IH1 r2 IH2 | r1 IH1 r2 IH2 | r1 IH1 | i r1 IH1
                  | | | | r1 IH1];
    intros A c g k v H; cbn [run] in H.
  - exists [], c, g. repeat split; [constructor | exact H].
  - destruct c as [b [| x t]]; cbn [rest] in H; [discriminate |].
    destruct (p x) eqn:E; [| discriminate].
    exists [x], (Cursor (Some x) t), g.
    repeat split; [constructor; exact E | exact H].
  - apply IH1 in H. destruct H as [w1 [c1 [g1 [M1 [R1 H]]]]].
    apply IH2 in H. destruct H as [w2 [c2 [g2 [M2 [R2 H]]]]].
    exists (w1 ++ w2), c2, g2. split; [econstructor; eassumption |].
    split; [rewrite R1, R2, app_assoc; reflexivity | exact H].
  - destruct (run r1 c g k) as [v1 |] eqn:E1.
    + injection H as <-. apply IH1 in E1.
      destruct E1 as [w [c' [g' [M [R H]]]]].
      exists w, c', g'. split; [apply Laws.MAltL; exact M | split; assumption].
    + apply IH2 in H. destruct H as [w [c' [g' [M [R H]]]]].
      exists w, c', g'. split; [apply Laws.MAltR; exact M | split; assumption].
  - assert (G : forall n c0 g0,
               (fix loop (n : nat) (c0 : cursor) (g0 : captures) {struct n} : option A :=
                  match n with
                  | O => k c0 g0
                  | S n' =>
                    match run r1 c0 g0
                              (fun c' g' =>
                                 if (length (rest c') <? length (rest c0))%nat
                                 then loop n' c' g' else None) with
                    | Some v => Some v
                    | None => k c0 g0
                    end
                  end) n c0 g0 = Some v ->
               exists w c' g',
                 Laws.Matches (Star r1) c0 g0 w c' g'
                 /\ rest c0 = w ++ rest c' /\ k c' g' = Some v).
    { induction n as [| n IHn]; intros c0 g0 Hn.
      - exists [], c0, g0. repeat split; [constructor | exact Hn].
      - match type of Hn with
        | match ?m with _ => _ end = _ => destruct m as [v1 |] eqn:E1
        end.
        + injection Hn as <-. apply IH1 in E1.
          destruct E1 as [w1 [c1 [g1 [M1 [R1 H1]]]]].
          destruct (length (rest c1) <? length (rest c0))%nat; [| discriminate].
          apply IHn in H1. destruct H1 as [w2 [c2 [g2 [M2 [R2 H2]]]]].
          exists (w1 ++ w2), c2, g2. split; [econstructor; eassumption |].
          split; [rewrite R1, R2, app_assoc; reflexivity | exact H2].
        + exists [], c0, g0. repeat split; [constructor | exact Hn]. }
    apply G in H. exact H.
  - apply IH1 in H. destruct H as [w [c' [g' [M [R H]]]]].
    rewrite (@consumed_app c c' _ R) in H.
    exists w, c', ((i, w) :: g'). split; [constructor; exact M | split; assumption].
  - destruct (before c) eqn:E; [discriminate |].
    exists [], c, g. repeat split; [constructor; exact E | exact H].
  - destruct (rest c) eqn:E; [| discriminate].
    exists [], c, g. split; [constructor; exact E |]. split; [symmetry; exact E | exact H].
  - destruct (xorb _ _) eqn:E; [| discriminate].
    exists [], c, g. repeat split; [constructor; exact E | exact H].
  - destruct (run r1 c g (fun _ _ => Some tt)); [discriminate |].
    exists [], c, g. repeat split; [constructor | exact H].
Qed.

Lemma matchAt_sound (r : re) (c : cursor) (m : result) :
  matchAt r c = Some m ->
  Laws.Matches r c [] (matched m) (next m) (groups m)
  /\ rest c = matched m ++ rest (next m).
Proof.
  unfold matchAt. intros H. apply run_sound in H.
  destruct H as [w [c' [g' [M [R H]]]]]. injection H as <-.
  cbn [matched next groups]. rewrite (@consumed_app c c' _ R).
  split; [exact M | exact R].
Qed.

Lemma searchFrom_matchAt (r : re) (s : jsstring) (prev : option N) (m : result) :
  searchFrom r prev s = Some m ->
  exists c, matchAt r c = Some m /\ exists a, s = a ++ rest c.
Proof.
  revert prev. induction s as [| x s IH]; intros prev; cbn [searchFrom];
    destruct (matchAt r _) as [m1 |] eqn:E; intros H; try discriminate;
    try (injection H as <-; eexists; split; [exact E | exists []; reflexivity]).
  apply IH in H. destruct H as [c [H [a Ha]]].
  exists c. split; [exact H |]. exists (x :: a). rewrite Ha. reflexivity.
Qed.

Lemma execLoop_matchAt (r : re) (fuel : nat) (prev : option N) (s : jsstring)
      (m : result) :
  In m (execLoop fuel r prev s) -> exists c, matchAt r c = Some m.
Proof.
  revert prev s. induction fuel as [| fuel IH]; intros prev s; cbn [execLoop];
    [intros [] |].
  destruct (searchFrom r prev s) as [m1 |] eqn:E; [| intros []].
  destruct (matched m1) as [| x t].
  - intros [<- | []]. destruct (searchFrom_matchAt _ _ _ E) as [c [H _]].
    exists c. exact H.
  - intros [<- | H]; [| apply (IH _ _ H)].
    destruct (searchFrom_matchAt _ _ _ E) as [c [H _]]. exists c. exact H.
Qed.

(** Every match that a loop over the matches of a pattern visits is a
    match of the pattern, at some place of the text. *)
Lemma execAll_sound (r : re) (text : jsstring) (m : result) :
  In m (execAll r text) ->
  exists c, Laws.Matches r c [] (matched m) (next m) (groups m).
Proof.
  intros H. apply execLoop_matchAt in H. destruct H as [c H].
  apply matchAt_sound in H. exists c. apply H.
Qed.

Lemma Matches_groupless (r : re) (c c' : cursor) (g g' : captures) (w : jsstring) :
  Laws.Matches r c g w c' g' -> Laws.groupless r = true -> g' = g.
Proof.
  induction 1; cbn [Laws.groupless]; intros G;
    try reflexivity; try discriminate;
    try (apply andb_true_iff in G; destruct G as [G1 G2]).
  - rewrite IHMatches2, IHMatches1; [reflexivity | assumption ..].
  - apply IHMatches; assumption.
  - apply IHMatches; assumption.
  - rewrite IHMatches2, IHMatches1; [reflexivity | assumption ..].
Qed.

(** ** The day-first pattern of the first engine *)

Ltac inv_chr M y Hp :=
  inversion M as [| ? ? y ? ? Hp | | | | | | | | | |]; subst.
Ltac inv_seq M MA MB :=
  inversion M as [| | ? ? ? ? ? ? ? ? ? ? MA MB | | | | | | | | |]; subst.
Ltac inv_alt M ML MR :=
  inversion M as [| | | ? ? ? ? ? ? ? ML | ? ? ? ? ? ? ? MR | | | | | | |]; subst.
Ltac inv_group M M' :=
  inversion M as [| | | | | | | ? ? ? ? ? ? ? M' | | | |]; subst.

Lemma Matches_ignoreCase_word (wd : jsstring) :
  forall c g w c' g',
    Laws.Matches (ignoreCase (seqs (List.map (fun x => Chr (N.eqb x)) wd))) c g w c' g' ->
    match wd with
    | [] => True
    | x :: _ => exists y w', w = y :: w' /\ (x = asciiLower y \/ x = asciiUpper y)
    end.
Proof.
  destruct wd as [| x wd]; [trivial |]. intros c g w c' g' M.
  destruct wd as [| x' wd]; cbn [List.map seqs ignoreCase] in M.
  - inv_chr M y Hp. exists y, []. split; [reflexivity |].
    apply orb_true_iff in Hp. destruct Hp as [E | E]; apply N.eqb_eq in E; auto.
  - inv_seq M MA MB. inv_chr MA y Hp. eexists y, _. split; [reflexivity |].
    apply orb_true_iff in Hp. destruct Hp as [E | E]; apply N.eqb_eq in E; auto.
Qed.

Lemma Matches_ignoreCase_alts (l : list re) :
  forall c g w c' g',
    l <> [] ->
    Laws.Matches (ignoreCase (alts l)) c g w c' g' ->
    exists r, In r l /\ Laws.Matches (ignoreCase r) c g w c' g'.
Proof.
  induction l as [| r l IH]; intros c g w c' g' Hl M; [contradiction Hl; reflexivity |].
  destruct l as [| r' l].
  - exists r. split; [left; reflexivity | exact M].
  - cbn [alts ignoreCase] in M. fold (alts (r' :: l)) in M.
    inv_alt M ML MR.
    + exists r. split; [left; reflexivity | assumption].
    + apply IH in MR; [| discriminate]. destruct MR as [r0 [Hin Hm]].
      exists r0. split; [right; exact Hin | exact Hm].
Qed.

Lemma digit_of_either_case (y : N) :
  isDigit (asciiLower y) || isDigit (asciiUpper y) = true -> isDigit y = true.
Proof.
  unfold asciiLower, asciiUpper, isDigit, isUpper, isLower.
  intros H.
  destruct (65 <=? y)%N eqn:E1, (y <=? 90)%N eqn:E2, (97 <=? y)%N eqn:E3,
           (y <=? 122)%N eqn:E4; cbn [andb] in H;
    apply orb_true_iff in H; destruct H as [H | H];
    apply andb_true_iff in H; destruct H as [Ha Hb];
    apply N.leb_le in Ha, Hb;
    try apply N.leb_le in E1; try apply N.leb_le in E2;
    try apply N.leb_le in E3; try apply N.leb_le in E4;
    try apply N.leb_gt in E1; try apply N.leb_gt in E2;
    try apply N.leb_gt in E3; try apply N.leb_gt in E4;
    apply andb_true_iff; split; apply N.leb_le; lia.
Qed.

Lemma letter_of_either_case (x y : N) :
  isLower x = true -> x = asciiLower y \/ x = asciiUpper y -> isDigit y = false.
Proof.
  unfold asciiLower, asciiUpper, isDigit, isUpper, isLower.
  intros Hx H. apply andb_true_iff in Hx. destruct Hx as [Ha Hb].
  apply N.leb_le in Ha, Hb.
  destruct (65 <=? y)%N eqn:E1, (y <=? 90)%N eqn:E2, (97 <=? y)%N eqn:E3,
           (y <=? 122)%N eqn:E4; cbn [andb] in H;
    try apply N.leb_le in E1; try apply N.leb_le in E2;
    try apply N.leb_le in E3; try apply N.leb_le in E4;
    try apply N.leb_gt in E1; try apply N.leb_gt in E2;
    try apply N.leb_gt in E3; try apply N.leb_gt in E4;
    apply andb_false_iff;
    destruct H as [H | H];
    (destruct (N.le_gt_cases 48 y); [right; apply N.leb_gt; lia | left; apply N.leb_gt; lia]).
Qed.

Lemma Matches_month (c c' : cursor) (g g' : captures) (w : jsstring) :
  Laws.Matches (ignoreCase monthName) c g w c' g' ->
  exists y w', w = y :: w' /\ isDigit y = false.
Proof.
  unfold monthName. intros M.
  apply Matches_ignoreCase_alts in M; [| discriminate].
  destruct M as [r [Hin M]]. apply in_map_iff in Hin. destruct Hin as [nm [<- Hin]].
  unfold lit in M. apply Matches_ignoreCase_word in M.
  assert (L : match u nm with x :: _ => isLower x = true | [] => False end).
  { cbn [In] in Hin.
    repeat (destruct Hin as [<- | Hin]; [vm_compute; reflexivity |]).
    contradiction. }
  destruct (u nm) as [| x t]; [contradiction |].
  destruct M as [y [w' [-> E]]]. exists y, w'. split; [reflexivity |].
  apply (@letter_of_either_case x y L E).
Qed.

Lemma Matches_day (c c' : cursor) (g g' : captures) (w : jsstring) :
  Laws.Matches (ignoreCase (rep 1 2 digit)) c g w c' g' ->
  exists x w', w = x :: w' /\ isDigit x = true.
Proof.
  cbn [rep times upto opt digit ignoreCase Nat.sub]. intros M.
  inv_seq M MA MB. inv_seq MA MA1 MA2. inv_chr MA1 x Hp.
  eexists x, _. split; [reflexivity |]. apply digit_of_either_case, Hp.
Qed.

Lemma Matches_times (p : N -> bool) (n : nat) :
  forall c g w c' g',
    Laws.Matches (times n (Chr p)) c g w c' g' -> length w = n.
Proof.
  induction n as [| n IH]; intros c g w c' g' M; cbn [times] in M;
    [inversion M; subst; reflexivity |].
  inv_seq M MA MB. inv_chr MA x Hp. cbn [app length]. f_equal.
  apply (IH _ _ _ _ _ MB).
Qed.

Lemma parseInt_letter (y : N) (w : jsstring) :
  isDigit y = false -> parseInt (y :: w) = None.
Proof. intros H. unfold parseInt. cbn [span]. rewrite H. reflexivity. Qed.

Lemma Matches_day_first (c c' : cursor) (w : jsstring) (g : captures) :
  Laws.Matches (nth 3 V1Receipt.DATE_PATTERNS Eps) c [] w c' g ->
  exists x w1 y w3 w7 t,
    w = x :: t /\ isDigit x = true /\ isDigit y = false /\ length w7 = 4%nat
    /\ g = [(3%nat, w7); (2%nat, y :: w3); (1%nat, x :: w1)].
Proof.
  intros M.
  change (nth 3 V1Receipt.DATE_PATTERNS Eps)
    with (Seq (Group 1 (ignoreCase (rep 1 2 digit)))
         (Seq (ignoreCase (plus space))
         (Seq (Group 2 (ignoreCase monthName))
         (Seq (ignoreCase (Star (Chr isLower)))
         (Seq (ignoreCase (opt (chr ".")))
         (Seq (ignoreCase (plus space))
              (Group 3 (times 4 (ignoreCase digit))))))))) in M.
  inv_seq M MA M1. inv_seq M1 MS1 M2. inv_seq M2 MC M3. inv_seq M3 ML M4.
  inv_seq M4 MD M5. inv_seq M5 MS2 MY.
  inv_group MA MA'. inv_group MC MC'. inv_group MY MY'.
  apply Matches_groupless in ML; [| reflexivity].
  apply Matches_groupless in MD; [| reflexivity].
  apply Matches_groupless in MS2; [| reflexivity].
  pose proof (Matches_groupless MY' eq_refl) as EY.
  pose proof (Matches_groupless MC' eq_refl) as EC.
  pose proof (Matches_groupless MS1 eq_refl) as ES.
  pose proof (Matches_groupless MA' eq_refl) as EA.
  subst.
  destruct (Matches_day MA') as [x [w1' [-> Hx]]].
  destruct (Matches_month MC') as [y [w3' [-> Hy]]].
  pose proof (@Matches_times _ 4 _ _ _ _ _ MY') as HY.
  eexists x, w1', y, w3', _, _.
  split; [reflexivity |]. repeat (split; [eassumption |]). reflexivity.
Qed.

Lemma V1_day_first_match_is_skipped {rt : Runtime} (m : result) (c : cursor) :
  Laws.Matches (nth 3 V1Receipt.DATE_PATTERNS Eps) c [] (matched m) (next m) (groups m) ->
  V1Receipt.dateOf m = [].
Proof.
  intros M. apply Matches_day_first in M.
  destruct M as [x [w1 [y [w3 [w7 [t [Hw [Hx [Hy [H7 Hg]]]]]]]]]].
  unfold V1Receipt.dateOf, V1Receipt.dateOfMatch.
  rewrite Hw, Hg. cbn [group Nat.eqb].
  rewrite Hx, H7. cbn [Nat.eqb].
  rewrite (@parseInt_letter y w3 Hy).
  destruct (parseInt (x :: w1)); reflexivity.
Qed.

(** X24. Whatever the text, the fourth date pattern of the first engine
    ("15 January 2025") adds no date: each of its matches starts with a
    digit and is read as a numeric date whose day, the month name, is
    not a number.  The dates of a text are those of the first three
    patterns. *)
Theorem V1_day_month_year_is_never_read {rt : Runtime} (text : jsstring) :
  flat_map V1Receipt.dateOf (execAll (nth 3 V1Receipt.DATE_PATTERNS Eps) text) = []
  /\ V1Receipt.extractAllDates text
     = dedup JS.eqb
         (flat_map (fun pattern => flat_map V1Receipt.dateOf (execAll pattern text))
                   (firstn 3 V1Receipt.DATE_PATTERNS)).
Proof.
  assert (E : flat_map V1Receipt.dateOf
                       (execAll (nth 3 V1Receipt.DATE_PATTERNS Eps) text) = []).
  { generalize (@execAll_sound (nth 3 V1Receipt.DATE_PATTERNS Eps) text).
    induction (execAll (nth 3 V1Receipt.DATE_PATTERNS Eps) text) as [| m l IH];
      intros H; [reflexivity |].
    cbn [flat_map]. destruct (H m (or_introl eq_refl)) as [c M].
    rewrite (@V1_day_first_match_is_skipped rt m c M). cbn [app].
    apply IH. intros m' Hin. apply H. right. exact Hin. }
  split; [exact E |].
  unfold V1Receipt.extractAllDates.
  change V1Receipt.DATE_PATTERNS
    with (firstn 3 V1Receipt.DATE_PATTERNS ++ [nth 3 V1Receipt.DATE_PATTERNS Eps]) at 1.
  rewrite flat_map_app. cbn [flat_map]. rewrite E, !app_nil_r. reflexivity.
Qed.

(** ** Names in accented letters *)

Lemma lower_letter_is_ascii (x y : N) :
  isLower x = true -> x = asciiLower y \/ x = asciiUpper y -> (y < 128)%N.
Proof.
  unfold asciiLower, asciiUpper, isUpper, isLower.
  intros Hx H. apply andb_true_iff in Hx. destruct Hx as [Ha Hb].
  apply N.leb_le in Ha, Hb.
  destruct (65 <=? y)%N eqn:E1, (y <=? 90)%N eqn:E2, (97 <=? y)%N eqn:E3,
           (y <=? 122)%N eqn:E4; cbn [andb] in H;
    try apply N.leb_le in E1; try apply N.leb_le in E2;
    try apply N.leb_le in E3; try apply N.leb_le in E4;
    try apply N.leb_gt in E1; try apply N.leb_gt in E2;
    try apply N.leb_gt in E3; try apply N.leb_gt in E4;
    destruct H as [H | H]; lia.
Qed.

Lemma Matches_anchored_words (ws : list string) (c c' : cursor)
      (g g' : captures) (w : jsstring) :
  ws <> [] ->
  Laws.Matches (ignoreCase (Seq Bol (Group 1 (alts (List.map lit ws))))) c g w c' g' ->
  exists nm, In nm ws
             /\ match u nm with
                | [] => True
                | x :: _ => exists y w', w = y :: w'
                                         /\ (x = asciiLower y \/ x = asciiUpper y)
                end.
Proof.
  intros Hws M. cbn [ignoreCase] in M.
  inv_seq M MB MG. inversion MB; subst. inv_group MG MA. cbn [app].
  apply Matches_ignoreCase_alts in MA;
    [| destruct ws; [contradiction Hws; reflexivity | discriminate]].
  destruct MA as [r [Hin MA]]. apply in_map_iff in Hin.
  destruct Hin as [nm [<- Hin]]. exists nm. split; [exact Hin |].
  unfold lit in MA. apply Matches_ignoreCase_word in MA. exact MA.
Qed.

Lemma Matches_anchored_class (p : N -> bool) (r1 r2 : re) (c c' : cursor)
      (g g' : captures) (w : jsstring) :
  Laws.Matches (Seq Bol (Seq (Seq (Chr p) r1) r2)) c g w c' g' ->
  exists y w', w = y :: w' /\ p y = true.
Proof.
  intros M. inv_seq M MB M1. inversion MB; subst. inv_seq M1 M2 M3.
  inv_seq M2 M4 M5. inv_chr M4 y Hp. eexists y, _. split; [reflexivity | exact Hp].
Qed.

(** Each skip pattern of engine v3 opens with an ASCII character. *)
Lemma skipPatterns_open_in_ascii (p : re) (c c' : cursor) (g' : captures)
      (w : jsstring) :
  In p V3Receipt.skipPatterns ->
  Laws.Matches p c [] w c' g' ->
  exists y w', w = y :: w' /\ (y < 128)%N.
Proof.
  assert (W : forall ws : list string,
             ws <> [] ->
             forallb (fun nm => match u nm with
                                | x :: _ => isLower x
                                | [] => false
                                end) ws = true ->
             Laws.Matches (ignoreCase (Seq Bol (Group 1 (alts (List.map lit ws)))))
                          c [] w c' g' ->
             exists y w', w = y :: w' /\ (y < 128)%N).
  { intros ws Hws Hl M. apply Matches_anchored_words in M; [| exact Hws].
    destruct M as [nm [Hin M]]. rewrite forallb_forall in Hl.
    specialize (Hl nm Hin). destruct (u nm) as [| x t]; [discriminate |].
    destruct M as [y [w' [-> E]]]. exists y, w'. split; [reflexivity |].
    apply (@lower_letter_is_ascii x y Hl E). }
  assert (D : forall (q : N -> bool) r1 r2,
             (forall y, q y = true -> (y < 128)%N) ->
             Laws.Matches (Seq Bol (Seq (Seq (Chr q) r1) r2)) c [] w c' g' ->
             exists y w', w = y :: w' /\ (y < 128)%N).
  { intros q r1 r2 Hq M. apply Matches_anchored_class in M.
    destruct M as [y [w' [-> Hy]]]. exists y, w'. split; [reflexivity | auto]. }
  assert (Hd : forall y, isDigit y = true -> (y < 128)%N).
  { intros y H. unfold isDigit in H. apply andb_true_iff in H.
    destruct H as [_ H]. apply N.leb_le in H. lia. }
  assert (Hs : forall y, existsb (N.eqb y) (u "#*-=") = true -> (y < 128)%N).
  { intros y H. apply existsb_exists in H. destruct H as [x [Hin E]].
    apply N.eqb_eq in E. subst x. cbn in Hin.
    repeat (destruct Hin as [<- | Hin]; [reflexivity |]). contradiction. }
  unfold V3Receipt.skipPatterns. cbn [In].
  intros [<- | [<- | [<- | [<- | [<- | [<- | [<- | [<- | []]]]]]]]] M.
  - apply W in M; [exact M | discriminate | vm_compute; reflexivity].
  - apply (D isDigit _ _ Hd M).
  - apply (D isDigit _ _ Hd M).
  - apply W in M; [exact M | discriminate | vm_compute; reflexivity].
  - apply W in M; [exact M | discriminate | vm_compute; reflexivity].
  - apply W in M; [exact M | discriminate | vm_compute; reflexivity].
  - apply (D isDigit _ _ Hd M).
  - apply (D (fun x => existsb (N.eqb x) (u "#*-=")) _ _ Hs M).
Qed.

Lemma test_needs_ascii (p : re) (line : jsstring) :
  In p V3Receipt.skipPatterns ->
  forallb (fun x => (128 <=? x)%N) line = true ->
  test p line = false.
Proof.
  intros Hp Hl. unfold test, search.
  destruct (searchFrom p None line) as [m |] eqn:E; [| reflexivity].
  apply searchFrom_matchAt in E. destruct E as [c [E [a Ha]]].
  apply matchAt_sound in E. destruct E as [M R].
  apply (skipPatterns_open_in_ascii Hp) in M.
  destruct M as [y [w' [Hw Hy]]].
  rewrite Ha, R, Hw in Hl. rewrite forallb_app in Hl.
  apply andb_true_iff in Hl. destruct Hl as [_ Hl]. cbn [app forallb] in Hl.
  apply andb_true_iff in Hl. destruct Hl as [Hl _]. apply N.leb_le in Hl. lia.
Qed.

(** X25.  The merchant name of engine v3 can be the empty string, which
    is not null.  The test on the share of letters counts the accented
    letters [äöüßàèéìòùñçăîâșț], and the cleanup of the name removes
    them: when the first line of the receipt that is not blank is made
    of 2 to 50 of these letters, and no built-in pattern is within
    its lower case, extractMerchant returns the empty string. *)
Theorem V3_accented_name_is_emptied {rt : Runtime}
        (text line : jsstring) (others : list jsstring) :
  filter (fun l => (0 <? length l)%nat) (List.map trim (split 10 text))
  = line :: others ->
  (2 <= length line <= 50)%nat ->
  forallb (fun x => existsb (N.eqb x) (u "äöüßàèéìòùñçăîâșț")) line = true ->
  find (fun merchant =>
          existsb (fun pattern => includes (toLowerCase line) pattern)
                  (patterns merchant))
       V3.BUILT_IN_MERCHANTS = None ->
  V3Receipt.extractMerchant text = Some [].
Proof.
  intros Ht Hlen Hl Hb.
  assert (A : forall x, existsb (N.eqb x) (u "äöüßàèéìòùñçăîâșț") = true ->
                        (128 <=? x)%N = true /\ isSpace x = false
                        /\ V3Receipt.isNameLetter x = true
                        /\ V3Receipt.isNameChar x = false).
  { intros x H. apply existsb_exists in H. destruct H as [y [Hin E]].
    apply N.eqb_eq in E. subst y. cbn in Hin.
    repeat (destruct Hin as [<- | Hin]; [vm_compute; repeat split |]).
    contradiction. }
  rewrite forallb_forall in Hl.
  assert (T : trim line = line).
  { assert (Hin : In line (List.map trim (split 10 text))).
    { apply (proj1 (filter_In (fun l => (0 <? length l)%nat) line _)).
      rewrite Ht. left. reflexivity. }
    apply in_map_iff in Hin. destruct Hin as [l0 [<- _]]. apply trim_trimmed. }
  assert (C : V3Receipt.candidate line = true).
  { unfold V3Receipt.candidate.
    replace (existsb (fun p => test p line) V3Receipt.skipPatterns) with false.
    - replace (filter V3Receipt.isNameLetter line) with line.
      + cbn [negb andb].
        destruct (length line <? 2)%nat eqn:E1; [apply Nat.ltb_lt in E1; lia |].
        destruct (50 <? length line)%nat eqn:E2; [apply Nat.ltb_lt in E2; lia |].
        destruct (5 * length line <? 2 * length line)%nat eqn:E3;
          [apply Nat.ltb_lt in E3; lia | reflexivity].
      + clear - Hl A. induction line as [| x l IH]; [reflexivity |].
        cbn [filter]. rewrite (proj1 (proj2 (proj2 (A x (Hl x (or_introl eq_refl)))))).
        f_equal. apply IH. intros y Hy. apply Hl. right. exact Hy.
    - symmetry. apply not_true_iff_false. intros H.
      apply existsb_exists in H. destruct H as [p [Hp H]].
      rewrite test_needs_ascii in H; [discriminate | exact Hp |].
      apply forallb_forall. intros x Hx. apply (A x (Hl x Hx)). }
  unfold V3Receipt.extractMerchant. rewrite Ht.
  cbn [firstn List.map find]. rewrite T, C. cbn [option_map].
  unfold V3Receipt.nameOf. rewrite Hb. f_equal.
  replace (filter V3Receipt.isNameChar line) with (@nil N); [reflexivity |].
  clear - Hl A. induction line as [| x l IH]; [reflexivity |].
  cbn [filter]. rewrite (proj2 (proj2 (proj2 (A x (Hl x (or_introl eq_refl)))))).
  apply IH. intros y Hy. apply Hl. right. exact Hy.
Qed.

(** A receipt headed "äöü": the name is the empty string. *)
Lemma V3_accented_name_is_emptied_witness :
  @V3Receipt.extractMerchant asciiRuntime (Demo.lines [""; "äöü"; "Sum 3.20"]%string)
  = Some [].
Proof.
  apply (@V3_accented_name_is_emptied asciiRuntime _ (u "äöü") [u "Sum 3.20"]);
    [vm_compute; reflexivity | cbn; lia | vm_compute; reflexivity
     | vm_compute; reflexivity].
Defined.

(** X26.  More rules of engine v3 that never decide, their patterns
    holding a shorter pattern of an earlier rule.  A receipt whose text
    names "t-mobile", "tmobile" ("mobil" is earlier) or "bpost" ("bp")
    is suggested "Office Supplies", "Meals (Business)" or "Travel", the
    categories of the rules up to those; and one that names "barclays",
    "deutsche bank" or "commerzbank" ("ba" is the pattern of an
    airline) is suggested the category of a rule up to the airline's,
    none of which is "Bank Fees".  Each at [high] confidence, when no
    learned merchant matches. *)
Theorem carriers_and_banks_are_filed_elsewhere {rt : Runtime}
        (learned : list LearnedMerchant) (text word : jsstring)
        (merchantName : option jsstring) :
  (forall e, In e learned -> Spec.matchesV3 text merchantName e = false) ->
  includes (toLowerCase text) word = true ->
  let r := V3.suggestFrom learned text merchantName in
  (In word [u "t-mobile"; u "tmobile"; u "bpost"] ->
   certainty r = high
   /\ (suggested r = Some (u "Office Supplies")
       \/ suggested r = Some (u "Meals (Business)")
       \/ suggested r = Some (u "Travel")))
  /\ (In word [u "barclays"; u "deutsche bank"; u "commerzbank"] ->
      certainty r = high
      /\ exists category, suggested r = Some category
                          /\ category <> u "Bank Fees").
Proof.
  intros Hl Ht. cbv zeta. split; intros Hw.
  - assert (Hp : exists pattern,
               In pattern (flat_map patterns (firstn 88 V3.BUILT_IN_MERCHANTS))
               /\ includes word pattern = true).
    { destruct Hw as [<- | [<- | [<- | []]]];
        [exists (u "mobil") | exists (u "mobil") | exists (u "bp")];
        (split; [apply In_eqb; vm_compute; reflexivity | vm_compute; reflexivity]). }
    destruct Hp as [pattern [Hp Hi]].
    destruct (@builtin_prefix rt 88 learned text word pattern merchantName
                Hl Hp Hi Ht) as [r [Hin ->]].
    cbn [certainty suggested]. split; [reflexivity |].
    assert (C : forallb (fun r => JS.eqb (mcategory r) (u "Office Supplies")
                                  || JS.eqb (mcategory r) (u "Meals (Business)")
                                  || JS.eqb (mcategory r) (u "Travel"))
                        (firstn 88 V3.BUILT_IN_MERCHANTS) = true)
      by (vm_compute; reflexivity).
    rewrite forallb_forall in C. specialize (C r Hin).
    apply orb_true_iff in C. destruct C as [C | C];
      [apply orb_true_iff in C; destruct C as [C | C] |].
    + left. f_equal. destruct (same_string (mcategory r) (u "Office Supplies"));
        [assumption | discriminate].
    + right. left. f_equal.
      destruct (same_string (mcategory r) (u "Meals (Business)"));
        [assumption | discriminate].
    + right. right. f_equal.
      destruct (same_string (mcategory r) (u "Travel")); [assumption | discriminate].
  - assert (Hi : includes word (u "ba") = true)
      by (destruct Hw as [<- | [<- | [<- | []]]]; vm_compute; reflexivity).
    destruct (@builtin_prefix rt 196 learned text word (u "ba") merchantName Hl
                (@In_eqb (u "ba")
                         (flat_map patterns (firstn 196 V3.BUILT_IN_MERCHANTS))
                         ltac:(vm_compute; reflexivity)) Hi Ht) as [r [Hin ->]].
    cbn [certainty suggested]. split; [reflexivity |].
    exists (mcategory r). split; [reflexivity |].
    assert (C : forallb (fun r => negb (JS.eqb (mcategory r) (u "Bank Fees")))
                        (firstn 196 V3.BUILT_IN_MERCHANTS) = true)
      by (vm_compute; reflexivity).
    rewrite forallb_forall in C. specialize (C r Hin).
    intros E. rewrite E in C. vm_compute in C. discriminate C.
Qed.

(** A statement of Barclays is filed under "Travel". *)
Lemma carriers_and_banks_are_filed_elsewhere_witness :
  @V3.suggestFrom asciiRuntime []
     (Demo.lines ["Barclays"; "8.50"]%string) (Some (u "Barclays"))
  = {| suggested := Some (u "Travel"); certainty := high |}
  /\ exists category,
       suggested (@V3.suggestFrom asciiRuntime []
                    (Demo.lines ["Barclays"; "8.50"]%string)
                    (Some (u "Barclays")))
       = Some category
       /\ category <> u "Bank Fees".
Proof.
  split; [vm_compute; reflexivity |].
  exact (proj2 (proj2 (@carriers_and_banks_are_filed_elsewhere asciiRuntime []
                         (Demo.lines ["Barclays"; "8.50"]%string)
                         (u "barclays") (Some (u "Barclays"))
                         ltac:(intros e []) eq_refl)
                      (or_introl eq_refl))).
Defined.

(** X27.  The totals of the native bridge are above zero: whatever the
    regions hold, a total, a subtotal or a tax that extractTotals
    returns is an amount above zero read on a line, or, for the total,
    the largest one of the bottom region. *)
Theorem native_totals_are_positive {rt : Runtime}
        (bottomRegion : Native.RegionResult) (fullText : jsstring) (v : Q) :
  let r := Native.extractTotals bottomRegion fullText in
  (Shape.total r = Some v \/ Shape.subtotal r = Some v \/ Shape.tax r = Some v) ->
  0 < v.
Proof.
  cbv zeta. unfold Native.extractTotals.
  set (init := {| Shape.total := None; Shape.subtotal := None; Shape.tax := None |}).
  assert (F : forall lines acc,
             (forall x, Shape.total acc = Some x \/ Shape.subtotal acc = Some x
                        \/ Shape.tax acc = Some x -> 0 < x) ->
             forall x,
               Shape.total (fold_left Native.totalsStep lines acc) = Some x
               \/ Shape.subtotal (fold_left Native.totalsStep lines acc) = Some x
               \/ Shape.tax (fold_left Native.totalsStep lines acc) = Some x ->
               0 < x).
  { induction lines as [| line lines IH]; intros acc H; [exact H |].
    cbn [fold_left]. apply IH. apply Native_step_positive, H. }
  specialize (F (split 10 (toLowerCase (Native.region_text bottomRegion
                                         ++ 10%N :: fullText))) init).
  assert (I : forall x, Shape.total init = Some x \/ Shape.subtotal init = Some x
                        \/ Shape.tax init = Some x -> 0 < x)
    by (intros x [H | [H | H]]; discriminate H).
  specialize (F I). clear I.
  set (found := fold_left Native.totalsStep _ init) in *.
  destruct (Shape.total found) as [t |] eqn:Et.
  - intros H. apply F. rewrite Et in H. exact H.
  - match goal with
    | |- context [match ?p with [] => _ | _ :: _ => _ end] =>
      destruct p as [| a rest] eqn:Ep
    end.
    + intros H. apply F. rewrite Et in H. exact H.
    + cbn [Shape.total Shape.subtotal Shape.tax].
      intros [H | [H | H]]; [| apply F; tauto | apply F; tauto].
      injection H as <-.
      assert (Hin : In (maximum a rest) (a :: rest)) by apply maximum_in.
      rewrite <- Ep in Hin. apply in_flat_map in Hin.
      destruct Hin as [m [_ Hin]].
      destruct (parseFloat _) as [n |]; [| destruct Hin].
      destruct (ltb 0 n) eqn:E; [| destruct Hin].
      destruct Hin as [<- | []]. apply ltb_lt, E.
Qed.

Lemma native_totals_are_positive_witness :
  Shape.total (@Native.extractTotals asciiRuntime
                 (Demo.region ["Total 4.50"]%string 90) (u "Cafe"))
  = Some (450 # 100)
  /\ 0 < 450 # 100.
Proof.
  split; [vm_compute; reflexivity |].
  apply (@native_totals_are_positive asciiRuntime
           (Demo.region ["Total 4.50"]%string 90) (u "Cafe") (450 # 100)).
  left. vm_compute. reflexivity.
Defined.

(** ** C5: the tokens that the amount patterns find *)

Lemma after_app (b : option N) (w1 w2 : jsstring) :
  Laws.after b (w1 ++ w2) = Laws.after (Laws.after b w1) w2.
Proof. apply fold_left_app. Qed.

(** [r{n}] on [n] characters of the class. *)
Lemma run_times (A : Type) (p : N -> bool) (n : nat) :
  forall (ws t : jsstring) (b : option N) (g : captures)
         (k : cursor -> captures -> option A),
    length ws = n -> forallb p ws = true ->
    run (times n (Chr p)) (Cursor b (ws ++ t)) g k
    = k (Cursor (Laws.after b ws) t) g.
Proof.
  induction n as [| n IH]; intros [| x ws] t b g k Hn Hp; try discriminate Hn.
  - reflexivity.
  - cbn [forallb] in Hp. apply andb_true_iff in Hp. destruct Hp as [Hx Hp].
    cbn [times run app rest]. rewrite Hx.
    rewrite IH; [reflexivity | injection Hn as Hn; exact Hn | exact Hp].
Qed.

(** [r{0,n}], greedy, on the characters of the class that are there. *)
Lemma run_upto (A : Type) (p : N -> bool) (n : nat) :
  forall (ds t : jsstring) (b : option N) (g : captures)
         (k : cursor -> captures -> option A) (v : A),
    (length ds <= n)%nat -> forallb p ds = true ->
    match t with
    | [] => True
    | x :: _ => p x = false
    end ->
    k (Cursor (Laws.after b ds) t) g = Some v ->
    run (upto n (Chr p)) (Cursor b (ds ++ t)) g k = Some v.
Proof.
  induction n as [| n IH]; intros ds t b g k v Hn Hp Ht Hk.
  - destruct ds; [exact Hk | cbn [length] in Hn; lia].
  - cbn [upto opt run]. destruct ds as [| x ds].
    + cbn [app rest]. destruct t as [| y t].
      * exact Hk.
      * rewrite Ht. exact Hk.
    + cbn [forallb] in Hp. apply andb_true_iff in Hp. destruct Hp as [Hx Hp].
      cbn [app rest]. rewrite Hx.
      rewrite (IH ds t (Some x) g k v); [reflexivity | | exact Hp | exact Ht | exact Hk].
      cbn [length] in Hn. lia.
Qed.

(** [\d{1,3}] on the digits that open a token. *)
Lemma run_rep13 (A : Type) (h t : jsstring) (b : option N) (g : captures)
      (k : cursor -> captures -> option A) (v : A) :
  (1 <= length h <= 3)%nat -> forallb isDigit h = true ->
  match t with
  | [] => True
  | x :: _ => isDigit x = false
  end ->
  k (Cursor (Laws.after b h) t) g = Some v ->
  run (rep 1 3 digit) (Cursor b (h ++ t)) g k = Some v.
Proof.
  intros Hn Hd Ht Hk. destruct h as [| x h]; [cbn [length] in Hn; lia |].
  cbn [forallb] in Hd. apply andb_true_iff in Hd. destruct Hd as [Hx Hd].
  unfold rep, digit. cbn [Nat.sub times run app rest]. rewrite Hx.
  apply (@run_upto A isDigit 2 h t (Some x) g k v); try assumption.
  cbn [length] in Hn. lia.
Qed.

(** A group [[,.\s]\d{3}] does not start where fewer than three digits
    follow a separator. *)
Lemma run_group_fails (A : Type) (t : jsstring) (b : option N) (g : captures)
      (k : cursor -> captures -> option A) :
  match t with
  | x :: a :: b' :: d :: _ =>
    Laws.separator x && isDigit a && isDigit b' && isDigit d
  | _ => false
  end = false ->
  run (Seq (Chr Laws.separator) (times 3 digit)) (Cursor b t) g k = None.
Proof.
  unfold digit. cbn [times run rest].
  destruct t as [| x [| a [| b' [| d t]]]]; intros H;
    try reflexivity;
    destruct (Laws.separator x); try reflexivity;
    try (destruct (isDigit a); try reflexivity);
    try (destruct (isDigit b'); try reflexivity);
    try (destruct (isDigit d); try reflexivity);
    discriminate H.
Qed.

Lemma run_group (A : Type) (x a b' d : N) (t : jsstring) (b : option N)
      (g : captures) (k : cursor -> captures -> option A) :
  Laws.separator x && isDigit a && isDigit b' && isDigit d = true ->
  run (Seq (Chr Laws.separator) (times 3 digit))
      (Cursor b (x :: a :: b' :: d :: t)) g k
  = k (Cursor (Some d) t) g.
Proof.
  intros H.
  apply andb_true_iff in H. destruct H as [H Hd].
  apply andb_true_iff in H. destruct H as [H Hb].
  apply andb_true_iff in H. destruct H as [Hx Ha].
  unfold digit. cbn [times run rest]. rewrite Hx, Ha, Hb, Hd. reflexivity.
Qed.

Section Greedy.
Variable A : Type.
Variable r1 : re.
Variable g : captures.
Variable k : cursor -> captures -> option A.
Variable t : jsstring.
Variable v : A.
Hypothesis r1_fails :
  forall b (k' : cursor -> captures -> option A),
    run r1 (Cursor b t) g k' = None.
Hypothesis r1_group :
  forall x a b' d s b (k' : cursor -> captures -> option A),
    Laws.separator x && isDigit a && isDigit b' && isDigit d = true ->
    run r1 (Cursor b (x :: a :: b' :: d :: s)) g k' = k' (Cursor (Some d) s) g.

(** [(?:[,.\s]\d{3})*], greedy, on the groups that are there. *)
Lemma run_star_groups (G : jsstring) (b : option N) :
  Laws.groupsOf3 G = true ->
  k (Cursor (Laws.after b G) t) g = Some v ->
  run (Star r1) (Cursor b (G ++ t)) g k = Some v.
Proof.
  intros HG Hk. cbn [run rest].
  assert (L : (length G <= length (G ++ t))%nat) by (rewrite length_app; lia).
  revert L. generalize (length (G ++ t)). intros n Hn.
  revert G b HG Hk Hn. induction n as [| n IH]; intros G b HG Hk Hn.
  - destruct G; [exact Hk | cbn [length] in Hn; lia].
  - destruct G as [| x [| a [| b' [| d G]]]]; try discriminate HG.
    + cbn [app]. rewrite r1_fails. exact Hk.
    + cbn [Laws.groupsOf3] in HG.
      apply andb_true_iff in HG. destruct HG as [HG HG'].
      cbn [app]. rewrite r1_group by exact HG. cbn [rest length].
      replace (length (G ++ t) <? S (S (S (S (length (G ++ t))))))%nat with true
        by (symmetry; apply Nat.ltb_lt; lia).
      rewrite (IH G (Some d)); [reflexivity | exact HG' | exact Hk |].
      cbn [length] in Hn. lia.
Qed.

End Greedy.

Lemma run_groups (A : Type) (G t : jsstring) (b : option N) (g : captures)
      (k : cursor -> captures -> option A) (v : A) :
  Laws.groupsOf3 G = true ->
  match t with
  | x :: a :: b' :: d :: _ =>
    Laws.separator x && isDigit a && isDigit b' && isDigit d
  | _ => false
  end = false ->
  k (Cursor (Laws.after b G) t) g = Some v ->
  run (Star (Seq (Chr Laws.separator) (times 3 digit))) (Cursor b (G ++ t)) g k
  = Some v.
Proof.
  intros HG Ht Hk. apply run_star_groups; try assumption.
  - intros b0 k'. apply run_group_fails, Ht.
  - intros x a b' d s b0 k' H. apply run_group, H.
Qed.

Lemma separator_not_digit (x : N) : Laws.separator x = true -> isDigit x = false.
Proof.
  unfold Laws.separator. intros H. destruct (isDigit x) eqn:E; [| reflexivity].
  rewrite (digit_not_space x E), orb_false_r in H.
  unfold isDigit in E. apply andb_true_iff in E. destruct E as [E1 E2].
  apply N.leb_le in E1, E2. unfold includesChar in H.
  apply existsb_exists in H. destruct H as [y [Hin Hy]].
  apply N.eqb_eq in Hy. subst y. cbn in Hin.
  destruct Hin as [<- | [<- | []]]; lia.
Qed.

Lemma integerPart_split (i : jsstring) :
  Laws.integerPart i = true ->
  exists h G, i = h ++ G /\ (1 <= length h <= 3)%nat
              /\ forallb isDigit h = true /\ Laws.groupsOf3 G = true.
Proof.
  unfold Laws.integerPart. intros H. apply existsb_exists in H.
  destruct H as [n [Hn H]].
  apply andb_true_iff in H. destruct H as [H HG].
  apply andb_true_iff in H. destruct H as [Hl Hd]. apply Nat.leb_le in Hl.
  exists (firstn n i), (skipn n i).
  split; [symmetry; apply firstn_skipn |].
  split; [| split; assumption].
  rewrite firstn_length_le by exact Hl.
  cbn [In] in Hn. destruct Hn as [<- | [<- | [<- | []]]]; lia.
Qed.

Lemma groupsOf3_app (G1 G2 : jsstring) :
  Laws.groupsOf3 G1 = true -> Laws.groupsOf3 G2 = true ->
  Laws.groupsOf3 (G1 ++ G2) = true.
Proof.
  revert G2. induction G1 as [G1 IH] using (well_founded_induction
    (Wf_nat.well_founded_ltof _ (@length N))).
  intros G2 H1 H2.
  destruct G1 as [| x [| a [| b' [| d G]]]]; try discriminate H1; [exact H2 |].
  cbn [Laws.groupsOf3] in H1. apply andb_true_iff in H1. destruct H1 as [H1 HG].
  cbn [app Laws.groupsOf3]. rewrite H1. cbn [andb].
  apply IH; [unfold Wf_nat.ltof; cbn [length]; lia | exact HG | exact H2].
Qed.

Lemma groupsOf3_opens (G t : jsstring) :
  Laws.groupsOf3 G = true ->
  match t with
  | [] => True
  | x :: _ => isDigit x = false
  end ->
  match G ++ t with
  | [] => True
  | x :: _ => isDigit x = false
  end.
Proof.
  intros HG Ht. destruct G as [| x [| a [| b' [| d G]]]]; try discriminate HG;
    [exact Ht |].
  cbn [Laws.groupsOf3] in HG. cbn [app].
  apply separator_not_digit.
  destruct (Laws.separator x); [reflexivity | discriminate HG].
Qed.

Lemma run_Seq (A : Type) (r1 r2 : re) (c : cursor) (g : captures)
      (k : cursor -> captures -> option A) :
  run (Seq r1 r2) c g k = run r1 c g (fun c' g' => run r2 c' g' k).
Proof. reflexivity. Qed.

Lemma run_Group (A : Type) (i : nat) (r : re) (c : cursor) (g : captures)
      (k : cursor -> captures -> option A) :
  run (Group i r) c g k = run r c g (fun c' g' => k c' ((i, consumed c c') :: g')).
Proof. reflexivity. Qed.

Lemma consumed_all (b b' : option N) (s : jsstring) :
  consumed (Cursor b s) (Cursor b' []) = s.
Proof.
  unfold consumed. cbn [rest length]. rewrite Nat.sub_0_r. apply firstn_all.
Qed.

(** The loop over the matches of a text that one match takes whole. *)
Lemma execAll_one (r : re) (s : jsstring) (m : result) :
  matchAt r (Cursor None s) = Some m ->
  matched m = s -> s <> [] -> rest (next m) = [] ->
  (forall b, matchAt r (Cursor b []) = None) ->
  execAll r s = [m].
Proof.
  intros Hm Hs Hn Hr He. unfold execAll.
  assert (F : searchFrom r None s = Some m)
    by (destruct s; cbn [searchFrom]; rewrite Hm; reflexivity).
  cbn [execLoop]. rewrite F, Hs.
  destruct s as [| x s]; [contradiction Hn; reflexivity |].
  rewrite Hr. cbn [length execLoop searchFrom]. rewrite He. reflexivity.
Qed.

Section Found.
Variables h G : jsstring.
Variables l d1 d2 : N.
Hypothesis h_length : (1 <= length h <= 3)%nat.
Hypothesis h_digits : forallb isDigit h = true.
Hypothesis G_groups : Laws.groupsOf3 G = true.
Hypothesis l_separator : existsb (N.eqb l) (u ".,") = true.
Hypothesis d1_digit : isDigit d1 = true.
Hypothesis d2_digit : isDigit d2 = true.

Lemma l_not_digit : isDigit l = false.
Proof.
  apply existsb_exists in l_separator. destruct l_separator as [y [Hin Hy]].
  apply N.eqb_eq in Hy. subst y. cbn in Hin.
  destruct Hin as [<- | [<- | []]]; reflexivity.
Qed.

Lemma token_nonempty (t : jsstring) : h ++ t <> [].
Proof. destruct h; [cbn [length] in h_length; lia | discriminate]. Qed.

(** The first pattern of engine v3 on a token that ends with a
    separator and two digits. *)
Lemma V3_matchAt_token :
  matchAt (hd Eps V3.amountPatterns) (Cursor None (h ++ G ++ [l; d1; d2]))
  = Some (Result (h ++ G ++ [l; d1; d2]) [(1%nat, h ++ G ++ [l; d1; d2])]
                 (Cursor (Some d2) [])).
Proof.
  unfold matchAt.
  change (hd Eps V3.amountPatterns)
    with (Seq (Group 1 (Seq (rep 1 3 digit)
                       (Seq (Star (Seq (Chr Laws.separator) (times 3 digit)))
                       (Seq (oneOf (u ".,")) (times 2 digit)))))
              WordB).
  rewrite run_Seq, run_Group, run_Seq.
  apply run_rep13; [exact h_length | exact h_digits | |].
  - apply groupsOf3_opens; [exact G_groups | exact l_not_digit].
  - rewrite run_Seq. apply run_groups; [exact G_groups | reflexivity |].
    rewrite run_Seq. unfold oneOf, digit. cbn [times run rest].
    rewrite l_separator, d1_digit, d2_digit.
    cbn [before rest hd_error isWordAt]. unfold isWord. rewrite d2_digit.
    rewrite orb_true_r. cbn [orb xorb]. rewrite !consumed_all. reflexivity.
Qed.

Lemma V3_token_found :
  execAll (hd Eps V3.amountPatterns) (h ++ G ++ [l; d1; d2])
  = [Result (h ++ G ++ [l; d1; d2]) [(1%nat, h ++ G ++ [l; d1; d2])]
            (Cursor (Some d2) [])].
Proof.
  apply execAll_one; [exact V3_matchAt_token | reflexivity | apply token_nonempty
                      | reflexivity | reflexivity].
Qed.

(** The pattern of engine v2 on a token that ends with a separator and
    two digits, and on one that ends with a group. *)
Lemma V2_token_found (final : bool) :
  let token := h ++ G ++ (if final then [l; d1; d2] else []) in
  exists m, execAll V2.amountPattern token = [m]
            /\ group 1 (groups m) = token.
Proof.
  cbv zeta.
  set (F := if final then [l; d1; d2] else []).
  exists (Result (h ++ G ++ F) [(1%nat, h ++ G ++ F)]
                 (Cursor (Laws.after (Laws.after (Laws.after None h) G) F) [])).
  split; [| reflexivity].
  apply execAll_one; [| reflexivity | apply token_nonempty | reflexivity
                      | reflexivity].
  unfold matchAt.
  change V2.amountPattern
    with (Group 1 (Seq (rep 1 3 digit)
                  (Seq (Star (Seq (Chr Laws.separator) (times 3 digit)))
                       (opt (Seq (oneOf (u ".,")) (times 2 digit)))))).
  rewrite run_Group, run_Seq.
  apply run_rep13; [exact h_length | exact h_digits | |].
  - apply groupsOf3_opens; [exact G_groups |].
    unfold F. destruct final; [exact l_not_digit | exact I].
  - rewrite run_Seq. apply run_groups; [exact G_groups | |].
    + unfold F. destruct final; reflexivity.
    + unfold F. destruct final.
      * unfold opt, oneOf, digit. cbn [times run rest].
        rewrite l_separator, d1_digit, d2_digit.
        rewrite !consumed_all. reflexivity.
      * unfold opt, oneOf. cbn [run rest]. rewrite !consumed_all. reflexivity.
Qed.

End Found.

(** The characters of a token are digits and separators, none of them
    a currency sign. *)
Lemma groupsOf3_chars (G : jsstring) :
  Laws.groupsOf3 G = true ->
  forallb (fun x => isDigit x || Laws.separator x) G = true.
Proof.
  induction G as [G IH] using (well_founded_induction
    (Wf_nat.well_founded_ltof _ (@length N))).
  destruct G as [| x [| a [| b' [| d G]]]]; try discriminate; [reflexivity |].
  cbn [Laws.groupsOf3 forallb]. intros H.
  apply andb_true_iff in H. destruct H as [H HG].
  apply andb_true_iff in H. destruct H as [H Hd].
  apply andb_true_iff in H. destruct H as [H Hb].
  apply andb_true_iff in H. destruct H as [Hx Ha].
  rewrite Hx, Ha, Hb, Hd, !orb_true_r. cbn [orb andb].
  apply IH; [unfold Wf_nat.ltof; cbn [length]; lia | exact HG].
Qed.

Lemma not_currency (x : N) :
  isDigit x || Laws.separator x = true ->
  existsb (N.eqb x) (u "$€£¥") = false.
Proof.
  intros H. destruct (existsb (N.eqb x) (u "$€£¥")) eqn:E; [| reflexivity].
  apply existsb_exists in E. destruct E as [y [Hin Hy]].
  apply N.eqb_eq in Hy. subst y. cbn in Hin.
  repeat (destruct Hin as [<- | Hin]; [vm_compute in H; discriminate H |]).
  contradiction.
Qed.

Lemma run_Chr (A : Type) (p : N -> bool) (b : option N) (x : N) (t : jsstring)
      (g : captures) (k : cursor -> captures -> option A) :
  run (Chr p) (Cursor b (x :: t)) g k
  = if p x then k (Cursor (Some x) t) g else None.
Proof. reflexivity. Qed.

(** The second pattern of engine v3 opens with a currency sign. *)
Lemma V3_sign_first (s : jsstring) :
  forallb (fun x => isDigit x || Laws.separator x) s = true ->
  execAll (nth 1 V3.amountPatterns Eps) s = [].
Proof.
  intros H.
  assert (F : forall prev, searchFrom (nth 1 V3.amountPatterns Eps) prev s = None).
  { induction s as [| x s IH]; intros prev.
    - reflexivity.
    - cbn [forallb] in H. apply andb_true_iff in H. destruct H as [Hx H].
      cbn [searchFrom]. unfold matchAt.
      change (nth 1 V3.amountPatterns Eps)
        with (Seq (Chr (fun x => existsb (N.eqb x) (u "$€£¥")))
                  (Seq (Star space) (Group 1 V3.plainAmount))).
      rewrite run_Seq, run_Chr, (not_currency x Hx).
      apply IH, H. }
  unfold execAll. cbn [execLoop]. rewrite F. reflexivity.
Qed.

(** The third one closes with a currency sign. *)
Lemma Matches_sign_last (c c' : cursor) (g g' : captures) (w : jsstring) :
  Laws.Matches (nth 2 V3.amountPatterns Eps) c g w c' g' ->
  exists w' y, w = w' ++ [y] /\ existsb (N.eqb y) (u "$€£¥") = true.
Proof.
  intros M.
  change (nth 2 V3.amountPatterns Eps)
    with (Seq (Group 1 V3.plainAmount)
              (Seq (Star space) (Chr (fun x => existsb (N.eqb x) (u "$€£¥")))))
    in M.
  inv_seq M M1 M2. inv_seq M2 M3 M4. inv_chr M4 y Hy.
  eexists _, y. split; [rewrite !app_assoc; reflexivity | exact Hy].
Qed.

Lemma V3_sign_last (s : jsstring) :
  forallb (fun x => isDigit x || Laws.separator x) s = true ->
  execAll (nth 2 V3.amountPatterns Eps) s = [].
Proof.
  intros H. unfold execAll. cbn [execLoop].
  destruct (searchFrom (nth 2 V3.amountPatterns Eps) None s) as [m |] eqn:E;
    [| reflexivity].
  exfalso. apply searchFrom_matchAt in E. destruct E as [c [E [a Ha]]].
  apply matchAt_sound in E. destruct E as [M R].
  apply Matches_sign_last in M. destruct M as [w' [y [Hw Hy]]].
  rewrite Ha, R, Hw in H.
  rewrite !forallb_app in H. cbn [forallb] in H.
  apply andb_true_iff in H. destruct H as [_ H].
  apply andb_true_iff in H. destruct H as [H _].
  apply andb_true_iff in H. destruct H as [_ H].
  apply andb_true_iff in H. destruct H as [H _].
  rewrite (not_currency y H) in Hy. discriminate Hy.
Qed.

Lemma dot_or_comma (l : N) :
  existsb (N.eqb l) (u ".,") = true -> l = JS.c "." \/ l = JS.c ",".
Proof.
  intros Hl. apply existsb_exists in Hl. destruct Hl as [y [Hin Hy]].
  apply N.eqb_eq in Hy. subst y. cbn in Hin.
  destruct Hin as [<- | [<- | []]]; [left | right]; reflexivity.
Qed.

(** What the end [[.,]\d{2}] of a pattern of engine v3 takes. *)
Lemma Matches_final (c c' : cursor) (g g' : captures) (w : jsstring) :
  Laws.Matches (Seq (oneOf (u ".,")) (times 2 digit)) c g w c' g' ->
  exists l fs, w = l :: fs /\ (l = JS.c "." \/ l = JS.c ",")
               /\ Spec.digits fs = true /\ length fs = 2%nat.
Proof.
  unfold oneOf, digit. cbn [times]. intros M.
  inv_seq M M1 M2. inv_chr M1 l Hl. inv_seq M2 M3 M4. inv_chr M3 d1 H1.
  inv_seq M4 M5 M6. inv_chr M5 d2 H2. inversion M6; subst.
  exists l, [d1; d2]. split; [reflexivity |].
  split; [| split; [cbn; rewrite H1, H2; reflexivity | reflexivity]].
  exact (dot_or_comma l Hl).
Qed.

(** Every token of engine v3 ends with a separator and two digits. *)
Lemma V3_token_shape (pattern : re) (c c' : cursor) (g : captures) (w : jsstring) :
  In pattern V3.amountPatterns ->
  Laws.Matches pattern c [] w c' g ->
  exists i l fs, group 1 g = i ++ l :: fs /\ (l = JS.c "." \/ l = JS.c ",")
                 /\ Spec.digits fs = true /\ length fs = 2%nat.
Proof.
  unfold V3.amountPatterns. cbn [In]. intros [<- | [<- | [<- | []]]] M.
  - change (seqs [Group 1 (seqs [rep 1 3 digit;
                                 Star (Seq (Chr (fun x => includesChar (u ",.") x
                                                          || isSpace x))
                                           (times 3 digit));
                                 oneOf (u ".,"); times 2 digit]); WordB])
      with (Seq (Group 1 (Seq (rep 1 3 digit)
                         (Seq (Star (Seq (Chr Laws.separator) (times 3 digit)))
                              (Seq (oneOf (u ".,")) (times 2 digit)))))
                WordB) in M.
    inv_seq M MG MW. inversion MW; subst. inv_group MG MX.
    inv_seq MX M1 M2. inv_seq M2 M3 M4.
    apply Matches_final in M4. destruct M4 as [l [fs [-> HF]]].
    eexists _, l, fs. cbn [group Nat.eqb]. split; [| exact HF].
    rewrite app_assoc. reflexivity.
  - change (seqs [V3.currency; Star space; Group 1 V3.plainAmount])
      with (Seq V3.currency
                (Seq (Star space)
                     (Group 1 (Seq (plus digit)
                                   (Seq (oneOf (u ".,")) (times 2 digit)))))) in M.
    inv_seq M M1 M2. inv_seq M2 M3 MG. inv_group MG MX. inv_seq MX M4 M5.
    apply Matches_final in M5. destruct M5 as [l [fs [-> HF]]].
    eexists _, l, fs. cbn [group Nat.eqb]. split; [reflexivity | exact HF].
  - change (seqs [Group 1 V3.plainAmount; Star space; V3.currency])
      with (Seq (Group 1 (Seq (plus digit)
                              (Seq (oneOf (u ".,")) (times 2 digit))))
                (Seq (Star space) V3.currency)) in M.
    inv_seq M MG M2. inv_group MG MX. inv_seq MX M4 M5.
    apply Matches_groupless in M2; [| reflexivity]. subst.
    apply Matches_final in M5. destruct M5 as [l [fs [-> HF]]].
    eexists _, l, fs. cbn [group Nat.eqb]. split; [reflexivity | exact HF].
Qed.

Lemma uniqueDescending_kept {rt : Runtime} (v : Q) :
  uniqueDescending (Laws.kept v) = Laws.kept v.
Proof. unfold Laws.kept. destruct (ltb 0 v && ltb v 100000); reflexivity. Qed.

Section OneToken.
Context {rt : Runtime}.
Variables i fs : jsstring.
Variable l : N.
Variable v : Q.
Hypothesis i_shape : Laws.integerPart i = true.
Hypothesis fs_digits : Spec.digits fs = true.
Hypothesis l_separator : existsb (N.eqb l) (u ".,") = true.

Lemma token_chars :
  forallb (fun x => isDigit x || Laws.separator x) (i ++ l :: fs) = true.
Proof.
  destruct (integerPart_split i i_shape) as [h [G [-> [_ [Hh HG]]]]].
  rewrite !forallb_app. cbn [forallb].
  apply andb_true_iff. split; [apply andb_true_iff; split |].
  - clear - Hh. induction h as [| x h IH]; [reflexivity |].
    cbn [forallb] in *. apply andb_true_iff in Hh. destruct Hh as [Hx Hh].
    rewrite Hx, (IH Hh). reflexivity.
  - apply groupsOf3_chars, HG.
  - apply andb_true_iff. split.
    + unfold Laws.separator, includesChar.
      apply existsb_exists in l_separator. destruct l_separator as [y [Hin Hy]].
      apply N.eqb_eq in Hy. subst y. cbn in Hin.
      destruct Hin as [<- | [<- | []]]; reflexivity.
    + unfold Spec.digits in fs_digits. clear - fs_digits.
      induction fs as [| x s IH]; [reflexivity |].
      cbn [forallb] in *. apply andb_true_iff in fs_digits.
      destruct fs_digits as [Hx Hs]. rewrite Hx, (IH Hs). reflexivity.
Qed.

Lemma integerPart_digits : filter isDigit i <> [].
Proof.
  destruct (integerPart_split i i_shape) as [h [G [-> [Hn [Hh _]]]]].
  destruct h as [| x h]; [cbn [length] in Hn; lia |].
  cbn [forallb] in Hh. apply andb_true_iff in Hh. destruct Hh as [Hx _].
  cbn [app filter]. rewrite Hx. discriminate.
Qed.

(** Engine v3 on a text that is one token ending with two digits. *)
Lemma V3_one_token :
  length fs = 2%nat ->
  V3.parseAmount (i ++ l :: fs) = Some v ->
  V3.extractAllAmounts (i ++ l :: fs) = Laws.kept v.
Proof.
  intros Hn Hp. pose proof token_chars as Hc.
  destruct (integerPart_split i i_shape) as [h [G [E [Hl [Hh HG]]]]].
  destruct fs as [| d1 [| d2 [| d3 s]]]; try discriminate Hn.
  cbn [Spec.digits forallb] in fs_digits. unfold Spec.digits in fs_digits.
  cbn [forallb] in fs_digits.
  apply andb_true_iff in fs_digits. destruct fs_digits as [H1 H2].
  apply andb_true_iff in H2. destruct H2 as [H2 _].
  unfold V3.extractAllAmounts.
  change V3.amountPatterns
    with [hd Eps V3.amountPatterns; nth 1 V3.amountPatterns Eps;
          nth 2 V3.amountPatterns Eps].
  cbn [flat_map]. rewrite (V3_sign_first _ Hc), (V3_sign_last _ Hc).
  cbn [flat_map app]. rewrite !app_nil_r.
  assert (T : i ++ [l; d1; d2] = h ++ G ++ [l; d1; d2])
    by (rewrite E, app_assoc; reflexivity).
  rewrite T at 1.
  rewrite (@V3_token_found h G l d1 d2 Hl Hh HG l_separator H1 H2).
  cbn [flat_map groups group Nat.eqb]. rewrite app_nil_r, <- T.
  unfold V3.amountOf. rewrite Hp. apply uniqueDescending_kept.
Qed.

(** Engine v2 on a text that is one token, ending with two digits or
    with a group of three. *)
Lemma V2_one_token :
  length fs = 2%nat \/ (length fs = 3%nat /\ Laws.separator l = true) ->
  V2.parseAmount (i ++ l :: fs) = Some v ->
  V2.extractAllAmounts (i ++ l :: fs) = Laws.kept v.
Proof.
  intros Hn Hp.
  destruct (integerPart_split i i_shape) as [h [G [E [Hl [Hh HG]]]]].
  unfold Spec.digits in fs_digits.
  assert (F : exists m, execAll V2.amountPattern (i ++ l :: fs) = [m]
                        /\ group 1 (groups m) = i ++ l :: fs).
  { destruct Hn as [Hn | [Hn Hs]].
    - destruct fs as [| d1 [| d2 [| d3 s]]]; try discriminate Hn.
      cbn [forallb] in fs_digits.
      apply andb_true_iff in fs_digits. destruct fs_digits as [H1 H2].
      apply andb_true_iff in H2. destruct H2 as [H2 _].
      assert (T : i ++ [l; d1; d2] = h ++ G ++ [l; d1; d2])
        by (rewrite E, app_assoc; reflexivity).
      rewrite T.
      exact (@V2_token_found h G l d1 d2 Hl Hh HG l_separator H1 H2 true).
    - destruct fs as [| d1 [| d2 [| d3 [| d4 s]]]]; try discriminate Hn.
      cbn [forallb] in fs_digits.
      apply andb_true_iff in fs_digits. destruct fs_digits as [H1 H2].
      apply andb_true_iff in H2. destruct H2 as [H2 H3].
      apply andb_true_iff in H3. destruct H3 as [H3 _].
      assert (T : i ++ [l; d1; d2; d3] = h ++ (G ++ [l; d1; d2; d3]) ++ [])
        by (rewrite E, app_nil_r, app_assoc; reflexivity).
      rewrite T.
      refine (@V2_token_found h (G ++ [l; d1; d2; d3]) l d1 d2 Hl Hh _
                l_separator H1 H2 false).
      apply groupsOf3_app; [exact HG |].
      cbn [Laws.groupsOf3]. rewrite Hs, H1, H2, H3. reflexivity. }
  destruct F as [m [Fm Fg]].
  unfold V2.extractAllAmounts. rewrite Fm. cbn [flat_map]. rewrite app_nil_r, Fg.
  unfold V2.amountOf. rewrite Hp. apply uniqueDescending_kept.
Qed.

End OneToken.


